(* ===== verification/_CoqProject ===== *)
-Q . S2P
Prelude.v
Amount.v
Frame.v
Script.v
Rerun.v
Server.v
Pool.v
Medipath.v
Medico.v
Cells64.v
Cells64Medipath.v
Cells64Medico.v
RerunMedipath.v
RerunMedico.v
PoolMedipath.v
PoolMedico.v
Ledger.v
LedgerRerun.v
LedgerPool.v
LedgerMedipath.v
LedgerMedico.v
LedgerPoolMedipath.v
LedgerPoolMedico.v
ServerMedipath.v
ServerMedico.v
FloatPrices.v
