(* ===== verification/Prelude.v ===== *)
(** * MediMate ledger: a verification development for [src/medico.py] and
    [src/medipath.py]

    ** The program

    The repository holds two Streamlit applications over pandas tables kept
    in [st.session_state].  Streamlit re-runs the whole script on every user
    interaction, so one interaction is one run of the script on the current
    session and the current widget values.

    - [src/medipath.py] ("Medimate") keeps one table [products] with the
      columns Product Name, Stock, Price, Expiry Date and Total Sales.  Its
      pages are Dashboard, Add / Update Products, Sales Entry and Expiry
      Alerts.  Sales Entry finds the first row with the selected name and,
      when its stock suffices, decrements Stock and increments Total Sales of
      that one row.
    - [src/medico.py] ("MediMate") keeps [products] (Medicine, Stock, Price,
      Expiry Date) and an append-only table [sales] (Medicine, Quantity,
      Total Price, Date).  Its pages are Dashboard, Add Product, Add Sale and
      Stock & Expiry.  Add Sale checks the stock of the first row with the
      selected name, appends a sale row, and then decrements Stock on every
      row that carries that name.

    The specification describes what both are meant to be: an inventory
    ledger with a catalog of products, a ledger of sales, alert views and
    reports.

    ** The files and what they model

    - [Prelude] (this file): Python exceptions as a [result] type with
      stdpp's bind notation, Streamlit status levels, calendar dates as
      ordinals, the tactics and the hint databases shared by all files, and
      list lemmas the components share.
    - [Amount]: the arithmetic the code performs on the Price and Total
      Price columns, as a type class [Amount]; its laws are classes of
      their own, [AmountLaws] (exact arithmetic) and [AmountOrder] (the
      order); instances for [Z] and for exact rationals [Qc].
    - [Frame]: the pandas operations the two scripts call, on a table that is
      a list of rows whose index is the position (every [pd.concat] in the
      sources passes [ignore_index=True]): [concat_row], [indexed], [mask],
      [iloc0], [index0], [at_get], [at_update], [loc_update],
      [set_index_column], [column_sum], [groupby_sum].
    - [Script]: one run of a Streamlit script as a computation over the
      session that emits page elements and may raise: the monad [script],
      a tree of session accesses and [st.*] calls, its interpreter [run],
      its primitives ([emit], [widget_value], [within], [lift_result], the
      session access), and the rewriting that evaluates them.
    - [Rerun]: runs that are stopped before their end, which is what
      Streamlit does to a run when the next interaction arrives, and what
      section 5 of the specification calls cancellation: the stops of a
      run [stops], the small-step semantics [step] of a script, sessions
      reached with stopped runs [reach_until], and the interface [Sealed]
      of scripts for which stopping is harmless.
    - [Server]: the browser sessions of one server.  Streamlit holds one
      [st.session_state] per browser session, so a server is a finite map
      from browser sessions to sessions ([session_of]), and an interaction
      runs the script on the session of its browser ([serve],
      [serve_until]); [serves] and [serves_until] are the servers reached.
    - [RerunMedipath], [RerunMedico]: the stops of the two scripts, and
      the instances of [Sealed].
    - [Pool]: handlers in flight over shared tables, for section 5 of the
      specification: the interfaces [Handler] and [Bounded] with the laws
      [HandlerLaws], the step relation [pool_step] of a pool of callers,
      the executable schedulers [run_schedule] (one statement at a time)
      and [run_atomic] (one handler at a time), and [eventually].
    - [Medipath]: [src/medipath.py]: the row record, the lazily initialised
      session, the elements of the page, one definition per page
      ([mp_dashboard], [save_product], [record_sale], [expiry_alerts]), the
      script [medipath_script] (page configuration, title, initialisation,
      sidebar, the chosen page, footer), one run [mp_step], sequences of
      runs [mp_run], and the sessions a browser session reaches, [mp_runs].
    - [Medico]: [src/medico.py], in the same shape, with the sales table:
      [md_dashboard], [add_product], [add_sale], [stock_expiry],
      [medico_script], [md_step], [md_run], [md_runs].
    - [PoolMedipath], [PoolMedico]: the handlers of Record Sale (lines 117
      to 126 of [src/medipath.py]) and of Add Sale (lines 104 to 132 of
      [src/medico.py]) statement by statement, as instances of [Handler]:
      [mp_sale_step] and [md_sale_step] over a program counter.
    - [Ledger]: the ledger of the specification, modelled from its sections
      3, 4 and 7: the operations, [UpdateProduct] included, the consistency
      [store_ok] that every sequence of calls keeps, and the class
      [Refinement] that says what an implementation owes.
    - [LedgerRerun]: [Refinement] and [Sealed] together: an implementation
      that refines the ledger on whole runs refines it when runs are
      stopped.
    - [LedgerMedipath], [LedgerMedico]: the instances of [Refinement] for
      the two scripts, and what follows from them.
    - [LedgerPool]: [Pool] and [Ledger] together: the class
      [Linearizable] says what a handler run as a critical section owes
      the ledger, one call and the reply to it; [LedgerPoolMedipath] and
      [LedgerPoolMedico] are its instances for the two sale handlers.
    - [ServerMedipath], [ServerMedico]: the servers of the two scripts:
      what every browser session of a server holds.
    - [Cells64]: the integer cells of the tables at the width of int64, on
      the machine words of coqutil; [Cells64Medipath] and [Cells64Medico]:
      the check and the updates of Record Sale ([mp_sale64]) and of Add
      Sale ([md_check64], [md_sold_from64]) on such cells, the sum Items
      Sold of the dashboard ([md_items_sold64]), and the bounds of the
      cells of [src/medico.py] ([md_in_bounds]).
    - [FloatPrices]: the instance of [Amount] on binary64 floats, the
      arithmetic the sources compute prices with, and [src/medico.py] run
      on it.

    ** How state and operations correspond to the code

    - A table is [list R]; [R] is a [Record] with one field per column.
    - [st.session_state] is a record of options ([None]: the key is absent);
      the script's first statements fill the absent keys with empty tables.
    - A page is written in the monad [script], one bind per statement of the
      source: reading and assigning the session, emitting an element (page
      configuration, text, widget, column layout, status message, metric,
      chart series, table, rule), reading the value of a widget, placing
      the elements of a [with] block in the sidebar, a column or a form,
      evaluating an expression that may raise.  A run maps the request
      (sidebar choice and the widget values of that page) and the session
      to the new session, the elements emitted in order, and the outcome.
      The texts are constructors named after the literal; icons and
      colours are left out.
    - A run that is stopped ends inside a call of [st.*], before the call
      shows its element: that is where Streamlit checks for a newer
      interaction.  What the run has assigned by then stays in the session,
      and the next run starts from it.  With the option
      [runner.installTracer] the check is made at every line; the
      parameter [tracer] of [stops] selects this reading, in which a run
      can be stopped in front of every access to the session as well.
    - A server holds the session of every browser session that has run the
      script, under a number; a browser session that has not holds the
      fresh session, in which the keys are absent.  The runs of different
      browser sessions share nothing, so their order is the order in which
      the server takes them up.
    - [ax.pie] is [pie]: ValueError on a negative value, else the series
      that is drawn.  On a series of zeros [ax.pie] divides by zero; what
      the library then does (a figure, or ValueError) is the parameter
      [draws_zeros] of the class [PieChart], which the definitions and
      theorems of [Medipath] and of the files that build on it take as a
      section variable, so that they hold for every library.
    - Under concurrent callers a handler is a machine over a program
      counter, one step per statement, and the table is shared; the
      granularity is the statement, so a read-modify-write such as
      [df.at[idx, "Stock"] -= q] is one step.
    - [st.number_input(min_value=m)] and [st.selectbox(options)] constrain
      what a request can carry.  The handlers do not re-check these
      constraints, and neither do the models: the constraints are the
      predicates [mp_request_ok] and [md_request_ok], which the theorems
      take as hypotheses and the step relations require.
    - A Python exception ([IndexError] of [.iloc[0]] and [.index[0]],
      [KeyError] of [.at], [AttributeError] of an absent session key,
      [ValueError] of [ax.pie]) is a value [Raise e].  What a run assigned and emitted before it raised
      stays, as in Streamlit; the theorems show that in both scripts every
      raising statement precedes the first assignment.

    ** What the theorems show

    - [Frame]: the functional behaviour of every table operation; that the
      two ways the scripts locate a row ([.iloc[0]] and [.index[0]] of a
      masked frame) both yield the first match; that [groupby_sum] returns
      strictly increasing keys, each with the sum of its group.
    - [Script]: the run of every primitive and of a sequence; the monad
      laws, up to the equivalence of scripts.
    - [Rerun]: the steps of a script reach the result [run] computes, in
      [script_steps] steps ([run_steps]), and [stops] lists exactly the
      configurations the steps reach in front of a statement at which the
      run can be stopped ([stops_steps]); a stopped run has shown the first
      elements of the whole run ([stops_prefix]); a script that assigns in
      one block can only be stopped with the session it started from or the
      session it ends with ([commits_once_stops]); against the interface
      [Sealed], the sessions reached with stopped runs are, through the
      view, sessions reached by whole runs ([reach_until_complete]).
    - [RerunMedipath], [RerunMedico]: every page of both scripts assigns in
      one block ([mp_page_commits_once], [md_page_commits_once]), so a run
      stopped at a call of [st.*] has left the tables as they were or as
      the whole run leaves them ([mp_stopped_run], [md_stopped_run]) and
      stopping reaches no new table ([mp_stopped_runs_complete],
      [md_stopped_runs_complete]); a sale stopped at [st.success] is
      recorded and not confirmed ([mp_unconfirmed_sale],
      [md_unconfirmed_sale]), and entered again it is recorded twice
      ([mp_resubmitted_sale]); with the tracer a sale can be stopped half
      applied ([mp_tracer_half_sale], [md_tracer_half_sale]).
    - [Pool], against the interface [HandlerLaws]: every schedule
      terminates ([pool_step_sn]) within the sum of the bounds
      ([pool_nsteps_bound]); a pool with an unfinished handler can step
      ([pool_progress]); on all paths every handler eventually finishes
      ([pool_eventually_finished]); the executable scheduler and the step
      relation describe the same runs ([run_schedule_rtc],
      [rtc_run_schedule]); a handler run alone finishes within its bound
      ([run_alone_finished]).
    - [PoolMedipath], [PoolMedico]: the handlers satisfy [HandlerLaws]; run
      alone, each is its page ([mp_sale_alone], [md_sale_alone]); every
      interleaving terminates within five steps per caller
      ([mp_pool_terminates]) and every caller is eventually answered
      ([md_pool_eventually_answered]); a located index stays valid
      ([mp_pool_wf_preserved]); Stock + Total Sales of a row is kept by
      every interleaving ([mp_pool_balance_finished]); interleaved
      statement by statement two callers oversell
      ([mp_concurrent_oversell]) and a sale can be seen half applied
      ([md_half_applied_sale]); with each handler as a critical section
      the pool is one browser session that makes the sales one after the
      other ([mp_atomic_serial], [md_atomic_serial]), no stock becomes
      negative ([mp_atomic_nonneg]) and of two sales that together exceed
      the stock exactly the first is accepted ([mp_atomic_one_wins],
      [md_atomic_one_wins]).
    - [Medipath]: each page equals a closed form on every branch
      ([record_sale_run], [save_product_run]); the Dashboard raises
      ValueError exactly on a negative cell or on a column of zeros that
      the library does not draw, which is the case of every session between
      the first product and the first sale ([mp_dashboard_value_error]);
      a saved product is the one Sales Entry finds
      ([save_product_then_sale]); Stock and Total Sales are
      non-negative in every reachable session ([mp_runs_nonneg]) and
      bounded by the stocks entered ([mp_runs_bounded]); rows keep their
      place and Stock + Total Sales of a row never changes
      ([mp_runs_static]); a run that fails changes nothing
      ([mp_failed_run_unchanged]); no allowed run raises
      ([medipath_script_no_raise]); a row behind a row of the same name is
      never sold from ([mp_run_shadowed]); the alert filter is inclusive at
      the boundary ([expiry_alerts_rows]).
    - [Medico]: Add Sale equals its closed form ([add_sale_run]); the first
      row of every name keeps a non-negative stock
      ([md_runs_first_nonneg]); with unique names every stock does
      ([md_runs_unique_nonneg]); with a name entered twice a negative stock
      is reachable ([md_negative_stock_reachable]); the sales table only
      grows ([md_run_sales_prefix]) and every sale row is consistent with
      the products table ([md_runs_sales_consistent]); with unique names
      Stock plus the quantities sold is the stock entered
      ([md_runs_balance]); a refused sale changes nothing
      ([md_failed_run_unchanged]); the dashboard and the alert tables show
      what the tables hold ([md_sale_totals], [md_dashboard_plot],
      [stock_expiry_alerts]).
    - [Ledger]: every sequence of calls keeps the store consistent
      ([ledger_run_ok]); with updates of the catalog in between, stock,
      counters and references stay right ([ledger_ops_wf]) while the
      totals of earlier sales keep the price of their day
      ([update_price_scenario]); every reachable state of an implementation that
      satisfies [Refinement] is related to a consistent store
      ([refinement_reach]); the one-pass [groupby_sum] equals the reference
      definition of the daily revenue ([groupby_sum_reference]).
    - [LedgerRerun]: every session an implementation reaches with stopped
      runs stands for a consistent store, when its script is [Sealed] and
      it satisfies [Refinement] ([stopped_refines]); instantiated by
      [mp_stopped_refines_ledger] and [md_stopped_refines_ledger].
    - [Server]: an interaction leaves the sessions of the other browser
      sessions as they were ([session_of_serve_ne]) and interactions of
      different browser sessions commute ([serve_commute]), so that the
      order in which a server takes them up does not change the sessions
      it holds ([serve_all_interleaving], up to [same_sessions]); after any
      interleaving each browser session holds what its own interactions
      have made of it ([session_of_serve_all_until]); the widgets allow an
      interleaving exactly when they allow the interactions of each
      browser session on their own ([served_ok_until_requests]); the
      sessions of the servers reached are the sessions one browser session
      reaches ([serves_until_reach], [reach_until_serves]); for a [Sealed]
      script a server reached with stopped runs is, through the view, a
      server reached with whole runs ([serves_until_complete]).
    - [ServerMedipath], [ServerMedico]: the table of a browser session
      holds the products this browser session has added and no other
      ([mp_server_own_products], [md_server_own_medicines]); in every
      browser session of every server reached, with runs stopped or not,
      stocks are non-negative as for one browser session
      ([mp_server_nonneg], [md_server_first_nonneg]) and the tables stand
      for a consistent store of the ledger ([mp_server_refines_ledger],
      [md_server_refines_ledger]).
    - [LedgerMedipath]: [src/medipath.py] refines the ledger when every
      submitted form carries a name, repeated names included
      ([mp_refines_ledger]); Total Sales is the sum of the sales of the
      ledger ([mp_total_sales_ledger]); the element shown tells the reply of
      [RecordSale] ([mp_sale_outcome]); no run of Add / Update Products is
      an [UpdateProduct] ([save_product_never_updates]).
    - [LedgerMedico]: [src/medico.py] refines the ledger when every
      submitted name is new and not empty ([md_refines_ledger]), with the
      same correspondence of outcomes ([md_sale_outcome]), reports
      ([md_dashboard_report]) and alerts ([stock_expiry_ledger_alerts]).
    - [LedgerPool], against the interface [Linearizable]: whatever the
      order in which the scheduler lets the callers run, each as a
      critical section, the shared state stands for the store that their
      calls leave in that order, that store is consistent, and every
      caller is answered as its call is ([atomic_linearizable]);
      instantiated by [mp_atomic_linearizable], where the table is the
      catalog, and [md_atomic_linearizable], where the two tables are the
      store, with success for a sale that [RecordSale] accepts, Not enough
      stock for InsufficientStockError and IndexError for NotFoundError.
    - [Cells64Medipath], [Cells64Medico]: with stocks entered below
      [2 ^ 63], every integer cell of every reachable session is in the
      range of int64, a negative Stock of [src/medico.py] included
      ([md_runs_bounded]), and the sale handlers computed on int64 cells
      are the handlers on the integers ([mp_runs_int64], [md_runs_int64]);
      out of range a cell wraps ([mp_sale64_wraps],
      [md_sold_from64_wraps]).
    - [FloatPrices]: floats do not satisfy [AmountLaws] ([float_no_laws]),
      and the total the dashboard shows depends on the order of the sales
      ([md_float_total_order]).

    The step relations [mp_runs] and [md_runs] are proved equal to the
    executable folds [mp_run] and [md_run] over accepted sequences
    ([mp_runs_iff], [md_runs_iff]), so every theorem about reachable
    sessions can be run on a concrete sequence of requests; the witnesses
    at the end of each file do so on the scenario of the specification.

    ** Numbers

    Stock, Quantity and Total Sales are Python or numpy integers; they are
    modelled as [Z].  Where pandas infers the dtype int64 for a column its
    cells wrap around at 64 bits; [Cells64] has that arithmetic, and
    [mp_runs_bounded] and [md_runs_bounded] show that every value stays
    within the bound of the stocks entered (in [src/medico.py] between the
    bound and its negative), so that on reachable sessions the handlers on
    int64 cells and the handlers on [Z] compute the same ([mp_runs_int64],
    [md_runs_int64]): no wrap-around occurs.  The one integer sum of the
    sources, Items Sold of the dashboard of [src/medico.py], is at most the
    sum of the stocks entered ([md_items_sold_bounded]) and exact at 64
    bits while that is below [2 ^ 63] ([md_items_sold_int64]).  A quantity
    is taken to be in
    the range of int64, as the integers of [st.number_input] are.  Prices
    are IEEE doubles in the sources; they are modelled through
    the interface [Amount].  Theorems that need no law hold for any
    instance, the doubles of [FloatPrices] included; those that need exact
    arithmetic or the order state [AmountLaws] or [AmountOrder], which [Z]
    and [Qc] satisfy and doubles do not.  A column is summed from its first
    row to its last; with exact arithmetic the order does not matter
    ([column_sum_Permutation]).

    ** Fuel and bounds

    Every function is structurally recursive or a fold over a list, with
    one exception: [run_alone] iterates the step of a handler, and its fuel
    is the bound of the interface, [handler_size].  For the two sale
    handlers that is the number of statements on the longest path from the
    program counter to the end, five from the start; [HandlerLaws] says
    that every step uses it up, [run_alone_finished] that it is therefore
    enough, and [mp_sale_alone] and [md_sale_alone] that the run it gives
    is the page.  Runs of a pool are bounded by the sum of the bounds of
    its callers ([pool_nsteps_bound]).  A script is a finite tree, so
    [run] and [stops] are structurally recursive and need no fuel;
    [script_steps] counts the steps of a run, and [run_steps] shows that
    the step relation takes exactly that many.  A stop is the position of
    a call of [st.*] in the run, counted from 0; a position past the end
    of the run stops nothing ([step_until]).

    ** Not modelled

    - What matplotlib draws: figures, axes, labels, percentages.  What it
      does with a pie of zeros is a parameter, not a definition.
    - How Streamlit keeps widget values between reruns and batches the
      fields of a form; the default of [st.date_input].  The values the
      widgets hold are part of the request.
    - Two runs of one browser session at the same time, as a semantics of
      their own.  [Rerun] takes a stopped run to have ended when the next
      run begins.  Whether the thread of a stopped run still executes
      statements, up to its next call of [st.*], while the next run is
      under way depends on the version and the options of Streamlit
      ([runner.fastReruns]); where it does, the two runs are two handlers
      on one table, which [Pool] describes for any number of callers and
      every interleaving of their statements, so the theorems of
      [PoolMedipath] and [PoolMedico] cover it; which of the interleavings
      a version of Streamlit allows is left out.  The block
      message that [st.form] itself sends is not an element of the model;
      a run stopped there has the session it has at the first widget of the
      form.
    - The summation order pandas uses on long float columns, and the dtypes
      of the columns other than int64; which dtype a version of pandas
      infers for an integer column (as objects the cells are Python
      integers, which [Z] is).
    - Per-product locks: the sources have none.  The critical section of
      [run_atomic] excludes all other handlers, not only those on the same
      product.
    - Interleavings finer than a statement, and more than one process.
    - The end of a browser session, at which Streamlit drops its
      [st.session_state]: a server only gains sessions.  A page that is
      loaded again is a new browser session, under a number of its own. *)

From stdpp Require Export prelude strings ssreflect.

#[export] Set Warnings "-clear-no-such-hyp,-rewrite-rw".

(** ** Python exceptions as values *)

(** The exceptions the statements of the sources can raise: [IndexError] and
    [KeyError] from table look-ups, [AttributeError] from reading a key that
    [st.session_state] does not hold, [ValueError] from a pie chart of a
    negative value. *)
Inductive exn : Type :=
  | IndexError
  | KeyError
  | AttributeError
  | ValueError.

#[export] Instance exn_eq_dec : EqDecision exn.
Proof. solve_decision. Defined.

(** The outcome of a Python expression: a value, or a raised exception. *)
Inductive result (A : Type) : Type :=
  | Ok (a : A)
  | Raise (e : exn).
Arguments Ok {A} a.
Arguments Raise {A} e.

#[export] Instance result_ret : MRet result := λ A a, Ok a.
#[export] Instance result_bind : MBind result := λ A B f m,
  match m with Ok a => f a | Raise e => Raise e end.
#[export] Instance result_fmap : FMap result := λ A B f m,
  match m with Ok a => Ok (f a) | Raise e => Raise e end.

(** ** Streamlit status elements *)

(** [st.success], [st.error], [st.warning] and [st.info]. *)
Inductive level : Type :=
  | Success
  | Error
  | Warning
  | Info.

#[export] Instance level_eq_dec : EqDecision level.
Proof. solve_decision. Defined.

(** ** Calendar dates *)

(** A [datetime.date] is its proleptic Gregorian ordinal; comparison of dates
    is comparison of ordinals. *)
Definition date : Type := Z.

(** [timedelta(days=n)]: adding it to a date adds [n] to the ordinal. *)
Definition timedelta (days : Z) : Z := days.

(** ** Tactics and hints *)

(** The rewrite database that evaluates binds of outcomes and of scripts;
    each component adds the equations of its own primitives. *)
Create Rewrite HintDb ledger_simpl.

(** Prove a decidable closed proposition by evaluating its decision. *)
Ltac decide_by_compute :=
  apply (bool_decide_unpack _); vm_compute; exact I.

(** ** Lemmas on outcomes *)

Section result_lemmas.
Context {A B : Type}.
Implicit Types (m : result A) (f : A → result B).

Lemma bind_Ok f a : Ok a ≫= f = f a.
Proof. done. Qed.

Lemma bind_Raise f e : Raise e ≫= f = Raise e.
Proof. done. Qed.

Lemma bind_Ok_inv f m b :
  m ≫= f = Ok b ↔ ∃ a, m = Ok a ∧ f a = Ok b.
Proof. destruct m; naive_solver. Qed.
End result_lemmas.

#[export] Hint Rewrite @bind_Ok @bind_Raise : ledger_simpl.

(** ** Lemmas on lists shared by the components *)

Section list_lemmas.
Context {A : Type}.
Implicit Types (l : list A) (x : A) (i : nat).

(** A left fold over an appended element is one more step. *)
Lemma foldl_snoc {B} (f : B → A → B) (b : B) l x :
  foldl f b (l ++ [x]) = f (foldl f b l) x.
Proof. by rewrite foldl_app. Qed.

(** The first match of a predicate is a member that satisfies it. *)
Lemma list_find_Some_lookup (P : A → Prop) `{!∀ x, Decision (P x)} l i x :
  list_find P l = Some (i, x) → l !! i = Some x ∧ P x.
Proof. rewrite list_find_Some. naive_solver. Qed.

(** The index of the first match is within the list. *)
Lemma list_find_Some_lt (P : A → Prop) `{!∀ x, Decision (P x)} l i x :
  list_find P l = Some (i, x) → i < length l.
Proof. intros [? _]%list_find_Some_lookup. by eapply lookup_lt_Some. Qed.

(** Nothing before the first match satisfies the predicate. *)
Lemma list_find_Some_before (P : A → Prop) `{!∀ x, Decision (P x)} l i x j y :
  list_find P l = Some (i, x) → l !! j = Some y → j < i → ¬ P y.
Proof. rewrite list_find_Some. naive_solver. Qed.

(** A member that satisfies the predicate gives a first match. *)
Lemma list_find_is_Some (P : A → Prop) `{!∀ x, Decision (P x)} l x :
  x ∈ l → P x → ∃ i y, list_find P l = Some (i, y).
Proof.
  intros Hx HP. destruct (list_find_elem_of P l x Hx HP) as [[i y] ?]. eauto.
Qed.

(** An element appended to a list without a match is the first match. *)
Lemma list_find_snoc_fresh (P : A → Prop) `{!∀ x, Decision (P x)} l x :
  Forall (λ y, ¬ P y) l → P x → list_find P (l ++ [x]) = Some (length l, x).
Proof.
  intros Hl Hx. apply list_find_Some. split_and!; [|done|].
  - by rewrite lookup_app_r // Nat.sub_diag.
  - intros j y Hj Hlt. rewrite lookup_app_l // in Hj.
    by eapply Forall_lookup_1 in Hl.
Qed.

(** Filtering keeps nothing when no element satisfies the predicate. *)
Lemma filter_nil_Forall (P : A → Prop) `{!∀ x, Decision (P x)} l :
  Forall (λ x, ¬ P x) l → filter P l = [].
Proof.
  induction 1 as [|x l Hx _ IH]; [done|]. by rewrite filter_cons decide_False.
Qed.

(** An update of one position that a function does not see is not seen in
    the mapped list. *)
Lemma fmap_alter_invariant {B} (f : A → B) (g : A → A) l i :
  (∀ x, f (g x) = f x) → f <$> alter g i l = f <$> l.
Proof.
  intros Hfg. rewrite (list_fmap_alter f g id); [by apply list_alter_id|].
  by apply Forall_forall.
Qed.

(** The first match stays where it is when it is updated by a function that
    the predicate does not see. *)
Lemma list_find_alter_same (Q : A → Prop) `{!∀ x, Decision (Q x)}
    (g : A → A) l i x :
  (∀ y, Q (g y) ↔ Q y) →
  list_find Q l = Some (i, x) → list_find Q (alter g i l) = Some (i, g x).
Proof.
  intros Hg (Hi & HQ & Hlt)%list_find_Some. apply list_find_Some.
  split_and!.
  - by rewrite list_lookup_alter_eq Hi.
  - by apply Hg.
  - intros j y Hj Hji. rewrite list_lookup_alter_ne in Hj; [eauto|lia].
Qed.

(** Updating one position preserves a property of all elements when the
    update preserves it. *)
Lemma Forall_alter_preserve (Q : A → Prop) (f : A → A) l i :
  Forall Q l → (∀ x, l !! i = Some x → Q x → Q (f x)) → Forall Q (alter f i l).
Proof.
  intros Hl Hf. apply Forall_lookup. intros j y.
  rewrite list_lookup_alter. destruct (decide (i = j)) as [<-|].
  - destruct (l !! i) as [x|] eqn:Hi; intros; simplify_eq/=.
    apply Hf; [done|]. by eapply Forall_lookup_1.
  - intros. by eapply Forall_lookup_1.
Qed.

(** Filtering the image of a list is filtering the list. *)
Lemma filter_fmap {B} (f : A → B) (Q : B → Prop) `{!∀ y, Decision (Q y)} l :
  filter Q (f <$> l) = f <$> filter (Q ∘ f) l.
Proof.
  induction l as [|x l IH]; [done|].
  rewrite fmap_cons !filter_cons /= IH. by case_decide.
Qed.

(** The sum of a measure over a list after one element was replaced. *)
Lemma sum_list_with_insert (f : A → nat) l i x y :
  l !! i = Some x →
  sum_list_with f (<[i:=y]> l) + f x = sum_list_with f l + f y.
Proof.
  revert i. induction l as [|z l IH]; intros [|i] Hi; simplify_eq/=; [lia|].
  specialize (IH i Hi). lia.
Qed.

Lemma sum_list_with_bound (f : A → nat) k l :
  (∀ x, f x ≤ k) → sum_list_with f l ≤ k * length l.
Proof.
  intros Hf. induction l as [|x l IH]; simpl; [lia|]. specialize (Hf x). lia.
Qed.

(** When the keys of a list are pairwise distinct, every element is the
    first one with its key. *)
Lemma NoDup_fmap_list_find {B} `{EqDecision B} (f : A → B) l i x :
  NoDup (f <$> l) → l !! i = Some x →
  list_find (λ y, f y = f x) l = Some (i, x).
Proof.
  intros Hnd Hi. apply list_find_Some. split_and!; [done..|].
  intros j y Hj Hlt Heq.
  assert (i = j); [|lia].
  eapply (NoDup_lookup (f <$> l)); [done|..].
  - by rewrite list_lookup_fmap Hi.
  - by rewrite list_lookup_fmap Hj /= Heq.
Qed.
End list_lemmas.
