(* ===== verification/Amount.v ===== *)
(** * Amount: the arithmetic of the Price and Total Price columns

    [src/medico.py] multiplies an integer quantity by a price
    ([quantity * product["Price"]]), sums a column of such products
    ([sales["Total Price"].sum()]) and bounds the price entered from below
    ([min_value=1.0]).  The class [Amount] names exactly these operations, so
    that the table operations and the scripts are written once for any
    carrier.  The laws live in the class [AmountLaws]: a theorem that does not
    mention [AmountLaws] holds for every carrier, floating point included;
    one that does holds for exact arithmetic.  [AmountOrder] holds the laws
    of the order, which the comparison with the ledger of the specification
    needs to read a lower bound of 1 as a price that is not negative.  The
    integer columns (Stock, Quantity, Total Sales) use the instance on
    [Z]. *)

From Stdlib Require Import QArith Qcanon.
From S2P Require Import Prelude.

(** The operations on amounts the sources use. *)
Class Amount (P : Type) : Type := {
  amount_zero : P;
  amount_add : P → P → P;
  amount_mul : P → P → P;
  amount_of_int : Z → P;
  amount_le : P → P → Prop;
  amount_le_dec :: RelDecision amount_le;
  amount_eq_dec :: EqDecision P;
}.
#[global] Hint Mode Amount ! : typeclass_instances.

(** [q * p] for an integer [q] and an amount [p]: Python converts the
    integer and multiplies. *)
Definition int_times `{Amount P} (q : Z) (p : P) : P :=
  amount_mul (amount_of_int q) p.

(** The laws of exact arithmetic that the aggregate theorems rely on. *)
Class AmountLaws (P : Type) `{Amount P} : Prop := {
  amount_add_comm :: Comm (=@{P}) amount_add;
  amount_add_assoc :: Assoc (=@{P}) amount_add;
  amount_add_zero_l :: LeftId (=@{P}) amount_zero amount_add;
  amount_of_int_zero : amount_of_int 0 =@{P} amount_zero;
  amount_of_int_add (a b : Z) :
    amount_of_int (a + b) =@{P} amount_add (amount_of_int a) (amount_of_int b);
  amount_mul_add_distr_r (a b c : P) :
    amount_mul (amount_add a b) c = amount_add (amount_mul a c) (amount_mul b c);
  amount_mul_zero_l (c : P) : amount_mul amount_zero c = amount_zero;
}.
#[global] Hint Mode AmountLaws ! - : typeclass_instances.

(** The order on amounts: a preorder that agrees with the order of the
    integers, which is what relates the lower bounds of the number inputs
    ([min_value=0.0], [min_value=1.0]) to a price that is not negative. *)
Class AmountOrder (P : Type) `{Amount P} : Prop := {
  amount_le_preorder :: PreOrder (amount_le (P:=P));
  amount_of_int_mono (a b : Z) :
    (a ≤ b)%Z → amount_le (amount_of_int a : P) (amount_of_int b);
}.
#[global] Hint Mode AmountOrder ! - : typeclass_instances.

(** ** Integers *)

#[export] Instance Z_amount : Amount Z := {
  amount_zero := 0%Z;
  amount_add := Z.add;
  amount_mul := Z.mul;
  amount_of_int := id;
  amount_le := Z.le;
}.

#[export] Instance Z_amount_laws : AmountLaws Z.
Proof.
  split; try apply _; rewrite /amount_add /amount_mul /amount_of_int /=;
    intros; unfold id; lia.
Qed.

(** ** Exact rationals *)

#[export] Instance Qc_amount : Amount Qc := {
  amount_zero := 0%Qc;
  amount_add := Qcplus;
  amount_mul := Qcmult;
  amount_of_int := Qc_of_Z;
  amount_le := Qcle;
}.

#[export] Instance Qc_amount_laws : AmountLaws Qc.
Proof.
  split; rewrite /amount_add /amount_mul /amount_of_int /amount_zero /=.
  - intros x y. apply Qcplus_comm.
  - intros x y z. apply Qcplus_assoc.
  - intros x. apply Qcplus_0_l.
  - apply Z2Qc_inj_0.
  - intros a b. apply Z2Qc_inj_add.
  - intros a b c. apply Qcmult_plus_distr_l.
  - intros c. apply Qcmult_0_l.
Qed.

#[export] Instance Z_amount_order : AmountOrder Z.
Proof. split; [apply _|]. rewrite /amount_le /amount_of_int /=. by intros. Qed.

#[export] Instance Qc_amount_order : AmountOrder Qc.
Proof.
  split; rewrite /amount_le /amount_of_int /=.
  - split; [intros x; apply Qcle_refl|intros x y z; apply Qcle_trans].
  - intros a b Hab. rewrite /Qcle /Qc_of_Z /=. by rewrite -Zle_Qle.
Qed.

(** ** Derived laws *)

Section amount_lemmas.
Context `{AmountLaws P}.
Implicit Types (a b c : P) (q : Z).

Lemma amount_add_zero_r a : amount_add a amount_zero = a.
Proof. by rewrite (comm amount_add) (left_id amount_zero amount_add). Qed.

(** Swapping the two last summands of a left-nested sum. *)
Lemma amount_add_swap a b c :
  amount_add (amount_add a b) c = amount_add (amount_add a c) b.
Proof.
  by rewrite -!(assoc amount_add) (comm amount_add b c).
Qed.

Lemma int_times_zero a : int_times 0 a = amount_zero.
Proof. by rewrite /int_times amount_of_int_zero amount_mul_zero_l. Qed.

(** Selling [q1] and then [q2] units at one price earns what selling
    [q1 + q2] units earns. *)
Lemma int_times_add q1 q2 a :
  int_times (q1 + q2) a = amount_add (int_times q1 a) (int_times q2 a).
Proof. by rewrite /int_times amount_of_int_add amount_mul_add_distr_r. Qed.

(** A price bounded from below by a non-negative integer is not
    negative. *)
Lemma amount_le_zero_of_int `{!AmountOrder P} (n : Z) a :
  (0 ≤ n)%Z → amount_le (amount_of_int n) a → amount_le amount_zero a.
Proof.
  intros Hn Ha. rewrite -amount_of_int_zero. etrans; [|done].
  by apply amount_of_int_mono.
Qed.
End amount_lemmas.

#[export] Hint Rewrite @amount_add_zero_r @int_times_zero
  using (exact _) : ledger_simpl.
