(* ===== verification/Frame.v ===== *)
(** * Frame: the pandas operations the two scripts call

    A table is a list of rows.  Both scripts build their tables with
    [pd.concat(..., ignore_index=True)] only, so the index of a table is
    always [0 .. n-1] and a row's label is its position.  A boolean-mask
    selection [df[cond]] keeps the labels of the rows it selects, which is
    why [mask] works on rows paired with their labels ([indexed]): the label
    that [.index[0]] returns is a position in the original table.

    The operations raise what pandas raises: [IndexError] for [.iloc[0]] and
    [.index[0]] of an empty selection, [KeyError] for [.at] on a label that
    is not in the index. *)

From stdpp Require Import sorting.
From S2P Require Import Prelude Amount.

Section frame.
Context {R : Type}.
Implicit Types (df : list R) (r : R) (i : nat) (sel : list (nat * R)).

(** [pd.DataFrame(columns=[...])]: a table with no rows. *)
Definition empty_frame : list R := [].

(** [df.empty] *)
Definition frame_empty df : bool :=
  match df with [] => true | _ :: _ => false end.

(** [pd.concat([df, pd.DataFrame([r])], ignore_index=True)] *)
Definition concat_row df r : list R := df ++ [r].

(** The rows of a table with their index labels. *)
Definition indexed df : list (nat * R) := imap pair df.

(** [df[cond]]: the rows that satisfy the condition, labels kept. *)
Definition mask (p : R → Prop) `{!∀ r, Decision (p r)} sel : list (nat * R) :=
  filter (λ ir, p ir.2) sel.

(** [sel.iloc[0]]: the first row of a selection. *)
Definition iloc0 sel : result R :=
  match sel with
  | [] => Raise IndexError
  | ir :: _ => Ok ir.2
  end.

(** [sel.index[0]]: the label of the first row of a selection. *)
Definition index0 sel : result nat :=
  match sel with
  | [] => Raise IndexError
  | ir :: _ => Ok ir.1
  end.

(** [df.at[i, col]] as an expression. *)
Definition at_get {A} i (col : R → A) df : result A :=
  match df !! i with
  | Some r => Ok (col r)
  | None => Raise KeyError
  end.

(** [df.at[i, col] op= v]: reads the cell, then writes it. *)
Definition at_update i (f : R → R) df : result (list R) :=
  match df !! i with
  | Some _ => Ok (alter f i df)
  | None => Raise KeyError
  end.

(** [df.loc[cond, col] op= v]: updates the cell on every row that
    satisfies the condition. *)
Definition loc_update (p : R → Prop) `{!∀ r, Decision (p r)} (f : R → R) df
    : list R :=
  (λ r, if decide (p r) then f r else r) <$> df.

(** [df.set_index(key)[col]]: the column as a series labelled by another
    column. *)
Definition set_index_column {K A} (key : R → K) (col : R → A) df
    : list (K * A) :=
  (λ r, (key r, col r)) <$> df.

Section sums.
Context `{Amount P}.

(** [df[col].sum()], accumulated from zero in row order. *)
Definition column_sum (col : R → P) df : P :=
  foldl (λ acc r, amount_add acc (col r)) amount_zero df.

(** One row added to the running groups of a [groupby]: the groups are
    kept in increasing key order, each with the sum of its rows so far. *)
Fixpoint group_add (k : Z) (v : P) (groups : list (Z * P)) : list (Z * P) :=
  match groups with
  | [] => [(k, amount_add amount_zero v)]
  | (k', s) :: rest =>
      if decide (k < k')%Z then (k, amount_add amount_zero v) :: groups
      else if decide (k = k') then (k', amount_add s v) :: rest
      else (k', s) :: group_add k v rest
  end.

(** [df.groupby(key)[col].sum()]: one entry per distinct key, keys in
    increasing order. *)
Definition groupby_sum (key : R → Z) (col : R → P) df : list (Z * P) :=
  foldl (λ groups r, group_add (key r) (col r) groups) [] df.

(** The keys of the groups are strictly increasing. *)
Definition keys_sorted (groups : list (Z * P)) : Prop :=
  StronglySorted Z.lt groups.*1.
End sums.
End frame.

Arguments empty_frame : clear implicits.

(** ** Selections *)

Section selection_lemmas.
Context {R : Type} (p : R → Prop) `{!∀ r, Decision (p r)}.
Implicit Types (df : list R) (r : R) (i : nat).

Lemma frame_empty_true df : frame_empty df = true ↔ df = [].
Proof. by destruct df. Qed.

Lemma frame_empty_false df : frame_empty df = false ↔ df ≠ [].
Proof. by destruct df. Qed.

Lemma frame_empty_concat_row df r : frame_empty (concat_row df r) = false.
Proof. by destruct df. Qed.

Lemma length_concat_row df r : length (concat_row df r) = S (length df).
Proof. rewrite /concat_row length_app /=. lia. Qed.

Lemma lookup_concat_row_old df r i :
  i < length df → concat_row df r !! i = df !! i.
Proof. intros. by rewrite /concat_row lookup_app_l. Qed.

Lemma lookup_concat_row_new df r : concat_row df r !! length df = Some r.
Proof. by rewrite /concat_row list_lookup_middle. Qed.

Lemma indexed_lookup df i : indexed df !! i = pair i <$> df !! i.
Proof. apply list_lookup_imap. Qed.

(** A selection's first row, with its label, is the first match. *)
Lemma head_mask_imap df (n : nat) :
  head (mask p (imap (λ i, pair (n + i)) df))
  = prod_map (λ i, n + i) id <$> list_find p df.
Proof.
  revert n. induction df as [|r df IH]; intros n; [done|].
  rewrite /mask /= filter_cons /=. case_decide; simpl.
  - by rewrite Nat.add_0_r.
  - rewrite (imap_ext _ (λ i, pair (S n + i))); last (intros; f_equal/=; lia).
    rewrite -/(mask p _) IH. destruct (list_find p df) as [[i x]|]; simpl;
      repeat f_equal; lia.
Qed.

Lemma head_mask_indexed df : head (mask p (indexed df)) = list_find p df.
Proof.
  rewrite /indexed (head_mask_imap df 0).
  by destruct (list_find p df) as [[??]|].
Qed.

(** [.iloc[0]] of a masked table is the first matching row. *)
Lemma iloc0_mask df :
  iloc0 (mask p (indexed df))
  = match list_find p df with Some ir => Ok ir.2 | None => Raise IndexError end.
Proof.
  rewrite -head_mask_indexed. by destruct (mask p (indexed df)).
Qed.

(** [.index[0]] of a masked table is the position of the first match. *)
Lemma index0_mask df :
  index0 (mask p (indexed df))
  = match list_find p df with Some ir => Ok ir.1 | None => Raise IndexError end.
Proof.
  rewrite -head_mask_indexed. by destruct (mask p (indexed df)).
Qed.

(** The rows of a selection are the rows at their labels that satisfy the
    condition. *)
Lemma elem_of_mask_indexed df i r :
  (i, r) ∈ mask p (indexed df) ↔ df !! i = Some r ∧ p r.
Proof.
  rewrite /mask list_elem_of_filter /indexed elem_of_lookup_imap /=.
  naive_solver.
Qed.

(** Without its labels a selection is the filtered list of rows. *)
Lemma mask_imap_rows df (n : nat) :
  (mask p (imap (λ i, pair (n + i)) df)).*2 = filter p df.
Proof.
  rewrite /mask. revert n. induction df as [|r df IH]; intros n; [done|].
  rewrite /= !filter_cons /=.
  rewrite (imap_ext _ (λ i, pair (S n + i))); last (intros; f_equal/=; lia).
  case_decide; simpl; [f_equal|]; apply (IH (S n)).
Qed.

Lemma mask_indexed_rows df : (mask p (indexed df)).*2 = filter p df.
Proof. apply (mask_imap_rows df 0). Qed.
End selection_lemmas.

(** ** Cell access and update *)

Section update_lemmas.
Context {R : Type}.
Implicit Types (df : list R) (r : R) (i j : nat) (f : R → R).

Lemma at_get_Ok {A} (col : R → A) df i a :
  at_get i col df = Ok a ↔ ∃ r, df !! i = Some r ∧ a = col r.
Proof. rewrite /at_get. destruct (df !! i); naive_solver. Qed.

Lemma at_get_lookup {A} (col : R → A) df i r :
  df !! i = Some r → at_get i col df = Ok (col r).
Proof. rewrite /at_get. by intros ->. Qed.

Lemma at_get_Raise {A} (col : R → A) df i e :
  at_get i col df = Raise e ↔ length df ≤ i ∧ e = KeyError.
Proof.
  rewrite /at_get. destruct (df !! i) eqn:Hi.
  - apply lookup_lt_Some in Hi. split; [done|]. intros [? _]. lia.
  - apply lookup_ge_None in Hi. naive_solver.
Qed.

Lemma at_update_lookup f df i r :
  df !! i = Some r → at_update i f df = Ok (alter f i df).
Proof. rewrite /at_update. by intros ->. Qed.

Lemma at_update_Ok f df i df' :
  at_update i f df = Ok df' ↔ i < length df ∧ df' = alter f i df.
Proof.
  rewrite /at_update. destruct (df !! i) eqn:Hi.
  - apply lookup_lt_Some in Hi. naive_solver.
  - apply lookup_ge_None in Hi. split; [done|]. intros [? _]. lia.
Qed.

Lemma at_update_Raise f df i e :
  at_update i f df = Raise e ↔ length df ≤ i ∧ e = KeyError.
Proof.
  rewrite /at_update. destruct (df !! i) eqn:Hi.
  - apply lookup_lt_Some in Hi. split; [done|]. intros [? _]. lia.
  - apply lookup_ge_None in Hi. naive_solver.
Qed.

Section loc.
Context (p : R → Prop) `{!∀ r, Decision (p r)}.

Lemma length_loc_update f df : length (loc_update p f df) = length df.
Proof. apply length_fmap. Qed.

Lemma lookup_loc_update f df i :
  loc_update p f df !! i = (λ r, if decide (p r) then f r else r) <$> df !! i.
Proof. apply list_lookup_fmap. Qed.

Lemma lookup_loc_update_hit f df i r :
  df !! i = Some r → p r → loc_update p f df !! i = Some (f r).
Proof. intros Hi Hp. by rewrite lookup_loc_update Hi /= decide_True. Qed.

Lemma lookup_loc_update_miss f df i r :
  df !! i = Some r → ¬ p r → loc_update p f df !! i = Some r.
Proof. intros Hi Hp. by rewrite lookup_loc_update Hi /= decide_False. Qed.

(** When no row satisfies the condition the table is unchanged. *)
Lemma loc_update_none f df : Forall (λ r, ¬ p r) df → loc_update p f df = df.
Proof.
  induction 1 as [|r df Hr _ IH]; [done|].
  by rewrite /loc_update fmap_cons decide_False // -/(loc_update p f df) IH.
Qed.

Lemma loc_update_concat_row f df r :
  loc_update p f (concat_row df r)
  = concat_row (loc_update p f df) (if decide (p r) then f r else r).
Proof. by rewrite /loc_update /concat_row fmap_app. Qed.

(** The update preserves a property of all rows when [f] preserves it on
    the rows that satisfy the condition. *)
Lemma Forall_loc_update (Q : R → Prop) f df :
  Forall Q df → (∀ r, r ∈ df → p r → Q r → Q (f r)) →
  Forall Q (loc_update p f df).
Proof.
  rewrite /loc_update Forall_fmap !Forall_forall.
  intros HQ Hf r Hr. simpl. case_decide; auto.
Qed.

(** When exactly the rows that are equal to a first match satisfy the
    condition, updating them all is updating that one position. *)
Lemma loc_update_unique f df i r :
  list_find p df = Some (i, r) →
  (∀ j r', df !! j = Some r' → p r' → j = i) →
  loc_update p f df = alter f i df.
Proof.
  intros [Hi Hp]%list_find_Some_lookup Huniq. apply list_eq. intros j.
  rewrite lookup_loc_update list_lookup_alter.
  destruct (decide (i = j)) as [<-|Hne].
  - by rewrite Hi /= decide_True.
  - destruct (df !! j) as [r'|] eqn:Hj; [|done]. simpl.
    case_decide; [|done]. by destruct Hne; symmetry; eapply Huniq.
Qed.
End loc.
End update_lemmas.

(** ** Column sums *)

Section sum_lemmas.
Context {R : Type} `{Amount P} (col : R → P).
Implicit Types (df : list R) (r : R).

Lemma column_sum_nil : column_sum col [] = amount_zero.
Proof. done. Qed.

(** The sum of a column of a renamed table. *)
Lemma column_sum_fmap {R'} (f : R' → R) (df' : list R') :
  column_sum col (f <$> df') = column_sum (col ∘ f) df'.
Proof.
  rewrite /column_sum. generalize (amount_zero (P:=P)).
  induction df' as [|r df' IH]; intros a; [done|]. apply IH.
Qed.

Lemma column_sum_concat_row df r :
  column_sum col (concat_row df r) = amount_add (column_sum col df) (col r).
Proof. by rewrite /column_sum /concat_row foldl_app. Qed.

Section laws.
Context `{!AmountLaws P}.

Lemma foldl_amount_add (a : P) df :
  foldl (λ acc r, amount_add acc (col r)) a df
  = amount_add a (column_sum col df).
Proof.
  induction df as [|r df IH] using rev_ind.
  - by rewrite /= amount_add_zero_r.
  - by rewrite -/(concat_row df r) column_sum_concat_row /concat_row
      foldl_snoc IH (assoc amount_add).
Qed.

Lemma column_sum_cons r df :
  column_sum col (r :: df) = amount_add (col r) (column_sum col df).
Proof.
  by rewrite /column_sum /= foldl_amount_add (left_id amount_zero amount_add).
Qed.

Lemma column_sum_app df1 df2 :
  column_sum col (df1 ++ df2)
  = amount_add (column_sum col df1) (column_sum col df2).
Proof. by rewrite /column_sum foldl_app foldl_amount_add. Qed.

#[export] Instance column_sum_Permutation :
  Proper ((≡ₚ) ==> (=)) (column_sum col).
Proof.
  induction 1 as [|r df1 df2 _ IH|r1 r2 df|df1 df2 df3 _ IH1 _ IH2].
  - done.
  - by rewrite !column_sum_cons IH.
  - rewrite !column_sum_cons !(assoc amount_add). f_equal. apply (comm _).
  - by rewrite IH1.
Qed.
End laws.
End sum_lemmas.

(** The sum of an integer column after one row was replaced. *)
Lemma column_sum_insert_Z {R} (col : R → Z) (df : list R) i r r' :
  df !! i = Some r →
  column_sum col (<[i:=r']> df) = (column_sum col df - col r + col r')%Z.
Proof.
  intros Hi. rewrite -{2}(take_drop_middle df i r Hi).
  rewrite insert_take_drop; [|by eapply lookup_lt_Some].
  rewrite !column_sum_app !column_sum_cons /=. lia.
Qed.

(** ** Grouped sums *)

Section groupby_lemmas.
Context {R : Type} `{Amount P} (key : R → Z) (col : R → P).
Implicit Types (df : list R) (r : R) (k : Z) (v s : P) (g : list (Z * P)).

Lemma keys_sorted_cons k s g :
  keys_sorted ((k, s) :: g) ↔ keys_sorted g ∧ ∀ k', k' ∈ g.*1 → (k < k')%Z.
Proof.
  rewrite /keys_sorted fmap_cons /=. split.
  - intros [? Hk]%StronglySorted_inv. by rewrite Forall_forall in Hk.
  - intros [? Hk]. constructor; [done|]. by rewrite Forall_forall.
Qed.

Lemma elem_of_group_add_keys k v g k' :
  k' ∈ (group_add k v g).*1 ↔ k' = k ∨ k' ∈ g.*1.
Proof.
  induction g as [|[k0 s0] g IH]; simpl.
  - set_solver.
  - repeat case_decide; rewrite ?fmap_cons /=; set_solver.
Qed.

Lemma group_add_sorted k v g : keys_sorted g → keys_sorted (group_add k v g).
Proof.
  induction g as [|[k0 s0] g IH]; simpl.
  - intros _. apply keys_sorted_cons. split; [constructor|].
    by intros k' ?%elem_of_nil.
  - intros [Hg Hk0]%keys_sorted_cons. repeat case_decide.
    + apply keys_sorted_cons. split; [by apply keys_sorted_cons|].
      intros k'. rewrite fmap_cons elem_of_cons /=.
      intros [->|?%Hk0]; lia.
    + by apply keys_sorted_cons.
    + apply keys_sorted_cons. split; [auto|].
      intros k' [->|?]%elem_of_group_add_keys; [lia|auto].
Qed.

(** An entry of another key after one more row is an old entry. *)
Lemma elem_of_group_add_other k v g k' s' :
  k' ≠ k → (k', s') ∈ group_add k v g → (k', s') ∈ g.
Proof.
  intros Hne. induction g as [|[k0 s0] g IH]; simpl.
  - by intros [= ]%list_elem_of_singleton.
  - repeat case_decide; rewrite !elem_of_cons; naive_solver.
Qed.

(** The entry of the row's key after one more row: the old sum plus the
    row's value, or zero plus the value when the key is new. *)
Lemma elem_of_group_add_same k v g s' :
  keys_sorted g →
  (k, s') ∈ group_add k v g →
  (∃ s, (k, s) ∈ g ∧ s' = amount_add s v)
  ∨ ((k ∉ g.*1) ∧ s' = amount_add amount_zero v).
Proof.
  induction g as [|[k0 s0] g IH]; cbn [group_add].
  - intros _ [= ->]%list_elem_of_singleton. right. split; [|done].
    apply not_elem_of_nil.
  - intros [Hg Hk0]%keys_sorted_cons.
    assert (∀ s1, (k, s1) ∈ g → (k0 < k)%Z) as Hlt.
    { intros s1 Hin. apply Hk0, list_elem_of_fmap. by exists (k, s1). }
    rewrite fmap_cons not_elem_of_cons /=.
    repeat case_decide; rewrite !elem_of_cons.
    + intros [[= ->]|[[= ]|?%Hlt]]; [|lia..].
      right. split; [|done]. split; [lia|]. intros ?%Hk0. lia.
    + intros [[= ->]|?%Hlt]; [|lia]. left. exists s0. split; [|done]. by left.
    + intros [[= ]|Hin]; [done|].
      destruct (IH Hg Hin) as [(s & ? & ->)|[? ->]]; [left|right].
      * exists s. split; [by right|done].
      * done.
Qed.

Lemma groupby_sum_concat_row df r :
  groupby_sum key col (concat_row df r)
  = group_add (key r) (col r) (groupby_sum key col df).
Proof. by rewrite /groupby_sum /concat_row foldl_app. Qed.

Lemma groupby_sum_sorted df : keys_sorted (groupby_sum key col df).
Proof.
  induction df as [|r df IH] using rev_ind; [constructor|].
  rewrite -/(concat_row df r) groupby_sum_concat_row. by apply group_add_sorted.
Qed.

Lemma elem_of_groupby_sum_keys df k :
  k ∈ (groupby_sum key col df).*1 ↔ ∃ r, r ∈ df ∧ key r = k.
Proof.
  induction df as [|r df IH] using rev_ind.
  - set_solver.
  - rewrite -/(concat_row df r) groupby_sum_concat_row elem_of_group_add_keys IH.
    rewrite /concat_row. set_solver.
Qed.

Lemma groupby_sum_elem df k s :
  (k, s) ∈ groupby_sum key col df →
  s = column_sum col (filter (λ r, key r = k) df).
Proof.
  revert k s. induction df as [|r df IH] using rev_ind; intros k s.
  - by intros ?%elem_of_nil.
  - rewrite -/(concat_row df r) groupby_sum_concat_row.
    rewrite /concat_row filter_app filter_cons filter_nil.
    case_decide as Hk.
    + subst k. intros Hin%elem_of_group_add_same; [|apply groupby_sum_sorted].
      destruct Hin as [(s0 & ->%IH & ->)|[Hnew ->]].
      * by rewrite -/(concat_row _ r) column_sum_concat_row.
      * rewrite filter_nil_Forall //.
        apply Forall_forall. intros r' Hr' Hkr'. apply Hnew.
        apply elem_of_groupby_sum_keys. eauto.
    + intros Hin%elem_of_group_add_other; [|done]. by rewrite app_nil_r; apply IH.
Qed.

Section laws.
Context `{!AmountLaws P}.

Lemma column_sum_group_add k v g :
  column_sum snd (group_add k v g) = amount_add (column_sum snd g) v.
Proof.
  induction g as [|[k0 s0] g IH]; cbn [group_add].
  - by rewrite column_sum_cons /= amount_add_zero_r.
  - repeat case_decide; rewrite !column_sum_cons /=.
    + by rewrite (left_id amount_zero amount_add) (comm amount_add v).
    + apply amount_add_swap.
    + by rewrite IH (assoc amount_add).
Qed.

(** The group sums add up to the sum of the whole column. *)
Lemma groupby_sum_total df :
  column_sum snd (groupby_sum key col df) = column_sum col df.
Proof.
  induction df as [|r df IH] using rev_ind; [done|].
  by rewrite -/(concat_row df r) groupby_sum_concat_row column_sum_group_add
    IH column_sum_concat_row.
Qed.
End laws.
End groupby_lemmas.
