(* ===== verification/Script.v ===== *)
(** * Script: one run of a Streamlit script

    A run reads and assigns [st.session_state], hands page elements to
    Streamlit in order and may stop at a raised exception; what was assigned
    and shown before the exception stays.  [script S E A] is the syntax of
    such a computation over a session of type [S] and elements of type [E]:
    a tree whose nodes are the accesses to the session and the calls of
    [st.*], in the order the script makes them, and whose leaves are the
    results.  [run] executes a tree from a session and gives the final
    session, the elements shown and the outcome; a script applied to a
    session is its run.  The pages of both applications are written in this
    monad with stdpp's bind notation, one bind per statement of the source.
    A widget call ([widget_value]) shows the widget and returns the value the
    browser holds for it; a [with] block ([within]) places the elements of
    its body in a container.

    The run lemmas ([run_emit_bind], [run_bind], [run_within], ...) are
    stated with [after], [placed] and [continued], which [simpl] reduces on
    a computed run, so that evaluating a page takes one rewrite per
    statement.  The monad laws hold up to [script_equiv], equality of the
    runs on every session. *)

From S2P Require Import Prelude.

(** A computation over a session [S] that shows elements [E]: finished with
    a value, stopped by an exception, or one access to the session or one
    call of [st.*] followed by the rest of the computation. *)
Inductive script (S E A : Type) : Type :=
  | Return (a : A)
  | Throw (x : exn)
  | Get_state (k : S → script S E A)
  | Set_state (s : S) (k : script S E A)
  | Element (e : E) (k : script S E A).

Arguments Return {_ _ _} _.
Arguments Throw {_ _ _} _.
Arguments Get_state {_ _ _} _.
Arguments Set_state {_ _ _} _ _.
Arguments Element {_ _ _} _ _.

#[export] Instance script_ret {S E} : MRet (script S E) := λ A a, Return a.

(** Sequencing: the second computation follows every leaf of the first that
    is a value; an exception of the first ends both. *)
Fixpoint script_then {S E A B} (f : A → script S E B) (m : script S E A)
    : script S E B :=
  match m with
  | Return a => f a
  | Throw x => Throw x
  | Get_state k => Get_state (λ s, script_then f (k s))
  | Set_state s k => Set_state s (script_then f k)
  | Element e k => Element e (script_then f k)
  end.

#[export] Instance script_bind {S E} : MBind (script S E) :=
  λ A B f m, script_then f m.

(** Reading [st.session_state]. *)
Definition get_session {S E} : script S E S := Get_state Return.

(** Assigning [st.session_state]. *)
Definition put_session {S E} (s' : S) : script S E () := Set_state s' (Return ()).

(** Emitting one page element. *)
Definition emit {S E} (e : E) : script S E () := Element e (Return ()).

(** Evaluating an expression that may raise. *)
Definition lift_result {S E A} (r : result A) : script S E A :=
  match r with
  | Ok a => Return a
  | Raise x => Throw x
  end.

(** A widget call such as [x = st.number_input(...)]: the widget is shown
    and the value the browser holds for it is returned. *)
Definition widget_value {S E A} (w : E) (value : A) : script S E A :=
  emit w;; mret value.

(** A block [with container:]: the elements its statements emit are placed
    in the container by [place]. *)
Fixpoint within {S E A} (place : E → E) (m : script S E A) : script S E A :=
  match m with
  | Return a => Return a
  | Throw x => Throw x
  | Get_state k => Get_state (λ s, within place (k s))
  | Set_state s k => Set_state s (within place k)
  | Element e k => Element (place e) (within place k)
  end.

(** [st.title], [st.header], [st.subheader] and [st.caption]. *)
Inductive text_kind : Type :=
  | Title
  | Header
  | Subheader
  | Caption.

(** Where an element goes when it is not on the main page: the sidebar, a
    column of [st.columns], or a form. *)
Inductive container : Type :=
  | Sidebar
  | Column (i : nat)
  | Form.

#[export] Instance text_kind_eq_dec : EqDecision text_kind.
Proof. solve_decision. Defined.

#[export] Instance container_eq_dec : EqDecision container.
Proof. solve_decision. Defined.

(** The three components of a finished run. *)
Definition final_session {S E A} (x : S * list E * result A) : S := x.1.1.
Definition emitted {S E A} (x : S * list E * result A) : list E := x.1.2.
Definition outcome {S E A} (x : S * list E * result A) : result A := x.2.

(** A run, after the elements [out] were emitted. *)
Definition after {S E A} (out : list E) (x : S * list E * result A)
    : S * list E * result A :=
  let '(s, out', r) := x in (s, out ++ out', r).

(** A run with its elements placed in a container. *)
Definition placed {S E A} (place : E → E) (x : S * list E * result A)
    : S * list E * result A :=
  let '(s, out, r) := x in (s, place <$> out, r).

Arguments after {_ _ _} _ !_ /.
Arguments placed {_ _ _} _ !_ /.

(** The run of a script from the session [s]: the final session, the
    elements shown, in order, and the outcome. *)
Fixpoint run {S E A} (m : script S E A) (s : S) : S * list E * result A :=
  match m with
  | Return a => (s, [], Ok a)
  | Throw x => (s, [], Raise x)
  | Get_state k => run (k s) s
  | Set_state s' k => run k s'
  | Element e k => after [e] (run k s)
  end.

Coercion run : script >-> Funclass.

(** A run continued by [f], unless it raised. *)
Definition continued {S E A B} (x : S * list E * result A)
    (f : A → script S E B) : S * list E * result B :=
  match x with
  | (s, out, Ok a) => after out (f a s)
  | (s, out, Raise e) => (s, out, Raise e)
  end.

Arguments continued {_ _ _ _} !_ _ /.

(** Two scripts are equivalent when they agree on every session. *)
Definition script_equiv {S E A} (m1 m2 : script S E A) : Prop :=
  ∀ s, m1 s = m2 s.
Infix "≡ₛ" := script_equiv (at level 70).

(** ** Running the primitives *)

Section run_lemmas.
Context {S E : Type}.
Implicit Types (s : S) (e : E).

Lemma after_nil {A} (x : S * list E * result A) : after [] x = x.
Proof. by destruct x as [[??]?]. Qed.

Lemma after_after {A} out1 out2 (x : S * list E * result A) :
  after out1 (after out2 x) = after (out1 ++ out2) x.
Proof. destruct x as [[??]?]. by rewrite /= (assoc (++)). Qed.

Lemma placed_after {A} (place : E → E) out (x : S * list E * result A) :
  placed place (after out x) = after (place <$> out) (placed place x).
Proof. destruct x as [[??]?]. by rewrite /= fmap_app. Qed.

Lemma continued_after {A B} out (x : S * list E * result A)
    (f : A → script S E B) :
  continued (after out x) f = after out (continued x f).
Proof. destruct x as [[? ?] [a|?]]; by rewrite /= ?after_after. Qed.

Lemma run_ret {A} (a : A) s : (mret a : script S E A) s = (s, [], Ok a).
Proof. done. Qed.

Lemma run_get_bind {B} (f : S → script S E B) s :
  (get_session ≫= f) s = f s s.
Proof. done. Qed.

Lemma run_put_bind {B} (f : () → script S E B) s s' :
  (put_session s' ≫= f) s = f () s'.
Proof. done. Qed.

Lemma run_emit_bind {B} (f : () → script S E B) s e :
  (emit e ≫= f) s = after [e] (f () s).
Proof. done. Qed.

Lemma run_lift_Ok_bind {A B} (f : A → script S E B) s a :
  (lift_result (Ok a) ≫= f) s = f a s.
Proof. done. Qed.

Lemma run_lift_Raise_bind {A B} (f : A → script S E B) s x :
  (lift_result (Raise x) ≫= f) s = (s, [], Raise x).
Proof. done. Qed.

Lemma run_emit s e : (emit e : script S E ()) s = (s, [e], Ok ()).
Proof. done. Qed.

Lemma run_put s s' : (put_session s' : script S E ()) s = (s', [], Ok ()).
Proof. done. Qed.

Lemma run_lift {A} (r : result A) s : (lift_result r : script S E A) s = (s, [], r).
Proof. by destruct r. Qed.

Lemma run_widget_value_bind {A B} (f : A → script S E B) s e (a : A) :
  (widget_value e a ≫= f) s = after [e] (f a s).
Proof. done. Qed.

Lemma run_bind {A B} (m : script S E A) (f : A → script S E B) s :
  (m ≫= f) s = continued (m s) f.
Proof.
  revert s. induction m as [a|x|k IH|s' k IH|e k IH]; intros s; simpl;
    rewrite ?after_nil ?continued_after //.
  all: try f_equal; apply IH.
Qed.

Lemma run_within {A} (place : E → E) (m : script S E A) s :
  within place m s = placed place (m s).
Proof.
  revert s. induction m as [a|x|k IH|s' k IH|e k IH]; intros s; simpl; [done..|].
  by rewrite placed_after IH.
Qed.

Lemma run_within_bind {A B} (place : E → E) (m : script S E A)
    (f : A → script S E B) s :
  (within place m ≫= f) s = continued (placed place (m s)) f.
Proof. by rewrite run_bind run_within. Qed.

Lemma final_session_after {A} out (x : S * list E * result A) :
  final_session (after out x) = final_session x.
Proof. by destruct x as [[??]?]. Qed.

Lemma outcome_after {A} out (x : S * list E * result A) :
  outcome (after out x) = outcome x.
Proof. by destruct x as [[??]?]. Qed.

Lemma emitted_after {A} out (x : S * list E * result A) :
  emitted (after out x) = out ++ emitted x.
Proof. by destruct x as [[??]?]. Qed.
End run_lemmas.

(** Outside this file a run is evaluated by the run lemmas, one statement
    at a time: the primitives are opaque to [simpl] and to unification, so
    that neither exposes the tree of a whole page.  Evaluation by
    [vm_compute] is not affected. *)
Arguments run : simpl never.
#[global] Opaque get_session put_session emit lift_result within.

#[export] Hint Rewrite @run_get_bind @run_put_bind @run_emit_bind
  @run_lift_Ok_bind @run_lift_Raise_bind @run_widget_value_bind
  @run_within_bind @run_within @run_ret @run_emit @run_put @run_lift
  : ledger_simpl.

(** Evaluate the primitives of a run in the goal. *)
Ltac script_simpl :=
  repeat (autorewrite with ledger_simpl;
          rewrite /final_session /emitted /outcome /=).

(** ** The monad laws, up to equivalence *)

Section monad_laws.
Context {S E : Type}.

#[export] Instance script_equiv_equivalence {A} :
  Equivalence (@script_equiv S E A).
Proof.
  split; [by intros ??|by intros ????|].
  intros m1 m2 m3 H12 H23 s. by rewrite H12.
Qed.

#[export] Instance script_bind_proper {A B} :
  Proper (pointwise_relation A script_equiv ==> script_equiv ==> script_equiv)
    (mbind (M:=script S E) (A:=A) (B:=B)).
Proof.
  intros f g Hfg m1 m2 Hm s. rewrite !run_bind Hm.
  destruct (m2 s) as [[s1 out1] [a|e]]; [|done]. by rewrite /= (Hfg a s1).
Qed.

Lemma script_bind_ret_l {A B} (a : A) (f : A → script S E B) :
  mret a ≫= f ≡ₛ f a.
Proof. done. Qed.

Lemma script_bind_ret_r {A} (m : script S E A) : m ≫= mret ≡ₛ m.
Proof.
  intros s. rewrite run_bind.
  destruct (m s) as [[s1 out1] [a|e]]; [|done]. by rewrite /= app_nil_r.
Qed.

Lemma script_bind_assoc {A B C} (m : script S E A)
    (f : A → script S E B) (g : B → script S E C) :
  (m ≫= f) ≫= g ≡ₛ m ≫= (λ a, f a ≫= g).
Proof.
  intros s. rewrite !run_bind.
  destruct (m s) as [[s1 out1] [a|e]]; [|done].
  by rewrite /= run_bind continued_after.
Qed.
End monad_laws.
