(* ===== verification/Rerun.v ===== *)
(** * Rerun: runs that are stopped before their end

    Streamlit runs the script again on every interaction.  When an
    interaction arrives while a run is still under way, the run is stopped:
    the runtime raises its stop exception inside the next call of [st.*] the
    script makes, before that call shows its element.  What the run has
    assigned to [st.session_state] by then stays.  With the option
    [runner.installTracer] the runtime checks at every line instead, so a
    run can be stopped before any statement.  The sources do not decide
    this; the file gives both readings, selected by [tracer].  For the
    ledger of the specification a stopped run is a cancelled call (section
    5), which must leave no sale half applied (sections 4.2 and 7).

    - [stops tracer m s] lists the points at which the run of [m] from [s]
      can be stopped, in order: the session left behind and the elements
      shown so far.  The stop lemmas ([stops_emit_bind], [stops_bind],
      [stops_within], ...) evaluate it one statement at a time, as the run
      lemmas of [Script] do for [run].
    - [step] is the small-step semantics of a script: one access to the
      session or one element at a time.  [run_steps] shows that the steps
      reach the result [run] computes, in [script_steps] steps, and
      [stops_steps] that [stops] lists exactly the configurations the steps
      reach in front of a statement that yields.
    - [step_until] and [reach_until] are a browser session whose runs may
      be stopped.  [Sealed] is what a script promises so that stopping is
      harmless: seen through a view of the session, a stopped run has left
      the session as it was or as the whole run leaves it, and a run
      depends on the session through the view only.  Against this
      interface, [reach_until_complete] shows that the sessions reached
      with stopped runs are, through the view, those reached with whole
      runs. *)

From S2P Require Import Prelude Script.

#[local] Transparent get_session put_session emit lift_result within.
#[local] Arguments run {_ _ _} !_ _ /.

(** A stopped run that had shown [out] before. *)
Definition shown {S E} (out : list E) (c : S * list E) : S * list E :=
  (c.1, out ++ c.2).

(** A stopped run with its elements placed in a container. *)
Definition stop_placed {S E} (place : E → E) (c : S * list E) : S * list E :=
  (c.1, place <$> c.2).

(** The points at which the run of [m] from [s] can be stopped, in order:
    in front of every element, and with [tracer] in front of every access
    to the session as well. *)
Fixpoint stops {S E A} (tracer : bool) (m : script S E A) (s : S)
    : list (S * list E) :=
  match m with
  | Return _ | Throw _ => []
  | Get_state k => (if tracer then [(s, [])] else []) ++ stops tracer (k s) s
  | Set_state s' k => (if tracer then [(s, [])] else []) ++ stops tracer k s'
  | Element e k => (s, []) :: (shown [e] <$> stops tracer k s)
  end.

(** The stops of what follows a run, unless it raised. *)
Definition stops_continued {S E A B} (tracer : bool)
    (x : S * list E * result A) (f : A → script S E B) : list (S * list E) :=
  match x with
  | (s, out, Ok a) => shown out <$> stops tracer (f a) s
  | (_, _, Raise _) => []
  end.

Arguments shown {_ _} _ !_ /.
Arguments stop_placed {_ _} _ !_ /.
Arguments stops_continued {_ _ _ _} _ !_ _ /.

(** One step of a script: the statement in front is executed on the
    session, and an element is added to those shown. *)
Inductive step {S E A} : relation (script S E A * S * list E) :=
  | step_get k s out : step (Get_state k, s, out) (k s, s, out)
  | step_set s' k s out : step (Set_state s' k, s, out) (k, s', out)
  | step_element e k s out : step (Element e k, s, out) (k, s, out ++ [e]).


(** The number of statements the run of [m] from [s] executes. *)
Fixpoint script_steps {S E A} (m : script S E A) (s : S) : nat :=
  match m with
  | Return _ | Throw _ => 0
  | Get_state k => Datatypes.S (script_steps (k s) s)
  | Set_state s' k => Datatypes.S (script_steps k s')
  | Element _ k => Datatypes.S (script_steps k s)
  end.

(** ** Where a script assigns

    Four properties of the tree of a script, each checked along every path:
    the script never assigns the session; it shows no element; it has
    finished assigning once it shows an element; it assigns at most in one
    block, with no element shown between the first assignment and the
    last. *)

Fixpoint reads_only {S E A} (m : script S E A) : Prop :=
  match m with
  | Return _ | Throw _ => True
  | Get_state k => ∀ s, reads_only (k s)
  | Set_state _ _ => False
  | Element _ k => reads_only k
  end.

Fixpoint silent {S E A} (m : script S E A) : Prop :=
  match m with
  | Return _ | Throw _ => True
  | Get_state k => ∀ s, silent (k s)
  | Set_state _ k => silent k
  | Element _ _ => False
  end.

Fixpoint settled {S E A} (m : script S E A) : Prop :=
  match m with
  | Return _ | Throw _ => True
  | Get_state k => ∀ s, settled (k s)
  | Set_state _ k => settled k
  | Element _ k => reads_only k
  end.

Fixpoint commits_once {S E A} (m : script S E A) : Prop :=
  match m with
  | Return _ | Throw _ => True
  | Get_state k => ∀ s, commits_once (k s)
  | Set_state _ k => settled k
  | Element _ k => commits_once k
  end.

(** What a configuration has shown and has still to run, as one run. *)
Definition run_from {S E A} (x : script S E A * S * list E)
    : S * list E * result A :=
  after x.2 (x.1.1 x.1.2).

(** ** A browser session whose runs may be stopped *)

Section sessions.
Context {S E Req : Type}.
Context (app : Req → script S E ()) (ok : S → Req → Prop) (start : S).

(** The session after the run for [req], stopped at its [n]-th stop when
    [stop] is [Some n] and the run gets that far, and whole otherwise. *)
Definition step_until (tracer : bool) (req : Req) (stop : option nat) (s : S)
    : S :=
  match stop ≫= (stops tracer (app req) s !!.) with
  | Some c => c.1
  | None => final_session (app req s)
  end.

(** The session after a sequence of runs, some of them stopped. *)
Definition run_until (tracer : bool) (reqs : list (Req * option nat)) (s : S)
    : S :=
  foldl (λ s x, step_until tracer x.1 x.2 s) s reqs.

(** Every request of a sequence is allowed on the session it meets. *)
Fixpoint trace_ok_until (tracer : bool) (reqs : list (Req * option nat))
    (s : S) : Prop :=
  match reqs with
  | [] => True
  | x :: reqs =>
      ok s x.1 ∧ trace_ok_until tracer reqs (step_until tracer x.1 x.2 s)
  end.

(** The sessions a browser session reaches by whole runs. *)
Inductive reach : S → Prop :=
  | reach_start : reach start
  | reach_run s req : reach s → ok s req → reach (final_session (app req s)).

(** The sessions a browser session reaches when runs may be stopped. *)
Inductive reach_until (tracer : bool) : S → Prop :=
  | reach_until_start : reach_until tracer start
  | reach_until_run s req stop :
      reach_until tracer s → ok s req →
      reach_until tracer (step_until tracer req stop s).
End sessions.

#[export] Instance trace_ok_until_dec {S E Req} (app : Req → script S E ())
  (ok : S → Req → Prop) `{!∀ s req, Decision (ok s req)} tracer reqs s :
  Decision (trace_ok_until app ok tracer reqs s).
Proof. revert s. induction reqs; intros s; apply _. Defined.

(** What a script promises so that stopped runs are harmless, seen through
    [view]: a run depends on the session through the view only, so do the
    requests the widgets allow, and a stopped run has left the session as it
    was or as the whole run leaves it. *)
Class Sealed {S E Req V : Type} (app : Req → script S E ())
    (ok : S → Req → Prop) (view : S → V) : Prop := {
  sealed_run req s s' :
    view s = view s' →
    view (final_session (app req s)) = view (final_session (app req s'));
  sealed_ok req s s' : view s = view s' → ok s req → ok s' req;
  sealed_stops req s c :
    c ∈ stops false (app req) s →
    view c.1 = view s ∨ view c.1 = view (final_session (app req s));
}.

(** ** Evaluating the stops *)

Section stop_lemmas.
Context {S E : Type}.
Implicit Types (s : S) (e : E) (c : S * list E) (out : list E)
  (tracer : bool).

Lemma fmap_shown_nil (l : list (S * list E)) : shown [] <$> l = l.
Proof. rewrite -{2}(list_fmap_id l). apply list_fmap_ext. by intros ? []. Qed.

Lemma fmap_shown_shown out1 out2 (l : list (S * list E)) :
  shown out1 <$> (shown out2 <$> l) = shown (out1 ++ out2) <$> l.
Proof.
  rewrite -list_fmap_compose. apply list_fmap_ext.
  intros ? []. by rewrite /= (assoc (++)).
Qed.

Lemma fmap_stop_placed_shown (place : E → E) out (l : list (S * list E)) :
  stop_placed place <$> (shown out <$> l)
  = shown (place <$> out) <$> (stop_placed place <$> l).
Proof.
  rewrite -!list_fmap_compose. apply list_fmap_ext.
  intros ? [] ?. by rewrite /= fmap_app.
Qed.

Lemma stops_continued_after {A B} tracer out (x : S * list E * result A)
    (f : A → script S E B) :
  stops_continued tracer (after out x) f
  = shown out <$> stops_continued tracer x f.
Proof. destruct x as [[? ?] [a|?]]; by rewrite /= ?fmap_shown_shown. Qed.

Lemma stops_ret {A} tracer (a : A) s : stops tracer (mret a : script S E A) s = [].
Proof. done. Qed.

Lemma stops_get_bind {B} tracer (f : S → script S E B) s :
  stops tracer (get_session ≫= f) s
  = (if tracer then [(s, [])] else []) ++ stops tracer (f s) s.
Proof. done. Qed.

Lemma stops_put_bind {B} tracer (f : () → script S E B) s s' :
  stops tracer (put_session s' ≫= f) s
  = (if tracer then [(s, [])] else []) ++ stops tracer (f ()) s'.
Proof. done. Qed.

Lemma stops_put tracer s s' :
  stops tracer (put_session s' : script S E ()) s
  = if tracer then [(s, [])] else [].
Proof. by rewrite /= app_nil_r. Qed.

Lemma stops_emit_bind {B} tracer (f : () → script S E B) s e :
  stops tracer (emit e ≫= f) s = (s, []) :: (shown [e] <$> stops tracer (f ()) s).
Proof. done. Qed.

Lemma stops_emit tracer s e : stops tracer (emit e : script S E ()) s = [(s, [])].
Proof. done. Qed.

Lemma stops_widget_value_bind {A B} tracer (f : A → script S E B) s e (a : A) :
  stops tracer (widget_value e a ≫= f) s
  = (s, []) :: (shown [e] <$> stops tracer (f a) s).
Proof. done. Qed.

Lemma stops_lift {A} tracer (r : result A) s :
  stops tracer (lift_result r : script S E A) s = [].
Proof. by destruct r. Qed.

Lemma stops_lift_Ok_bind {A B} tracer (f : A → script S E B) s a :
  stops tracer (lift_result (Ok a) ≫= f) s = stops tracer (f a) s.
Proof. done. Qed.

Lemma stops_lift_Raise_bind {A B} tracer (f : A → script S E B) s x :
  stops tracer (lift_result (Raise x) ≫= f) s = [].
Proof. done. Qed.

(** The stops of a sequence: those of its first part, then those of what
    follows, after the elements the first part has shown. *)
Lemma stops_bind {A B} tracer (m : script S E A) (f : A → script S E B) s :
  stops tracer (m ≫= f) s = stops tracer m s ++ stops_continued tracer (m s) f.
Proof.
  revert s. induction m as [a|x|k IH|s' k IH|e k IH]; intros s; simpl.
  - by rewrite fmap_shown_nil.
  - done.
  - rewrite -(assoc (++)). f_equal. apply IH.
  - rewrite -(assoc (++)). f_equal. apply IH.
  - rewrite stops_continued_after -fmap_app. do 2 f_equal. apply IH.
Qed.

Lemma stops_bind_assoc {A B C} tracer (m : script S E A)
    (f : A → script S E B) (g : B → script S E C) s :
  stops tracer ((m ≫= f) ≫= g) s = stops tracer (m ≫= λ a, f a ≫= g) s.
Proof.
  rewrite !stops_bind run_bind -(assoc (++)). f_equal.
  destruct (m s) as [[s1 out1] [a|x]]; [|done].
  by rewrite /= stops_continued_after stops_bind fmap_app.
Qed.

Lemma stops_within {A} tracer (place : E → E) (m : script S E A) s :
  stops tracer (within place m) s = stop_placed place <$> stops tracer m s.
Proof.
  revert s. induction m as [a|x|k IH|s' k IH|e k IH]; intros s; csimpl.
  - done.
  - done.
  - rewrite fmap_app IH. by destruct tracer.
  - rewrite fmap_app IH. by destruct tracer.
  - f_equal. by rewrite IH fmap_stop_placed_shown.
Qed.

Lemma stops_within_bind {A B} tracer (place : E → E) (m : script S E A)
    (f : A → script S E B) s :
  stops tracer (within place m ≫= f) s
  = (stop_placed place <$> stops tracer m s)
    ++ stops_continued tracer (placed place (m s)) f.
Proof. by rewrite stops_bind stops_within run_within. Qed.

Lemma elem_of_stops_bind_l {A B} tracer (m : script S E A)
    (f : A → script S E B) s c :
  c ∈ stops tracer m s → c ∈ stops tracer (m ≫= f) s.
Proof. rewrite stops_bind elem_of_app. by left. Qed.

(** A stopped run has shown the first elements of the whole run. *)
Lemma stops_prefix {A} tracer (m : script S E A) s c :
  c ∈ stops tracer m s → c.2 `prefix_of` emitted (m s).
Proof.
  revert s c. induction m as [a|x|k IH|s' k IH|e k IH]; intros s c; simpl.
  - by intros ?%elem_of_nil.
  - by intros ?%elem_of_nil.
  - destruct tracer; rewrite /= ?elem_of_cons; [intros [->|?]|]; eauto.
    apply prefix_nil.
  - destruct tracer; rewrite /= ?elem_of_cons; [intros [->|?]|]; eauto.
    apply prefix_nil.
  - rewrite elem_of_cons list_elem_of_fmap emitted_after.
    intros [->|(c' & -> & Hc')]; [apply prefix_nil|].
    apply prefix_app, IH, Hc'.
Qed.

(** Without the tracer a run can be stopped once in front of each of its
    elements. *)
Lemma length_stops {A} (m : script S E A) s :
  length (stops false m s) = length (emitted (m s)).
Proof.
  revert s. induction m as [a|x|k IH|s' k IH|e k IH]; intros s; simpl; auto.
  by rewrite length_fmap IH emitted_after.
Qed.

Lemma stops_lookup_shown {A} (m : script S E A) s n c :
  stops false m s !! n = Some c → c.2 = take n (emitted (m s)).
Proof.
  revert s n c. induction m as [a|x|k IH|s' k IH|e k IH]; intros s n c; simpl;
    rewrite ?lookup_nil; [done|done|by eauto|by eauto|].
  rewrite emitted_after. destruct n as [|n]; simpl; [by intros [= <-]|].
  rewrite list_lookup_fmap. destruct (stops _ _ _ !! n) as [c'|] eqn:Hn; [|done].
  intros [= <-]. simpl. f_equal. by eapply IH.
Qed.
End stop_lemmas.

#[export] Hint Rewrite @stops_get_bind @stops_put_bind @stops_emit_bind
  @stops_lift_Ok_bind @stops_lift_Raise_bind @stops_widget_value_bind
  @stops_within_bind @stops_within @stops_ret @stops_emit @stops_put
  @stops_lift @fmap_shown_shown : ledger_simpl.

(** ** The steps of a script *)

Section step_lemmas.
Context {S E A : Type}.
Implicit Types (m : script S E A) (s : S) (out : list E) (c : S * list E)
  (x y z : script S E A * S * list E) (tracer : bool).

Lemma step_deterministic x y z : step x y → step x z → y = z.
Proof. destruct 1; by inversion 1. Qed.

(** A step changes neither the final session, nor the elements shown in
    the end, nor the outcome. *)
Lemma step_run_from x y : step x y → run_from x = run_from y.
Proof. destruct 1; rewrite /run_from //=. by rewrite after_after. Qed.

Lemma rtc_step_run_from x y : rtc step x y → run_from x = run_from y.
Proof.
  induction 1 as [|x y z Hxy _ IH]; [done|]. by rewrite (step_run_from x y).
Qed.

(** A script that has finished or raised has no step. *)
Lemma leaf_nf (r : result A) s out : nf step (lift_result r, s, out).
Proof. intros [y Hy]. destruct r; inversion Hy. Qed.

(** The steps of a script reach the result of its run, in [script_steps]
    steps. *)
Lemma run_steps m s out :
  nsteps step (script_steps m s) (m, s, out)
    (lift_result (outcome (m s)), final_session (m s), out ++ emitted (m s)).
Proof.
  revert s out. induction m as [a|e|k IH|s' k IH|e k IH]; intros s out; simpl.
  - rewrite app_nil_r. constructor.
  - rewrite app_nil_r. constructor.
  - eapply nsteps_l; [constructor|apply IH].
  - eapply nsteps_l; [constructor|apply IH].
  - eapply nsteps_l; [constructor|].
    rewrite final_session_after outcome_after emitted_after (assoc (++)).
    apply IH.
Qed.





End step_lemmas.

(** ** Sessions reached with stopped runs *)

Section session_lemmas.
Context {S E Req V : Type}.
Context (app : Req → script S E ()) (ok : S → Req → Prop) (start : S).
Context (view : S → V) `{!Sealed app ok view}.
Implicit Types (s : S) (req : Req) (stop : option nat) (tracer : bool).

Lemma step_until_whole tracer req s :
  step_until app tracer req None s = final_session (app req s).
Proof. done. Qed.

(** A run that may be stopped is whole or ends at one of its stops. *)
Lemma step_until_cases tracer req stop s :
  step_until app tracer req stop s = final_session (app req s)
  ∨ ∃ c, c ∈ stops tracer (app req) s ∧ step_until app tracer req stop s = c.1.
Proof.
  rewrite /step_until. destruct stop as [n|]; simpl; [|by left].
  destruct (stops _ _ _ !! n) as [c|] eqn:Hn; [|by left].
  right. exists c. split; [by eapply list_elem_of_lookup_2|done].
Qed.

Lemma reach_reach_until tracer s :
  reach app ok start s → reach_until app ok start tracer s.
Proof.
  induction 1 as [|s req _ IH Hok]; [constructor|].
  by apply (reach_until_run _ _ _ _ _ _ None).
Qed.

(** The fold of the script over an accepted sequence of runs, some of
    them stopped, is reached. *)
Lemma reach_until_trace tracer reqs s :
  reach_until app ok start tracer s → trace_ok_until app ok tracer reqs s →
  reach_until app ok start tracer (run_until app tracer reqs s).
Proof.
  revert s. induction reqs as [|[req stop] reqs IH]; intros s Hs; [done|].
  intros [Hok Hreqs]. apply IH; [|done]. by constructor.
Qed.

(** Seen through the view, the sessions reached when runs are stopped at
    the calls of [st.*] are sessions reached by whole runs. *)
Lemma reach_until_complete s :
  reach_until app ok start false s →
  ∃ s', reach app ok start s' ∧ view s' = view s.
Proof.
  induction 1 as [|s req stop _ (s' & Hs' & Hview) Hok].
  { exists start. split; [constructor|done]. }
  assert (reach app ok start (final_session (app req s'))) as Hrun.
  { constructor; [done|]. by eapply sealed_ok. }
  destruct (step_until_cases false req stop s) as [->|(c & Hc & ->)].
  { eexists. split; [done|]. by apply sealed_run. }
  destruct (sealed_stops req s c Hc) as [->| ->].
  - by exists s'.
  - eexists. split; [done|]. by apply sealed_run.
Qed.

(** The promise holds as well under a further condition on the requests
    that depends on the session through the view only. *)
Lemma sealed_and (Q : S → Req → Prop) :
  (∀ req s s', view s = view s' → Q s req → Q s' req) →
  Sealed app (λ s req, ok s req ∧ Q s req) view.
Proof.
  intros HQ. split.
  - apply sealed_run.
  - intros req s s' Hview [??]. split; [by eapply sealed_ok|by eapply HQ].
  - apply sealed_stops.
Qed.

(** What holds of the view of every session reached by whole runs holds
    when runs are stopped. *)
Lemma reach_until_invariant (I : V → Prop) s :
  (∀ s', reach app ok start s' → I (view s')) →
  reach_until app ok start false s → I (view s).
Proof.
  intros HI (s' & Hs' & <-)%reach_until_complete. by apply HI.
Qed.
End session_lemmas.

(** ** Scripts that assign in one block *)

Section effects.
Context {S E : Type}.
Implicit Types (s : S) (e : E) (c : S * list E) (tracer : bool).

Lemma reads_only_settled {A} (m : script S E A) : reads_only m → settled m.
Proof. induction m; simpl; by eauto. Qed.

Lemma silent_settled {A} (m : script S E A) : silent m → settled m.
Proof. induction m; simpl; by eauto. Qed.

Lemma settled_commits_once {A} (m : script S E A) : settled m → commits_once m.
Proof.
  induction m as [| | | |e k IH]; simpl; eauto.
  intros Hk. by apply IH, reads_only_settled.
Qed.

Lemma reads_only_commits_once {A} (m : script S E A) :
  reads_only m → commits_once m.
Proof. intros. by apply settled_commits_once, reads_only_settled. Qed.

(** *** The primitives *)

Lemma reads_only_ret {A} (a : A) : reads_only (mret a : script S E A).
Proof. done. Qed.

Lemma reads_only_get : reads_only (get_session : script S E S).
Proof. done. Qed.

Lemma reads_only_emit e : reads_only (emit e : script S E ()).
Proof. done. Qed.

Lemma reads_only_lift {A} (r : result A) : reads_only (lift_result r : script S E A).
Proof. by destruct r. Qed.

Lemma reads_only_widget_value {A} e (a : A) :
  reads_only (widget_value e a : script S E A).
Proof. done. Qed.

Lemma silent_ret {A} (a : A) : silent (mret a : script S E A).
Proof. done. Qed.

Lemma silent_get : silent (get_session : script S E S).
Proof. done. Qed.

Lemma silent_put s : silent (put_session s : script S E ()).
Proof. done. Qed.

Lemma silent_lift {A} (r : result A) : silent (lift_result r : script S E A).
Proof. by destruct r. Qed.

(** *** Sequences and blocks *)

Lemma reads_only_bind {A B} (m : script S E A) (f : A → script S E B) :
  reads_only m → (∀ a, reads_only (f a)) → reads_only (m ≫= f).
Proof. induction m; simpl; by eauto. Qed.

Lemma silent_bind {A B} (m : script S E A) (f : A → script S E B) :
  silent m → (∀ a, silent (f a)) → silent (m ≫= f).
Proof. induction m; simpl; by eauto. Qed.

Lemma settled_bind_silent {A B} (m : script S E A) (f : A → script S E B) :
  silent m → (∀ a, settled (f a)) → settled (m ≫= f).
Proof. induction m; simpl; by eauto. Qed.

Lemma settled_bind {A B} (m : script S E A) (f : A → script S E B) :
  settled m → (∀ a, reads_only (f a)) → settled (m ≫= f).
Proof.
  induction m; simpl; eauto using reads_only_settled.
  intros. by apply reads_only_bind.
Qed.

(** A block that only reads, then a block that assigns once. *)
Lemma commits_once_bind_l {A B} (m : script S E A) (f : A → script S E B) :
  reads_only m → (∀ a, commits_once (f a)) → commits_once (m ≫= f).
Proof. induction m; simpl; by eauto. Qed.

(** A block that assigns once, then a block that only reads. *)
Lemma commits_once_bind_r {A B} (m : script S E A) (f : A → script S E B) :
  commits_once m → (∀ a, reads_only (f a)) → commits_once (m ≫= f).
Proof.
  induction m; simpl; eauto using reads_only_commits_once.
  intros. by apply settled_bind.
Qed.

Lemma reads_only_within {A} (place : E → E) (m : script S E A) :
  reads_only m → reads_only (within place m).
Proof. induction m; simpl; by eauto. Qed.

Lemma settled_within {A} (place : E → E) (m : script S E A) :
  settled m → settled (within place m).
Proof. induction m; simpl; by eauto using reads_only_within. Qed.

Lemma commits_once_within {A} (place : E → E) (m : script S E A) :
  commits_once m → commits_once (within place m).
Proof. induction m; simpl; by eauto using settled_within. Qed.

(** *** What the properties say of a run *)

(** A script that only reads leaves the session as it was, where it is
    stopped and where it ends. *)
Lemma reads_only_stops {A} tracer (m : script S E A) s c :
  reads_only m → c ∈ stops tracer m s → c.1 = s.
Proof.
  revert s c. induction m as [a|x|k IH|s' k IH|e k IH]; intros s c; simpl;
    [by intros _ ?%elem_of_nil..| |done|].
  - intros Hk [Hc|Hc]%elem_of_app; [|by eapply IH].
    destruct tracer; [|by apply elem_of_nil in Hc].
    by apply list_elem_of_singleton in Hc as ->.
  - intros Hk [->|(c' & -> & Hc')%list_elem_of_fmap]%elem_of_cons; [done|].
    destruct c'. by apply (IH s _ Hk Hc').
Qed.

Lemma reads_only_final {A} (m : script S E A) s :
  reads_only m → final_session (m s) = s.
Proof.
  revert s. induction m as [a|x|k IH|s' k IH|e k IH]; intros s; simpl;
    [done|done|by auto|done|].
  rewrite final_session_after. auto.
Qed.

(** A script that shows nothing cannot be stopped at a call of [st.*]. *)
Lemma silent_stops {A} (m : script S E A) s : silent m → stops false m s = [].
Proof.
  revert s. induction m as [a|x|k IH|s' k IH|e k IH]; intros s; simpl; by auto.
Qed.

Lemma stops_silent_bind {A B} (m : script S E A) (f : A → script S E B) s :
  silent m → stops false (m ≫= f) s = stops_continued false (m s) f.
Proof. intros Hm. by rewrite stops_bind silent_stops. Qed.

(** A script that has finished assigning once it shows an element can
    only be stopped, at a call of [st.*], with the session it ends with. *)
Lemma settled_stops {A} (m : script S E A) s c :
  settled m → c ∈ stops false m s → c.1 = final_session (m s).
Proof.
  revert s c. induction m as [a|x|k IH|s' k IH|e k IH]; intros s c; simpl;
    [by intros _ ?%elem_of_nil..|by eauto|by eauto|].
  rewrite final_session_after. intros Hk. rewrite reads_only_final //.
  intros [->|(c' & -> & Hc')%list_elem_of_fmap]%elem_of_cons; [done|].
  destruct c'. by apply (reads_only_stops false k s _ Hk Hc').
Qed.

(** A script that assigns in one block can only be stopped, at a call of
    [st.*], with the session it started from or the session it ends
    with. *)
Lemma commits_once_stops {A} (m : script S E A) s c :
  commits_once m → c ∈ stops false m s → c.1 = s ∨ c.1 = final_session (m s).
Proof.
  revert s c. induction m as [a|x|k IH|s' k IH|e k IH]; intros s c; simpl;
    [by intros _ ?%elem_of_nil..|by eauto| |].
  - intros Hk Hc. right. by apply settled_stops.
  - rewrite final_session_after.
    intros Hk [->|(c' & -> & Hc')%list_elem_of_fmap]%elem_of_cons; [by left|].
    destruct c'. by apply (IH s _ Hk Hc').
Qed.
End effects.

Create HintDb script_effects.
#[export] Hint Resolve reads_only_ret reads_only_get reads_only_emit
  reads_only_lift reads_only_widget_value silent_ret silent_get silent_put
  silent_lift : script_effects.

(** Prove that a script written with the primitives only reads, shows
    nothing, has finished assigning once it shows an element, or assigns in
    one block: statement by statement, by cases on the conditions. *)
Ltac reads_only_tac :=
  repeat first
    [ solve [eauto with script_effects]
    | apply reads_only_bind | apply reads_only_within
    | intros ?; cbv beta | case_match ].

Ltac silent_tac :=
  repeat first
    [ solve [eauto with script_effects]
    | apply silent_bind | intros ?; cbv beta | case_match ].

Ltac settled_tac :=
  repeat first
    [ apply reads_only_settled; solve [reads_only_tac]
    | apply silent_settled; solve [silent_tac]
    | apply settled_bind_silent; [solve [silent_tac]|intros ?; cbv beta]
    | apply settled_bind; [|solve [reads_only_tac]]
    | apply settled_within | case_match ].

Ltac commits_once_tac :=
  repeat first
    [ apply reads_only_commits_once; solve [reads_only_tac]
    | apply commits_once_bind_l; [solve [reads_only_tac]|intros ?; cbv beta]
    | apply commits_once_bind_r; [|solve [reads_only_tac]]
    | apply commits_once_within
    | apply settled_commits_once; solve [settled_tac]
    | case_match ].
