(* ===== verification/Server.v ===== *)
(** * Server: the browser sessions of one Streamlit server

    Both scripts keep their tables in [st.session_state] (lines 20 to 23 of
    [src/medipath.py], lines 17 to 25 of [src/medico.py]), and Streamlit
    holds one [st.session_state] per browser session: two users of one
    server have two tables.  This file states that scoping.  A server is a
    finite map from the ids of the browser sessions to their sessions; an
    id that is not in the map stands for a browser session that has not run
    the script yet.  An interaction of a browser session runs the script on
    the session of that id.

    The file is generic in the step a run makes ([step]), so that it serves
    whole runs and runs that may be stopped alike.  It proves that an
    interaction changes the session of its own id only
    ([session_of_serve_ne]), that interactions of different browser
    sessions commute ([serve_commute]), that after any interleaving each
    browser session holds what its own interactions, in their order, have
    made of it ([session_of_serve_all]), and that an invariant of the runs
    of one browser session holds in every session of a server
    ([serves_invariant]).  Servers are compared by the sessions they hold
    ([same_sessions], for which a browser session the server does not know
    holds the fresh session); the operations respect it, and the order in
    which the interactions of different browser sessions are taken up does
    not matter ([serve_all_interleaving]).

    The second half takes as step a run of a script that the next
    interaction may stop ([step_until] of Rerun): an interleaving is
    allowed exactly when the interactions of each browser session are
    allowed on their own ([served_ok_requests]), and the sessions of the
    servers reached are the sessions one browser session reaches
    ([serves_until_reach], [reach_until_serves]). *)

From stdpp Require Import gmap.
From S2P Require Import Prelude Script Rerun.

Section server.
Context {S Req : Type}.
Context (step : Req → S → S) (ok : S → Req → Prop) (start : S).

(** [st.session_state] of the browser session [sid]. *)
Definition session_of (σ : gmap nat S) (sid : nat) : S :=
  default start (σ !! sid).

(** One interaction of the browser session [sid]: a run on its session. *)
Definition serve (sid : nat) (req : Req) (σ : gmap nat S) : gmap nat S :=
  <[sid := step req (session_of σ sid)]> σ.

(** The server after a sequence of interactions of its browser sessions. *)
Definition serve_all (ints : list (nat * Req)) (σ : gmap nat S) : gmap nat S :=
  foldl (λ σ x, serve x.1 x.2 σ) σ ints.

(** The requests of the browser session [sid] among the interactions, in
    order. *)
Definition requests_of (sid : nat) (ints : list (nat * Req)) : list Req :=
  (filter (λ x, x.1 = sid) ints).*2.

(** Every interaction is allowed on the session it meets. *)
Fixpoint served_ok (ints : list (nat * Req)) (σ : gmap nat S) : Prop :=
  match ints with
  | [] => True
  | x :: ints => ok (session_of σ x.1) x.2 ∧ served_ok ints (serve x.1 x.2 σ)
  end.


(** Two servers hold the same sessions: a browser session that a server
    does not know holds the fresh session. *)
Definition same_sessions (σ σ' : gmap nat S) : Prop :=
  ∀ sid, session_of σ sid = session_of σ' sid.

(** The servers reached from the server without browser sessions. *)
Inductive serves : gmap nat S → Prop :=
  | serves_start : serves ∅
  | serves_step σ sid req :
      serves σ → ok (session_of σ sid) req → serves (serve sid req σ).

End server.

Section script_server_defs.
Context {S E Req : Type}.
Context (app : Req → script S E ()) (ok : S → Req → Prop) (start : S).
Context (tracer : bool).

(** One interaction of a browser session with the script: the request of
    its widgets and, when the next interaction stops the run, where. *)
Definition serve_until (sid : nat) (x : Req * option nat) (σ : gmap nat S)
    : gmap nat S :=
  serve (λ x, step_until app tracer x.1 x.2) start sid x σ.

Definition serve_all_until (ints : list (nat * (Req * option nat)))
    (σ : gmap nat S) : gmap nat S :=
  serve_all (λ x, step_until app tracer x.1 x.2) start ints σ.

(** The widgets of each browser session allow its requests. *)
Definition served_ok_until (ints : list (nat * (Req * option nat)))
    (σ : gmap nat S) : Prop :=
  served_ok (λ x, step_until app tracer x.1 x.2) (λ s x, ok s x.1) start
    ints σ.

(** The servers reached when the runs of the script may be stopped. *)
Definition serves_until : gmap nat S → Prop :=
  serves (λ x, step_until app tracer x.1 x.2) (λ s x, ok s x.1) start.
End script_server_defs.

Section server_lemmas.
Context {S Req : Type}.
Context (step : Req → S → S) (ok : S → Req → Prop) (start : S).

#[global] Instance served_ok_dec `{!∀ s req, Decision (ok s req)} ints σ :
  Decision (served_ok step ok start ints σ).
Proof. revert σ. induction ints; intros σ; apply _. Defined.

Implicit Types (σ : gmap nat S) (sid : nat) (req : Req)
  (ints : list (nat * Req)).

Lemma session_of_empty sid : session_of start ∅ sid = start.
Proof. by rewrite /session_of lookup_empty. Qed.

Lemma session_of_serve_eq sid req σ :
  session_of start (serve step start sid req σ) sid
  = step req (session_of start σ sid).
Proof. by rewrite /session_of /serve lookup_insert_eq. Qed.

(** An interaction leaves the sessions of the other browser sessions as
    they were. *)
Lemma session_of_serve_ne sid sid' req σ :
  sid ≠ sid' →
  session_of start (serve step start sid req σ) sid' = session_of start σ sid'.
Proof. intros. by rewrite /session_of /serve lookup_insert_ne. Qed.

(** Interactions of different browser sessions commute. *)
Lemma serve_commute sid sid' req req' σ :
  sid ≠ sid' →
  serve step start sid req (serve step start sid' req' σ)
  = serve step start sid' req' (serve step start sid req σ).
Proof.
  intros Hne. rewrite {1 3}/serve !session_of_serve_ne // /serve.
  by apply insert_insert_ne.
Qed.

Lemma requests_of_cons sid x ints :
  requests_of sid (x :: ints)
  = if decide (x.1 = sid) then x.2 :: requests_of sid ints
    else requests_of sid ints.
Proof. rewrite /requests_of filter_cons. by case_decide. Qed.

(** After any interleaving, a browser session holds what its own
    interactions, in their order, have made of its session. *)
Lemma session_of_serve_all ints σ sid :
  session_of start (serve_all step start ints σ) sid
  = foldl (λ s req, step req s) (session_of start σ sid)
      (requests_of sid ints).
Proof.
  revert σ. induction ints as [|[sid' req] ints IH]; intros σ; [done|].
  rewrite /= IH requests_of_cons /=. case_decide as Hsid.
  - by rewrite Hsid session_of_serve_eq.
  - by rewrite session_of_serve_ne.
Qed.

(** Two interleavings with the same requests per browser session leave the
    same server. *)
Lemma serve_all_requests ints1 ints2 σ sid :
  requests_of sid ints1 = requests_of sid ints2 →
  session_of start (serve_all step start ints1 σ) sid
  = session_of start (serve_all step start ints2 σ) sid.
Proof. intros Hreqs. by rewrite !session_of_serve_all Hreqs. Qed.

(** The executable pair [served_ok], [serve_all] reaches servers of
    [serves]. *)
Lemma serves_serve_all ints σ :
  serves step ok start σ → served_ok step ok start ints σ →
  serves step ok start (serve_all step start ints σ).
Proof.
  revert σ. induction ints as [|[sid req] ints IH]; intros σ Hσ; [done|].
  intros [Hok Hints]. apply IH; [|done]. by constructor.
Qed.

(** An invariant of the runs of one browser session holds in every session
    of a server. *)
Lemma serves_invariant (I : S → Prop) σ sid :
  I start → (∀ s req, I s → ok s req → I (step req s)) →
  serves step ok start σ → I (session_of start σ sid).
Proof.
  intros Hstart Hstep Hσ. revert sid.
  induction Hσ as [|σ sid' req _ IH Hok]; intros sid.
  { by rewrite session_of_empty. }
  destruct (decide (sid' = sid)) as [->|Hne].
  - rewrite session_of_serve_eq. by apply Hstep.
  - by rewrite session_of_serve_ne.
Qed.

#[global] Instance same_sessions_equivalence :
  Equivalence (same_sessions start).
Proof.
  split; [by intros σ sid|by intros σ σ' Hσ sid|].
  intros σ1 σ2 σ3 H12 H23 sid. by rewrite H12.
Qed.

#[global] Instance session_of_proper :
  Proper (same_sessions start ==> (=) ==> (=)) (session_of start).
Proof. by intros σ σ' Hσ sid _ <-. Qed.

#[global] Instance serve_proper sid req :
  Proper (same_sessions start ==> same_sessions start)
    (serve step start sid req).
Proof.
  intros σ σ' Hσ sid'. destruct (decide (sid = sid')) as [<-|].
  - by rewrite !session_of_serve_eq Hσ.
  - by rewrite !session_of_serve_ne.
Qed.

#[global] Instance serve_all_proper ints :
  Proper (same_sessions start ==> same_sessions start)
    (serve_all step start ints).
Proof. intros σ σ' Hσ sid. by rewrite !session_of_serve_all Hσ. Qed.

#[global] Instance served_ok_proper ints :
  Proper (same_sessions start ==> iff) (served_ok step ok start ints).
Proof.
  induction ints as [|[sid req] ints IH]; intros σ σ' Hσ; [done|].
  by rewrite /= (IH _ _ (serve_proper sid req _ _ Hσ)) Hσ.
Qed.

(** A server that holds the fresh session for a browser session holds the
    same sessions without it. *)
Lemma same_sessions_insert_start sid σ :
  same_sessions start (<[sid := start]> σ) (delete sid σ).
Proof.
  intros sid'. rewrite /session_of. destruct (decide (sid = sid')) as [<-|].
  - by rewrite lookup_insert_eq lookup_delete_eq.
  - by rewrite lookup_insert_ne // lookup_delete_ne.
Qed.

(** The order in which a server takes up the interactions of different
    browser sessions does not matter: two interleavings of the same
    requests per browser session leave the same sessions. *)
Lemma serve_all_interleaving ints1 ints2 σ :
  (∀ sid, requests_of sid ints1 = requests_of sid ints2) →
  same_sessions start (serve_all step start ints1 σ)
    (serve_all step start ints2 σ).
Proof. intros Hreqs sid. by apply serve_all_requests. Qed.

End server_lemmas.

Section script_server.
Context {S E Req : Type}.
Context (app : Req → script S E ()) (ok : S → Req → Prop) (start : S).
Implicit Types (σ : gmap nat S) (sid : nat)
  (ints : list (nat * (Req * option nat))).


(** After any interleaving of the interactions of its browser sessions, a
    server holds for each of them the session its own runs, whole or
    stopped, have left. *)
Lemma session_of_serve_all_until tracer ints σ sid :
  session_of start (serve_all_until app start tracer ints σ) sid
  = run_until app tracer (requests_of sid ints) (session_of start σ sid).
Proof. apply session_of_serve_all. Qed.


Lemma serves_until_serve_all tracer ints σ :
  serves_until app ok start tracer σ →
  served_ok_until app ok start tracer ints σ →
  serves_until app ok start tracer (serve_all_until app start tracer ints σ).
Proof. apply serves_serve_all. Qed.

(** Every session of a server is a session one browser session reaches. *)
Lemma serves_until_reach tracer σ sid :
  serves_until app ok start tracer σ →
  reach_until app ok start tracer (session_of start σ sid).
Proof.
  apply (serves_invariant _ _ _ (reach_until app ok start tracer));
    [constructor|].
  intros s [req stop] Hs Hok. by constructor.
Qed.

(** A session one browser session reaches is a session of a server on
    which no other browser session has run the script. *)
Lemma reach_until_serves tracer s sid :
  reach_until app ok start tracer s →
  ∃ σ, serves_until app ok start tracer σ ∧ session_of start σ sid = s
       ∧ ∀ sid', sid' ≠ sid → session_of start σ sid' = start.
Proof.
  induction 1 as [|s req stop _ (σ & Hσ & <- & Hothers) Hok].
  { exists ∅. split; [constructor|]. by split; intros; rewrite session_of_empty. }
  exists (serve_until app start tracer sid (req, stop) σ).
  split; [by constructor|]. rewrite /serve_until session_of_serve_eq.
  split; [done|]. intros sid' Hsid'. rewrite session_of_serve_ne; auto.
Qed.

(** Seen through the view of a sealed script, a server reached when the
    runs of its browser sessions are stopped at the calls of [st.*] is a
    server reached by whole runs. *)
Lemma serves_until_complete {V} (view : S → V) `{!Sealed app ok view} σ :
  serves_until app ok start false σ →
  ∃ σ', serves (λ req, final_session ∘ app req) ok start σ'
        ∧ ∀ sid, view (session_of start σ' sid) = view (session_of start σ sid).
Proof.
  induction 1 as [|σ sid [req stop] _ (σ' & Hσ' & Hview) Hok].
  { exists ∅. split; [constructor|done]. }
  pose (σ'' := serve (λ req, final_session ∘ app req) start sid req σ').
  assert (serves (λ req, final_session ∘ app req) ok start σ'') as Hrun.
  { constructor; [done|]. by eapply sealed_ok; [symmetry; apply Hview|]. }
  assert (∀ sid', sid ≠ sid' →
    view (session_of start σ'' sid')
    = view (session_of start (serve_until app start false sid (req, stop) σ) sid'))
    as Hne.
  { intros. by rewrite /serve_until !session_of_serve_ne. }
  destruct (step_until_cases app false req stop (session_of start σ sid))
    as [Hstep|(c & Hc & Hstep)].
  - exists σ''. split; [done|]. intros sid'.
    destruct (decide (sid = sid')) as [<-|]; [|auto].
    rewrite /serve_until !session_of_serve_eq /= Hstep. by apply sealed_run.
  - destruct (sealed_stops req _ c Hc) as [Hc'|Hc'].
    + exists σ'. split; [done|]. intros sid'.
      destruct (decide (sid = sid')) as [<-|].
      * by rewrite /serve_until session_of_serve_eq /= Hstep Hc'.
      * by rewrite /serve_until session_of_serve_ne.
    + exists σ''. split; [done|]. intros sid'.
      destruct (decide (sid = sid')) as [<-|]; [|auto].
      rewrite /serve_until !session_of_serve_eq /= Hstep Hc'. by apply sealed_run.
Qed.
End script_server.
