(* ===== verification/Pool.v ===== *)
(** * Pool: handlers in flight over shared tables

    Section 5 of the specification asks what the ledger does under
    concurrent callers.  The sources run one handler at a time, on the
    tables of one browser session; this file gives the setting in which the
    question can be put to them.  A handler in flight is a small machine
    whose steps are the statements of the handler, each one atomic on the
    shared tables; a pool is a list of such machines over one state, and a
    step of the pool is a step of one of them.

    The interfaces [Handler] and [Bounded] are what a handler promises: its
    step function, and a bound on the statements it has still to run;
    [HandlerLaws] says that every step uses the bound up, and that a
    handler has no step exactly when its bound is 0.  The bound is the fuel
    of [run_alone], and [run_alone_finished] shows that it is enough.
    Against the interface the file
    proves that every schedule terminates ([pool_step_sn]), within the sum of
    the bounds ([pool_nsteps_bound]); that a pool with an unfinished handler
    can step ([pool_progress]); that under every schedule all handlers
    eventually finish ([pool_eventually_finished]); that the executable
    scheduler follows the step relation ([run_schedule_rtc]); and that a
    handler run alone finishes within its bound ([run_alone_finished]).
    [PoolMedipath] and [PoolMedico] give the instances for the two sale
    handlers. *)

From S2P Require Import Prelude.

(** What a handler in flight is: one statement at a time on the shared
    state, [None] once the handler has finished. *)
Class Handler (T St : Type) : Type :=
  handler_step : T → St → option (T * St).
#[global] Hint Mode Handler ! ! : typeclass_instances.

(** How many statements a handler has at most still to run. *)
Class Bounded (T : Type) : Type :=
  handler_size : T → nat.
#[global] Hint Mode Bounded ! : typeclass_instances.

(** Every statement uses the bound up, and a handler has finished exactly
    when its bound is 0. *)
Class HandlerLaws (T St : Type) `{!Handler T St, !Bounded T} : Prop := {
  handler_step_size (t t' : T) (st st' : St) :
    handler_step t st = Some (t', st') → handler_size t' < handler_size t;
  handler_step_None (t : T) (st : St) :
    handler_step t st = None ↔ handler_size t = 0;
}.
#[global] Hint Mode HandlerLaws ! ! - - : typeclass_instances.

(** How a handler that was run ended: the sale was applied, it was refused
    for lack of stock, or a statement raised. *)
Inductive sale_outcome : Type :=
  | Accepted
  | Refused
  | Raised (e : exn).

#[export] Instance sale_outcome_eq_dec : EqDecision sale_outcome.
Proof. solve_decision. Defined.

Section pool.
Context {T St : Type} `{!Handler T St, !Bounded T}.
Implicit Types (t : T) (st : St) (pool : list T) (c : list T * St)
  (x : T * St) (i n : nat) (sched : list nat).

(** The handler has no statement left. *)
Definition finished t : Prop := handler_size t = 0.

(** The statements the handlers of a pool have at most still to run. *)
Definition pool_size pool : nat := sum_list_with handler_size pool.

(** One step of the pool: one handler runs one statement. *)
Inductive pool_step : relation (list T * St) :=
  | pool_step_handler pool st i t t' st' :
      pool !! i = Some t → handler_step t st = Some (t', st') →
      pool_step (pool, st) (<[i:=t']> pool, st').

(** The scheduler picks handler [i]: it runs one statement, if it has
    one. *)
Definition schedule_step i c : list T * St :=
  match c.1 !! i with
  | Some t =>
      match handler_step t c.2 with
      | Some (t', st') => (<[i:=t']> c.1, st')
      | None => c
      end
  | None => c
  end.

(** The pool after the scheduler made the picks [sched], in order. *)
Definition run_schedule sched c : list T * St :=
  foldl (λ c i, schedule_step i c) c sched.

(** One statement of a handler that runs with no other. *)
Definition step_alone (x : T * St) : T * St :=
  default x (handler_step x.1 x.2).

(** A handler run with no other, for as many statements as its bound
    allows. *)
Definition run_alone t st : T * St :=
  Nat.iter (handler_size t) step_alone (t, st).

(** The scheduler picks handler [i] and lets it run to its end before any
    other handler runs: the handler as a critical section. *)
Definition schedule_atomic i c : list T * St :=
  match c.1 !! i with
  | Some t => let '(t', st') := run_alone t c.2 in (<[i:=t']> c.1, st')
  | None => c
  end.

(** The pool after the handlers [sched] ran one after the other, each to
    its end. *)
Definition run_atomic sched c : list T * St :=
  foldl (λ c i, schedule_atomic i c) c sched.

(** [Q] holds now or, whatever step the pool takes, later. *)
Inductive eventually (Q : list T * St → Prop) (c : list T * St) : Prop :=
  | eventually_now : Q c → eventually Q c
  | eventually_later :
      red pool_step c → (∀ c', pool_step c c' → eventually Q c') →
      eventually Q c.

#[export] Instance finished_dec t : Decision (finished t).
Proof. apply _. Defined.
End pool.

Section pool_lemmas.
Context {T St : Type} `{!Handler T St, !Bounded T, !HandlerLaws T St}.
Implicit Types (t : T) (st : St) (pool : list T) (c : list T * St)
  (x : T * St) (i n : nat) (sched : list nat).

Lemma finished_step t st : finished t ↔ handler_step t st = None.
Proof. by rewrite handler_step_None. Qed.

Lemma pool_size_insert pool i t t' :
  pool !! i = Some t →
  pool_size (<[i:=t']> pool) + handler_size t = pool_size pool + handler_size t'.
Proof. apply sum_list_with_insert. Qed.

(** A step of the pool uses the bound of the pool up. *)
Lemma pool_step_size c c' : pool_step c c' → pool_size c'.1 < pool_size c.1.
Proof.
  intros [pool st i t t' st' Hi Hstep]. simpl.
  pose proof (pool_size_insert pool i t t' Hi).
  apply handler_step_size in Hstep. lia.
Qed.

(** Every schedule terminates. *)
Lemma pool_step_sn c : sn pool_step c.
Proof.
  remember (pool_size c.1) as n eqn:Hn. revert c Hn.
  induction (lt_wf n) as [n _ IH]. intros c ->.
  constructor. intros c' Hstep%pool_step_size. by eapply IH.
Qed.

(** A run of [n] steps is no longer than the bound of the pool it starts
    from. *)
Lemma pool_nsteps_bound n c c' :
  nsteps pool_step n c c' → n + pool_size c'.1 ≤ pool_size c.1.
Proof.
  induction 1 as [|n c1 c2 c3 Hstep%pool_step_size _ IH]; [done|]. lia.
Qed.

(** A pool can step exactly when one of its handlers has not finished. *)
Lemma pool_red c : red pool_step c ↔ ¬ Forall finished c.1.
Proof.
  destruct c as [pool st]. split.
  - intros [c' Hstep] Hall. inversion Hstep as [?? i t t' st' Hi Ht]; subst.
    eapply Forall_lookup_1 in Hall; [|done]. apply (finished_step _ st) in Hall.
    congruence.
  - intros (t & Hin & Hnot)%not_Forall_Exists%Exists_exists; [|apply _].
    apply list_elem_of_lookup in Hin as [i Hi].
    destruct (handler_step t st) as [[t' st']|] eqn:Hstep.
    + eexists. by econstructor.
    + by apply finished_step in Hstep.
Qed.

(** Progress: a pool with a handler that has not finished takes a step. *)
Lemma pool_progress c : Forall finished c.1 ∨ red pool_step c.
Proof.
  destruct (decide (Forall finished c.1)); [by left|right]. by apply pool_red.
Qed.

(** Under every schedule all handlers eventually finish. *)
Lemma pool_eventually_finished c : eventually (λ c, Forall finished c.1) c.
Proof.
  induction (pool_step_sn c) as [c _ IH].
  destruct (pool_progress c) as [?|?]; [by left|]. right; [done|]. apply IH.
Qed.

Lemma eventually_impl (Q Q' : list T * St → Prop) c :
  (∀ c, Q c → Q' c) → eventually Q c → eventually Q' c.
Proof. intros HQ. induction 1 as [c ?|c ? _ IH]; [left; auto|by right]. Qed.

(** What holds at the start and is kept by every step holds after any
    number of steps. *)
Lemma pool_invariant (I : list T * St → Prop) c c' :
  (∀ c1 c2, I c1 → pool_step c1 c2 → I c2) → I c → rtc pool_step c c' → I c'.
Proof. intros Hstep Hc Hrtc. induction Hrtc; eauto. Qed.

(** A pick of the scheduler is a step of the pool, or nothing. *)
Lemma schedule_step_spec i c :
  schedule_step i c = c ∨ pool_step c (schedule_step i c).
Proof.
  destruct c as [pool st]. rewrite /schedule_step /=.
  destruct (pool !! i) as [t|] eqn:Hi; [|by left].
  destruct (handler_step t st) as [[t' st']|] eqn:Hstep; [|by left].
  right. by econstructor.
Qed.

(** The executable scheduler follows the step relation. *)
Lemma run_schedule_rtc sched c : rtc pool_step c (run_schedule sched c).
Proof.
  revert c. induction sched as [|i sched IH]; intros c; [done|]. simpl.
  destruct (schedule_step_spec i c) as [->|Hstep]; [done|]. by eapply rtc_l.
Qed.

(** Every sequence of steps is the run of a schedule. *)
Lemma rtc_run_schedule c c' :
  rtc pool_step c c' → ∃ sched, c' = run_schedule sched c.
Proof.
  induction 1 as [c|c1 c2 c3 Hstep _ [sched ->]]; [by exists []|].
  destruct Hstep as [pool st i t t' st' Hi Ht]. exists (i :: sched).
  by rewrite /= /schedule_step /= Hi Ht.
Qed.

Lemma step_alone_size x :
  handler_size (step_alone x).1 ≤ pred (handler_size x.1).
Proof.
  destruct x as [t st]. rewrite /step_alone /=.
  destruct (handler_step t st) as [[t' st']|] eqn:Hstep; simpl.
  - apply handler_step_size in Hstep. lia.
  - apply handler_step_None in Hstep. lia.
Qed.

Lemma iter_step_alone_size n x :
  handler_size (Nat.iter n step_alone x).1 ≤ handler_size x.1 - n.
Proof.
  induction n as [|n IH]; simpl; [lia|].
  pose proof (step_alone_size (Nat.iter n step_alone x)). lia.
Qed.

(** The bound is enough: a handler run alone has finished. *)
Lemma run_alone_finished t st : finished (run_alone t st).1.
Proof.
  pose proof (iter_step_alone_size (handler_size t) (t, st)) as Hle.
  rewrite /finished /run_alone. simpl in Hle. lia.
Qed.

(** Running a finished handler changes nothing. *)
Lemma run_alone_done t st : finished t → run_alone t st = (t, st).
Proof. rewrite /run_alone /finished. by intros ->. Qed.

Lemma iter_step_alone_finished n x :
  finished x.1 → Nat.iter n step_alone x = x.
Proof.
  intros Hfin. induction n as [|n IH]; [done|]. rewrite /= IH.
  destruct x as [t st]. apply (finished_step _ st) in Hfin.
  by rewrite /step_alone /= Hfin.
Qed.

Lemma run_atomic_cons i sched c :
  run_atomic (i :: sched) c = run_atomic sched (schedule_atomic i c).
Proof. done. Qed.

(** A handler of the pool run as a critical section. *)
Lemma schedule_atomic_Some i pool st t t' st' :
  pool !! i = Some t → run_alone t st = (t', st') →
  schedule_atomic i (pool, st) = (<[i:=t']> pool, st').
Proof. rewrite /schedule_atomic /=. by intros -> ->. Qed.

(** A handler run alone, one statement after the other. *)
Lemma run_alone_step t st t' st' :
  handler_step t st = Some (t', st') → run_alone t st = run_alone t' st'.
Proof.
  intros Hstep. pose proof (handler_step_size _ _ _ _ Hstep) as Hlt.
  rewrite /run_alone.
  replace (handler_size t)
    with (S (handler_size t - S (handler_size t') + handler_size t')) by lia.
  assert (step_alone (t, st) = (t', st')) as Hone
    by by rewrite /step_alone /= Hstep.
  rewrite Nat.iter_succ_r Nat.iter_add Hone.
  apply iter_step_alone_finished, run_alone_finished.
Qed.
End pool_lemmas.
