(* ===== verification/Medipath.v ===== *)
(** * Medipath: the application of [src/medipath.py]

    One table, [products], with a cumulative counter per row.  The file
    holds the row record, the session, the elements a run hands to
    Streamlit (texts, widgets, status elements, charts, tables, each in its
    container), the four pages written statement by statement in the
    [script] monad, the script with its preamble, the dispatch on the
    sidebar choice and the footer, what the widgets allow a request to
    carry, and the sessions a browser session can reach.  Then the reference
    definitions the theorems compare the pages with, the invariants, and
    the theorems:

    - each page run on an initialised session equals a closed form
      ([record_sale_closed], [save_product_closed], [mp_dashboard_closed],
      [expiry_alerts_closed]), and a run of the script is the page between
      the preamble and the footer ([medipath_script_run]);
    - the Dashboard raises ValueError exactly on a table with a negative
      cell, or with a column of zeros that the library does not draw
      ([mp_dashboard_value_error]); what the library does with a pie of
      zeros is the parameter [PieChart] of every section;
    - what Add / Update Products saved under a fresh name is what Sales
      Entry finds ([save_product_then_sale]);
    - Stock and Total Sales are never negative ([mp_runs_nonneg]);
    - rows are never removed or reordered, name, price and expiry date of a
      row never change, and Stock + Total Sales of a row is the stock that
      was entered for it ([mp_runs_static]);
    - a run that raises or shows an error changes nothing
      ([mp_failed_run_unchanged]); no run on an allowed request raises
      ([medipath_script_no_raise]);
    - a row that follows a row with the same name is never sold from
      ([mp_run_shadowed]). *)

From S2P Require Import Prelude Amount Frame Script.

(** What matplotlib makes of a pie whose values are all zero.  [ax.pie]
    divides the values by their sum and builds one wedge per value; with a
    sum of zero the angles are not numbers, and whether a figure comes out
    or building a wedge raises depends on the library and on the number of
    wedges.  The sources do not guard against it, and the development
    leaves it open: [draws_zeros x] says whether the library draws the pie
    of the zeros [x] or raises ValueError, and the theorems hold whatever
    it says. *)
Class PieChart : Type :=
  draws_zeros : list (string * Z) → bool.

Section medipath.
Context `{Amount P, !PieChart}.

(** ** Data *)

(** A row of [products]: the columns Product Name, Stock, Price,
    Expiry Date and Total Sales. *)
Record ProductRow : Type := {
  Product_Name : string;
  Stock : Z;
  Price : P;
  Expiry_Date : date;
  Total_Sales : Z;
}.

(** Assignment to the Stock cell of a row. *)
Definition set_Stock (v : Z) (r : ProductRow) : ProductRow :=
  {| Product_Name := Product_Name r; Stock := v; Price := Price r;
     Expiry_Date := Expiry_Date r; Total_Sales := Total_Sales r |}.

(** Assignment to the Total Sales cell of a row. *)
Definition set_Total_Sales (v : Z) (r : ProductRow) : ProductRow :=
  {| Product_Name := Product_Name r; Stock := Stock r; Price := Price r;
     Expiry_Date := Expiry_Date r; Total_Sales := v |}.

(** [st.session_state]: the key [products] is absent until the first run
    has initialised it. *)
Record mp_session : Type := { mp_products : option (list ProductRow) }.

(** The texts of the status elements, by the statement that shows them. *)
Inductive mp_message : Type :=
  | No_product_data
  | Product_added (product_name : string)
  | Add_products_first
  | Sale_recorded (product : string)
  | Not_enough_stock
  | No_products_available
  | None_expiring
  | Expiring_within_30_days.

(** The texts of the title, the headers and the subheaders, by the
    statement that shows them. *)
Inductive mp_caption : Type :=
  | Medimate
  | Navigation
  | Sales_and_Stock_Dashboard
  | Highest_Sales_by_Product
  | Highest_Stock_by_Product
  | Current_Product_Data
  | Add_or_Update_Products
  | Product_List
  | Record_Sales
  | Expiry_Date_Alerts.

(** The input widgets, by the statement that creates them; the select box
    carries the options it offers. *)
Inductive mp_widget : Type :=
  | Go_to_radio
  | Product_Name_input
  | Stock_Quantity_input
  | Price_per_Unit_input
  | Expiry_Date_input
  | Save_Product_button
  | Select_Product_box (options : list string)
  | Quantity_Sold_input
  | Record_Sale_button.

(** What a run hands to Streamlit, in order: the page configuration, a text
    element, an input widget, the column layout, a status element, the
    figure with the pie of a series, a table, the rule of the footer; and
    an element placed in a container. *)
Inductive mp_element : Type :=
  | mp_page_config
  | mp_text (k : text_kind) (t : mp_caption)
  | mp_input (w : mp_widget)
  | mp_columns (n : nat)
  | mp_status (l : level) (m : mp_message)
  | mp_pie (series : list (string * Z))
  | mp_dataframe (rows : list (nat * ProductRow))
  | mp_rule
  | mp_in (c : container) (e : mp_element).

(** The element itself, out of the containers it is placed in. *)
Fixpoint mp_content (e : mp_element) : mp_element :=
  match e with
  | mp_in _ e => mp_content e
  | _ => e
  end.

(** The status elements among the elements of a run, in order. *)
Definition mp_statuses (out : list mp_element) : list (level * mp_message) :=
  omap (λ e, match mp_content e with
             | mp_status l m => Some (l, m)
             | _ => None
             end) out.

(** The values of the form on the page Add / Update Products. *)
Record product_form : Type := {
  pf_product_name : string;
  pf_stock : Z;
  pf_price : P;
  pf_expiry_date : date;
  pf_submitted : bool;
}.

(** The values of the widgets on the page Sales Entry. *)
Record sale_form : Type := {
  sf_product : string;
  sf_quantity_sold : Z;
  sf_record_sale : bool;
}.

(** One interaction: the sidebar choice with the widget values of the
    chosen page; [today] is what [datetime.today().date()] returns. *)
Inductive mp_request : Type :=
  | Dashboard_page
  | Products_page (f : product_form)
  | Sales_page (f : sale_form)
  | Alerts_page (today : date).

(** ** Session access *)

(** The expression [st.session_state.products]. *)
Definition mp_read_products : script mp_session mp_element (list ProductRow) :=
  ss ← get_session;
  match mp_products ss with
  | Some products => mret products
  | None => lift_result (Raise AttributeError)
  end.

(** The assignment [st.session_state.products = df]. *)
Definition mp_write_products (df : list ProductRow)
    : script mp_session mp_element () :=
  put_session {| mp_products := Some df |}.

(** [st.session_state.products.at[idx, col] op= v] *)
Definition mp_update_at (idx : nat) (f : ProductRow → ProductRow)
    : script mp_session mp_element () :=
  products ← mp_read_products;
  products' ← lift_result (at_update idx f products);
  mp_write_products products'.

(** The first statements of the script: create the table when the session
    does not hold it yet. *)
Definition mp_init_session : script mp_session mp_element () :=
  ss ← get_session;
  match mp_products ss with
  | None => mp_write_products (empty_frame ProductRow)
  | Some _ => mret ()
  end.

(** ** Pages *)

(** [ax.pie(x, labels=x.index, autopct=...)]: matplotlib refuses a negative
    wedge size with ValueError; values that are all zero are left to
    [draws_zeros]; otherwise the figure is the series it was given. *)
Definition pie (x : list (string * Z)) : result (list (string * Z)) :=
  if decide (Forall (λ kv, (0 ≤ kv.2)%Z) x) then
    if decide (Forall (λ kv, kv.2 = 0%Z) x) then
      if draws_zeros x then Ok x else Raise ValueError
    else Ok x
  else Raise ValueError.

(** Dashboard: a notice when there is no product; otherwise two columns,
    each with the pie chart of a column of the table by product name, and
    the table below them. *)
Definition mp_dashboard : script mp_session mp_element () :=
  emit (mp_text Header Sales_and_Stock_Dashboard);;
  products ← mp_read_products;
  if frame_empty products then emit (mp_status Info No_product_data)
  else
    emit (mp_columns 2);;
    within (mp_in (Column 0))
      (emit (mp_text Subheader Highest_Sales_by_Product);;
       products ← mp_read_products;
       let sales_data := set_index_column Product_Name Total_Sales products in
       fig1 ← lift_result (pie sales_data);
       emit (mp_pie fig1));;
    within (mp_in (Column 1))
      (emit (mp_text Subheader Highest_Stock_by_Product);;
       products ← mp_read_products;
       let stock_data := set_index_column Product_Name Stock products in
       fig2 ← lift_result (pie stock_data);
       emit (mp_pie fig2));;
    emit (mp_text Subheader Current_Product_Data);;
    products ← mp_read_products;
    emit (mp_dataframe (indexed products)).

(** Add / Update Products: the form with its five widgets; a submitted form
    appends a row with Total Sales 0 and reports it inside the form; the
    page then shows the table. *)
Definition save_product (f : product_form) : script mp_session mp_element () :=
  emit (mp_text Header Add_or_Update_Products);;
  within (mp_in Form)
    (product_name ← widget_value (mp_input Product_Name_input) (pf_product_name f);
     stock ← widget_value (mp_input Stock_Quantity_input) (pf_stock f);
     price ← widget_value (mp_input Price_per_Unit_input) (pf_price f);
     expiry_date ← widget_value (mp_input Expiry_Date_input) (pf_expiry_date f);
     submitted ← widget_value (mp_input Save_Product_button) (pf_submitted f);
     if (submitted : bool) then
       let new_product :=
         {| Product_Name := product_name; Stock := stock; Price := price;
            Expiry_Date := expiry_date; Total_Sales := 0 |} in
       products ← mp_read_products;
       mp_write_products (concat_row products new_product);;
       emit (mp_status Success (Product_added product_name))
     else mret ());;
  emit (mp_text Subheader Product_List);;
  products ← mp_read_products;
  emit (mp_dataframe (indexed products)).

(** Sales Entry: a warning when there is no product; otherwise the select
    box over the names of the table, the quantity and the button.  On a
    click, the first row with the selected name is located; when its stock
    covers the quantity, Stock is decremented and Total Sales incremented on
    that row. *)
Definition record_sale (f : sale_form) : script mp_session mp_element () :=
  emit (mp_text Header Record_Sales);;
  products ← mp_read_products;
  if frame_empty products then emit (mp_status Warning Add_products_first)
  else
    products ← mp_read_products;
    product ← widget_value
      (mp_input (Select_Product_box (Product_Name <$> products))) (sf_product f);
    quantity_sold ← widget_value (mp_input Quantity_Sold_input) (sf_quantity_sold f);
    clicked ← widget_value (mp_input Record_Sale_button) (sf_record_sale f);
    if (clicked : bool) then
      products ← mp_read_products;
      idx ← lift_result
        (index0 (mask (λ r, Product_Name r = product) (indexed products)));
      products ← mp_read_products;
      stock ← lift_result (at_get idx Stock products);
      if decide (stock >= quantity_sold)%Z then
        mp_update_at idx (λ r, set_Stock (Stock r - quantity_sold) r);;
        mp_update_at idx (λ r, set_Total_Sales (Total_Sales r + quantity_sold) r);;
        emit (mp_status Success (Sale_recorded product))
      else emit (mp_status Error Not_enough_stock)
    else mret ().

(** Expiry Alerts: the rows whose expiry date is at most thirty days
    ahead. *)
Definition expiry_alerts (today : date) : script mp_session mp_element () :=
  emit (mp_text Header Expiry_Date_Alerts);;
  products ← mp_read_products;
  if frame_empty products then emit (mp_status Info No_products_available)
  else
    let alert_date := (today + timedelta 30)%Z in
    products ← mp_read_products;
    let expiring_products :=
      mask (λ r, (Expiry_Date r ≤ alert_date)%Z) (indexed products) in
    if frame_empty expiring_products
    then emit (mp_status Success None_expiring)
    else
      emit (mp_status Warning Expiring_within_30_days);;
      emit (mp_dataframe expiring_products).

(** ** The script *)

(** One run: the page configuration and the title, the initialisation of
    the session, the sidebar with the choice of the page, the chosen page,
    and the rule of the footer. *)
Definition medipath_script (req : mp_request)
    : script mp_session mp_element () :=
  emit mp_page_config;;
  emit (mp_text Title Medimate);;
  mp_init_session;;
  emit (mp_in Sidebar (mp_text Title Navigation));;
  page ← widget_value (mp_in Sidebar (mp_input Go_to_radio)) req;
  match (page : mp_request) with
  | Dashboard_page => mp_dashboard
  | Products_page f => save_product f
  | Sales_page f => record_sale f
  | Alerts_page today => expiry_alerts today
  end;;
  emit mp_rule.

(** ** What the widgets allow *)

(** [st.number_input("Stock Quantity", min_value=0)] and
    [st.number_input("Price per Unit", min_value=0.0)]. *)
Definition product_form_ok (f : product_form) : Prop :=
  (0 ≤ pf_stock f)%Z ∧ amount_le (amount_of_int 0) (pf_price f).

(** [st.selectbox("Select Product", products["Product Name"])] and
    [st.number_input("Quantity Sold", min_value=1)]: the widgets are
    rendered only when the table has rows. *)
Definition sale_form_ok (products : list ProductRow) (f : sale_form) : Prop :=
  products ≠ [] →
  sf_product f ∈ Product_Name <$> products ∧ (1 ≤ sf_quantity_sold f)%Z.

(** The table a session holds; none before the first run. *)
Definition mp_table (ss : mp_session) : list ProductRow :=
  default [] (mp_products ss).

(** A request the widgets can produce on a session. *)
Definition mp_request_ok (ss : mp_session) (req : mp_request) : Prop :=
  match req with
  | Dashboard_page => True
  | Products_page f => product_form_ok f
  | Sales_page f => sale_form_ok (mp_table ss) f
  | Alerts_page _ => True
  end.

(** ** Sequences of runs *)

(** The session after one run. *)
Definition mp_step (req : mp_request) (ss : mp_session) : mp_session :=
  final_session (medipath_script req ss).

(** The session of a browser session that has not run the script yet. *)
Definition mp_start : mp_session := {| mp_products := None |}.

(** The session after a sequence of runs. *)
Definition mp_run (reqs : list mp_request) (ss : mp_session) : mp_session :=
  foldl (λ ss req, mp_step req ss) ss reqs.

(** Every request of a sequence is allowed on the session it meets. *)
Fixpoint mp_trace_ok (reqs : list mp_request) (ss : mp_session) : Prop :=
  match reqs with
  | [] => True
  | req :: reqs => mp_request_ok ss req ∧ mp_trace_ok reqs (mp_step req ss)
  end.

(** [mp_runs reqs ss]: a browser session that started fresh and made the
    interactions [reqs], each allowed by the widgets, holds [ss]. *)
Inductive mp_runs : list mp_request → mp_session → Prop :=
  | mp_runs_start : mp_runs [] mp_start
  | mp_runs_step reqs ss req :
      mp_runs reqs ss → mp_request_ok ss req →
      mp_runs (reqs ++ [req]) (mp_step req ss).

(** The product forms submitted in a sequence of requests, in order. *)
Definition submitted_products (reqs : list mp_request) : list product_form :=
  omap (λ req, match req with
               | Products_page f => if pf_submitted f then Some f else None
               | _ => None
               end) reqs.

(** ** Reference definitions and invariants *)

(** The row a product form describes; Total Sales starts at 0. *)
Definition new_product_row (f : product_form) : ProductRow :=
  {| Product_Name := pf_product_name f; Stock := pf_stock f;
     Price := pf_price f; Expiry_Date := pf_expiry_date f; Total_Sales := 0 |}.

(** What an accepted sale of [q] units does to a row. *)
Definition sell (q : Z) (r : ProductRow) : ProductRow :=
  set_Total_Sales (Total_Sales r + q) (set_Stock (Stock r - q) r).

(** What every run shows before the page, and what a run whose page did
    not raise shows after it. *)
Definition mp_preamble : list mp_element :=
  [mp_page_config; mp_text Title Medimate;
   mp_in Sidebar (mp_text Title Navigation); mp_in Sidebar (mp_input Go_to_radio)].

(** The run of the script, from the run [x] of its page. *)
Definition mp_whole_run (x : mp_session * list mp_element * result ())
    : mp_session * list mp_element * result () :=
  (final_session x,
   mp_preamble ++ emitted x ++ (if outcome x is Ok _ then [mp_rule] else []),
   outcome x).

(** The header and the widgets of Sales Entry on a table with rows. *)
Definition sale_widgets (products : list ProductRow) : list mp_element :=
  [mp_text Header Record_Sales;
   mp_input (Select_Product_box (Product_Name <$> products));
   mp_input Quantity_Sold_input; mp_input Record_Sale_button].

(** The run of Sales Entry on a session that holds [products], in closed
    form: final session, elements shown, outcome. *)
Definition record_sale_spec (f : sale_form) (products : list ProductRow)
    : mp_session * list mp_element * result () :=
  let ss := {| mp_products := Some products |} in
  if frame_empty products
  then (ss, [mp_text Header Record_Sales; mp_status Warning Add_products_first],
        Ok ())
  else if sf_record_sale f then
    match list_find (λ r, Product_Name r = sf_product f) products with
    | None => (ss, sale_widgets products, Raise IndexError)
    | Some (i, r) =>
        if decide (Stock r >= sf_quantity_sold f)%Z
        then ({| mp_products :=
                   Some (alter (sell (sf_quantity_sold f)) i products) |},
              sale_widgets products
              ++ [mp_status Success (Sale_recorded (sf_product f))], Ok ())
        else (ss, sale_widgets products ++ [mp_status Error Not_enough_stock],
              Ok ())
    end
  else (ss, sale_widgets products, Ok ()).

(** The form of Add / Update Products and what follows it, on a session
    that ends up holding [products']. *)
Definition product_widgets : list mp_element :=
  mp_in Form <$> [mp_input Product_Name_input; mp_input Stock_Quantity_input;
                  mp_input Price_per_Unit_input; mp_input Expiry_Date_input;
                  mp_input Save_Product_button].

(** The run of Add / Update Products on a session that holds [products],
    in closed form. *)
Definition save_product_spec (f : product_form) (products : list ProductRow)
    : mp_session * list mp_element * result () :=
  let products' :=
    if pf_submitted f then concat_row products (new_product_row f)
    else products in
  ({| mp_products := Some products' |},
   mp_text Header Add_or_Update_Products :: product_widgets
   ++ (if pf_submitted f
       then [mp_in Form (mp_status Success (Product_added (pf_product_name f)))]
       else [])
   ++ [mp_text Subheader Product_List; mp_dataframe (indexed products')],
   Ok ()).

(** The run of the Dashboard on a session that holds [products], in closed
    form: the page stops at the first pie chart that raises. *)
Definition mp_dashboard_spec (products : list ProductRow)
    : mp_session * list mp_element * result () :=
  let ss := {| mp_products := Some products |} in
  let sales_data := set_index_column Product_Name Total_Sales products in
  let stock_data := set_index_column Product_Name Stock products in
  let top := [mp_text Header Sales_and_Stock_Dashboard; mp_columns 2;
              mp_in (Column 0) (mp_text Subheader Highest_Sales_by_Product)] in
  if frame_empty products
  then (ss, [mp_text Header Sales_and_Stock_Dashboard;
             mp_status Info No_product_data], Ok ())
  else
    match pie sales_data with
    | Raise e => (ss, top, Raise e)
    | Ok fig1 =>
        let left :=
          top ++ [mp_in (Column 0) (mp_pie fig1);
                  mp_in (Column 1) (mp_text Subheader Highest_Stock_by_Product)] in
        match pie stock_data with
        | Raise e => (ss, left, Raise e)
        | Ok fig2 =>
            (ss, left ++ [mp_in (Column 1) (mp_pie fig2);
                          mp_text Subheader Current_Product_Data;
                          mp_dataframe (indexed products)], Ok ())
        end
    end.

(** A table whose two charts have a value that is not zero: a row with
    units sold and a row with units in stock. *)
Definition mp_plottable (products : list ProductRow) : Prop :=
  Exists (λ r, Total_Sales r ≠ 0%Z) products
  ∧ Exists (λ r, Stock r ≠ 0%Z) products.

(** The library draws the pie of a column: always when a value is not zero,
    and as [draws_zeros] says when all are. *)
Definition mp_drawn (col : ProductRow → Z) (products : list ProductRow) : Prop :=
  Forall (λ r, col r = 0%Z) products →
  draws_zeros (set_index_column Product_Name col products) = true.

(** The tables on which the Dashboard ends normally: those without rows,
    and those without a negative cell whose two pies the library draws. *)
Definition mp_charts_ok (products : list ProductRow) : Prop :=
  products = []
  ∨ (Forall (λ r, (0 ≤ Stock r)%Z ∧ (0 ≤ Total_Sales r)%Z) products
     ∧ mp_drawn Total_Sales products ∧ mp_drawn Stock products).

(** The run of Expiry Alerts on a session that holds [products], in closed
    form. *)
Definition expiry_alerts_spec (today : date) (products : list ProductRow)
    : mp_session * list mp_element * result () :=
  let expiring_products :=
    mask (λ r, (Expiry_Date r ≤ today + 30)%Z) (indexed products) in
  ({| mp_products := Some products |},
   mp_text Header Expiry_Date_Alerts ::
   (if frame_empty products then [mp_status Info No_products_available]
    else if frame_empty expiring_products then [mp_status Success None_expiring]
    else [mp_status Warning Expiring_within_30_days;
          mp_dataframe expiring_products]),
   Ok ()).

(** The page a request chooses. *)
Definition mp_page (req : mp_request) : script mp_session mp_element () :=
  match req with
  | Dashboard_page => mp_dashboard
  | Products_page f => save_product f
  | Sales_page f => record_sale f
  | Alerts_page today => expiry_alerts today
  end.

(** Stock and Total Sales of a row are not negative. *)
Definition row_ok (r : ProductRow) : Prop :=
  (0 ≤ Stock r)%Z ∧ (0 ≤ Total_Sales r)%Z.

(** Units on hand plus units sold. *)
Definition row_total (r : ProductRow) : Z := (Stock r + Total_Sales r)%Z.

(** What no run changes in a row: name, price, expiry date and
    Stock + Total Sales. *)
Definition row_static (r : ProductRow) : string * P * date * Z :=
  (Product_Name r, Price r, Expiry_Date r, row_total r).

(** The same four values as a product form gives them. *)
Definition form_static (f : product_form) : string * P * date * Z :=
  (pf_product_name f, pf_price f, pf_expiry_date f, pf_stock f).

(** A row is shadowed when an earlier row carries the same name. *)
Definition shadowed (products : list ProductRow) (j : nat) : Prop :=
  ∃ i r rj, i < j ∧ products !! i = Some r ∧ products !! j = Some rj
            ∧ Product_Name r = Product_Name rj.
End medipath.

Arguments ProductRow : clear implicits.
Arguments mp_session : clear implicits.
Arguments mp_element : clear implicits.
Arguments product_form : clear implicits.
Arguments mp_request : clear implicits.

(** ** Decision procedures *)

#[export] Instance ProductRow_eq_dec `{Amount P} : EqDecision (ProductRow P).
Proof. solve_decision. Defined.

#[export] Instance row_ok_dec `{Amount P} (r : ProductRow P) : Decision (row_ok r).
Proof. apply _. Defined.

#[export] Instance product_form_ok_dec `{Amount P} (f : product_form P) :
  Decision (product_form_ok f).
Proof. apply _. Defined.

#[export] Instance sale_form_ok_dec `{Amount P} (products : list (ProductRow P))
  (f : sale_form) : Decision (sale_form_ok products f).
Proof. apply _. Defined.

#[export] Instance mp_request_ok_dec `{Amount P} (ss : mp_session P)
  (req : mp_request P) : Decision (mp_request_ok ss req).
Proof. destruct req; apply _. Defined.

#[export] Instance mp_plottable_dec `{Amount P} (products : list (ProductRow P)) :
  Decision (mp_plottable products).
Proof. apply _. Defined.

#[export] Instance mp_drawn_dec `{Amount P, !PieChart} (col : ProductRow P → Z)
  (products : list (ProductRow P)) : Decision (mp_drawn col products).
Proof. apply _. Defined.

#[export] Instance mp_charts_ok_dec `{Amount P, !PieChart}
  (products : list (ProductRow P)) : Decision (mp_charts_ok products).
Proof. apply _. Defined.

#[export] Instance mp_trace_ok_dec `{Amount P, !PieChart}
  (reqs : list (mp_request P)) (ss : mp_session P) :
  Decision (mp_trace_ok reqs ss).
Proof. revert ss. induction reqs; intros ss; apply _. Defined.

(** ** A concrete session, used where a theorem is applied to an input *)

(** Twenty units of one product at price 5, expiring on day 739900. *)
Definition paracetamol : product_form Z :=
  {| pf_product_name := "Paracetamol"; pf_stock := 20; pf_price := 5%Z;
     pf_expiry_date := 739900%Z; pf_submitted := true |}.

(** A sale of [q] units of that product. *)
Definition paracetamol_sale (q : Z) : sale_form :=
  {| sf_product := "Paracetamol"; sf_quantity_sold := q;
     sf_record_sale := true |}.

(** The product is added, five units are sold, then twenty are asked for. *)
Definition paracetamol_trace : list (mp_request Z) :=
  [Products_page paracetamol; Sales_page (paracetamol_sale 5);
   Sales_page (paracetamol_sale 20)].

(** The table once the product is added. *)
Definition paracetamol_table : list (ProductRow Z) :=
  [new_product_row paracetamol].

(** ** Running the session primitives *)

Section medipath_run.
Context `{Amount P, !PieChart}.
Implicit Types (ss : mp_session P) (products : list (ProductRow P))
  (r : ProductRow P) (i : nat).

Lemma run_mp_read_products_bind {B} (f : _ → script _ (mp_element P) B) products :
  (mp_read_products ≫= f) {| mp_products := Some products |}
  = f products {| mp_products := Some products |}.
Proof. done. Qed.

Lemma run_mp_write_products_bind {B} (f : _ → script _ (mp_element P) B) ss products :
  (mp_write_products products ≫= f) ss = f () {| mp_products := Some products |}.
Proof. apply run_put_bind. Qed.

Lemma run_mp_write_products ss products :
  mp_write_products products ss = ({| mp_products := Some products |}, [], Ok ()).
Proof. done. Qed.

Lemma run_mp_update_at_bind {B} (f : _ → script _ (mp_element P) B) products i g :
  i < length products →
  (mp_update_at i g ≫= f) {| mp_products := Some products |}
  = f () {| mp_products := Some (alter g i products) |}.
Proof.
  intros [r Hi]%lookup_lt_is_Some.
  by rewrite run_bind /mp_update_at run_mp_read_products_bind /at_update Hi
    /= run_lift_Ok_bind run_mp_write_products /= after_nil.
Qed.

(** Initialisation keeps a table that is there and creates an empty one
    otherwise. *)
Lemma run_mp_init_session ss :
  mp_init_session ss = ({| mp_products := Some (mp_table ss) |}, [], Ok ()).
Proof. by destruct ss as [[products|]]. Qed.

Lemma run_mp_init_session_bind {B} (f : _ → script _ (mp_element P) B) ss :
  (mp_init_session ≫= f) ss = f () {| mp_products := Some (mp_table ss) |}.
Proof. by rewrite run_bind run_mp_init_session /= after_nil. Qed.
End medipath_run.

#[export] Hint Rewrite @run_mp_read_products_bind @run_mp_write_products_bind
  @run_mp_write_products @run_mp_init_session_bind : ledger_simpl.

(** ** The pages in closed form *)

Section medipath_pages.
Context `{Amount P, !PieChart}.
Implicit Types (ss : mp_session P) (products : list (ProductRow P))
  (r : ProductRow P) (i : nat) (req : mp_request P)
  (x : mp_session P * list (mp_element P) * result ()).

(** Sales Entry on a session that holds a table, in closed form. *)
Lemma record_sale_closed (f : sale_form) products :
  record_sale f {| mp_products := Some products |} = record_sale_spec f products.
Proof.
  rewrite /record_sale /record_sale_spec /sale_widgets. script_simpl.
  destruct (frame_empty products); [done|]. script_simpl.
  destruct (sf_record_sale f); [|done]. script_simpl.
  rewrite index0_mask.
  destruct (list_find _ products) as [[i r]|] eqn:Hfind; [|done].
  apply list_find_Some_lookup in Hfind as [Hi _]. script_simpl.
  rewrite (at_get_lookup _ _ _ r) //. script_simpl.
  case_decide; [|done]. apply lookup_lt_Some in Hi.
  rewrite !run_mp_update_at_bind ?length_alter //. script_simpl.
  by rewrite list_alter_alter_eq.
Qed.

(** Add / Update Products on a session that holds a table, in closed
    form. *)
Lemma save_product_closed (f : product_form P) products :
  save_product f {| mp_products := Some products |} = save_product_spec f products.
Proof.
  rewrite /save_product /save_product_spec /product_widgets.
  destruct (pf_submitted f); by script_simpl.
Qed.

(** The Dashboard on a session that holds a table, in closed form. *)
Lemma mp_dashboard_closed products :
  mp_dashboard {| mp_products := Some products |} = mp_dashboard_spec products.
Proof.
  rewrite /mp_dashboard /mp_dashboard_spec. script_simpl.
  destruct (frame_empty products); script_simpl; [done|].
  destruct (pie _); script_simpl; [|done]. destruct (pie _); by script_simpl.
Qed.

(** Expiry Alerts on a session that holds a table, in closed form. *)
Lemma expiry_alerts_closed (today : date) products :
  expiry_alerts today {| mp_products := Some products |}
  = expiry_alerts_spec today products.
Proof.
  rewrite /expiry_alerts /expiry_alerts_spec /timedelta. script_simpl.
  destruct (frame_empty products); script_simpl; [done|].
  destruct (frame_empty _); by script_simpl.
Qed.

(** A run of the script is the preamble, the chosen page on the initialised
    session, and the footer when the page did not raise. *)
Lemma medipath_script_run req ss :
  medipath_script req ss
  = mp_whole_run (mp_page req {| mp_products := Some (mp_table ss) |}).
Proof.
  rewrite /medipath_script /mp_whole_run /mp_preamble. script_simpl.
  rewrite -/(mp_page req) run_bind.
  destruct (mp_page req _) as [[s out] [[]|x]]; script_simpl; by rewrite ?app_nil_r.
Qed.

Lemma outcome_mp_whole_run x : outcome (mp_whole_run x) = outcome x.
Proof. done. Qed.

Lemma mp_statuses_app (out1 out2 : list (mp_element P)) :
  mp_statuses (out1 ++ out2) = mp_statuses out1 ++ mp_statuses out2.
Proof. apply omap_app. Qed.

(** The preamble and the footer hold no status element. *)
Lemma mp_statuses_whole_run x :
  mp_statuses (emitted (mp_whole_run x)) = mp_statuses (emitted x).
Proof.
  rewrite /mp_whole_run {1}/emitted /= !mp_statuses_app.
  destruct (outcome x); by rewrite /= app_nil_r.
Qed.

Lemma mp_statuses_sale_widgets products (out : list (mp_element P)) :
  mp_statuses (sale_widgets products ++ out) = mp_statuses out.
Proof. done. Qed.

(** No page leaves the session without the key [products]. *)
Lemma mp_step_page req ss :
  mp_step req ss = final_session (mp_page req {| mp_products := Some (mp_table ss) |}).
Proof. by rewrite /mp_step medipath_script_run. Qed.

(** C3: One run of the script on the page Sales Entry, from any session,
    is the closed form [record_sale_spec] on the table the session holds,
    between the preamble and the footer: the warning on an empty table;
    the three widgets and nothing else without a click; IndexError when no
    row carries the name; the error Not enough stock, with the table as it
    was, when the first row with the name holds less than the quantity;
    otherwise Stock decremented and Total Sales incremented on exactly that
    row. *)
Theorem record_sale_run (f : sale_form) ss :
  medipath_script (Sales_page f) ss
  = mp_whole_run (record_sale_spec f (mp_table ss)).
Proof. by rewrite medipath_script_run /= record_sale_closed. Qed.

(** One run of the script on the page Add / Update Products, from any
    session, appends the row of a submitted form with Total Sales 0 and
    changes no other row, reports it inside the form, and shows the
    resulting table; without a submission it only shows the form and the
    table. *)
Theorem save_product_run (f : product_form P) ss :
  medipath_script (Products_page f) ss
  = mp_whole_run (save_product_spec f (mp_table ss)).
Proof. by rewrite medipath_script_run /= save_product_closed. Qed.

Lemma mp_step_dashboard ss :
  mp_step Dashboard_page ss = {| mp_products := Some (mp_table ss) |}.
Proof.
  rewrite mp_step_page /= mp_dashboard_closed /mp_dashboard_spec.
  by repeat case_match.
Qed.

Lemma mp_step_alerts (today : date) ss :
  mp_step (Alerts_page today) ss = {| mp_products := Some (mp_table ss) |}.
Proof. by rewrite mp_step_page /= expiry_alerts_closed. Qed.

Lemma mp_step_products (f : product_form P) ss :
  mp_step (Products_page f) ss
  = {| mp_products := Some (if pf_submitted f
                            then concat_row (mp_table ss) (new_product_row f)
                            else mp_table ss) |}.
Proof. by rewrite mp_step_page /= save_product_closed. Qed.

Lemma mp_step_sales (f : sale_form) ss :
  mp_step (Sales_page f) ss = final_session (record_sale_spec f (mp_table ss)).
Proof. by rewrite mp_step_page /= record_sale_closed. Qed.

(** The table after a run of Sales Entry, by the first row that carries the
    name. *)
Lemma mp_table_step_sales (f : sale_form) ss :
  mp_table (mp_step (Sales_page f) ss)
  = match list_find (λ r, Product_Name r = sf_product f) (mp_table ss) with
    | Some (i, r) =>
        if sf_record_sale f && bool_decide (Stock r >= sf_quantity_sold f)%Z
        then alter (sell (sf_quantity_sold f)) i (mp_table ss)
        else mp_table ss
    | None => mp_table ss
    end.
Proof.
  rewrite mp_step_sales /record_sale_spec /final_session.
  destruct (frame_empty (mp_table ss)) eqn:Hemp.
  { apply frame_empty_true in Hemp. by rewrite Hemp. }
  destruct (list_find _ _) as [[i r]|]; destruct (sf_record_sale f);
    simpl; try done.
  case_bool_decide; [rewrite decide_True //|rewrite decide_False //].
Qed.

(** Every run leaves the key [products] in the session. *)
Lemma mp_step_initialised req ss :
  mp_products (mp_step req ss) = Some (mp_table (mp_step req ss)).
Proof.
  destruct req as [|f|f|today];
    rewrite ?mp_step_dashboard ?mp_step_alerts ?mp_step_products ?mp_step_sales
      /record_sale_spec /final_session //=.
  by repeat case_match.
Qed.
End medipath_pages.

(** ** Sequences of runs *)

Section medipath_traces.
Context `{Amount P, !PieChart}.
Implicit Types (ss : mp_session P) (reqs : list (mp_request P))
  (req : mp_request P).

Lemma mp_run_app reqs1 reqs2 ss :
  mp_run (reqs1 ++ reqs2) ss = mp_run reqs2 (mp_run reqs1 ss).
Proof. apply foldl_app. Qed.

Lemma mp_trace_ok_app reqs1 reqs2 ss :
  mp_trace_ok (reqs1 ++ reqs2) ss
  ↔ mp_trace_ok reqs1 ss ∧ mp_trace_ok reqs2 (mp_run reqs1 ss).
Proof.
  revert ss. induction reqs1 as [|req reqs1 IH]; intros ss; simpl.
  - naive_solver.
  - rewrite IH. naive_solver.
Qed.

Lemma submitted_products_app reqs1 reqs2 :
  submitted_products (reqs1 ++ reqs2)
  = submitted_products reqs1 ++ submitted_products reqs2.
Proof. apply omap_app. Qed.

(** An invariant of the fresh session that every allowed run preserves
    holds in every reachable session. *)
Lemma mp_runs_invariant (I : mp_session P → Prop) :
  I mp_start →
  (∀ req ss, I ss → mp_request_ok ss req → I (mp_step req ss)) →
  ∀ reqs ss, mp_runs reqs ss → I ss.
Proof. intros Hstart Hstep reqs ss. induction 1; eauto. Qed.

(** A reachable session is the fold of the script over its requests. *)
Lemma mp_runs_trace reqs ss :
  mp_runs reqs ss → mp_trace_ok reqs mp_start ∧ ss = mp_run reqs mp_start.
Proof.
  induction 1 as [|reqs ss req _ [IH ->] Hreq]; [done|].
  rewrite mp_trace_ok_app mp_run_app /=. naive_solver.
Qed.

(** The fold of the script over an accepted sequence is reachable. *)
Lemma mp_runs_of_trace reqs :
  mp_trace_ok reqs mp_start → mp_runs reqs (mp_run reqs mp_start).
Proof.
  induction reqs as [|req reqs IH] using rev_ind; [constructor|].
  intros (? & ? & _)%mp_trace_ok_app. rewrite mp_run_app /=. constructor; auto.
Qed.

(** The step relation [mp_runs] and the executable pair [mp_trace_ok],
    [mp_run] describe the same sessions: a session is reached by allowed
    interactions exactly when the checker accepts the sequence and the
    fold of the script over it yields the session. *)
Theorem mp_runs_iff reqs ss :
  mp_runs reqs ss ↔ mp_trace_ok reqs mp_start ∧ ss = mp_run reqs mp_start.
Proof.
  split; [apply mp_runs_trace|intros [? ->]; by apply mp_runs_of_trace].
Qed.
End medipath_traces.

(** ** Stock is never negative *)

Section medipath_nonneg.
Context `{Amount P, !PieChart}.
Implicit Types (ss : mp_session P) (products : list (ProductRow P))
  (r : ProductRow P) (q : Z) (i : nat) (req : mp_request P).

Lemma sell_row_ok q r :
  row_ok r → (0 ≤ q)%Z → (Stock r >= q)%Z → row_ok (sell q r).
Proof. rewrite /row_ok /sell /=. lia. Qed.

Lemma new_product_row_ok (f : product_form P) :
  product_form_ok f → row_ok (new_product_row f).
Proof. rewrite /product_form_ok /row_ok /=. intros [??]. lia. Qed.

(** One run on an allowed request keeps every Stock and Total Sales
    non-negative. *)
Lemma mp_step_nonneg req ss :
  Forall row_ok (mp_table ss) → mp_request_ok ss req →
  Forall row_ok (mp_table (mp_step req ss)).
Proof.
  intros Hinv Hreq. destruct req as [|f|f|today].
  - by rewrite mp_step_dashboard.
  - rewrite mp_step_products /mp_table /=. destruct (pf_submitted f); [|done].
    apply Forall_app. split; [done|]. apply Forall_singleton.
    by apply new_product_row_ok.
  - rewrite mp_table_step_sales.
    destruct (list_find _ _) as [[i r]|] eqn:Hfind; [|done].
    destruct (sf_record_sale f); [|done]. case_bool_decide; [|done]. simpl.
    apply list_find_Some_lookup in Hfind as [Hi _].
    destruct Hreq as [_ Hq]; [by intros Hnil; rewrite Hnil in Hi|].
    apply Forall_alter_preserve; [done|]. intros r' Hr' ?. simplify_eq.
    apply sell_row_ok; [done|lia|done].
  - by rewrite mp_step_alerts.
Qed.

(** C1: in every session a browser session can reach, Stock and Total
    Sales of every row are non-negative. *)
Theorem mp_runs_nonneg reqs ss : mp_runs reqs ss → Forall row_ok (mp_table ss).
Proof.
  apply (mp_runs_invariant (λ ss, Forall row_ok (mp_table ss)));
    [by constructor|apply mp_step_nonneg].
Qed.

(** The series of a column by product name has a negative value exactly when
    the column has. *)
Lemma pie_series_nonneg (col : ProductRow P → Z) products :
  Forall (λ kv, (0 ≤ kv.2)%Z) (set_index_column Product_Name col products)
  ↔ Forall (λ r, (0 ≤ col r)%Z) products.
Proof. by rewrite /set_index_column Forall_fmap. Qed.

(** The pie of a column of the table: ValueError when a cell is negative
    or when the cells are all zero and the library does not draw zeros. *)
Lemma pie_column (col : ProductRow P → Z) products :
  pie (set_index_column Product_Name col products)
  = if decide (Forall (λ r, (0 ≤ col r)%Z) products ∧ mp_drawn col products)
    then Ok (set_index_column Product_Name col products)
    else Raise ValueError.
Proof.
  pose proof (pie_series_nonneg col products).
  assert (Forall (λ kv, kv.2 = 0%Z) (set_index_column Product_Name col products)
          ↔ Forall (λ r, col r = 0%Z) products)
    by by rewrite /set_index_column Forall_fmap.
  destruct (decide (_ ∧ mp_drawn col products)) as [[? Hd]|Hno];
    rewrite /pie; repeat case_decide; try done; try tauto.
  - rewrite Hd //. tauto.
  - destruct (draws_zeros _) eqn:Hz; [|done]. destruct Hno.
    split; [tauto|by intros _].
  - destruct Hno. split; [tauto|]. intros ?. tauto.
Qed.

(** A chart with a value that is not zero is drawn, whatever the library
    does with zeros. *)
Lemma mp_plottable_drawn products :
  mp_plottable products → mp_drawn Total_Sales products ∧ mp_drawn Stock products.
Proof.
  intros [(r & Hr & Hne)%Exists_exists (r' & Hr' & Hne')%Exists_exists].
  split; intros Hzero; rewrite Forall_forall in Hzero; exfalso; eauto.
Qed.

(** The Dashboard ends normally on the tables of [mp_charts_ok], and raises
    ValueError on every other table. *)
Lemma mp_dashboard_outcome products :
  outcome (mp_dashboard {| mp_products := Some products |})
  = if decide (mp_charts_ok products) then Ok () else Raise ValueError.
Proof.
  rewrite mp_dashboard_closed /mp_dashboard_spec !pie_column.
  destruct (frame_empty products) eqn:Hemp.
  { apply frame_empty_true in Hemp as ->.
    case_decide as Hc; [done|]. destruct Hc. by left. }
  apply frame_empty_false in Hemp.
  destruct (decide (mp_charts_ok products)) as [[?|(Hok & ? & ?)]|Hno]; [done|..].
  - apply Forall_and in Hok as [??]. by rewrite !decide_True.
  - repeat case_decide; try done. destruct Hno. right. rewrite Forall_and. tauto.
Qed.

(** The table that holds one new product: its Total Sales is zero, so
    whether the Dashboard ends normally is up to the library. *)
Lemma mp_charts_ok_new (f : product_form P) :
  (0 ≤ pf_stock f)%Z →
  mp_charts_ok [new_product_row f]
  ↔ draws_zeros [(pf_product_name f, 0%Z)] = true.
Proof.
  intros Hstock.
  rewrite /mp_charts_ok /mp_drawn /set_index_column !Forall_singleton /=.
  split; [intros [?|(_ & Hs & _)]; [done|by apply Hs]|].
  intros Hd. right. split_and!; [lia|done|done|by intros ->].
Qed.

(** C34: the run of the Dashboard raises ValueError exactly when the table
    has rows and either a Stock or a Total Sales is negative, which
    matplotlib refuses to draw as a pie, or a column holds only zeros and
    the library does not draw such a pie; on every other table it ends
    normally.  After the first product was added the column Total Sales
    holds only a zero, so the outcome of the Dashboard of that reachable
    session is what the library does with a pie of one zero. *)
Theorem mp_dashboard_value_error ss :
  (outcome (medipath_script Dashboard_page ss) = Raise ValueError
   ↔ ¬ mp_charts_ok (mp_table ss))
  ∧ (outcome (medipath_script Dashboard_page ss) = Ok ()
     ↔ mp_charts_ok (mp_table ss))
  ∧ ∀ f : product_form P,
      pf_submitted f = true → product_form_ok f →
      let ss1 := mp_step (Products_page f) mp_start in
      mp_runs [Products_page f] ss1
      ∧ (outcome (medipath_script Dashboard_page ss1) = Ok ()
         ↔ draws_zeros [(pf_product_name f, 0%Z)] = true).
Proof.
  assert (∀ ss', outcome (medipath_script Dashboard_page ss')
                 = if decide (mp_charts_ok (mp_table ss')) then Ok ()
                   else Raise ValueError) as Hout.
  { intros ss'. rewrite medipath_script_run /mp_whole_run /outcome /=.
    rewrite -/(outcome _). apply mp_dashboard_outcome. }
  rewrite !Hout. split_and!; [by case_decide..|].
  intros f Hsub Hf ss1. subst ss1. split.
  - apply (mp_runs_step [] mp_start (Products_page f)); [constructor|done].
  - rewrite Hout mp_step_products Hsub /= -mp_charts_ok_new; [|apply Hf].
    by case_decide.
Qed.
End medipath_nonneg.

(** ** What no run changes *)

Section medipath_static.
Context `{Amount P, !PieChart}.
Implicit Types (ss : mp_session P) (products : list (ProductRow P))
  (r : ProductRow P) (q : Z) (i j : nat) (req : mp_request P)
  (reqs : list (mp_request P)).

Lemma row_static_sell q r : row_static (sell q r) = row_static r.
Proof. rewrite /row_static /row_total /sell /=. f_equal. lia. Qed.

Lemma row_static_new (f : product_form P) :
  row_static (new_product_row f) = form_static f.
Proof. rewrite /row_static /row_total /form_static /=. f_equal. lia. Qed.

Lemma mp_step_static req ss :
  row_static <$> mp_table (mp_step req ss)
  = (row_static <$> mp_table ss) ++ (form_static <$> submitted_products [req]).
Proof.
  destruct req as [|f|f|today]; rewrite /submitted_products /=.
  - by rewrite mp_step_dashboard app_nil_r.
  - rewrite mp_step_products /=.
    destruct (pf_submitted f); rewrite /= ?app_nil_r //.
    by rewrite /concat_row fmap_app /= row_static_new.
  - rewrite mp_table_step_sales app_nil_r.
    destruct (list_find _ _) as [[i r]|]; [|done].
    destruct (_ && _); [|done].
    apply fmap_alter_invariant, row_static_sell.
  - by rewrite mp_step_alerts app_nil_r.
Qed.

(** After any sequence of runs the table has the old rows followed by one
    row per submitted product form, in order. *)
Lemma mp_run_static reqs ss :
  row_static <$> mp_table (mp_run reqs ss)
  = (row_static <$> mp_table ss) ++ (form_static <$> submitted_products reqs).
Proof.
  revert ss. induction reqs as [|req reqs IH]; intros ss.
  - by rewrite /= app_nil_r.
  - rewrite /= IH mp_step_static -(assoc (++)) -fmap_app.
    by rewrite -submitted_products_app.
Qed.

(** C5: in a reachable session the table has exactly one row per submitted
    product form, in the order of submission; name, price and expiry date of
    each row are as entered, and its Stock plus its Total Sales is the stock
    entered: the counter accounts for every unit that left the stock. *)
Theorem mp_runs_static reqs ss :
  mp_runs reqs ss →
  row_static <$> mp_table ss = form_static <$> submitted_products reqs.
Proof. intros [_ ->]%mp_runs_trace. by rewrite mp_run_static. Qed.

(** Stock and Total Sales of every row of a reachable session are not
    negative, and together they are at most any bound on the stocks
    entered. *)
Lemma mp_runs_bounded (B : Z) reqs ss :
  mp_runs reqs ss →
  Forall (λ f, (pf_stock f ≤ B)%Z) (submitted_products reqs) →
  Forall (λ r, (0 ≤ Stock r)%Z ∧ (0 ≤ Total_Sales r)%Z
               ∧ (Stock r + Total_Sales r ≤ B)%Z) (mp_table ss).
Proof.
  intros Hruns HB.
  pose proof (mp_runs_invariant (λ ss, Forall row_ok (mp_table ss))
                (Forall_nil_2 _) mp_step_nonneg _ _ Hruns) as Hinv.
  simpl in Hinv. destruct (mp_runs_trace _ _ Hruns) as [_ Hss].
  pose proof (mp_run_static reqs mp_start) as Hstatic. rewrite -Hss in Hstatic.
  apply Forall_lookup. intros i r Hi.
  assert (row_ok r) as [??] by by eapply Forall_lookup_1.
  assert ((row_static <$> mp_table ss) !! i = Some (row_static r)) as Hs
    by by rewrite list_lookup_fmap Hi.
  rewrite Hstatic list_lookup_fmap in Hs.
  destruct (submitted_products reqs !! i) as [f|] eqn:Hf; [|done].
  injection Hs as _ _ _ Htot. eapply Forall_lookup_1 in HB; [|done].
  rewrite /row_total in Htot. simpl in HB. lia.
Qed.

(** No run changes a shadowed row, and the row stays shadowed. *)
Lemma mp_step_shadowed req ss j rj :
  mp_table ss !! j = Some rj → shadowed (mp_table ss) j →
  mp_table (mp_step req ss) !! j = Some rj
  ∧ shadowed (mp_table (mp_step req ss)) j.
Proof.
  intros Hj (i & r & rj' & Hij & Hi & Hj' & Hname). simplify_eq.
  destruct req as [|f|f|today].
  - rewrite mp_step_dashboard /=. split; [done|]. by exists i, r, rj.
  - rewrite mp_step_products /=. destruct (pf_submitted f);
      [|split; [done|by exists i, r, rj]].
    rewrite /concat_row. split; [by apply lookup_app_l_Some|].
    exists i, r, rj. split_and!; [done|by apply lookup_app_l_Some..|done].
  - rewrite mp_table_step_sales.
    destruct (list_find _ _) as [[k rk]|] eqn:Hfind;
      [|split; [done|by exists i, r, rj]].
    destruct (_ && _); [|split; [done|by exists i, r, rj]].
    assert (k ≠ j) as Hkj.
    { intros ->. apply list_find_Some in Hfind as (? & ? & Hbefore).
      simplify_eq. apply (Hbefore i r); [done|lia|congruence]. }
    split; [by rewrite list_lookup_alter_ne|].
    exists i, (if decide (k = i) then sell (sf_quantity_sold f) r else r), rj.
    split_and!; [done| |by rewrite list_lookup_alter_ne|by case_decide].
    rewrite list_lookup_alter. case_decide; simplify_eq; by rewrite ?Hi.
  - rewrite mp_step_alerts /=. split; [done|]. by exists i, r, rj.
Qed.

(** C36: a row that follows a row with the same name is never changed by
    any sequence of runs, allowed or not: Sales Entry always sells from the
    first row with the name, so the stock of the later row cannot be sold. *)
Theorem mp_run_shadowed reqs ss j rj :
  mp_table ss !! j = Some rj → shadowed (mp_table ss) j →
  mp_table (mp_run reqs ss) !! j = Some rj.
Proof.
  revert ss. induction reqs as [|req reqs IH]; intros ss Hj Hsh; [done|].
  destruct (mp_step_shadowed req ss j rj) as [??]; [done..|]. by apply IH.
Qed.
End medipath_static.

(** ** Errors, refusals and the order of sales *)

Section medipath_errors.
Context `{Amount P, !PieChart}.
Implicit Types (ss : mp_session P) (products : list (ProductRow P))
  (r : ProductRow P) (q : Z) (i j : nat) (req : mp_request P).

(** C32: on a table without negative cells, no run of the script on a
    request the widgets allow raises an exception, the Dashboard of a table
    with a column of zeros apart: the session key is there after
    initialisation, the pie charts are given no negative value and, on the
    Dashboard, a value that is not zero, the selected name is in the table,
    and the located index is within it. *)
Theorem medipath_script_no_raise req ss :
  Forall row_ok (mp_table ss) → mp_request_ok ss req →
  (req = Dashboard_page → mp_table ss = [] ∨ mp_plottable (mp_table ss)) →
  outcome (medipath_script req ss) = Ok ().
Proof.
  intros Hinv Hreq Hplot. rewrite medipath_script_run outcome_mp_whole_run.
  destruct req as [|f|f|today]; simpl.
  - rewrite mp_dashboard_outcome decide_True //.
    destruct Hplot as [->|?%mp_plottable_drawn]; [done|by left|by right].
  - by rewrite save_product_closed.
  - rewrite record_sale_closed /record_sale_spec.
    destruct (frame_empty (mp_table ss)) eqn:Hemp; [done|].
    apply frame_empty_false in Hemp. destruct (Hreq Hemp) as [Hin _].
    apply list_elem_of_fmap in Hin as (r & Hname & Hr).
    destruct (list_find_is_Some (λ r, Product_Name r = sf_product f)
      (mp_table ss) r) as (i & r' & ->); [done..|].
    destruct (sf_record_sale f); [|done]. by case_decide.
  - by rewrite expiry_alerts_closed.
Qed.

(** An accepted sale: Stock of the first row with the name goes down by the
    quantity, its Total Sales up by the quantity, and no other row changes. *)
Lemma record_sale_accepted (f : sale_form) products i r :
  list_find (λ r, Product_Name r = sf_product f) products = Some (i, r) →
  sf_record_sale f = true → (sf_quantity_sold f ≤ Stock r)%Z →
  record_sale f {| mp_products := Some products |}
  = ({| mp_products := Some (alter (sell (sf_quantity_sold f)) i products) |},
     sale_widgets products ++ [mp_status Success (Sale_recorded (sf_product f))],
     Ok ()).
Proof.
  intros Hfind Hclick Hle. rewrite record_sale_closed /record_sale_spec Hfind Hclick.
  apply list_find_Some_lookup in Hfind as [Hi _].
  destruct products; [done|]. rewrite decide_True //. lia.
Qed.

(** A refused sale: the run shows the error and changes nothing. *)
Lemma record_sale_refused (f : sale_form) products i r :
  list_find (λ r, Product_Name r = sf_product f) products = Some (i, r) →
  sf_record_sale f = true → (Stock r < sf_quantity_sold f)%Z →
  record_sale f {| mp_products := Some products |}
  = ({| mp_products := Some products |},
     sale_widgets products ++ [mp_status Error Not_enough_stock], Ok ()).
Proof.
  intros Hfind Hclick Hlt. rewrite record_sale_closed /record_sale_spec Hfind Hclick.
  apply list_find_Some_lookup in Hfind as [Hi _].
  destruct products; [done|]. rewrite decide_False //. lia.
Qed.

(** C7: a run that raises, or that shows an error, leaves the table exactly
    as it was: no sale is half applied. *)
Theorem mp_failed_run_unchanged req ss :
  outcome (medipath_script req ss) ≠ Ok ()
  ∨ (∃ m, (Error, m) ∈ mp_statuses (emitted (medipath_script req ss))) →
  mp_table (mp_step req ss) = mp_table ss.
Proof.
  destruct req as [|f|f|today];
    [by rewrite mp_step_dashboard| | |by rewrite mp_step_alerts];
    rewrite mp_step_page medipath_script_run outcome_mp_whole_run
      mp_statuses_whole_run /=.
  - rewrite save_product_closed /save_product_spec /outcome /emitted /=.
    destruct (pf_submitted f); [|done]. intros [[]|[m Hm]]; [done|].
    set_solver.
  - rewrite record_sale_closed /record_sale_spec /outcome /emitted /final_session.
    repeat case_match; simpl; try done. intros [[]|[m Hm]]; [done|]. set_solver.
Qed.

(** Two sales of one product, each within the stock but together
    beyond it, made one after the other: the first is accepted, the second
    is refused with the error, and the table is the one the first sale
    left. *)
Theorem record_sale_twice (f1 f2 : sale_form) products i r :
  list_find (λ r, Product_Name r = sf_product f1) products = Some (i, r) →
  sf_product f2 = sf_product f1 →
  sf_record_sale f1 = true → sf_record_sale f2 = true →
  (sf_quantity_sold f1 ≤ Stock r)%Z → (sf_quantity_sold f2 ≤ Stock r)%Z →
  (Stock r < sf_quantity_sold f1 + sf_quantity_sold f2)%Z →
  let run1 := record_sale f1 {| mp_products := Some products |} in
  let run2 := record_sale f2 (final_session run1) in
  mp_statuses (emitted run1) = [(Success, Sale_recorded (sf_product f1))]
  ∧ mp_statuses (emitted run2) = [(Error, Not_enough_stock)]
  ∧ mp_table (final_session run2)
    = alter (sell (sf_quantity_sold f1)) i products.
Proof.
  intros Hfind Hname Hc1 Hc2 Hq1 Hq2 Hsum run1 run2. subst run1 run2.
  rewrite (record_sale_accepted f1 products i r) // /final_session /=.
  rewrite (record_sale_refused f2 _ i (sell (sf_quantity_sold f1) r)) //.
  - rewrite Hname. by apply list_find_alter_same.
  - rewrite /sell /=. lia.
Qed.

(** C35: what Add / Update Products saved is what Sales Entry finds.  After
    a form was submitted under a name no row carries, the name selects the
    new row: [.index[0]] gives the position after the rows there were, the
    row at that position holds the fields of the form, and a click on
    Record Sale sells from that row when the stock entered covers the
    quantity, and changes nothing when it does not. *)
Theorem save_product_then_sale (f : product_form P) (g : sale_form) ss :
  pf_submitted f = true →
  Forall (λ r, Product_Name r ≠ pf_product_name f) (mp_table ss) →
  sf_product g = pf_product_name f → sf_record_sale g = true →
  let ss1 := mp_step (Products_page f) ss in
  index0 (mask (λ r, Product_Name r = sf_product g) (indexed (mp_table ss1)))
  = Ok (length (mp_table ss))
  ∧ mp_table ss1 !! length (mp_table ss) = Some (new_product_row f)
  ∧ mp_table (mp_step (Sales_page g) ss1)
    = mp_table ss ++
      [if decide (sf_quantity_sold g ≤ pf_stock f)%Z
       then sell (sf_quantity_sold g) (new_product_row f)
       else new_product_row f].
Proof.
  intros Hs Hfresh Hname Hclick ss1. subst ss1.
  rewrite mp_table_step_sales index0_mask mp_step_products Hs Hname Hclick.
  rewrite {1 2 3 4}/mp_table /= /concat_row list_find_snoc_fresh //=.
  split_and!; [done|by rewrite lookup_app_r // Nat.sub_diag|].
  rewrite -{1}(Nat.add_0_r (length _)) alter_app_r /=.
  case_bool_decide; case_decide; first [done|lia].
Qed.

(** The table Expiry Alerts shows holds exactly the rows, with their
    positions, whose expiry date is at most thirty days after today; the
    day that is exactly thirty days ahead is included. *)
Theorem expiry_alerts_rows (today : date) products rows i r :
  mp_dataframe rows
    ∈ emitted (expiry_alerts today {| mp_products := Some products |}) →
  (i, r) ∈ rows ↔ products !! i = Some r ∧ (Expiry_Date r ≤ today + 30)%Z.
Proof.
  rewrite expiry_alerts_closed /expiry_alerts_spec /emitted /=. intros Hin.
  rewrite -(elem_of_mask_indexed (λ r, (Expiry_Date r ≤ today + 30)%Z)).
  repeat case_match; set_solver.
Qed.

(** A product that expires exactly thirty days ahead is listed. *)
Lemma expiry_alerts_boundary (today : date) products i r :
  products !! i = Some r → Expiry_Date r = (today + 30)%Z →
  ∃ rows,
    emitted (expiry_alerts today {| mp_products := Some products |})
    = [mp_text Header Expiry_Date_Alerts;
       mp_status Warning Expiring_within_30_days; mp_dataframe rows]
    ∧ (i, r) ∈ rows.
Proof.
  intros Hi Hexp. rewrite expiry_alerts_closed /expiry_alerts_spec /emitted /=.
  assert ((i, r) ∈ mask (λ r, (Expiry_Date r ≤ today + 30)%Z) (indexed products))
    as Hin by (apply elem_of_mask_indexed; split; [done|lia]).
  destruct products; [done|]. simpl frame_empty. cbv iota.
  destruct (mask _ _) eqn:Hmask; [by apply elem_of_nil in Hin|]. eauto.
Qed.
End medipath_errors.

(** ** The theorems at a concrete session *)

(** A library to run the examples on: the one that refuses every pie of
    zeros. *)
Definition refuses_zeros : PieChart := λ _, false.

#[local] Existing Instance refuses_zeros.

Lemma paracetamol_runs :
  mp_runs paracetamol_trace (mp_run paracetamol_trace mp_start).
Proof. apply mp_runs_of_trace. decide_by_compute. Defined.

Lemma mp_runs_nonneg_witness :
  Forall row_ok (mp_table (mp_run paracetamol_trace mp_start)).
Proof. exact (mp_runs_nonneg paracetamol_trace _ paracetamol_runs). Defined.

Lemma mp_runs_static_witness :
  row_static <$> mp_table (mp_run paracetamol_trace mp_start)
  = [("Paracetamol", 5%Z, 739900%Z, 20%Z)].
Proof. exact (mp_runs_static paracetamol_trace _ paracetamol_runs). Defined.

Lemma mp_runs_bounded_witness :
  Forall (λ r : ProductRow Z,
            (0 ≤ Stock r)%Z ∧ (0 ≤ Total_Sales r)%Z
            ∧ (Stock r + Total_Sales r ≤ 2 ^ 63 - 1)%Z)
    (mp_table (mp_run paracetamol_trace mp_start)).
Proof.
  apply (mp_runs_bounded (2 ^ 63 - 1) paracetamol_trace _ paracetamol_runs).
  decide_by_compute.
Defined.

Lemma mp_run_shadowed_witness :
  mp_table (mp_run [Sales_page (paracetamol_sale 5)]
              {| mp_products := Some (paracetamol_table ++ paracetamol_table) |})
    !! 1 = Some (new_product_row paracetamol).
Proof.
  apply mp_run_shadowed; [reflexivity|].
  exists 0, (new_product_row paracetamol), (new_product_row paracetamol).
  split_and!; [lia|reflexivity..].
Defined.

Lemma medipath_script_no_raise_witness :
  outcome (medipath_script (Sales_page (paracetamol_sale 5))
             {| mp_products := Some paracetamol_table |}) = Ok ().
Proof.
  apply medipath_script_no_raise; [decide_by_compute..|by intros ?].
Defined.

Lemma mp_failed_run_unchanged_witness :
  mp_table (mp_step (Sales_page (paracetamol_sale 21))
              {| mp_products := Some paracetamol_table |})
  = paracetamol_table.
Proof.
  apply (mp_failed_run_unchanged (Sales_page (paracetamol_sale 21))
           {| mp_products := Some paracetamol_table |}).
  right. exists Not_enough_stock. vm_compute. left.
Defined.

Lemma record_sale_twice_witness :
  let run1 := record_sale (paracetamol_sale 12)
                {| mp_products := Some paracetamol_table |} in
  let run2 := record_sale (paracetamol_sale 9) (final_session run1) in
  mp_statuses (emitted run1) = [(Success, Sale_recorded "Paracetamol")]
  ∧ mp_statuses (emitted run2) = [(Error, Not_enough_stock)]
  ∧ mp_table (final_session run2)
    = alter (sell 12) 0 paracetamol_table.
Proof.
  apply (record_sale_twice (paracetamol_sale 12) (paracetamol_sale 9)
           paracetamol_table 0 (new_product_row paracetamol));
    first [reflexivity | by vm_compute].
Defined.

Lemma expiry_alerts_rows_witness :
  (0, new_product_row paracetamol) ∈ [(0, new_product_row paracetamol)]
  ↔ paracetamol_table !! 0 = Some (new_product_row paracetamol)
    ∧ (Expiry_Date (new_product_row paracetamol) ≤ 739870 + 30)%Z.
Proof.
  apply (expiry_alerts_rows 739870%Z paracetamol_table).
  vm_compute. do 2 right. left.
Defined.

Lemma save_product_then_sale_witness :
  let ss1 := mp_step (Products_page paracetamol) mp_start in
  index0 (mask (λ r, Product_Name r = "Paracetamol") (indexed (mp_table ss1)))
  = Ok 0
  ∧ mp_table ss1 !! 0 = Some (new_product_row paracetamol)
  ∧ mp_table (mp_step (Sales_page (paracetamol_sale 5)) ss1)
    = [sell 5 (new_product_row paracetamol)].
Proof.
  apply (save_product_then_sale paracetamol (paracetamol_sale 5) mp_start);
    first [reflexivity|constructor].
Defined.

(** The scenario of the specification: twenty units at price 5; a sale of
    five leaves 15 in stock and 5 sold; a sale of twenty is then refused and
    the row stays as it is. *)
Example paracetamol_scenario :
  mp_table (mp_run paracetamol_trace mp_start)
  = [{| Product_Name := "Paracetamol"; Stock := 15; Price := 5%Z;
        Expiry_Date := 739900%Z; Total_Sales := 5 |}]
  ∧ mp_statuses
      (emitted (medipath_script (Sales_page (paracetamol_sale 20))
                  (mp_run [Products_page paracetamol;
                           Sales_page (paracetamol_sale 5)] mp_start)))
    = [(Error, Not_enough_stock)].
Proof. by vm_compute. Qed.
