(* ===== verification/Medico.v ===== *)
(** * Medico: the application of [src/medico.py]

    Two tables: [products] and the append-only [sales].  The file holds the
    row records, the session, the elements a run hands to Streamlit (texts,
    widgets, metrics, status elements, the plot, tables, each in its
    container), the four pages written statement by statement in the
    [script] monad, the script with its preamble, what the widgets allow,
    and the sessions a browser session can reach; then the closed forms of
    the pages ([add_sale_closed], [add_product_closed],
    [md_dashboard_closed], [stock_expiry_closed]) and the invariants the
    theorems use.

    Add Sale checks the stock of the first row that carries the selected
    name and then decrements Stock on every row that carries it.  The
    theorems show what that gives:

    - the page equals its closed form on every branch ([add_sale_run]);
    - the first row of every name keeps a non-negative stock
      ([md_runs_first_nonneg]); when names are unique, every row does
      ([md_runs_unique_nonneg]); with a name entered twice a negative stock is
      reachable ([md_negative_stock_reachable]);
    - the sales table only grows and its rows never change
      ([md_run_sales_prefix]);
    - a run that raises or refuses a sale changes neither table
      ([md_failed_run_unchanged]); no run on an allowed request raises
      ([medico_script_no_raise]);
    - with unique names, Stock plus the quantities sold of a product is the
      stock entered ([md_runs_balance]). *)

From S2P Require Import Prelude Amount Frame Script.

Section medico.
Context `{Amount P}.

(** ** Data *)

(** A row of [products]: the columns Medicine, Stock, Price, Expiry Date. *)
Record MedicineRow : Type := {
  Medicine : string;
  Stock : Z;
  Price : P;
  Expiry_Date : date;
}.

(** A row of [sales]: the columns Medicine, Quantity, Total Price, Date. *)
Record SaleRow : Type := {
  Sale_Medicine : string;
  Quantity : Z;
  Total_Price : P;
  Date : date;
}.

(** Assignment to the Stock cell of a row. *)
Definition md_set_Stock (v : Z) (r : MedicineRow) : MedicineRow :=
  {| Medicine := Medicine r; Stock := v; Price := Price r;
     Expiry_Date := Expiry_Date r |}.

(** [st.session_state]: each key is absent until the first run has
    initialised it. *)
Record md_session : Type := {
  md_products : option (list MedicineRow);
  md_sales : option (list SaleRow);
}.

(** The texts of the status elements, by the statement that shows them. *)
Inductive md_message : Type :=
  | md_No_sales_data
  | md_Product_added
  | md_Add_products_first
  | md_Not_enough_stock
  | md_Sale_recorded
  | md_No_products_available
  | md_Near_expiry
  | md_Low_stock_alert.

(** The texts of the title, the caption and the subheaders, by the
    statement that shows them. *)
Inductive md_caption : Type :=
  | md_MediMate
  | md_Smart_inventory
  | md_Sales_and_Stock_Dashboard
  | md_Add_Medicine_Product
  | md_Add_Sale_Entry
  | md_Stock_and_Expiry_Monitoring.

(** The input widgets, by the statement that creates them; the select box
    carries the options it offers. *)
Inductive md_widget : Type :=
  | md_Navigation_radio
  | md_Medicine_Name_input
  | md_Stock_Quantity_input
  | md_Price_per_Unit_input
  | md_Expiry_Date_input
  | md_Add_Product_button
  | md_Select_Medicine_box (options : list string)
  | md_Quantity_Sold_input
  | md_Sale_Date_input
  | md_Add_Sale_button.

(** What a run hands to Streamlit, in order: the page configuration, a text
    element, an input widget, the column layout, a divider, a status
    element, one of the three metrics of the dashboard, the figure with the
    line plot of a series, a table; and an element placed in a container. *)
Inductive md_element : Type :=
  | md_page_config
  | md_text (k : text_kind) (t : md_caption)
  | md_input (w : md_widget)
  | md_columns (n : nat)
  | md_divider
  | md_status (l : level) (m : md_message)
  | md_metric_total_sales (total_sales : P)
  | md_metric_items_sold (total_items : Z)
  | md_metric_products (total_products : nat)
  | md_plot (sales_by_date : list (date * P))
  | md_dataframe (rows : list (nat * MedicineRow))
  | md_in (c : container) (e : md_element).

(** The element itself, out of the containers it is placed in. *)
Fixpoint md_content (e : md_element) : md_element :=
  match e with
  | md_in _ e => md_content e
  | _ => e
  end.

(** The status elements among the elements of a run, in order. *)
Definition md_statuses (out : list md_element) : list (level * md_message) :=
  omap (λ e, match md_content e with
             | md_status l m => Some (l, m)
             | _ => None
             end) out.

(** The values of the form on the page Add Product. *)
Record md_product_form : Type := {
  af_medicine : string;
  af_stock : Z;
  af_price : P;
  af_expiry : date;
  af_submit : bool;
}.

(** The values of the form on the page Add Sale. *)
Record md_sale_form : Type := {
  sl_medicine : string;
  sl_quantity : Z;
  sl_sale_date : date;
  sl_submit : bool;
}.

(** One interaction: the sidebar choice with the widget values of the
    chosen page; [today] is what [date.today()] returns. *)
Inductive md_request : Type :=
  | Md_dashboard
  | Md_add_product (f : md_product_form)
  | Md_add_sale (f : md_sale_form)
  | Md_stock_expiry (today : date).

(** ** Session access *)

(** The expression [st.session_state.products]. *)
Definition md_read_products : script md_session md_element (list MedicineRow) :=
  ss ← get_session;
  match md_products ss with
  | Some products => mret products
  | None => lift_result (Raise AttributeError)
  end.

(** The expression [st.session_state.sales]. *)
Definition md_read_sales : script md_session md_element (list SaleRow) :=
  ss ← get_session;
  match md_sales ss with
  | Some sales => mret sales
  | None => lift_result (Raise AttributeError)
  end.

(** The assignment [st.session_state.products = df]. *)
Definition md_write_products (df : list MedicineRow)
    : script md_session md_element () :=
  ss ← get_session;
  put_session {| md_products := Some df; md_sales := md_sales ss |}.

(** The assignment [st.session_state.sales = df]. *)
Definition md_write_sales (df : list SaleRow)
    : script md_session md_element () :=
  ss ← get_session;
  put_session {| md_products := md_products ss; md_sales := Some df |}.

(** The first statements of the script: create each table when the session
    does not hold it yet. *)
Definition md_init_session : script md_session md_element () :=
  ss ← get_session;
  match md_products ss with
  | None => md_write_products (empty_frame MedicineRow)
  | Some _ => mret ()
  end;;
  ss ← get_session;
  match md_sales ss with
  | None => md_write_sales (empty_frame SaleRow)
  | Some _ => mret ()
  end.

(** ** Pages *)

(** Dashboard: the three totals, one per column, then the revenue per day
    or a notice. *)
Definition md_dashboard : script md_session md_element () :=
  emit (md_text Subheader md_Sales_and_Stock_Dashboard);;
  sales ← md_read_sales;
  let total_sales := column_sum Total_Price sales in
  sales ← md_read_sales;
  let total_items := column_sum Quantity sales in
  products ← md_read_products;
  let total_products := length products in
  emit (md_columns 3);;
  emit (md_in (Column 0) (md_metric_total_sales total_sales));;
  emit (md_in (Column 1) (md_metric_items_sold total_items));;
  emit (md_in (Column 2) (md_metric_products total_products));;
  emit md_divider;;
  sales ← md_read_sales;
  if negb (frame_empty sales) then
    sales ← md_read_sales;
    let sales_by_date := groupby_sum Date Total_Price sales in
    emit (md_plot sales_by_date)
  else emit (md_status Info md_No_sales_data).

(** Add Product: the form with its five widgets; a submitted form appends
    a row. *)
Definition add_product (f : md_product_form) : script md_session md_element () :=
  emit (md_text Subheader md_Add_Medicine_Product);;
  within (md_in Form)
    (medicine ← widget_value (md_input md_Medicine_Name_input) (af_medicine f);
     stock ← widget_value (md_input md_Stock_Quantity_input) (af_stock f);
     price ← widget_value (md_input md_Price_per_Unit_input) (af_price f);
     expiry ← widget_value (md_input md_Expiry_Date_input) (af_expiry f);
     submit ← widget_value (md_input md_Add_Product_button) (af_submit f);
     if (submit : bool) then
       let new_product :=
         {| Medicine := medicine; Stock := stock; Price := price;
            Expiry_Date := expiry |} in
       products ← md_read_products;
       md_write_products (concat_row products new_product);;
       emit (md_status Success md_Product_added)
     else mret ()).

(** The sale row of [quantity] units of [product] on [sale_date]; the total
    is computed from the price the product has at that moment. *)
Definition md_new_sale (medicine : string) (quantity : Z) (sale_date : date)
    (product : MedicineRow) : SaleRow :=
  let total_price := int_times quantity (Price product) in
  {| Sale_Medicine := medicine; Quantity := quantity;
     Total_Price := total_price; Date := sale_date |}.

(** Add Sale: a warning when there is no product; otherwise the form with
    the select box over the names of the table, the quantity, the date and
    the button.  On a submission, the first row with the selected name is
    read; when the quantity exceeds its stock the sale is refused;
    otherwise a sale row is appended and Stock is decremented on every row
    with that name. *)
Definition add_sale (f : md_sale_form) : script md_session md_element () :=
  emit (md_text Subheader md_Add_Sale_Entry);;
  products ← md_read_products;
  if frame_empty products then emit (md_status Warning md_Add_products_first)
  else
    within (md_in Form)
      (products ← md_read_products;
       medicine ← widget_value
         (md_input (md_Select_Medicine_box (Medicine <$> products)))
         (sl_medicine f);
       quantity ← widget_value (md_input md_Quantity_Sold_input) (sl_quantity f);
       sale_date ← widget_value (md_input md_Sale_Date_input) (sl_sale_date f);
       submit ← widget_value (md_input md_Add_Sale_button) (sl_submit f);
       if (submit : bool) then
         products ← md_read_products;
         product ← lift_result
           (iloc0 (mask (λ r, Medicine r = medicine) (indexed products)));
         if decide (quantity > Stock product)%Z
         then emit (md_status Error md_Not_enough_stock)
         else
           let new_sale := md_new_sale medicine quantity sale_date product in
           sales ← md_read_sales;
           md_write_sales (concat_row sales new_sale);;
           products ← md_read_products;
           md_write_products
             (loc_update (λ r, Medicine r = medicine)
                (λ r, md_set_Stock (Stock r - quantity) r) products);;
           emit (md_status Success md_Sale_recorded)
       else mret ()).

(** Stock & Expiry: the table, then two columns with the rows that expire
    within thirty days and the rows with at most ten units. *)
Definition stock_expiry (today : date) : script md_session md_element () :=
  emit (md_text Subheader md_Stock_and_Expiry_Monitoring);;
  products ← md_read_products;
  if frame_empty products then emit (md_status Info md_No_products_available)
  else
    products ← md_read_products;
    emit (md_dataframe (indexed products));;
    emit md_divider;;
    products ← md_read_products;
    let near_expiry :=
      mask (λ r, (Expiry_Date r ≤ today + timedelta 30)%Z) (indexed products) in
    products ← md_read_products;
    let low_stock := mask (λ r, (Stock r ≤ 10)%Z) (indexed products) in
    emit (md_columns 2);;
    within (md_in (Column 0))
      (emit (md_status Warning md_Near_expiry);;
       emit (md_dataframe near_expiry));;
    within (md_in (Column 1))
      (emit (md_status Error md_Low_stock_alert);;
       emit (md_dataframe low_stock)).

(** ** The script *)

(** One run: the page configuration, the title and the caption, the
    initialisation of the session, the sidebar with the choice of the page,
    and the chosen page. *)
Definition medico_script (req : md_request) : script md_session md_element () :=
  emit md_page_config;;
  emit (md_text Title md_MediMate);;
  emit (md_text Caption md_Smart_inventory);;
  md_init_session;;
  menu ← widget_value (md_in Sidebar (md_input md_Navigation_radio)) req;
  match (menu : md_request) with
  | Md_dashboard => md_dashboard
  | Md_add_product f => add_product f
  | Md_add_sale f => add_sale f
  | Md_stock_expiry today => stock_expiry today
  end.

(** ** What the widgets allow *)

(** [st.number_input("Stock Quantity", min_value=1)] and
    [st.number_input("Price per Unit", min_value=1.0)]. *)
Definition md_product_form_ok (f : md_product_form) : Prop :=
  (1 ≤ af_stock f)%Z ∧ amount_le (amount_of_int 1) (af_price f).

(** [st.selectbox("Select Medicine", products["Medicine"])] and
    [st.number_input("Quantity Sold", min_value=1)]: the form is rendered
    only when the table has rows. *)
Definition md_sale_form_ok (products : list MedicineRow) (f : md_sale_form)
    : Prop :=
  products ≠ [] →
  sl_medicine f ∈ Medicine <$> products ∧ (1 ≤ sl_quantity f)%Z.

(** The tables a session holds; none before the first run. *)
Definition md_table (ss : md_session) : list MedicineRow :=
  default [] (md_products ss).
Definition md_ledger (ss : md_session) : list SaleRow :=
  default [] (md_sales ss).

(** A request the widgets can produce on a session. *)
Definition md_request_ok (ss : md_session) (req : md_request) : Prop :=
  match req with
  | Md_dashboard => True
  | Md_add_product f => md_product_form_ok f
  | Md_add_sale f => md_sale_form_ok (md_table ss) f
  | Md_stock_expiry _ => True
  end.

(** ** Sequences of runs *)

(** The session after one run. *)
Definition md_step (req : md_request) (ss : md_session) : md_session :=
  final_session (medico_script req ss).

(** The session of a browser session that has not run the script yet. *)
Definition md_start : md_session := {| md_products := None; md_sales := None |}.

(** The session after a sequence of runs. *)
Definition md_run (reqs : list md_request) (ss : md_session) : md_session :=
  foldl (λ ss req, md_step req ss) ss reqs.

(** Every request of a sequence is allowed on the session it meets. *)
Fixpoint md_trace_ok (reqs : list md_request) (ss : md_session) : Prop :=
  match reqs with
  | [] => True
  | req :: reqs => md_request_ok ss req ∧ md_trace_ok reqs (md_step req ss)
  end.

(** [md_runs reqs ss]: a browser session that started fresh and made the
    interactions [reqs], each allowed by the widgets, holds [ss]. *)
Inductive md_runs : list md_request → md_session → Prop :=
  | md_runs_start : md_runs [] md_start
  | md_runs_step reqs ss req :
      md_runs reqs ss → md_request_ok ss req →
      md_runs (reqs ++ [req]) (md_step req ss).

(** The product forms submitted in a sequence of requests, in order. *)
Definition md_submitted (reqs : list md_request) : list md_product_form :=
  omap (λ req, match req with
               | Md_add_product f => if af_submit f then Some f else None
               | _ => None
               end) reqs.

(** ** Reference definitions and invariants *)

(** A session that holds both tables. *)
Definition md_session_of (products : list MedicineRow) (sales : list SaleRow)
    : md_session :=
  {| md_products := Some products; md_sales := Some sales |}.

(** The products table after an accepted sale of [q] units of [medicine]. *)
Definition sold_from (medicine : string) (q : Z) (products : list MedicineRow)
    : list MedicineRow :=
  loc_update (λ r, Medicine r = medicine) (λ r, md_set_Stock (Stock r - q) r)
    products.

(** The row a product form describes. *)
Definition md_new_product (f : md_product_form) : MedicineRow :=
  {| Medicine := af_medicine f; Stock := af_stock f; Price := af_price f;
     Expiry_Date := af_expiry f |}.

(** What every run shows before the page. *)
Definition md_preamble : list md_element :=
  [md_page_config; md_text Title md_MediMate;
   md_text Caption md_Smart_inventory;
   md_in Sidebar (md_input md_Navigation_radio)].

(** The run of the script, from the run [x] of its page. *)
Definition md_whole_run (x : md_session * list md_element * result ())
    : md_session * list md_element * result () :=
  (final_session x, md_preamble ++ emitted x, outcome x).

(** The page a request chooses. *)
Definition md_page (req : md_request) : script md_session md_element () :=
  match req with
  | Md_dashboard => md_dashboard
  | Md_add_product f => add_product f
  | Md_add_sale f => add_sale f
  | Md_stock_expiry today => stock_expiry today
  end.

(** The subheader and the form of Add Sale on a table with rows. *)
Definition md_sale_widgets (products : list MedicineRow) : list md_element :=
  md_text Subheader md_Add_Sale_Entry ::
  (md_in Form <$> [md_input (md_Select_Medicine_box (Medicine <$> products));
                   md_input md_Quantity_Sold_input; md_input md_Sale_Date_input;
                   md_input md_Add_Sale_button]).

(** The run of Add Sale on a session that holds both tables, in closed
    form: final session, elements shown, outcome. *)
Definition add_sale_spec (f : md_sale_form) (products : list MedicineRow)
    (sales : list SaleRow) : md_session * list md_element * result () :=
  let ss := md_session_of products sales in
  if frame_empty products
  then (ss, [md_text Subheader md_Add_Sale_Entry;
             md_status Warning md_Add_products_first], Ok ())
  else if sl_submit f then
    match list_find (λ r, Medicine r = sl_medicine f) products with
    | None => (ss, md_sale_widgets products, Raise IndexError)
    | Some (i, product) =>
        if decide (sl_quantity f > Stock product)%Z
        then (ss, md_sale_widgets products
                  ++ [md_in Form (md_status Error md_Not_enough_stock)], Ok ())
        else (md_session_of
                (sold_from (sl_medicine f) (sl_quantity f) products)
                (concat_row sales
                   (md_new_sale (sl_medicine f) (sl_quantity f)
                      (sl_sale_date f) product)),
              md_sale_widgets products
              ++ [md_in Form (md_status Success md_Sale_recorded)], Ok ())
    end
  else (ss, md_sale_widgets products, Ok ()).

(** The run of Add Product on a session that holds both tables, in closed
    form. *)
Definition add_product_spec (f : md_product_form) (products : list MedicineRow)
    (sales : list SaleRow) : md_session * list md_element * result () :=
  (md_session_of
     (if af_submit f then concat_row products (md_new_product f) else products)
     sales,
   md_text Subheader md_Add_Medicine_Product ::
   (md_in Form <$>
      [md_input md_Medicine_Name_input; md_input md_Stock_Quantity_input;
       md_input md_Price_per_Unit_input; md_input md_Expiry_Date_input;
       md_input md_Add_Product_button]
      ++ (if af_submit f then [md_status Success md_Product_added] else [])),
   Ok ()).

(** The run of the Dashboard on a session that holds both tables, in closed
    form. *)
Definition md_dashboard_spec (products : list MedicineRow) (sales : list SaleRow)
    : md_session * list md_element * result () :=
  (md_session_of products sales,
   [md_text Subheader md_Sales_and_Stock_Dashboard; md_columns 3;
    md_in (Column 0) (md_metric_total_sales (column_sum Total_Price sales));
    md_in (Column 1) (md_metric_items_sold (column_sum Quantity sales));
    md_in (Column 2) (md_metric_products (length products));
    md_divider;
    if frame_empty sales then md_status Info md_No_sales_data
    else md_plot (groupby_sum Date Total_Price sales)],
   Ok ()).

(** The run of Stock & Expiry on a session that holds both tables, in
    closed form. *)
Definition stock_expiry_spec (today : date) (products : list MedicineRow)
    (sales : list SaleRow) : md_session * list md_element * result () :=
  (md_session_of products sales,
   md_text Subheader md_Stock_and_Expiry_Monitoring ::
   (if frame_empty products then [md_status Info md_No_products_available]
    else [md_dataframe (indexed products); md_divider; md_columns 2;
          md_in (Column 0) (md_status Warning md_Near_expiry);
          md_in (Column 0) (md_dataframe
            (mask (λ r, (Expiry_Date r ≤ today + 30)%Z) (indexed products)));
          md_in (Column 1) (md_status Error md_Low_stock_alert);
          md_in (Column 1) (md_dataframe
            (mask (λ r, (Stock r ≤ 10)%Z) (indexed products)))]),
   Ok ()).

(** Whether Add Sale accepts the sale, and the row it takes the price
    from. *)
Definition sale_accepted (f : md_sale_form) (products : list MedicineRow)
    : option MedicineRow :=
  '(_, product) ← list_find (λ r, Medicine r = sl_medicine f) products;
  if sl_submit f && bool_decide (sl_quantity f ≤ Stock product)%Z
  then Some product else None.

(** A sale row agrees with the products table: at least one unit, a name
    the table has, and a total of quantity times the price of the first row
    with the name. *)
Definition sale_consistent (products : list MedicineRow) (s : SaleRow) : Prop :=
  (1 ≤ Quantity s)%Z ∧
  match list_find (λ r, Medicine r = Sale_Medicine s) products with
  | Some (_, r) => Total_Price s = int_times (Quantity s) (Price r)
  | None => False
  end.

(** The first row of every name has a non-negative stock. *)
Definition first_rows_nonneg (products : list MedicineRow) : Prop :=
  ∀ medicine i r,
    list_find (λ r, Medicine r = medicine) products = Some (i, r) →
    (0 ≤ Stock r)%Z.

(** The units of a medicine that the sales table records. *)
Definition units_sold (medicine : string) (sales : list SaleRow) : Z :=
  column_sum Quantity (filter (λ s, Sale_Medicine s = medicine) sales).

(** What no run changes in a row of a session with unique names: name,
    price, expiry date, and Stock plus the units sold under the name. *)
Definition md_row_static (sales : list SaleRow) (r : MedicineRow)
    : string * P * date * Z :=
  (Medicine r, Price r, Expiry_Date r,
   (Stock r + units_sold (Medicine r) sales)%Z).

(** The same four values as a product form gives them. *)
Definition md_form_static (f : md_product_form) : string * P * date * Z :=
  (af_medicine f, af_price f, af_expiry f, af_stock f).
End medico.

Arguments MedicineRow : clear implicits.
Arguments SaleRow : clear implicits.
Arguments md_session : clear implicits.
Arguments md_element : clear implicits.
Arguments md_product_form : clear implicits.
Arguments md_request : clear implicits.

(** ** Decision procedures *)

#[export] Instance MedicineRow_eq_dec `{Amount P} : EqDecision (MedicineRow P).
Proof. solve_decision. Defined.

#[export] Instance SaleRow_eq_dec `{Amount P} : EqDecision (SaleRow P).
Proof. solve_decision. Defined.

#[export] Instance md_product_form_ok_dec `{Amount P} (f : md_product_form P) :
  Decision (md_product_form_ok f).
Proof. apply _. Defined.

#[export] Instance md_sale_form_ok_dec `{Amount P}
  (products : list (MedicineRow P)) (f : md_sale_form) :
  Decision (md_sale_form_ok products f).
Proof. apply _. Defined.

#[export] Instance md_request_ok_dec `{Amount P} (ss : md_session P)
  (req : md_request P) : Decision (md_request_ok ss req).
Proof. destruct req; apply _. Defined.

#[export] Instance md_trace_ok_dec `{Amount P} (reqs : list (md_request P))
  (ss : md_session P) : Decision (md_trace_ok reqs ss).
Proof. revert ss. induction reqs; intros ss; apply _. Defined.

#[export] Instance sale_consistent_dec `{Amount P}
  (products : list (MedicineRow P)) (s : SaleRow P) :
  Decision (sale_consistent products s).
Proof.
  rewrite /sale_consistent. destruct (list_find _ _) as [[??]|]; apply _.
Defined.

(** ** Concrete sessions, in whole currency units

    The scenario of the specification: Paracetamol, 20 units at 5, sold 5
    and then asked for 20; and a session in which the same name is entered
    twice. *)

Definition md_paracetamol : md_product_form Z :=
  {| af_medicine := "Paracetamol"; af_stock := 20; af_price := 5%Z;
     af_expiry := 10%Z; af_submit := true |}.

Definition md_paracetamol_sale (quantity : Z) : md_sale_form :=
  {| sl_medicine := "Paracetamol"; sl_quantity := quantity;
     sl_sale_date := 0%Z; sl_submit := true |}.

Definition md_paracetamol_trace : list (md_request Z) :=
  [Md_dashboard; Md_add_product md_paracetamol;
   Md_add_sale (md_paracetamol_sale 5); Md_add_sale (md_paracetamol_sale 20);
   Md_stock_expiry 0%Z].

Definition md_paracetamol_session : md_session Z :=
  md_session_of
    [{| Medicine := "Paracetamol"; Stock := 15; Price := 5%Z;
        Expiry_Date := 10%Z |}]
    [{| Sale_Medicine := "Paracetamol"; Quantity := 5; Total_Price := 25%Z;
        Date := 0%Z |}].

Definition md_duplicate_trace : list (md_request Z) :=
  [Md_add_product {| af_medicine := "A"; af_stock := 5; af_price := 1%Z;
                     af_expiry := 0%Z; af_submit := true |};
   Md_add_product {| af_medicine := "A"; af_stock := 1; af_price := 1%Z;
                     af_expiry := 0%Z; af_submit := true |};
   Md_add_sale {| sl_medicine := "A"; sl_quantity := 3; sl_sale_date := 0%Z;
                  sl_submit := true |}].

(** ** Running the session primitives *)

Section medico_run.
Context `{Amount P}.
Implicit Types (ss : md_session P) (products : list (MedicineRow P))
  (sales : list (SaleRow P)) (r : MedicineRow P) (i : nat).

Lemma run_md_read_products_bind {B} (f : _ → script _ (md_element P) B)
    products osales :
  (md_read_products ≫= f) {| md_products := Some products; md_sales := osales |}
  = f products {| md_products := Some products; md_sales := osales |}.
Proof. by rewrite /md_read_products run_bind run_get_bind /= after_nil. Qed.

Lemma run_md_read_sales_bind {B} (f : _ → script _ (md_element P) B)
    oproducts sales :
  (md_read_sales ≫= f) {| md_products := oproducts; md_sales := Some sales |}
  = f sales {| md_products := oproducts; md_sales := Some sales |}.
Proof. by rewrite /md_read_sales run_bind run_get_bind /= after_nil. Qed.

Lemma run_md_write_products_bind {B} (f : _ → script _ (md_element P) B) ss products :
  (md_write_products products ≫= f) ss
  = f () {| md_products := Some products; md_sales := md_sales ss |}.
Proof. by rewrite /md_write_products run_bind run_get_bind run_put /= after_nil. Qed.

Lemma run_md_write_sales_bind {B} (f : _ → script _ (md_element P) B) ss sales :
  (md_write_sales sales ≫= f) ss
  = f () {| md_products := md_products ss; md_sales := Some sales |}.
Proof. by rewrite /md_write_sales run_bind run_get_bind run_put /= after_nil. Qed.

(** The first statements leave a session that holds both tables. *)
Lemma run_md_init_session ss :
  md_init_session ss = (md_session_of (md_table ss) (md_ledger ss), [], Ok ()).
Proof. by destruct ss as [[products|] [sales|]]. Qed.

Lemma run_md_init_session_bind {B} (f : _ → script _ (md_element P) B) ss :
  (md_init_session ≫= f) ss = f () (md_session_of (md_table ss) (md_ledger ss)).
Proof. by rewrite run_bind run_md_init_session /= after_nil. Qed.
End medico_run.

#[export] Hint Rewrite @run_md_read_products_bind @run_md_read_sales_bind
  @run_md_write_products_bind @run_md_write_sales_bind
  @run_md_init_session_bind : ledger_simpl.

(** ** The pages in closed form *)

Section medico_pages.
Context `{Amount P}.
Implicit Types (ss : md_session P) (products : list (MedicineRow P))
  (sales : list (SaleRow P)) (r : MedicineRow P) (i : nat)
  (x : md_session P * list (md_element P) * result ()).

Lemma add_sale_closed (f : md_sale_form) products sales :
  add_sale f (md_session_of products sales) = add_sale_spec f products sales.
Proof.
  rewrite /add_sale /add_sale_spec /md_sale_widgets /md_session_of. script_simpl.
  destruct (frame_empty products); [done|].
  destruct (sl_submit f); script_simpl; [|done].
  rewrite iloc0_mask.
  destruct (list_find _ products) as [[i r]|] eqn:Hfind; script_simpl; [|done].
  case_decide; by script_simpl.
Qed.

Lemma add_product_closed (f : md_product_form P) products sales :
  add_product f (md_session_of products sales) = add_product_spec f products sales.
Proof.
  rewrite /add_product /add_product_spec /md_session_of.
  destruct (af_submit f); by script_simpl.
Qed.

Lemma md_dashboard_closed products sales :
  md_dashboard (md_session_of products sales) = md_dashboard_spec products sales.
Proof.
  rewrite /md_dashboard /md_dashboard_spec /md_session_of. script_simpl.
  destruct (frame_empty sales); by script_simpl.
Qed.

Lemma stock_expiry_closed (today : date) products sales :
  stock_expiry today (md_session_of products sales)
  = stock_expiry_spec today products sales.
Proof.
  rewrite /stock_expiry /stock_expiry_spec /md_session_of /timedelta. script_simpl.
  destruct (frame_empty products); by script_simpl.
Qed.

(** A run of the script is the preamble and the chosen page on the
    initialised session. *)
Lemma medico_script_run (req : md_request P) ss :
  medico_script req ss
  = md_whole_run (md_page req (md_session_of (md_table ss) (md_ledger ss))).
Proof.
  rewrite /medico_script /md_whole_run /md_preamble. script_simpl.
  rewrite -/(md_page req). by destruct (md_page req _) as [[??]?].
Qed.

Lemma md_step_page (req : md_request P) ss :
  md_step req ss
  = final_session (md_page req (md_session_of (md_table ss) (md_ledger ss))).
Proof. by rewrite /md_step medico_script_run. Qed.

Lemma md_statuses_app (out1 out2 : list (md_element P)) :
  md_statuses (out1 ++ out2) = md_statuses out1 ++ md_statuses out2.
Proof. apply omap_app. Qed.

(** The preamble holds no status element. *)
Lemma md_statuses_whole_run x :
  md_statuses (emitted (md_whole_run x)) = md_statuses (emitted x).
Proof. done. Qed.

(** Without the select box, a name that no row carries raises IndexError at
    [.iloc[0]] and the session stays as it was. *)
Lemma add_sale_unknown_raises (f : md_sale_form) products sales :
  products ≠ [] → sl_submit f = true → sl_medicine f ∉ Medicine <$> products →
  add_sale f (md_session_of products sales)
  = (md_session_of products sales, md_sale_widgets products, Raise IndexError).
Proof.
  intros Hne Hsub Hnot. rewrite add_sale_closed /add_sale_spec Hsub.
  destruct (frame_empty products) eqn:Hemp.
  { by apply frame_empty_true in Hemp. }
  destruct (list_find _ _) as [[i r]|] eqn:Hfind; [|done].
  apply list_find_Some_lookup in Hfind as [Hi Hname].
  destruct Hnot. apply list_elem_of_fmap. exists r.
  split; [done|by eapply list_elem_of_lookup_2].
Qed.
End medico_pages.

(** ** One run *)

Section medico_steps.
Context `{Amount P}.
Implicit Types (ss : md_session P) (products : list (MedicineRow P))
  (sales : list (SaleRow P)) (r : MedicineRow P) (s : SaleRow P) (i j : nat)
  (q : Z) (req : md_request P) (reqs : list (md_request P)) (medicine : string).

Lemma md_step_dashboard ss :
  md_step Md_dashboard ss = md_session_of (md_table ss) (md_ledger ss).
Proof. by rewrite md_step_page /= md_dashboard_closed. Qed.

Lemma md_step_stock_expiry (today : date) ss :
  md_step (Md_stock_expiry today) ss = md_session_of (md_table ss) (md_ledger ss).
Proof. by rewrite md_step_page /= stock_expiry_closed. Qed.

Lemma md_step_add_product (f : md_product_form P) ss :
  md_step (Md_add_product f) ss
  = md_session_of
      (if af_submit f then concat_row (md_table ss) (md_new_product f)
       else md_table ss)
      (md_ledger ss).
Proof. by rewrite md_step_page /= add_product_closed. Qed.

Lemma md_step_add_sale (f : md_sale_form) ss :
  md_step (Md_add_sale f) ss
  = final_session (add_sale_spec f (md_table ss) (md_ledger ss)).
Proof. by rewrite md_step_page /= add_sale_closed. Qed.

Lemma sale_accepted_Some (f : md_sale_form) products product :
  sale_accepted f products = Some product ↔
  ∃ i, list_find (λ r, Medicine r = sl_medicine f) products = Some (i, product)
       ∧ sl_submit f = true ∧ (sl_quantity f ≤ Stock product)%Z.
Proof.
  rewrite /sale_accepted. destruct (list_find _ _) as [[i r]|]; simpl.
  - destruct (sl_submit f); simpl; [|naive_solver].
    case_bool_decide; naive_solver.
  - naive_solver.
Qed.

(** The session after a run of Add Sale: both tables change when the sale
    is accepted, and neither does otherwise. *)
Lemma md_step_add_sale_tables (f : md_sale_form) ss :
  md_step (Md_add_sale f) ss
  = match sale_accepted f (md_table ss) with
    | Some product =>
        md_session_of (sold_from (sl_medicine f) (sl_quantity f) (md_table ss))
          (concat_row (md_ledger ss)
             (md_new_sale (sl_medicine f) (sl_quantity f) (sl_sale_date f) product))
    | None => md_session_of (md_table ss) (md_ledger ss)
    end.
Proof.
  rewrite md_step_add_sale /add_sale_spec /sale_accepted /final_session.
  destruct (frame_empty (md_table ss)) eqn:Hemp.
  { apply frame_empty_true in Hemp. by rewrite Hemp. }
  destruct (list_find _ _) as [[i r]|]; destruct (sl_submit f);
    simpl; try done.
  case_bool_decide; [rewrite decide_False //; lia|rewrite decide_True //; lia].
Qed.

Lemma md_step_initialised req ss :
  md_step req ss = md_session_of (md_table (md_step req ss)) (md_ledger (md_step req ss)).
Proof.
  destruct req as [|f|f|today].
  - by rewrite md_step_dashboard.
  - by rewrite md_step_add_product.
  - rewrite md_step_add_sale_tables. by destruct (sale_accepted _ _).
  - by rewrite md_step_stock_expiry.
Qed.

(** ** Sequences of runs *)

(** An invariant of the fresh session that every allowed run preserves
    holds in every reachable session. *)
Lemma md_runs_invariant (I : md_session P → Prop) :
  I md_start →
  (∀ req ss, I ss → md_request_ok ss req → I (md_step req ss)) →
  ∀ reqs ss, md_runs reqs ss → I ss.
Proof. intros Hstart Hstep reqs ss. induction 1; eauto. Qed.

Lemma md_run_app reqs1 reqs2 ss :
  md_run (reqs1 ++ reqs2) ss = md_run reqs2 (md_run reqs1 ss).
Proof. apply foldl_app. Qed.

Lemma md_trace_ok_app reqs1 reqs2 ss :
  md_trace_ok (reqs1 ++ reqs2) ss
  ↔ md_trace_ok reqs1 ss ∧ md_trace_ok reqs2 (md_run reqs1 ss).
Proof.
  revert ss. induction reqs1 as [|req reqs1 IH]; intros ss; simpl; [tauto|].
  rewrite IH. tauto.
Qed.

(** A reachable session is the fold of the script over its requests. *)
Lemma md_runs_trace reqs ss :
  md_runs reqs ss → md_trace_ok reqs md_start ∧ ss = md_run reqs md_start.
Proof.
  induction 1 as [|reqs ss req _ [IHok ->] Hreq]; [done|].
  rewrite md_trace_ok_app md_run_app /=. tauto.
Qed.

(** The fold of the script over an accepted sequence is reachable. *)
Lemma md_runs_of_trace reqs :
  md_trace_ok reqs md_start → md_runs reqs (md_run reqs md_start).
Proof.
  induction reqs as [|req reqs IH] using rev_ind; [constructor|].
  intros (? & ? & _)%md_trace_ok_app. rewrite md_run_app /=. constructor; auto.
Qed.

(** ** The products table under sales *)

Lemma length_sold_from medicine q products :
  length (sold_from medicine q products) = length products.
Proof. apply length_loc_update. Qed.

Lemma names_sold_from medicine q products :
  Medicine <$> sold_from medicine q products = Medicine <$> products.
Proof.
  rewrite /sold_from /loc_update -list_fmap_compose. apply list_fmap_ext.
  intros _ r _. simpl. by case_decide.
Qed.

(** The first row of a name after a sale is the first row before it,
    decremented when the name is the one sold. *)
Lemma list_find_sold_from medicine q products (n : string) :
  list_find (λ r, Medicine r = n) (sold_from medicine q products)
  = prod_map id (λ r, if decide (Medicine r = medicine)
                      then md_set_Stock (Stock r - q) r else r)
      <$> list_find (λ r, Medicine r = n) products.
Proof.
  rewrite /sold_from /loc_update list_find_fmap. f_equal.
  apply list_find_ext. intros r. simpl. by case_decide.
Qed.

Lemma first_rows_nonneg_add (f : md_product_form P) products :
  first_rows_nonneg products → (0 ≤ af_stock f)%Z →
  first_rows_nonneg (concat_row products (md_new_product f)).
Proof.
  intros Hinv Hstock n i r. rewrite /concat_row list_find_app_Some.
  intros [?|(_ & _ & Hnew)]; [by eapply Hinv|].
  simpl in Hnew. case_decide; simplify_eq/=. done.
Qed.

Lemma first_rows_nonneg_sold (f : md_sale_form) products product :
  first_rows_nonneg products → sale_accepted f products = Some product →
  first_rows_nonneg (sold_from (sl_medicine f) (sl_quantity f) products).
Proof.
  intros Hinv (i & Hfind & _ & Hq)%sale_accepted_Some n j r.
  rewrite list_find_sold_from.
  destruct (list_find (λ r, Medicine r = n) products) as [[j' r']|] eqn:Hn;
    intros; simplify_eq/=.
  case_decide as Hname; [|by eapply Hinv].
  pose proof Hn as [_ Hnn]%list_find_Some_lookup. simpl in Hnn.
  rewrite -Hnn Hname in Hn. simplify_eq/=. lia.
Qed.

Lemma md_step_first_nonneg req ss :
  first_rows_nonneg (md_table ss) → md_request_ok ss req →
  first_rows_nonneg (md_table (md_step req ss)).
Proof.
  intros Hinv Hreq. destruct req as [|f|f|today].
  - by rewrite md_step_dashboard.
  - rewrite md_step_add_product /=. destruct (af_submit f); [|done].
    destruct Hreq as [??]. apply first_rows_nonneg_add; [done|lia].
  - rewrite md_step_add_sale_tables.
    destruct (sale_accepted _ _) eqn:Hacc; [|done].
    by eapply first_rows_nonneg_sold.
  - by rewrite md_step_stock_expiry.
Qed.

(** With unique names every row is the first of its name. *)
Lemma first_rows_nonneg_unique products :
  first_rows_nonneg products → NoDup (Medicine <$> products) →
  Forall (λ r, (0 ≤ Stock r)%Z) products.
Proof.
  intros Hinv Hnd. apply Forall_lookup. intros i r Hi.
  eapply (Hinv (Medicine r) i r), (NoDup_fmap_list_find Medicine); done.
Qed.

(** ** The sales table *)

Lemma md_step_ledger_prefix req ss :
  md_ledger ss `prefix_of` md_ledger (md_step req ss).
Proof.
  destruct req as [|f|f|today].
  - by rewrite md_step_dashboard.
  - by rewrite md_step_add_product.
  - rewrite md_step_add_sale_tables. destruct (sale_accepted _ _); [|done].
    apply prefix_app_r. done.
  - by rewrite md_step_stock_expiry.
Qed.

Lemma sale_consistent_add (f : md_product_form P) products s :
  sale_consistent products s →
  sale_consistent (concat_row products (md_new_product f)) s.
Proof.
  rewrite /sale_consistent /concat_row. intros [? Hfind]. split; [done|].
  destruct (list_find _ products) as [[i r]|] eqn:Hi; [|done].
  by erewrite list_find_app_l.
Qed.

Lemma sale_consistent_sold medicine q products s :
  sale_consistent products s →
  sale_consistent (sold_from medicine q products) s.
Proof.
  rewrite /sale_consistent list_find_sold_from. intros [? Hfind]. split; [done|].
  destruct (list_find _ products) as [[i r]|]; [|done]. simpl. by case_decide.
Qed.

Lemma sale_consistent_new (f : md_sale_form) products product :
  md_sale_form_ok products f → sale_accepted f products = Some product →
  sale_consistent (sold_from (sl_medicine f) (sl_quantity f) products)
    (md_new_sale (sl_medicine f) (sl_quantity f) (sl_sale_date f) product).
Proof.
  intros Hok (i & Hfind & _ & _)%sale_accepted_Some.
  apply sale_consistent_sold. rewrite /sale_consistent /= Hfind.
  split; [|done]. apply Hok. intros ->. done.
Qed.

Lemma md_step_sales_consistent req ss :
  Forall (sale_consistent (md_table ss)) (md_ledger ss) → md_request_ok ss req →
  Forall (sale_consistent (md_table (md_step req ss))) (md_ledger (md_step req ss)).
Proof.
  intros Hinv Hreq. destruct req as [|f|f|today].
  - by rewrite md_step_dashboard.
  - rewrite md_step_add_product /=. destruct (af_submit f); [|done].
    eapply Forall_impl; [done|]. intros s. apply sale_consistent_add.
  - rewrite md_step_add_sale_tables.
    destruct (sale_accepted _ _) eqn:Hacc; [|done]. simpl.
    apply Forall_app. split.
    + eapply Forall_impl; [done|]. intros s. apply sale_consistent_sold.
    + apply Forall_singleton. by apply sale_consistent_new.
  - by rewrite md_step_stock_expiry.
Qed.

Lemma sale_consistent_known products s :
  sale_consistent products s → Sale_Medicine s ∈ Medicine <$> products.
Proof.
  intros [_ Hfind]. destruct (list_find _ _) as [[i r]|] eqn:Hi; [|done].
  apply list_find_Some_lookup in Hi as [Hi Hname].
  apply list_elem_of_fmap. exists r. split; [done|by eapply list_elem_of_lookup_2].
Qed.

(** ** Units sold and the balance of a row *)

Lemma units_sold_concat_row medicine sales s :
  units_sold medicine (concat_row sales s)
  = (units_sold medicine sales
     + if decide (Sale_Medicine s = medicine) then Quantity s else 0)%Z.
Proof.
  rewrite /units_sold /concat_row filter_app filter_cons filter_nil.
  case_decide.
  - by rewrite -/(concat_row _ s) column_sum_concat_row.
  - rewrite app_nil_r. simpl. lia.
Qed.

Lemma units_sold_unknown medicine products sales :
  Forall (sale_consistent products) sales → medicine ∉ Medicine <$> products →
  units_sold medicine sales = 0%Z.
Proof.
  intros Hinv Hnot. rewrite /units_sold filter_nil_Forall //.
  eapply Forall_impl; [done|]. intros s Hs%sale_consistent_known. naive_solver.
Qed.

Lemma md_row_static_sold (f : md_sale_form) products sales product :
  md_row_static (concat_row sales
      (md_new_sale (sl_medicine f) (sl_quantity f) (sl_sale_date f) product))
    <$> sold_from (sl_medicine f) (sl_quantity f) products
  = md_row_static sales <$> products.
Proof.
  rewrite /sold_from /loc_update -list_fmap_compose. apply list_fmap_ext.
  intros _ r _. rewrite /md_row_static /=.
  case_decide as Hname; rewrite units_sold_concat_row /=.
  - rewrite decide_True //. f_equal. lia.
  - rewrite decide_False; [f_equal; lia|congruence].
Qed.

Lemma md_row_static_add (f : md_product_form P) products sales :
  Forall (sale_consistent products) sales →
  af_medicine f ∉ Medicine <$> products →
  md_row_static sales <$> concat_row products (md_new_product f)
  = (md_row_static sales <$> products) ++ [md_form_static f].
Proof.
  intros Hinv Hnew. rewrite /concat_row fmap_app /=. f_equal.
  rewrite /md_row_static /md_form_static /=.
  rewrite (units_sold_unknown _ products) //. do 2 f_equal. lia.
Qed.

Lemma md_submitted_snoc reqs req :
  md_submitted (reqs ++ [req])
  = md_submitted reqs ++
    match req with
    | Md_add_product f => if af_submit f then [f] else []
    | _ => []
    end.
Proof.
  rewrite /md_submitted omap_app /=. f_equal.
  destruct req as [|f| |]; try done. by destruct (af_submit f).
Qed.

Lemma md_static_names sales products (fs : list (md_product_form P)) :
  md_row_static sales <$> products = md_form_static <$> fs →
  Medicine <$> products = af_medicine <$> fs.
Proof.
  intros Heq. apply (f_equal (fmap (λ x : string * P * date * Z, x.1.1.1))) in Heq.
  by rewrite -!list_fmap_compose in Heq.
Qed.
End medico_steps.

(** ** Properties of the application *)

Section medico_properties.
Context `{Amount P}.
Implicit Types (ss : md_session P) (products : list (MedicineRow P))
  (sales : list (SaleRow P)) (r : MedicineRow P) (s : SaleRow P) (i j : nat)
  (q : Z) (req : md_request P) (reqs : list (md_request P)) (medicine : string).

(** C4: One run of the script on the page Add Sale, from any session, is
    the closed form [add_sale_spec] on the tables the session holds, after
    the preamble: a warning when there are no products; the form and
    nothing else when the button is not pressed; IndexError when no row
    carries the name; the error Not enough
    stock, with both tables as they were, when the quantity exceeds the
    stock of the first row with the name; otherwise a sale row appended with
    the total at that row's price, and Stock decremented on every row with
    the name. *)
Theorem add_sale_run (f : md_sale_form) ss :
  medico_script (Md_add_sale f) ss
  = md_whole_run (add_sale_spec f (md_table ss) (md_ledger ss)).
Proof. by rewrite medico_script_run /= add_sale_closed. Qed.

(** The sessions a browser session reaches are those the executable
    [md_run] computes from the fresh session along a sequence of requests
    that [md_trace_ok] accepts. *)
Theorem md_runs_iff reqs ss :
  md_runs reqs ss ↔ md_trace_ok reqs md_start ∧ ss = md_run reqs md_start.
Proof.
  split; [apply md_runs_trace|intros [? ->]; by apply md_runs_of_trace].
Qed.

(** C2: In every reachable session the first row of every name has a
    non-negative stock: Add Sale never sells more than the row it checks
    holds. *)
Theorem md_runs_first_nonneg reqs ss :
  md_runs reqs ss → first_rows_nonneg (md_table ss).
Proof.
  apply (md_runs_invariant (λ ss, first_rows_nonneg (md_table ss)));
    [by intros ???|apply md_step_first_nonneg].
Qed.

(** In a reachable session whose product names are pairwise distinct,
    no row has a negative stock. *)
Theorem md_runs_unique_nonneg reqs ss :
  md_runs reqs ss → NoDup (Medicine <$> md_table ss) →
  Forall (λ r, (0 ≤ Stock r)%Z) (md_table ss).
Proof.
  intros Hruns. apply first_rows_nonneg_unique. revert Hruns.
  apply (md_runs_invariant (λ ss, first_rows_nonneg (md_table ss)));
    [by intros ???|apply md_step_first_nonneg].
Qed.

(** C9: The sales table only grows, and the rows it holds never change:
    the table before any sequence of runs is a prefix of the table after
    it. *)
Theorem md_run_sales_prefix reqs ss :
  md_ledger ss `prefix_of` md_ledger (md_run reqs ss).
Proof.
  revert ss. induction reqs as [|req reqs IH]; intros ss; [done|].
  simpl. etrans; [apply md_step_ledger_prefix|apply IH].
Qed.

(** C8: A run that raises, or that shows the error Not enough stock,
    leaves both tables as they were. *)
Theorem md_failed_run_unchanged req ss :
  outcome (medico_script req ss) ≠ Ok ()
  ∨ (Error, md_Not_enough_stock) ∈ md_statuses (emitted (medico_script req ss)) →
  md_table (md_step req ss) = md_table ss
  ∧ md_ledger (md_step req ss) = md_ledger ss.
Proof.
  destruct req as [|f|f|today];
    [by rewrite md_step_dashboard| | |by rewrite md_step_stock_expiry];
    rewrite md_step_page medico_script_run md_statuses_whole_run /=.
  - rewrite add_product_closed /add_product_spec /outcome /emitted /final_session.
    destruct (af_submit f); simpl; [|done].
    rewrite !list_elem_of_singleton. naive_solver.
  - rewrite add_sale_closed /add_sale_spec /outcome /emitted /final_session.
    destruct (frame_empty _), (sl_submit f); simpl; try done.
    destruct (list_find _ _) as [[i r]|]; [|done].
    case_decide; [done|]. simpl. rewrite !list_elem_of_singleton. naive_solver.
Qed.

(** C33: A run on a request the widgets can produce does not raise: the
    select box offers only names of the table, so [.iloc[0]] finds a
    row. *)
Theorem medico_script_no_raise req ss :
  md_request_ok ss req → outcome (medico_script req ss) = Ok ().
Proof.
  rewrite medico_script_run /md_whole_run /outcome /= -/(outcome _).
  destruct req as [|f|f|today]; simpl.
  - by rewrite md_dashboard_closed.
  - by rewrite add_product_closed.
  - rewrite add_sale_closed /add_sale_spec. intros Hok.
    destruct (frame_empty _) eqn:Hemp; [done|].
    destruct (sl_submit f); [|done].
    apply frame_empty_false in Hemp. destruct (Hok Hemp) as [Hin _].
    apply list_elem_of_fmap in Hin as (r & Hr & Hin).
    destruct (list_find_is_Some (λ r, Medicine r = sl_medicine f) _ r Hin (eq_sym Hr))
      as (i & r' & ->).
    by case_decide.
  - by rewrite stock_expiry_closed.
Qed.

(** C10: In every reachable session every sale row has a quantity of at
    least one, a name the products table has, and a total equal to the
    quantity times the price of the first row with that name. *)
Theorem md_runs_sales_consistent reqs ss :
  md_runs reqs ss → Forall (sale_consistent (md_table ss)) (md_ledger ss).
Proof.
  apply (md_runs_invariant
    (λ ss, Forall (sale_consistent (md_table ss)) (md_ledger ss))); [done|].
  apply md_step_sales_consistent.
Qed.

(** C6: When every submitted product form carries a different name, each
    row of a reachable session keeps the name, price and expiry date of its
    form, and its Stock plus the quantities of the sales recorded under its
    name is the stock the form entered. *)
Theorem md_runs_balance reqs ss :
  md_runs reqs ss → NoDup (af_medicine <$> md_submitted reqs) →
  md_row_static (md_ledger ss) <$> md_table ss
  = md_form_static <$> md_submitted reqs.
Proof.
  induction 1 as [|reqs ss req Hruns IH Hreq]; [done|].
  pose proof (md_runs_invariant
    (λ ss, Forall (sale_consistent (md_table ss)) (md_ledger ss))
    (Forall_nil_2 _) md_step_sales_consistent _ _ Hruns) as Hcons.
  rewrite md_submitted_snoc. destruct req as [|f|f|today].
  - rewrite app_nil_r md_step_dashboard. apply IH.
  - rewrite md_step_add_product /=. destruct (af_submit f).
    + intros Hnd. rewrite fmap_app in Hnd.
      apply NoDup_app in Hnd as (Hnd & Hnew & _).
      rewrite md_row_static_add ?fmap_app ?IH //.
      rewrite (md_static_names _ _ _ (IH Hnd)). intros Hin.
      apply (Hnew _ Hin). set_solver.
    + rewrite app_nil_r. apply IH.
  - rewrite app_nil_r md_step_add_sale_tables. intros Hnd.
    destruct (sale_accepted _ _); simpl; [rewrite md_row_static_sold|]; by apply IH.
  - rewrite app_nil_r md_step_stock_expiry. apply IH.
Qed.

(** An accepted sale adds the quantity times the price of the checked
    row to the total sales the dashboard shows, adds the quantity to the
    items sold, and leaves the number of products as it was. *)
Theorem md_sale_totals (f : md_sale_form) ss product :
  sale_accepted f (md_table ss) = Some product →
  let ss' := md_step (Md_add_sale f) ss in
  column_sum Total_Price (md_ledger ss')
  = amount_add (column_sum Total_Price (md_ledger ss))
      (int_times (sl_quantity f) (Price product))
  ∧ column_sum Quantity (md_ledger ss')
    = (column_sum Quantity (md_ledger ss) + sl_quantity f)%Z
  ∧ length (md_table ss') = length (md_table ss).
Proof.
  intros Hacc. rewrite /= md_step_add_sale_tables Hacc /=.
  by rewrite !column_sum_concat_row length_sold_from.
Qed.

(** The series the dashboard plots has strictly increasing dates, one
    point for every date of the sales table, each point the sum of Total
    Price over the sales of its date; with exact arithmetic the points add
    up to the total sales. *)
Theorem md_dashboard_plot `{!AmountLaws P} products sales series :
  md_plot series ∈ emitted (md_dashboard (md_session_of products sales)) →
  keys_sorted series
  ∧ (∀ d, d ∈ series.*1 ↔ ∃ s, s ∈ sales ∧ Date s = d)
  ∧ (∀ d v, (d, v) ∈ series →
       v = column_sum Total_Price (filter (λ s, Date s = d) sales))
  ∧ column_sum snd series = column_sum Total_Price sales.
Proof.
  rewrite md_dashboard_closed /emitted /=. destruct (frame_empty sales).
  { rewrite !elem_of_cons elem_of_nil. naive_solver. }
  rewrite !elem_of_cons elem_of_nil.
  intros [?|[?|[?|[?|[?|[?|[[= ->]|[]]]]]]]]; try done.
  split_and!.
  - apply groupby_sum_sorted.
  - apply elem_of_groupby_sum_keys.
  - apply groupby_sum_elem.
  - by apply groupby_sum_total.
Qed.

(** On a table with rows, Stock & Expiry shows the table and then, in
    two columns, the rows whose expiry date is at most thirty days after
    today and the rows whose stock is at most ten, both boundaries
    included, each under its label. *)
Theorem stock_expiry_alerts (today : date) products sales :
  products ≠ [] →
  ∃ near_expiry low_stock,
    emitted (stock_expiry today (md_session_of products sales))
    = [md_text Subheader md_Stock_and_Expiry_Monitoring;
       md_dataframe (indexed products); md_divider; md_columns 2;
       md_in (Column 0) (md_status Warning md_Near_expiry);
       md_in (Column 0) (md_dataframe near_expiry);
       md_in (Column 1) (md_status Error md_Low_stock_alert);
       md_in (Column 1) (md_dataframe low_stock)]
    ∧ (∀ i r, (i, r) ∈ near_expiry ↔
         products !! i = Some r ∧ (Expiry_Date r ≤ today + 30)%Z)
    ∧ (∀ i r, (i, r) ∈ low_stock ↔
         products !! i = Some r ∧ (Stock r ≤ 10)%Z).
Proof.
  intros Hne%frame_empty_false.
  rewrite stock_expiry_closed /stock_expiry_spec Hne /emitted /=.
  eexists _, _. split; [done|].
  split; intros i r; by rewrite elem_of_mask_indexed.
Qed.
End medico_properties.

(** C26: With the same name entered twice, an allowed sequence of runs
    reaches a negative stock: Add Sale checks the first row with the name
    and decrements every row with it. *)
Theorem md_negative_stock_reachable :
  ∃ ss r, md_runs md_duplicate_trace ss ∧ r ∈ md_table ss ∧ (Stock r < 0)%Z.
Proof.
  exists (md_run md_duplicate_trace md_start),
    {| Medicine := "A"; Stock := -2; Price := 1%Z; Expiry_Date := 0%Z |}.
  split_and!; [|decide_by_compute|done].
  apply md_runs_of_trace. decide_by_compute.
Qed.

(** The scenario of the specification: twenty units of Paracetamol at
    price 5; the sale of five is recorded with total 25 and leaves a stock
    of 15; the sale of twenty is refused with Not enough stock and the
    session stays as it is. *)
Example md_paracetamol_scenario :
  md_run (take 3 md_paracetamol_trace) md_start = md_paracetamol_session
  ∧ md_step (Md_add_sale (md_paracetamol_sale 20)) md_paracetamol_session
    = md_paracetamol_session
  ∧ md_statuses (emitted (medico_script (Md_add_sale (md_paracetamol_sale 20))
                            md_paracetamol_session))
    = [(Error, md_Not_enough_stock)].
Proof. by vm_compute. Qed.

(** ** The theorems at the concrete sessions *)

Lemma md_paracetamol_runs : md_runs md_paracetamol_trace md_paracetamol_session.
Proof.
  change (md_runs md_paracetamol_trace (md_run md_paracetamol_trace md_start)).
  apply md_runs_of_trace. decide_by_compute.
Defined.

Lemma md_duplicate_runs :
  md_runs md_duplicate_trace (md_run md_duplicate_trace md_start).
Proof. apply md_runs_of_trace. decide_by_compute. Defined.

Lemma md_runs_first_nonneg_witness :
  first_rows_nonneg (md_table (md_run md_duplicate_trace md_start)).
Proof. exact (md_runs_first_nonneg _ _ md_duplicate_runs). Defined.

Lemma md_runs_unique_nonneg_witness :
  Forall (λ r : MedicineRow Z, (0 ≤ Stock r)%Z) (md_table md_paracetamol_session).
Proof.
  apply (md_runs_unique_nonneg _ _ md_paracetamol_runs). decide_by_compute.
Defined.

Lemma md_failed_run_unchanged_witness :
  md_table (md_step (Md_add_sale (md_paracetamol_sale 20)) md_paracetamol_session)
  = md_table md_paracetamol_session
  ∧ md_ledger (md_step (Md_add_sale (md_paracetamol_sale 20)) md_paracetamol_session)
    = md_ledger md_paracetamol_session.
Proof. apply md_failed_run_unchanged. right. vm_compute. left. Defined.

Lemma medico_script_no_raise_witness :
  outcome (medico_script (Md_add_sale (md_paracetamol_sale 5))
             md_paracetamol_session) = Ok ().
Proof. apply medico_script_no_raise. decide_by_compute. Defined.

Lemma md_runs_sales_consistent_witness :
  Forall (sale_consistent (md_table md_paracetamol_session))
    (md_ledger md_paracetamol_session).
Proof. exact (md_runs_sales_consistent _ _ md_paracetamol_runs). Defined.

Lemma md_runs_balance_witness :
  md_row_static (md_ledger md_paracetamol_session)
    <$> md_table md_paracetamol_session
  = [("Paracetamol", 5%Z, 10%Z, 20%Z)].
Proof.
  apply (md_runs_balance _ _ md_paracetamol_runs). decide_by_compute.
Defined.

Lemma md_sale_totals_witness :
  let ss := md_paracetamol_session in
  let ss' := md_step (Md_add_sale (md_paracetamol_sale 5)) ss in
  column_sum Total_Price (md_ledger ss')
  = (column_sum Total_Price (md_ledger ss) + 5 * 5)%Z
  ∧ column_sum Quantity (md_ledger ss')
    = (column_sum Quantity (md_ledger ss) + 5)%Z
  ∧ length (md_table ss') = length (md_table ss).
Proof.
  exact (md_sale_totals (md_paracetamol_sale 5) md_paracetamol_session
           {| Medicine := "Paracetamol"; Stock := 15; Price := 5%Z;
              Expiry_Date := 10%Z |} eq_refl).
Defined.

Lemma md_dashboard_plot_witness :
  keys_sorted [(0%Z, 25%Z)]
  ∧ (∀ d, d ∈ [(0%Z, 25%Z)].*1 ↔
       ∃ s, s ∈ md_ledger md_paracetamol_session ∧ Date s = d)
  ∧ (∀ d v, (d, v) ∈ [(0%Z, 25%Z)] →
       v = column_sum Total_Price
             (filter (λ s, Date s = d) (md_ledger md_paracetamol_session)))
  ∧ column_sum snd [(0%Z, 25%Z)]
    = column_sum Total_Price (md_ledger md_paracetamol_session).
Proof.
  apply (md_dashboard_plot (md_table md_paracetamol_session)).
  vm_compute. do 6 right. left.
Defined.

Lemma stock_expiry_alerts_witness :
  ∃ near_expiry low_stock,
    emitted (stock_expiry 0%Z md_paracetamol_session)
    = [md_text Subheader md_Stock_and_Expiry_Monitoring;
       md_dataframe (indexed (md_table md_paracetamol_session));
       md_divider; md_columns 2;
       md_in (Column 0) (md_status Warning md_Near_expiry);
       md_in (Column 0) (md_dataframe near_expiry);
       md_in (Column 1) (md_status Error md_Low_stock_alert);
       md_in (Column 1) (md_dataframe low_stock)]
    ∧ (∀ i r, (i, r) ∈ near_expiry ↔
         md_table md_paracetamol_session !! i = Some r
         ∧ (Expiry_Date r ≤ 0 + 30)%Z)
    ∧ (∀ i r, (i, r) ∈ low_stock ↔
         md_table md_paracetamol_session !! i = Some r ∧ (Stock r ≤ 10)%Z).
Proof.
  apply (stock_expiry_alerts 0%Z (md_table md_paracetamol_session)
           (md_ledger md_paracetamol_session)).
  done.
Defined.
