(* ===== verification/Cells64.v ===== *)
(** * Cells64: integers at the width of an int64 cell

    Stock, Total Sales and Quantity are modelled as [Z].  In the tables of
    the sources they are cells of dtype int64 where pandas infers that
    dtype from the integers [st.number_input] returns (it does when it
    leaves the empty frame out of the inference), and [-=], [+=] and the
    comparisons of such cells wrap around at 64 bits.  This file has what
    the two scripts need of that arithmetic, on the machine words of
    coqutil: the cell [int64_of] that holds an integer, the range
    [int64_range] in which a cell holds the integer as it is
    ([signed_int64_of]), the updates, which commute with [int64_of] in and
    out of the range ([int64_of_sub], [int64_of_add]), and the comparison,
    which is the comparison of the integers in the range only
    ([int64_lts]).  [Cells64Medipath] and [Cells64Medico] apply it to the
    two sale handlers. *)

From coqutil Require Import Word.Interface Word.Properties.
From S2P Require Import Prelude.

#[local] Open Scope Z_scope.

Section cells64.
Context {word : word.word 64} {word_ok : word.ok word}.
Implicit Types (z q : Z) (w : word).

(** The int64 cell that holds an integer; an integer out of range is
    stored modulo [2 ^ 64]. *)
Definition int64_of z : word := word.of_Z z.

(** The integers an int64 cell holds as they are. *)
Definition int64_range z : Prop := - 2 ^ 63 ≤ z < 2 ^ 63.

#[global] Instance int64_range_dec z : Decision (int64_range z).
Proof. rewrite /int64_range. apply _. Defined.

Lemma swrap_range z : int64_range z → word.swrap (word:=word) z = z.
Proof.
  rewrite /int64_range /word.swrap. intros Hz. rewrite Z.mod_small; lia.
Qed.

(** A cell holds an integer in range as it is. *)
Lemma signed_int64_of z : int64_range z → word.signed (int64_of z) = z.
Proof. intros Hz. by rewrite /int64_of word.signed_of_Z swrap_range. Qed.

(** Read back, a cell is in range. *)
Lemma signed_int64_range w : int64_range (word.signed w).
Proof. rewrite /int64_range. pose proof (word.signed_range w). lia. Qed.

Lemma int64_of_sub z q :
  word.sub (int64_of z) (int64_of q) = int64_of (z - q).
Proof. by rewrite /int64_of word.ring_morph_sub. Qed.

Lemma int64_of_add z q :
  word.add (int64_of z) (int64_of q) = int64_of (z + q).
Proof. by rewrite /int64_of word.ring_morph_add. Qed.

(** In range, the comparison of two cells is the comparison of the
    integers. *)
Lemma int64_lts z q :
  int64_range z → int64_range q →
  word.lts (int64_of z) (int64_of q) = bool_decide (z < q).
Proof.
  intros Hz Hq. rewrite word.signed_lts !signed_int64_of //.
  case_bool_decide; [by apply Z.ltb_lt|by apply Z.ltb_ge; lia].
Qed.
End cells64.
