(* ===== verification/Cells64Medipath.v ===== *)
(** * Cells64Medipath: Record Sale of [src/medipath.py] on int64 cells

    [mp_sale64] is the check and the two updates of Record Sale (lines 121
    to 123 of [src/medipath.py]) computed on the int64 cells of a row.

    - On a row whose Stock and whose quantity are in range it computes what
      [sell] computes on the integers ([mp_sale64_exact]).
    - Every row of every session [src/medipath.py] reaches is in range when
      the stocks entered are, so on reachable sessions the handler on int64
      cells is the handler on the integers, and no cell
      overflows ([mp_runs_int64]).
    - Out of range it is not: a counter at the largest int64 wraps to the
      smallest ([mp_sale64_wraps]).

    The quantity is an integer of [st.number_input], which is in the range
    of int64; a quantity out of range is outside the model. *)

From coqutil Require Import Word.Interface Word.Properties Word.Naive.
From S2P Require Import Prelude Amount Frame Script Medipath Cells64.

#[local] Open Scope Z_scope.

Section cells64_medipath.
Context {word : word.word 64} {word_ok : word.ok word}.
Context `{Amount P, !PieChart}.
Implicit Types (q : Z) (r : ProductRow P).

(** The two integer cells of a row. *)
Definition mp_cells r : word * word :=
  (int64_of (Stock r), int64_of (Total_Sales r)).

(** Record Sale on the cells of the row: the check [Stock >= quantity_sold],
    then [Stock -= quantity_sold] and [Total Sales += quantity_sold];
    [None] when the check fails. *)
Definition mp_sale64 (quantity_sold : Z) (cells : word * word)
    : option (word * word) :=
  let q := int64_of quantity_sold in
  if negb (word.lts cells.1 q)
  then Some (word.sub cells.1 q, word.add cells.2 q)
  else None.

(** On a Stock and a quantity in range, Record Sale at 64 bits is Record
    Sale on the integers. *)
Lemma mp_sale64_exact q r :
  int64_range (Stock r) → int64_range q →
  mp_sale64 q (mp_cells r)
  = if decide (Stock r >= q) then Some (mp_cells (sell q r)) else None.
Proof.
  intros Hs Hq. rewrite /mp_sale64 /mp_cells /= int64_lts //.
  case_bool_decide; [rewrite decide_False //; lia|].
  rewrite decide_True /=; [|lia]. by rewrite int64_of_sub int64_of_add.
Qed.

(** C37: no integer cell of [src/medipath.py] overflows.  When the stocks
    entered are below [2 ^ 63], every row of every reachable session holds
    its Stock and its Total Sales in int64 cells as they are; Record Sale
    computed on these cells at 64 bits, for any quantity from 1 to below
    [2 ^ 63], passes the check exactly when the check on the integers
    passes, and it then leaves the cells of the row [sell] gives, which are
    in range again. *)
Theorem mp_runs_int64 (reqs : list (mp_request P)) ss i r q :
  mp_runs reqs ss →
  Forall (λ f, pf_stock f < 2 ^ 63) (submitted_products reqs) →
  mp_table ss !! i = Some r → 1 ≤ q < 2 ^ 63 →
  word.signed (mp_cells r).1 = Stock r
  ∧ word.signed (mp_cells r).2 = Total_Sales r
  ∧ mp_sale64 q (mp_cells r)
    = (if decide (Stock r >= q) then Some (mp_cells (sell q r)) else None)
  ∧ (Stock r >= q →
     int64_range (Stock (sell q r)) ∧ int64_range (Total_Sales (sell q r))).
Proof.
  intros Hruns HB Hi Hq.
  assert (Forall (λ f, pf_stock f ≤ 2 ^ 63 - 1) (submitted_products reqs))
    as HB' by (eapply Forall_impl; [done|]; simpl; lia).
  pose proof (Forall_lookup_1 _ _ _ _ (mp_runs_bounded _ _ _ Hruns HB') Hi)
    as (Hs & Ht & Hsum).
  assert (int64_range (Stock r) ∧ int64_range (Total_Sales r)) as [??]
    by (rewrite /int64_range; lia).
  rewrite /= !signed_int64_of // mp_sale64_exact //; [|rewrite /int64_range; lia].
  split_and!; [done..|]. rewrite /sell /int64_range /=. lia.
Qed.
End cells64_medipath.

(** ** At the words of 64 bits that compute *)

#[local] Existing Instance refuses_zeros.

(** A counter at the largest int64 wraps to the smallest. *)
Lemma mp_sale64_wraps :
  let cells : word64 * word64 := (int64_of 1, int64_of (2 ^ 63 - 1)) in
  (word.signed <$> (snd <$> mp_sale64 1 cells)) = Some (- 2 ^ 63).
Proof. by vm_compute. Qed.

Lemma mp_runs_int64_witness :
  let r := new_product_row paracetamol in
  word.signed (word:=word64) (mp_cells r).1 = Stock r
  ∧ word.signed (word:=word64) (mp_cells r).2 = Total_Sales r
  ∧ mp_sale64 (word:=word64) 5 (mp_cells r)
    = (if decide (Stock r >= 5) then Some (mp_cells (sell 5 r)) else None)
  ∧ (Stock r >= 5 →
     int64_range (Stock (sell 5 r)) ∧ int64_range (Total_Sales (sell 5 r))).
Proof.
  apply (mp_runs_int64 (word_ok:=word64_ok) [Products_page paracetamol]
           (mp_run [Products_page paracetamol] mp_start) 0);
    [by apply mp_runs_of_trace|decide_by_compute|reflexivity|lia].
Defined.
