(* ===== verification/Cells64Medico.v ===== *)
(** * Cells64Medico: the integer cells of [src/medico.py]

    The bounds of the cells of [src/medico.py], and Add Sale on int64
    cells.

    - [md_in_bounds] is the invariant: no Stock exceeds the bound on the
      stocks entered; Stock of a row plus the units sold under its name is
      not negative, and for the first row of a name it is within the bound;
      the Quantity of no sale row exceeds the bound.  Every allowed run
      keeps it ([md_step_in_bounds]).
    - So every Stock lies between [- B] and [B], also below rows of the
      same name, where it can be negative, and every Quantity between 1 and
      [B] ([md_runs_bounded]).
    - [md_check64] and [md_sold_from64] are the check and the decrement of
      Add Sale (lines 108 and 127 to 130 of [src/medico.py]) on int64
      cells.  On reachable sessions, with stocks and quantities entered
      below [2 ^ 63], the cells hold the integers as they are, the check is
      the check on the integers and the decrement leaves the cells of
      [sold_from] ([md_runs_int64]); out of range a cell wraps
      ([md_sold_from64_wraps]).
    - [md_items_sold64] is the sum of the column Quantity that the
      dashboard shows as Items Sold (line 38), at 64 bits.  The units sold
      plus the Stock of the first rows of the names ([first_stock]) never
      exceed the stocks entered ([md_step_items_sold]), so the sum is at
      most the sum of the stocks entered ([md_items_sold_bounded]) and does
      not overflow while that is below [2 ^ 63] ([md_items_sold_int64]);
      beyond it wraps ([md_items_sold64_wraps]).

    The quantity is an integer of [st.number_input], which is in the range
    of int64; a quantity out of range is outside the model. *)

From coqutil Require Import Word.Interface Word.Properties Word.Naive.
From S2P Require Import Prelude Amount Frame Script Medico Cells64.

#[local] Open Scope Z_scope.

Section bounds_medico.
Context `{Amount P}.
Implicit Types (B q : Z) (ss : md_session P) (products : list (MedicineRow P))
  (sales : list (SaleRow P)) (r : MedicineRow P) (s : SaleRow P)
  (req : md_request P) (reqs : list (md_request P)) (medicine : string).

(** The bounds every allowed run keeps, for a bound [B] on the stocks
    entered. *)
Definition md_in_bounds B ss : Prop :=
  Forall (λ r, Stock r ≤ B) (md_table ss)
  ∧ Forall (λ x, 0 ≤ x.2) (md_row_static (md_ledger ss) <$> md_table ss)
  ∧ (∀ medicine i r,
       list_find (λ r, Medicine r = medicine) (md_table ss) = Some (i, r) →
       Stock r + units_sold medicine (md_ledger ss) ≤ B)
  ∧ first_rows_nonneg (md_table ss)
  ∧ Forall (sale_consistent (md_table ss)) (md_ledger ss)
  ∧ Forall (λ s, Quantity s ≤ B) (md_ledger ss).

(** The Stock of the rows that are the first of their name, summed;
    [seen] holds the names of the rows above. *)
Fixpoint first_stock (seen : list string) products : Z :=
  match products with
  | [] => 0
  | r :: products =>
      (if decide (Medicine r ∈ seen) then 0 else Stock r)
      + first_stock (Medicine r :: seen) products
  end.

Lemma md_table_session_of products sales :
  md_table (md_session_of products sales) = products.
Proof. done. Qed.

Lemma md_ledger_session_of products sales :
  md_ledger (md_session_of products sales) = sales.
Proof. done. Qed.

Lemma units_sold_nonneg medicine products sales :
  Forall (sale_consistent products) sales → 0 ≤ units_sold medicine sales.
Proof.
  rewrite /units_sold. induction 1 as [|s sales [Hq _] _ IH]; [done|].
  rewrite filter_cons. case_decide; [|done]. rewrite column_sum_cons /=. lia.
Qed.

(** A product form that is not submitted changes nothing; a submitted one
    appends its row. *)
Lemma md_add_product_in_bounds B (f : md_product_form P) ss :
  md_in_bounds B ss → md_product_form_ok f → af_stock f ≤ B →
  md_in_bounds B
    (md_session_of (concat_row (md_table ss) (md_new_product f)) (md_ledger ss)).
Proof.
  intros (Ha & Hb & Hc & Hd & He & Hf) [Hstock _] HB.
  rewrite /md_in_bounds /md_table /md_ledger /= -/(md_table ss) -/(md_ledger ss).
  split_and!; [| | |by apply first_rows_nonneg_add; [|lia]| |done].
  - apply Forall_app. split; [done|]. by apply Forall_singleton.
  - rewrite /concat_row fmap_app. apply Forall_app. split; [done|].
    apply Forall_singleton. simpl.
    pose proof (units_sold_nonneg (af_medicine f) _ _ He). lia.
  - intros medicine i r. rewrite /concat_row list_find_app_Some.
    intros [?|(_ & Hnone & Hnew)]; [by eapply Hc|].
    simpl in Hnew. case_decide as Hname; simplify_eq/=.
    rewrite (units_sold_unknown _ (md_table ss)) //; [lia|].
    intros (r & Hr & Hin)%list_elem_of_fmap.
    apply list_find_None in Hnone. by eapply Forall_forall in Hnone.
  - eapply Forall_impl; [exact He|]. intros s. apply sale_consistent_add.
Qed.

(** An accepted sale decrements the rows of the name and appends the sale
    row. *)
Lemma md_add_sale_in_bounds B (f : md_sale_form) ss product :
  md_in_bounds B ss → md_sale_form_ok (md_table ss) f →
  sale_accepted f (md_table ss) = Some product →
  md_in_bounds B
    (md_session_of (sold_from (sl_medicine f) (sl_quantity f) (md_table ss))
       (concat_row (md_ledger ss)
          (md_new_sale (sl_medicine f) (sl_quantity f) (sl_sale_date f) product))).
Proof.
  intros (Ha & Hb & Hc & Hd & He & Hf) Hok Hacc.
  pose proof Hacc as (i & Hfind & _ & Hq)%sale_accepted_Some.
  pose proof Hfind as [Hi Hname]%list_find_Some_lookup.
  pose proof Hok as [_ Hq1]; [by intros Hnil; rewrite Hnil in Hi|].
  rewrite /md_in_bounds /md_table /md_ledger /= -/(md_table ss) -/(md_ledger ss).
  split_and!; [|by rewrite md_row_static_sold| |by eapply first_rows_nonneg_sold| |].
  - apply Forall_loc_update; [done|]. intros r _ _ ?. simpl. lia.
  - intros medicine j r. rewrite list_find_sold_from units_sold_concat_row /=.
    destruct (list_find (λ r, Medicine r = medicine) (md_table ss))
      as [[j' r']|] eqn:Hj; [|done].
    simpl. intros [= <- <-]. pose proof Hj as [_ Hr']%list_find_Some_lookup.
    specialize (Hc _ _ _ Hj). simpl in Hr'.
    repeat case_decide; simplify_eq/=; try congruence; lia.
  - apply Forall_app. split; [|by apply Forall_singleton, sale_consistent_new].
    eapply Forall_impl; [exact He|]. intros s. apply sale_consistent_sold.
  - apply Forall_app. split; [done|]. apply Forall_singleton. simpl.
    eapply Forall_lookup_1 in Ha; [|done]. simpl in Ha. lia.
Qed.

Lemma md_in_bounds_initialised B ss :
  md_in_bounds B ss → md_in_bounds B (md_session_of (md_table ss) (md_ledger ss)).
Proof. done. Qed.

(** Every allowed run keeps the bounds, when the stock of a submitted
    product form is within the bound. *)
Lemma md_step_in_bounds B req ss :
  md_in_bounds B ss → md_request_ok ss req →
  Forall (λ f, af_stock f ≤ B) (md_submitted [req]) →
  md_in_bounds B (md_step req ss).
Proof.
  intros Hinv Hok HB. destruct req as [|f|f|today].
  - by rewrite md_step_dashboard.
  - rewrite md_step_add_product. revert HB. rewrite /md_submitted /=.
    destruct (af_submit f); [|done]. rewrite Forall_singleton. intros HB.
    by apply md_add_product_in_bounds.
  - rewrite md_step_add_sale_tables.
    destruct (sale_accepted _ _) eqn:Hacc; [|done].
    by apply md_add_sale_in_bounds.
  - by rewrite md_step_stock_expiry.
Qed.

Lemma md_runs_in_bounds B reqs ss :
  md_runs reqs ss → Forall (λ f, af_stock f ≤ B) (md_submitted reqs) →
  md_in_bounds B ss.
Proof.
  induction 1 as [|reqs ss req _ IH Hreq].
  { intros _. by split_and!; try apply Forall_nil_2. }
  rewrite /md_submitted omap_app Forall_app. intros [HB Hreq_B].
  apply md_step_in_bounds; auto.
Qed.

(** Under the bounds every Stock lies between [- B] and [B] and every
    Quantity between 1 and [B]. *)
Lemma md_in_bounds_cells B ss :
  md_in_bounds B ss →
  Forall (λ r, - B ≤ Stock r ≤ B) (md_table ss)
  ∧ Forall (λ s, 1 ≤ Quantity s ≤ B) (md_ledger ss).
Proof.
  intros (Ha & Hb & Hc & Hd & He & Hf). split.
  - apply Forall_lookup. intros i r Hi.
    pose proof (Forall_lookup_1 _ _ _ _ Ha Hi) as Hr. simpl in Hr.
    assert (0 ≤ (md_row_static (md_ledger ss) r).2) as Hrb.
    { eapply (Forall_lookup_1 _ _ i) in Hb; [exact Hb|].
      by rewrite list_lookup_fmap Hi. }
    simpl in Hrb.
    destruct (list_find_is_Some (λ r', Medicine r' = Medicine r) (md_table ss) r)
      as (j & r0 & Hfind); [by eapply list_elem_of_lookup_2|done|].
    specialize (Hc _ _ _ Hfind). specialize (Hd _ _ _ Hfind). lia.
  - apply Forall_lookup. intros i s Hi.
    pose proof (Forall_lookup_1 _ _ _ _ He Hi) as [? _].
    pose proof (Forall_lookup_1 _ _ _ _ Hf Hi). simpl in *. lia.
Qed.

(** Every Stock of a reachable session lies between [- B] and [B], where
    [B] bounds the stocks entered, and every Quantity between 1 and [B]:
    the Stock of a row below a row of the same name can be negative, and
    not below [- B]. *)
Lemma md_runs_bounded B reqs ss :
  md_runs reqs ss → Forall (λ f, af_stock f ≤ B) (md_submitted reqs) →
  Forall (λ r, - B ≤ Stock r ≤ B) (md_table ss)
  ∧ Forall (λ s, 1 ≤ Quantity s ≤ B) (md_ledger ss).
Proof. intros Hruns HB. by eapply md_in_bounds_cells, md_runs_in_bounds. Qed.
(** ** The units sold in all *)

Lemma first_stock_concat_row seen products r :
  first_stock seen (concat_row products r)
  = first_stock seen products
    + if decide (Medicine r ∈ seen ++ (Medicine <$> products)) then 0 else Stock r.
Proof.
  revert seen. induction products as [|r' products IH]; intros seen; simpl.
  - rewrite app_nil_r. case_decide; lia.
  - rewrite -/(concat_row products r) IH.
    repeat case_decide; try lia; exfalso; set_solver.
Qed.

Lemma first_stock_sold_from seen medicine q products :
  first_stock seen (sold_from medicine q products)
  = first_stock seen products
    - if decide (medicine ∈ seen) then 0
      else if decide (medicine ∈ Medicine <$> products) then q else 0.
Proof.
  revert seen. induction products as [|r products IH]; intros seen.
  { simpl. repeat case_decide; try lia; exfalso; set_solver. }
  rewrite /sold_from /loc_update fmap_cons /=
    -/(loc_update _ _ products) -/(sold_from medicine q products).
  destruct (decide (Medicine r = medicine)) as [Hname|Hname]; simpl; rewrite IH;
    repeat case_decide; try lia; exfalso; set_solver.
Qed.

Lemma first_stock_nonneg seen products :
  (∀ medicine i r, medicine ∉ seen →
     list_find (λ r, Medicine r = medicine) products = Some (i, r) →
     0 ≤ Stock r) →
  0 ≤ first_stock seen products.
Proof.
  revert seen. induction products as [|r products IH]; intros seen Hinv; [done|].
  simpl. assert (0 ≤ first_stock (Medicine r :: seen) products).
  { apply IH. intros medicine i r' [Hr Hseen]%not_elem_of_cons Hfind.
    apply (Hinv medicine (S i) r' Hseen).
    cbn [list_find]. rewrite decide_False; [|done]. by rewrite Hfind. }
  case_decide; [lia|].
  pose proof (Hinv (Medicine r) 0%nat r) as Hr.
  cbn [list_find] in Hr. rewrite decide_True // in Hr.
  specialize (Hr ltac:(done) eq_refl). lia.
Qed.

(** Any stocks entered have a bound, so the invariants that depend on no
    bound hold of every reachable session. *)
Lemma md_runs_consistent reqs ss :
  md_runs reqs ss →
  first_rows_nonneg (md_table ss)
  ∧ Forall (sale_consistent (md_table ss)) (md_ledger ss).
Proof.
  intros Hruns.
  assert (∃ B, Forall (λ f : md_product_form P, af_stock f ≤ B) (md_submitted reqs))
    as [B HB].
  { induction (md_submitted reqs) as [|f fs [B HB]]; [by exists 0|].
    exists (Z.max (af_stock f) B). constructor; [lia|].
    eapply Forall_impl; [done|]. simpl. lia. }
  by destruct (md_runs_in_bounds B _ _ Hruns HB) as (_ & _ & _ & ? & ? & _).
Qed.

(** A run adds to the units sold and the stock of the first rows what the
    product form it submits enters, at most. *)
Lemma md_step_items_sold req ss :
  md_request_ok ss req →
  column_sum Quantity (md_ledger (md_step req ss))
  + first_stock [] (md_table (md_step req ss))
  ≤ column_sum Quantity (md_ledger ss) + first_stock [] (md_table ss)
    + column_sum af_stock (md_submitted [req]).
Proof.
  intros Hok. rewrite /md_submitted.
  destruct req as [|f|f|today]; simpl;
    rewrite ?md_step_dashboard ?md_step_add_product ?md_step_add_sale_tables
      ?md_step_stock_expiry.
  1, 4: rewrite md_table_session_of md_ledger_session_of /column_sum /=; lia.
  - destruct Hok as [Hstock _]. rewrite md_table_session_of md_ledger_session_of.
    destruct (af_submit f); [|rewrite /column_sum /=; lia].
    rewrite first_stock_concat_row /=.
    case_decide; rewrite /column_sum /=; lia.
  - destruct (sale_accepted _ _) as [product|] eqn:Hacc;
      rewrite md_table_session_of md_ledger_session_of;
      [|rewrite /column_sum /=; lia].
    pose proof Hacc as (i & [Hi Hname]%list_find_Some_lookup & _)%sale_accepted_Some.
    rewrite column_sum_concat_row first_stock_sold_from /=.
    rewrite decide_True; [rewrite column_sum_nil /=; lia|].
    apply list_elem_of_fmap. exists product.
    split; [done|by eapply list_elem_of_lookup_2].
Qed.

(** The integer the dashboard shows as Items Sold is not negative and at
    most the sum of the stocks entered. *)
Lemma md_items_sold_bounded reqs ss :
  md_runs reqs ss →
  0 ≤ column_sum Quantity (md_ledger ss)
    ≤ column_sum af_stock (md_submitted reqs).
Proof.
  intros Hruns.
  assert (column_sum Quantity (md_ledger ss) + first_stock [] (md_table ss)
          ≤ column_sum af_stock (md_submitted reqs)) as Hsum.
  { induction Hruns as [|reqs ss req _ IH Hreq]; [done|].
    pose proof (md_step_items_sold _ _ Hreq) as Hstep.
    rewrite /md_submitted in IH Hstep |- *. rewrite omap_app column_sum_app.
    simpl in *. lia. }
  destruct (md_runs_consistent _ _ Hruns) as [Hfirst Hsales].
  assert (0 ≤ first_stock [] (md_table ss))
    by (apply first_stock_nonneg; intros medicine i r _; apply Hfirst).
  split; [|lia]. clear Hsum. induction Hsales as [|s sales [Hq _] _ IH]; [done|].
  rewrite column_sum_cons /=. lia.
Qed.
End bounds_medico.

(** ** Add Sale on int64 cells *)

Section cells64_medico.
Context {word : word.word 64} {word_ok : word.ok word}.
Context `{Amount P}.
Implicit Types (q quantity : Z) (products : list (MedicineRow P))
  (medicine : string) (ss : md_session P).

(** The Stock column as int64 cells, each beside the name the mask of the
    update reads. *)
Definition md_cells products : list (string * word) :=
  (λ r, (Medicine r, int64_of (Stock r))) <$> products.

(** The check [quantity > product["Stock"]] on the cell of the row. *)
Definition md_check64 quantity (stock : word) : bool :=
  word.lts stock (int64_of quantity).

(** [products.loc[products["Medicine"] == medicine, "Stock"] -= quantity]
    on the cells: every cell of the name is decremented at 64 bits. *)
Definition md_sold_from64 medicine quantity (cells : list (string * word))
    : list (string * word) :=
  (λ c, if decide (c.1 = medicine)
        then (c.1, word.sub c.2 (int64_of quantity)) else c) <$> cells.

(** [sales["Quantity"].sum()] of the dashboard on int64 cells: the sum
    from the first row to the last, at 64 bits. *)
Definition md_items_sold64 (sales : list (SaleRow P)) : word :=
  foldl (λ acc s, word.add acc (int64_of (Quantity s))) (int64_of 0) sales.

(** The decrement at 64 bits leaves the cells of the decrement on the
    integers, in range or not: subtraction modulo [2 ^ 64] commutes with
    storing. *)
Lemma md_sold_from64_cells medicine q products :
  md_sold_from64 medicine q (md_cells products)
  = md_cells (sold_from medicine q products).
Proof.
  rewrite /md_sold_from64 /md_cells /sold_from /loc_update -!list_fmap_compose.
  apply list_fmap_ext. intros _ r _. simpl.
  case_decide; [|done]. by rewrite /= int64_of_sub.
Qed.

(** On a Stock and a quantity in range the check at 64 bits is the check
    on the integers. *)
Lemma md_check64_exact q (r : MedicineRow P) :
  int64_range (Stock r) → int64_range q →
  md_check64 q (int64_of (Stock r)) = bool_decide (Stock r < q).
Proof. intros. by rewrite /md_check64 int64_lts. Qed.

(** C38: no integer cell of [src/medico.py] overflows.  When the stocks
    entered are below [2 ^ 63], every Stock and every Quantity of every
    reachable session is held by an int64 cell as it is, the Stock of a row
    below a row of the same name included, which can be negative.  For a
    sale form with a quantity from 1 to below [2 ^ 63], the check computed
    on the cell is the check on the integers, the decrement computed on the
    cells leaves the cells of the decremented table, and after the run of
    Add Sale every Stock is in range again. *)
Theorem md_runs_int64 (reqs : list (md_request P)) ss (f : md_sale_form) :
  md_runs reqs ss →
  Forall (λ f, af_stock f < 2 ^ 63) (md_submitted reqs) →
  md_sale_form_ok (md_table ss) f → 1 ≤ sl_quantity f < 2 ^ 63 →
  Forall (λ r, word.signed (int64_of (Stock r)) = Stock r
               ∧ md_check64 (sl_quantity f) (int64_of (Stock r))
                 = bool_decide (Stock r < sl_quantity f)) (md_table ss)
  ∧ Forall (λ s, word.signed (int64_of (Quantity s)) = Quantity s) (md_ledger ss)
  ∧ md_sold_from64 (sl_medicine f) (sl_quantity f) (md_cells (md_table ss))
    = md_cells (sold_from (sl_medicine f) (sl_quantity f) (md_table ss))
  ∧ Forall (λ r, int64_range (Stock r)) (md_table (md_step (Md_add_sale f) ss)).
Proof.
  intros Hruns HB Hok Hq.
  assert (Forall (λ f, af_stock f ≤ 2 ^ 63 - 1) (md_submitted reqs)) as HB'
    by (eapply Forall_impl; [done|]; simpl; lia).
  pose proof (md_runs_in_bounds _ _ _ Hruns HB') as Hinv.
  destruct (md_in_bounds_cells _ _ Hinv) as [Hstock Hquantity].
  assert (md_in_bounds (2 ^ 63 - 1) (md_step (Md_add_sale f) ss)) as Hinv'
    by (by apply md_step_in_bounds).
  destruct (md_in_bounds_cells _ _ Hinv') as [Hstock' _].
  split_and!; [| |apply md_sold_from64_cells|].
  - eapply Forall_impl; [exact Hstock|]. intros r Hr. simpl in *.
    rewrite signed_int64_of ?md_check64_exact /int64_range //; lia.
  - eapply Forall_impl; [exact Hquantity|]. intros s Hs. simpl in *.
    rewrite signed_int64_of /int64_range //; lia.
  - eapply Forall_impl; [exact Hstock'|]. rewrite /int64_range /=. lia.
Qed.
(** The sum at 64 bits is the cell of the sum, in range or not. *)
Lemma md_items_sold64_sum sales :
  md_items_sold64 sales = int64_of (column_sum Quantity sales).
Proof.
  rewrite /md_items_sold64 /column_sum /=. generalize 0.
  induction sales as [|s sales IH]; intros a; [done|].
  by rewrite /= int64_of_add IH.
Qed.

(** Items Sold of the dashboard does not overflow: when the stocks entered
    sum to less than [2 ^ 63], the sum of the column Quantity computed at
    64 bits is the sum of the integers, in every reachable session. *)
Theorem md_items_sold_int64 (reqs : list (md_request P)) ss :
  md_runs reqs ss →
  column_sum af_stock (md_submitted reqs) < 2 ^ 63 →
  word.signed (md_items_sold64 (md_ledger ss))
  = column_sum Quantity (md_ledger ss).
Proof.
  intros Hruns HB. pose proof (md_items_sold_bounded _ _ Hruns).
  rewrite md_items_sold64_sum signed_int64_of /int64_range //. lia.
Qed.
End cells64_medico.

(** ** At the words of 64 bits that compute *)

(** A Stock at the smallest int64 wraps to the largest when one unit is
    sold from it. *)
Lemma md_sold_from64_wraps :
  let cells : list (string * word64) := [("Paracetamol", int64_of (- 2 ^ 63))] in
  (word.signed <$> (snd <$> md_sold_from64 "Paracetamol" 1 cells))
  = [2 ^ 63 - 1].
Proof. by vm_compute. Qed.

Lemma md_runs_int64_witness :
  let ss := md_run md_duplicate_trace md_start in
  let f := {| sl_medicine := "A"; sl_quantity := 2; sl_sale_date := 0%Z;
              sl_submit := true |} in
  Forall (λ r, word.signed (word:=word64) (int64_of (Stock r)) = Stock r
               ∧ md_check64 (word:=word64) (sl_quantity f) (int64_of (Stock r))
                 = bool_decide (Stock r < sl_quantity f)) (md_table ss)
  ∧ Forall (λ s, word.signed (word:=word64) (int64_of (Quantity s)) = Quantity s)
      (md_ledger ss)
  ∧ md_sold_from64 (word:=word64) (sl_medicine f) (sl_quantity f)
      (md_cells (md_table ss))
    = md_cells (sold_from (sl_medicine f) (sl_quantity f) (md_table ss))
  ∧ Forall (λ r, int64_range (Stock r)) (md_table (md_step (Md_add_sale f) ss)).
Proof.
  apply (md_runs_int64 (word_ok:=word64_ok) md_duplicate_trace);
    [exact md_duplicate_runs|decide_by_compute|decide_by_compute|simpl; lia].
Defined.

(** A sum that passes the largest int64 wraps to the negative numbers. *)
Lemma md_items_sold64_wraps :
  let sale q : SaleRow Z :=
    {| Sale_Medicine := "A"; Quantity := q; Total_Price := q; Date := 0 |} in
  word.signed (word:=word64) (md_items_sold64 [sale (2 ^ 62); sale (2 ^ 62)])
  = - 2 ^ 63.
Proof. by vm_compute. Qed.

Lemma md_items_sold_int64_witness :
  let ss := md_run md_duplicate_trace md_start in
  word.signed (word:=word64) (md_items_sold64 (md_ledger ss))
  = column_sum Quantity (md_ledger ss).
Proof.
  apply (md_items_sold_int64 (word_ok:=word64_ok) md_duplicate_trace);
    [exact md_duplicate_runs|by vm_compute].
Defined.
