(* ===== verification/RerunMedipath.v ===== *)
(** * RerunMedipath: runs of [src/medipath.py] that are stopped

    What a browser session of [medipath.py] holds when a run is stopped at
    an interaction that arrives while it is under way.

    - Dashboard and Expiry Alerts only read the session; Add / Update
      Products and Sales Entry assign it in one block, with no call of
      [st.*] between the assignment to Stock and the assignment to Total
      Sales ([mp_page_commits_once]).
    - A run stopped at a call of [st.*] has therefore left the table as it
      was or as the whole run leaves it, and has shown the first elements of
      the whole run ([mp_stopped_run]); [mp_sealed] is the instance of
      [Sealed] for the script.
    - The tables a browser session reaches when its runs may be stopped are
      tables it reaches by whole runs ([mp_stopped_runs_complete]), so Stock
      and Total Sales stay non-negative ([mp_stopped_runs_nonneg]).
    - A run of Sales Entry stopped at [st.success] has recorded the sale and
      shown no confirmation ([mp_unconfirmed_sale]); entered again, the
      sale is recorded twice ([mp_resubmitted_sale]).
    - With the tracer a run can be stopped between the two assignments:
      Stock is decremented and Total Sales is not ([mp_tracer_half_sale]). *)

From S2P Require Import Prelude Amount Frame Script Rerun Medipath.

Section rerun_medipath.
Context `{Amount P, !PieChart}.

(** The session after the run for [req], whole or stopped at a stop. *)
Definition mp_step_until (tracer : bool) (req : mp_request P)
    (stop : option nat) (ss : mp_session P) : mp_session P :=
  step_until medipath_script tracer req stop ss.

(** The sessions a browser session reaches when its runs may be stopped. *)
Definition mp_reach_until (tracer : bool) : mp_session P → Prop :=
  reach_until medipath_script mp_request_ok mp_start tracer.

(** The session every run continues from once it has initialised it. *)
Definition mp_initialised (ss : mp_session P) : mp_session P :=
  {| mp_products := Some (mp_table ss) |}.

(** A row whose Stock is decremented and whose Total Sales is not yet
    incremented. *)
Definition half_sold (q : Z) (r : ProductRow P) : ProductRow P :=
  set_Stock (Stock r - q) r.

(** Where the initialisation of the session can be stopped: with the
    tracer, at the test and at the assignment. *)
Definition mp_init_stops (tracer : bool) (ss : mp_session P)
    : list (mp_session P * list (mp_element P)) :=
  if tracer
  then (ss, []) :: (if mp_products ss is None then [(ss, [])] else [])
  else [].

(** The stops of a run of the script, from those of its page: the run can
    be stopped at the page configuration and the title, in the
    initialisation, in the sidebar, in the page, and at the rule of the
    footer when the page did not raise. *)
Definition mp_whole_stops (tracer : bool) (ss : mp_session P)
    (page_stops : list (mp_session P * list (mp_element P)))
    (x : mp_session P * list (mp_element P) * result ())
    : list (mp_session P * list (mp_element P)) :=
  [(ss, []); (ss, [mp_page_config])]
  ++ (shown [mp_page_config; mp_text Title Medimate] <$> mp_init_stops tracer ss)
  ++ [(mp_initialised ss, [mp_page_config; mp_text Title Medimate]);
      (mp_initialised ss, [mp_page_config; mp_text Title Medimate;
                           mp_in Sidebar (mp_text Title Navigation)])]
  ++ (shown mp_preamble <$> page_stops)
  ++ (if outcome x is Ok _
      then [(final_session x, mp_preamble ++ emitted x)] else []).

(** Where a read of the table can be stopped: with the tracer, in front of
    it. *)
Definition mp_read_stop (tracer : bool) (ss : mp_session P)
    : list (mp_session P * list (mp_element P)) :=
  if tracer then [(ss, [])] else [].

(** The stops of Sales Entry on a session that holds [products], when the
    button was clicked and the row [i] covers the quantity: at the header,
    at the three widgets and at the confirmation, and with the tracer in
    front of every access to the table, two of them between the assignment
    to Stock and the assignment to Total Sales. *)
Definition record_sale_stops (tracer : bool) (f : sale_form)
    (products : list (ProductRow P)) (i : nat)
    : list (mp_session P * list (mp_element P)) :=
  let ss := {| mp_products := Some products |} in
  let half :=
    {| mp_products := Some (alter (half_sold (sf_quantity_sold f)) i products) |} in
  let sold :=
    {| mp_products := Some (alter (sell (sf_quantity_sold f)) i products) |} in
  (ss, []) :: (shown [mp_text Header Record_Sales] <$>
    mp_read_stop tracer ss ++ mp_read_stop tracer ss
    ++ [(ss, []); (ss, [mp_input (Select_Product_box (Product_Name <$> products))]);
        (ss, [mp_input (Select_Product_box (Product_Name <$> products));
              mp_input Quantity_Sold_input])])
  ++ (shown (sale_widgets products) <$>
      mp_read_stop tracer ss ++ mp_read_stop tracer ss
      ++ mp_read_stop tracer ss ++ mp_read_stop tracer ss
      ++ mp_read_stop tracer half ++ mp_read_stop tracer half
      ++ [(sold, [])]).
End rerun_medipath.

(** The product is added; a sale of five units is stopped at its
    confirmation; a sale of twenty is stopped at the quantity widget. *)
Definition paracetamol_stopped : list (mp_request Z * option nat) :=
  [(Products_page paracetamol, None);
   (Sales_page (paracetamol_sale 5), Some 8);
   (Sales_page (paracetamol_sale 20), Some 6)].

(** ** Where the pages assign *)

Section medipath_effects.
Context `{Amount P, !PieChart}.
Implicit Types (ss : mp_session P) (products : list (ProductRow P))
  (req : mp_request P) (f : sale_form) (tracer : bool).

Lemma reads_only_mp_read_products : reads_only (mp_read_products (P:=P)).
Proof. rewrite /mp_read_products. reads_only_tac. Qed.

Lemma silent_mp_read_products : silent (mp_read_products (P:=P)).
Proof. rewrite /mp_read_products. silent_tac. Qed.

Lemma silent_mp_write_products products : silent (mp_write_products products).
Proof. apply silent_put. Qed.

Lemma silent_mp_update_at i (g : ProductRow P → ProductRow P) :
  silent (mp_update_at i g).
Proof.
  rewrite /mp_update_at.
  silent_tac; auto using silent_mp_read_products, silent_mp_write_products.
Qed.

Lemma silent_mp_init_session : silent (mp_init_session (P:=P)).
Proof. rewrite /mp_init_session. silent_tac. Qed.
End medipath_effects.

#[export] Hint Resolve reads_only_mp_read_products silent_mp_read_products
  silent_mp_write_products silent_mp_update_at silent_mp_init_session
  : script_effects.

Section medipath_pages_effects.
Context `{Amount P, !PieChart}.
Implicit Types (ss : mp_session P) (products : list (ProductRow P))
  (req : mp_request P) (tracer : bool).

Lemma reads_only_mp_dashboard : reads_only (mp_dashboard (P:=P)).
Proof. rewrite /mp_dashboard. reads_only_tac. Qed.

Lemma reads_only_expiry_alerts (today : date) :
  reads_only (expiry_alerts (P:=P) today).
Proof. rewrite /expiry_alerts. reads_only_tac. Qed.

Lemma commits_once_save_product (f : product_form P) :
  commits_once (save_product f).
Proof. rewrite /save_product. commits_once_tac. Qed.

Lemma commits_once_record_sale (f : sale_form) :
  commits_once (record_sale (P:=P) f).
Proof. rewrite /record_sale. commits_once_tac. Qed.

(** Every page assigns the session in at most one block. *)
Lemma mp_page_commits_once req : commits_once (mp_page req).
Proof.
  destruct req; simpl;
    auto using reads_only_commits_once, reads_only_mp_dashboard,
      reads_only_expiry_alerts, commits_once_save_product,
      commits_once_record_sale.
Qed.
End medipath_pages_effects.

(** ** The stops of a run of the script *)

Section medipath_stops.
Context `{Amount P, !PieChart}.
Implicit Types (ss : mp_session P) (products : list (ProductRow P))
  (req : mp_request P) (tracer : bool)
  (c : mp_session P * list (mp_element P)).

Lemma mp_table_initialised ss : mp_table (mp_initialised ss) = mp_table ss.
Proof. done. Qed.

Lemma stops_mp_read_products_bind {B} tracer
    (f : _ → script _ (mp_element P) B) products :
  stops tracer (mp_read_products ≫= f) {| mp_products := Some products |}
  = mp_read_stop tracer {| mp_products := Some products |}
    ++ stops tracer (f products) {| mp_products := Some products |}.
Proof.
  rewrite stops_bind /mp_read_products stops_get_bind run_get_bind /=.
  by rewrite app_nil_r fmap_shown_nil.
Qed.

Lemma stops_mp_write_products_bind {B} tracer
    (f : _ → script _ (mp_element P) B) ss products :
  stops tracer (mp_write_products products ≫= f) ss
  = mp_read_stop tracer ss
    ++ stops tracer (f ()) {| mp_products := Some products |}.
Proof. apply stops_put_bind. Qed.

Lemma stops_mp_update_at_bind {B} tracer (f : _ → script _ (mp_element P) B)
    products i g :
  i < length products →
  stops tracer (mp_update_at i g ≫= f) {| mp_products := Some products |}
  = mp_read_stop tracer {| mp_products := Some products |}
    ++ mp_read_stop tracer {| mp_products := Some products |}
    ++ stops tracer (f ()) {| mp_products := Some (alter g i products) |}.
Proof.
  intros [r Hi]%lookup_lt_is_Some.
  rewrite /mp_update_at !stops_bind_assoc stops_mp_read_products_bind.
  by rewrite /at_update Hi /= stops_bind_assoc stops_lift_Ok_bind
    stops_mp_write_products_bind.
Qed.

Lemma stops_mp_init_session_bind {B} tracer
    (f : _ → script _ (mp_element P) B) ss :
  stops tracer (mp_init_session ≫= f) ss
  = mp_init_stops tracer ss ++ stops tracer (f ()) (mp_initialised ss).
Proof.
  rewrite stops_bind run_mp_init_session /= fmap_shown_nil. f_equal.
  rewrite /mp_init_session stops_get_bind /mp_init_stops.
  destruct ss as [[products|]], tracer; by rewrite /= ?stops_put ?stops_ret.
Qed.

(** The stops of a run of the script are those of the preamble, those of
    the chosen page on the initialised session, and the footer. *)
Lemma medipath_script_stops tracer req ss :
  stops tracer (medipath_script req) ss
  = mp_whole_stops tracer ss (stops tracer (mp_page req) (mp_initialised ss))
      (mp_page req (mp_initialised ss)).
Proof.
  rewrite /medipath_script /mp_whole_stops /mp_preamble.
  autorewrite with ledger_simpl. rewrite stops_mp_init_session_bind.
  autorewrite with ledger_simpl. rewrite -/(mp_page req) stops_bind.
  destruct (mp_page req _) as [[s out] [[]|x]]; rewrite /= ?stops_emit;
    repeat (csimpl; rewrite ?fmap_app ?fmap_shown_shown ?app_nil_r); done.
Qed.
End medipath_stops.

#[export] Hint Rewrite @stops_mp_read_products_bind
  @stops_mp_write_products_bind @stops_mp_init_session_bind : ledger_simpl.

Section medipath_sale_stops.
Context `{Amount P, !PieChart}.
Implicit Types (ss : mp_session P) (products : list (ProductRow P))
  (r : ProductRow P) (i : nat) (f : sale_form) (tracer : bool)
  (c : mp_session P * list (mp_element P)).

(** The stops of an accepted sale, in closed form. *)
Lemma record_sale_stops_accepted tracer f products i r :
  sf_record_sale f = true →
  list_find (λ r, Product_Name r = sf_product f) products = Some (i, r) →
  (Stock r >= sf_quantity_sold f)%Z →
  stops tracer (record_sale f) {| mp_products := Some products |}
  = record_sale_stops tracer f products i.
Proof.
  intros Hclick Hfind Hstock. pose proof Hfind as [Hi _]%list_find_Some_lookup.
  rewrite /record_sale /record_sale_stops /sale_widgets.
  autorewrite with ledger_simpl.
  destruct (frame_empty products) eqn:Hemp.
  { apply frame_empty_true in Hemp. by rewrite Hemp in Hi. }
  autorewrite with ledger_simpl. rewrite Hclick. csimpl.
  autorewrite with ledger_simpl. rewrite index0_mask Hfind. csimpl.
  autorewrite with ledger_simpl. rewrite (at_get_lookup _ _ _ r) //.
  autorewrite with ledger_simpl. rewrite decide_True //.
  apply lookup_lt_Some in Hi.
  rewrite !stops_mp_update_at_bind ?length_alter // stops_emit.
  rewrite list_alter_alter_eq. by destruct tracer.
Qed.
End medipath_sale_stops.

(** ** Runs stopped at a call of [st.*] *)

Section medipath_stopped.
Context `{Amount P, !PieChart}.
Implicit Types (ss : mp_session P) (products : list (ProductRow P))
  (r : ProductRow P) (i : nat) (req : mp_request P) (f : sale_form)
  (c : mp_session P * list (mp_element P)).

(** A run stopped at a call of [st.*] has left the table as it was, or the
    session as the whole run leaves it. *)
Lemma mp_stops_table req ss c :
  c ∈ stops false (medipath_script req) ss →
  mp_table c.1 = mp_table ss ∨ c.1 = mp_step req ss.
Proof.
  rewrite medipath_script_stops /mp_whole_stops mp_step_page /=.
  rewrite !elem_of_cons elem_of_app list_elem_of_fmap.
  intros [->|[->|[->|[->|[(c' & -> & Hc')|Hc]]]]]; [by left..| |].
  - destruct c' as [s out].
    apply commits_once_stops in Hc' as [Hs|Hs];
      [..|apply mp_page_commits_once]; simpl in *; subst; by [left|right].
  - destruct (outcome _); [|by apply elem_of_nil in Hc].
    apply list_elem_of_singleton in Hc as ->. by right.
Qed.

(** C15: A run of the script of medipath.py that Streamlit stops at a call
    of [st.*] has left the table as it was before the run, or the session
    as the whole run leaves it: no stop falls between the assignment to
    Stock and the assignment to Total Sales.  What it has shown are the
    first elements of the whole run. *)
Theorem mp_stopped_run req ss c :
  c ∈ stops false (medipath_script req) ss →
  (mp_table c.1 = mp_table ss ∨ c.1 = mp_step req ss)
  ∧ c.2 `prefix_of` emitted (medipath_script req ss).
Proof. intros Hc. split; [by apply mp_stops_table|by eapply stops_prefix]. Qed.

(** The script keeps the promise [Sealed], seen through the table. *)
#[export] Instance mp_sealed :
  Sealed (medipath_script (P:=P)) mp_request_ok mp_table.
Proof.
  split.
  - intros req s s' Hview. rewrite -!/(mp_step req _) !mp_step_page.
    by rewrite Hview.
  - intros [] s s' Hview; simpl; by rewrite ?Hview.
  - intros req s c [->| ->]%mp_stops_table; by [left|right].
Qed.

(** The sessions reached by whole runs are those of [mp_runs]. *)
Lemma mp_reach_runs ss :
  reach medipath_script mp_request_ok mp_start ss ↔ ∃ reqs, mp_runs reqs ss.
Proof.
  split.
  - induction 1 as [|s req _ [reqs IH] Hok]; [exists []; constructor|].
    exists (reqs ++ [req]). by constructor.
  - intros [reqs Hruns]. induction Hruns; by constructor.
Qed.

Lemma mp_runs_reach_until tracer reqs ss :
  mp_runs reqs ss → mp_reach_until tracer ss.
Proof. intros. apply reach_reach_until, mp_reach_runs. eauto. Qed.

(** The table of every session a browser session of medipath.py
    reaches when its runs may be stopped at the calls of [st.*] is the table
    of a session it reaches by whole runs: stopping runs reaches no new
    table. *)
Theorem mp_stopped_runs_complete ss :
  mp_reach_until false ss →
  ∃ reqs ss', mp_runs reqs ss' ∧ mp_table ss' = mp_table ss.
Proof.
  intros (ss' & [reqs Hruns]%mp_reach_runs & Hview)%(reach_until_complete
    _ _ _ mp_table).
  eauto.
Qed.

(** Stock and Total Sales stay non-negative when runs are stopped at the
    calls of [st.*]. *)
Lemma mp_stopped_runs_nonneg ss :
  mp_reach_until false ss → Forall row_ok (mp_table ss).
Proof.
  apply (reach_until_invariant _ _ _ mp_table (Forall row_ok)).
  intros ss' [reqs Hruns]%mp_reach_runs. revert reqs ss' Hruns.
  apply (mp_runs_invariant (λ ss, Forall row_ok (mp_table ss)));
    [by constructor|apply mp_step_nonneg].
Qed.

(** C27: A run of Sales Entry that is stopped at [st.success], its ninth
    call of [st.*], has recorded the sale and has shown no status element:
    the sale is in the table and the page does not say so. *)
Theorem mp_unconfirmed_sale f ss i r :
  sf_record_sale f = true →
  list_find (λ r, Product_Name r = sf_product f) (mp_table ss) = Some (i, r) →
  (Stock r >= sf_quantity_sold f)%Z →
  ∃ c, stops false (medipath_script (Sales_page f)) ss !! 8 = Some c
       ∧ mp_table c.1 = alter (sell (sf_quantity_sold f)) i (mp_table ss)
       ∧ mp_statuses c.2 = [].
Proof.
  intros Hclick Hfind Hstock.
  rewrite medipath_script_stops /= (record_sale_stops_accepted _ _ _ i r) //.
  by eexists.
Qed.

(** The session a run of Sales Entry stopped at [st.success] leaves. *)
Lemma mp_step_until_unconfirmed f ss i r :
  sf_record_sale f = true →
  list_find (λ r, Product_Name r = sf_product f) (mp_table ss) = Some (i, r) →
  (Stock r >= sf_quantity_sold f)%Z →
  mp_step_until false (Sales_page f) (Some 8) ss
  = {| mp_products := Some (alter (sell (sf_quantity_sold f)) i (mp_table ss)) |}.
Proof.
  intros Hclick Hfind Hstock. rewrite /mp_step_until /step_until.
  by rewrite medipath_script_stops /= (record_sale_stops_accepted _ _ _ i r).
Qed.

(** A sale that was stopped at [st.success] and is entered again, the page
    having confirmed nothing, is recorded twice: the second run sells from
    the row the first has sold from, and confirms one sale. *)
Lemma mp_resubmitted_sale f ss i r :
  sf_record_sale f = true →
  list_find (λ r, Product_Name r = sf_product f) (mp_table ss) = Some (i, r) →
  (Stock r >= 2 * sf_quantity_sold f)%Z → (0 ≤ sf_quantity_sold f)%Z →
  let ss1 := mp_step_until false (Sales_page f) (Some 8) ss in
  mp_table (mp_step (Sales_page f) ss1)
  = alter (sell (sf_quantity_sold f) ∘ sell (sf_quantity_sold f)) i (mp_table ss)
  ∧ mp_statuses (emitted (medipath_script (Sales_page f) ss1))
    = [(Success, Sale_recorded (sf_product f))].
Proof.
  intros Hclick Hfind Hstock Hq ss1. subst ss1.
  rewrite (mp_step_until_unconfirmed f ss i r) //; [|lia].
  assert (list_find (λ r, Product_Name r = sf_product f)
            (alter (sell (sf_quantity_sold f)) i (mp_table ss))
          = Some (i, sell (sf_quantity_sold f) r)) as Hfind'
    by by apply list_find_alter_same.
  assert (Stock (sell (sf_quantity_sold f) r) >= sf_quantity_sold f)%Z
    as Hstock' by (rewrite /sell /=; lia).
  rewrite /mp_step record_sale_run mp_statuses_whole_run /=.
  rewrite /record_sale_spec Hclick Hfind' decide_True //.
  destruct (frame_empty _) eqn:Hemp.
  { apply frame_empty_true in Hemp. rewrite /mp_table /= in Hemp.
    by rewrite Hemp in Hfind'. }
  rewrite /mp_whole_run /final_session /emitted /mp_table /=.
  by rewrite list_alter_alter_eq.
Qed.

(** With the tracer a run of Sales Entry can be stopped between its
    two assignments: the session then holds the row with Stock decremented
    and Total Sales as it was, so Stock + Total Sales of the row has dropped
    by the quantity. *)
Theorem mp_tracer_half_sale f ss i r :
  sf_record_sale f = true →
  list_find (λ r, Product_Name r = sf_product f) (mp_table ss) = Some (i, r) →
  (Stock r >= sf_quantity_sold f)%Z →
  ∃ c, c ∈ stops true (medipath_script (Sales_page f)) ss
       ∧ mp_table c.1 = alter (half_sold (sf_quantity_sold f)) i (mp_table ss)
       ∧ row_total <$> mp_table c.1 !! i
         = Some (row_total r - sf_quantity_sold f)%Z.
Proof.
  intros Hclick Hfind Hstock. pose proof Hfind as [Hi _]%list_find_Some_lookup.
  set (half := {| mp_products :=
    Some (alter (half_sold (sf_quantity_sold f)) i (mp_table ss)) |}).
  exists (half, mp_preamble ++ sale_widgets (mp_table ss)). split; [|split].
  - rewrite medipath_script_stops /= (record_sale_stops_accepted _ _ _ i r) //.
    rewrite /mp_whole_stops !elem_of_app. do 3 right. left.
    apply list_elem_of_fmap. exists (half, sale_widgets (mp_table ss)).
    split; [done|]. by apply (list_elem_of_lookup_2 _ 10).
  - done.
  - rewrite /= list_lookup_alter_eq Hi /= /row_total /=. f_equal. lia.
Qed.
End medipath_stopped.

(** ** The theorems at a concrete session *)

#[local] Existing Instance refuses_zeros.

Lemma paracetamol_stopped_reach :
  mp_reach_until false
    (run_until medipath_script false paracetamol_stopped mp_start).
Proof. apply reach_until_trace; [constructor|decide_by_compute]. Defined.

Lemma mp_stopped_run_witness :
  let ss := {| mp_products := Some paracetamol_table |} in
  let c := ({| mp_products := Some (alter (sell 5) 0 paracetamol_table) |},
            mp_preamble ++ sale_widgets paracetamol_table) in
  (mp_table c.1 = mp_table ss ∨ c.1 = mp_step (Sales_page (paracetamol_sale 5)) ss)
  ∧ c.2 `prefix_of` emitted (medipath_script (Sales_page (paracetamol_sale 5)) ss).
Proof.
  apply (mp_stopped_run (Sales_page (paracetamol_sale 5))).
  by apply (list_elem_of_lookup_2 _ 8).
Defined.

Lemma mp_stopped_runs_complete_witness :
  ∃ reqs ss',
    mp_runs reqs ss'
    ∧ mp_table ss'
      = mp_table (run_until medipath_script false paracetamol_stopped mp_start).
Proof. exact (mp_stopped_runs_complete _ paracetamol_stopped_reach). Defined.

Lemma mp_unconfirmed_sale_witness :
  ∃ c, stops false (medipath_script (Sales_page (paracetamol_sale 5)))
         {| mp_products := Some paracetamol_table |} !! 8 = Some c
       ∧ mp_table c.1 = alter (sell 5) 0 paracetamol_table
       ∧ mp_statuses c.2 = [].
Proof.
  apply (mp_unconfirmed_sale (paracetamol_sale 5)
           {| mp_products := Some paracetamol_table |} 0
           (new_product_row paracetamol)); first [reflexivity|by vm_compute].
Defined.

Lemma mp_resubmitted_sale_witness :
  let ss1 := mp_step_until false (Sales_page (paracetamol_sale 5)) (Some 8)
               {| mp_products := Some paracetamol_table |} in
  mp_table (mp_step (Sales_page (paracetamol_sale 5)) ss1)
  = alter (sell 5 ∘ sell 5) 0 paracetamol_table
  ∧ mp_statuses (emitted (medipath_script (Sales_page (paracetamol_sale 5)) ss1))
    = [(Success, Sale_recorded "Paracetamol")].
Proof.
  apply (mp_resubmitted_sale (paracetamol_sale 5)
           {| mp_products := Some paracetamol_table |} 0
           (new_product_row paracetamol)); [reflexivity..|done|done].
Defined.

Lemma mp_tracer_half_sale_witness :
  ∃ c, c ∈ stops true (medipath_script (Sales_page (paracetamol_sale 5)))
             {| mp_products := Some paracetamol_table |}
       ∧ mp_table c.1 = alter (half_sold 5) 0 paracetamol_table
       ∧ row_total <$> mp_table c.1 !! 0 = Some 15%Z.
Proof.
  apply (mp_tracer_half_sale (paracetamol_sale 5)
           {| mp_products := Some paracetamol_table |} 0
           (new_product_row paracetamol)); first [reflexivity|by vm_compute].
Defined.
