(* ===== verification/RerunMedico.v ===== *)
(** * RerunMedico: runs of [src/medico.py] that are stopped

    What a browser session of [medico.py] holds when a run is stopped at an
    interaction that arrives while it is under way.

    - Dashboard and Stock & Expiry only read the session; Add Product and
      Add Sale assign it in one block, with no call of [st.*] between the
      append to [sales] and the decrement of Stock ([md_page_commits_once]).
    - A run stopped at a call of [st.*] has therefore left both tables as
      they were or as the whole run leaves them, and has shown the first
      elements of the whole run ([md_stopped_run]); [md_sealed] is the
      instance of [Sealed] for the script.
    - The tables a browser session reaches when its runs may be stopped are
      tables it reaches by whole runs ([md_stopped_runs_complete]).
    - A run of Add Sale stopped at [st.success] has recorded the sale and
      shown no confirmation ([md_unconfirmed_sale]).
    - With the tracer a run can be stopped between the append and the
      decrement: the sale is in [sales] and the stock is as it was
      ([md_tracer_half_sale]). *)

From S2P Require Import Prelude Amount Frame Script Rerun Medico.

Section rerun_medico.
Context `{Amount P}.

(** The session after the run for [req], whole or stopped at a stop. *)
Definition md_step_until (tracer : bool) (req : md_request P)
    (stop : option nat) (ss : md_session P) : md_session P :=
  step_until medico_script tracer req stop ss.

(** The sessions a browser session reaches when its runs may be stopped. *)
Definition md_reach_until (tracer : bool) : md_session P → Prop :=
  reach_until medico_script md_request_ok md_start tracer.

(** The two tables of a session. *)
Definition md_tables (ss : md_session P)
    : list (MedicineRow P) * list (SaleRow P) :=
  (md_table ss, md_ledger ss).

(** The session every run continues from once it has initialised it. *)
Definition md_initialised (ss : md_session P) : md_session P :=
  md_session_of (md_table ss) (md_ledger ss).

(** Where an access to a table can be stopped: with the tracer, in front
    of it. *)
Definition md_read_stop (tracer : bool) (ss : md_session P)
    : list (md_session P * list (md_element P)) :=
  if tracer then [(ss, [])] else [].

(** The stops of a run of the script, from those of its page: the run can
    be stopped at the page configuration, the title and the caption, in
    the initialisation, in the sidebar and in the page. *)
Definition md_whole_stops (tracer : bool) (ss : md_session P)
    (page_stops : list (md_session P * list (md_element P)))
    : list (md_session P * list (md_element P)) :=
  [(ss, []); (ss, [md_page_config]);
   (ss, [md_page_config; md_text Title md_MediMate])]
  ++ (shown [md_page_config; md_text Title md_MediMate;
             md_text Caption md_Smart_inventory] <$>
      stops tracer md_init_session ss)
  ++ [(md_initialised ss, [md_page_config; md_text Title md_MediMate;
                           md_text Caption md_Smart_inventory])]
  ++ (shown md_preamble <$> page_stops).

(** The stops of Add Sale on a session that holds both tables, when the
    form was submitted and the first row with the name covers the quantity:
    at the subheader, at the four widgets and at the confirmation, and with
    the tracer in front of every access to a table, three of them between
    the append to [sales] and the decrement of Stock. *)
Definition add_sale_stops (tracer : bool) (f : md_sale_form)
    (products : list (MedicineRow P)) (sales : list (SaleRow P))
    (product : MedicineRow P) : list (md_session P * list (md_element P)) :=
  let ss := md_session_of products sales in
  let sales' :=
    concat_row sales
      (md_new_sale (sl_medicine f) (sl_quantity f) (sl_sale_date f) product) in
  let appended := md_session_of products sales' in
  let sold :=
    md_session_of (sold_from (sl_medicine f) (sl_quantity f) products) sales' in
  let select := md_input (md_Select_Medicine_box (Medicine <$> products)) in
  let widgets := [select; md_input md_Quantity_Sold_input;
                  md_input md_Sale_Date_input; md_input md_Add_Sale_button] in
  (ss, []) :: (shown [md_text Subheader md_Add_Sale_Entry] <$>
    md_read_stop tracer ss
    ++ (stop_placed (md_in Form) <$>
        md_read_stop tracer ss
        ++ [(ss, []); (ss, take 1 widgets); (ss, take 2 widgets);
            (ss, take 3 widgets)]
        ++ (shown widgets <$>
            md_read_stop tracer ss ++ md_read_stop tracer ss
            ++ md_read_stop tracer ss ++ md_read_stop tracer ss
            ++ md_read_stop tracer appended ++ md_read_stop tracer appended
            ++ md_read_stop tracer appended ++ [(sold, [])]))).
End rerun_medico.

(** The product is added; a sale of five units is stopped at its
    confirmation; a sale of twenty is stopped at the quantity widget. *)
Definition md_paracetamol_stopped : list (md_request Z * option nat) :=
  [(Md_add_product md_paracetamol, None);
   (Md_add_sale (md_paracetamol_sale 5), Some 9);
   (Md_add_sale (md_paracetamol_sale 20), Some 6)].

(** ** Where the pages assign *)

Section medico_effects.
Context `{Amount P}.
Implicit Types (ss : md_session P) (products : list (MedicineRow P))
  (sales : list (SaleRow P)) (req : md_request P) (tracer : bool).

Lemma reads_only_md_read_products : reads_only (md_read_products (P:=P)).
Proof. rewrite /md_read_products. reads_only_tac. Qed.

Lemma reads_only_md_read_sales : reads_only (md_read_sales (P:=P)).
Proof. rewrite /md_read_sales. reads_only_tac. Qed.

Lemma silent_md_read_products : silent (md_read_products (P:=P)).
Proof. rewrite /md_read_products. silent_tac. Qed.

Lemma silent_md_read_sales : silent (md_read_sales (P:=P)).
Proof. rewrite /md_read_sales. silent_tac. Qed.

Lemma silent_md_write_products products : silent (md_write_products products).
Proof. rewrite /md_write_products. silent_tac. Qed.

Lemma silent_md_write_sales sales : silent (md_write_sales sales).
Proof. rewrite /md_write_sales. silent_tac. Qed.

Lemma silent_md_init_session : silent (md_init_session (P:=P)).
Proof.
  rewrite /md_init_session.
  silent_tac; auto using silent_md_write_products, silent_md_write_sales.
Qed.
End medico_effects.

#[export] Hint Resolve reads_only_md_read_products reads_only_md_read_sales
  silent_md_read_products silent_md_read_sales silent_md_write_products
  silent_md_write_sales silent_md_init_session : script_effects.

Section medico_pages_effects.
Context `{Amount P}.
Implicit Types (ss : md_session P) (req : md_request P).

Lemma reads_only_md_dashboard : reads_only (md_dashboard (P:=P)).
Proof. rewrite /md_dashboard. reads_only_tac. Qed.

Lemma reads_only_stock_expiry (today : date) :
  reads_only (stock_expiry (P:=P) today).
Proof. rewrite /stock_expiry. reads_only_tac. Qed.

Lemma commits_once_add_product (f : md_product_form P) :
  commits_once (add_product f).
Proof. rewrite /add_product. commits_once_tac. Qed.

Lemma commits_once_add_sale (f : md_sale_form) :
  commits_once (add_sale (P:=P) f).
Proof. rewrite /add_sale. commits_once_tac. Qed.

(** Every page assigns the session in at most one block. *)
Lemma md_page_commits_once req : commits_once (md_page req).
Proof.
  destruct req; simpl;
    auto using reads_only_commits_once, reads_only_md_dashboard,
      reads_only_stock_expiry, commits_once_add_product, commits_once_add_sale.
Qed.
End medico_pages_effects.

(** ** The stops of a run of the script *)

Section medico_stops.
Context `{Amount P}.
Implicit Types (ss : md_session P) (products : list (MedicineRow P))
  (sales : list (SaleRow P)) (req : md_request P) (tracer : bool)
  (c : md_session P * list (md_element P)).

Lemma stops_md_read_products_bind {B} tracer
    (f : _ → script _ (md_element P) B) products osales :
  stops tracer (md_read_products ≫= f)
    {| md_products := Some products; md_sales := osales |}
  = md_read_stop tracer {| md_products := Some products; md_sales := osales |}
    ++ stops tracer (f products)
         {| md_products := Some products; md_sales := osales |}.
Proof.
  rewrite stops_bind /md_read_products stops_get_bind run_get_bind /=.
  by rewrite app_nil_r fmap_shown_nil.
Qed.

Lemma stops_md_read_sales_bind {B} tracer
    (f : _ → script _ (md_element P) B) oproducts sales :
  stops tracer (md_read_sales ≫= f)
    {| md_products := oproducts; md_sales := Some sales |}
  = md_read_stop tracer {| md_products := oproducts; md_sales := Some sales |}
    ++ stops tracer (f sales)
         {| md_products := oproducts; md_sales := Some sales |}.
Proof.
  rewrite stops_bind /md_read_sales stops_get_bind run_get_bind /=.
  by rewrite app_nil_r fmap_shown_nil.
Qed.

Lemma stops_md_write_products_bind {B} tracer
    (f : _ → script _ (md_element P) B) ss products :
  stops tracer (md_write_products products ≫= f) ss
  = md_read_stop tracer ss ++ md_read_stop tracer ss
    ++ stops tracer (f ())
         {| md_products := Some products; md_sales := md_sales ss |}.
Proof.
  by rewrite /md_write_products stops_bind_assoc stops_get_bind stops_put_bind.
Qed.

Lemma stops_md_write_sales_bind {B} tracer
    (f : _ → script _ (md_element P) B) ss sales :
  stops tracer (md_write_sales sales ≫= f) ss
  = md_read_stop tracer ss ++ md_read_stop tracer ss
    ++ stops tracer (f ())
         {| md_products := md_products ss; md_sales := Some sales |}.
Proof.
  by rewrite /md_write_sales stops_bind_assoc stops_get_bind stops_put_bind.
Qed.

(** The stops of a run of the script are those of the preamble and those
    of the chosen page on the initialised session. *)
Lemma medico_script_stops tracer req ss :
  stops tracer (medico_script req) ss
  = md_whole_stops tracer ss (stops tracer (md_page req) (md_initialised ss)).
Proof.
  rewrite /medico_script /md_whole_stops /md_preamble.
  autorewrite with ledger_simpl. rewrite stops_bind run_md_init_session.
  rewrite /= stops_widget_value_bind -/(md_page req).
  repeat (csimpl; rewrite ?fmap_app ?fmap_shown_shown ?fmap_shown_nil); done.
Qed.
End medico_stops.

#[export] Hint Rewrite @stops_md_read_products_bind @stops_md_read_sales_bind
  @stops_md_write_products_bind @stops_md_write_sales_bind : ledger_simpl.

Section medico_sale_stops.
Context `{Amount P}.
Implicit Types (ss : md_session P) (products : list (MedicineRow P))
  (sales : list (SaleRow P)) (f : md_sale_form) (tracer : bool).

(** The stops of an accepted sale, in closed form. *)
Lemma add_sale_stops_accepted tracer f products sales i product :
  sl_submit f = true →
  list_find (λ r, Medicine r = sl_medicine f) products = Some (i, product) →
  (sl_quantity f ≤ Stock product)%Z →
  stops tracer (add_sale f) (md_session_of products sales)
  = add_sale_stops tracer f products sales product.
Proof.
  intros Hsub Hfind Hstock. pose proof Hfind as [Hi _]%list_find_Some_lookup.
  rewrite /add_sale /add_sale_stops /md_session_of.
  autorewrite with ledger_simpl.
  destruct (frame_empty products) eqn:Hemp.
  { apply frame_empty_true in Hemp. by rewrite Hemp in Hi. }
  autorewrite with ledger_simpl. rewrite Hsub. csimpl.
  autorewrite with ledger_simpl. rewrite iloc0_mask Hfind. csimpl.
  autorewrite with ledger_simpl. rewrite decide_False; [|lia].
  autorewrite with ledger_simpl. csimpl. autorewrite with ledger_simpl.
  by destruct tracer.
Qed.
End medico_sale_stops.

(** ** Runs stopped at a call of [st.*] *)

Section medico_stopped.
Context `{Amount P}.
Implicit Types (ss : md_session P) (products : list (MedicineRow P))
  (sales : list (SaleRow P)) (req : md_request P) (f : md_sale_form)
  (c : md_session P * list (md_element P)).

(** A run stopped at a call of [st.*] has left both tables as they were,
    or the session as the whole run leaves it. *)
Lemma md_stops_tables req ss c :
  c ∈ stops false (medico_script req) ss →
  md_tables c.1 = md_tables ss ∨ c.1 = md_step req ss.
Proof.
  rewrite medico_script_stops /md_whole_stops md_step_page.
  rewrite silent_stops /=; [|apply silent_md_init_session].
  rewrite !elem_of_cons list_elem_of_fmap.
  intros [->|[->|[->|[->|(c' & -> & Hc')]]]]; [by left..|].
  destruct c' as [s out].
  apply commits_once_stops in Hc' as [Hs|Hs];
    [..|apply md_page_commits_once]; simpl in *; subst; by [left|right].
Qed.

(** C16: A run of the script of medico.py that Streamlit stops at a call of
    [st.*] has left both tables as they were before the run, or the session
    as the whole run leaves it: no stop falls between the append to [sales]
    and the decrement of Stock.  What it has shown are the first elements of
    the whole run. *)
Theorem md_stopped_run req ss c :
  c ∈ stops false (medico_script req) ss →
  (md_tables c.1 = md_tables ss ∨ c.1 = md_step req ss)
  ∧ c.2 `prefix_of` emitted (medico_script req ss).
Proof. intros Hc. split; [by apply md_stops_tables|by eapply stops_prefix]. Qed.

(** The script keeps the promise [Sealed], seen through the two tables. *)
#[export] Instance md_sealed :
  Sealed (medico_script (P:=P)) md_request_ok md_tables.
Proof.
  split.
  - intros req s s' [= Hp Hs]. rewrite -!/(md_step req _) !md_step_page.
    by rewrite Hp Hs.
  - intros [] s s' [= Hp Hs]; simpl; by rewrite ?Hp.
  - intros req s c [->| ->]%md_stops_tables; by [left|right].
Qed.

(** The sessions reached by whole runs are those of [md_runs]. *)
Lemma md_reach_runs ss :
  reach medico_script md_request_ok md_start ss ↔ ∃ reqs, md_runs reqs ss.
Proof.
  split.
  - induction 1 as [|s req _ [reqs IH] Hok]; [exists []; constructor|].
    exists (reqs ++ [req]). by constructor.
  - intros [reqs Hruns]. induction Hruns; by constructor.
Qed.

Lemma md_runs_reach_until tracer reqs ss :
  md_runs reqs ss → md_reach_until tracer ss.
Proof. intros. apply reach_reach_until, md_reach_runs. eauto. Qed.

(** The two tables of every session a browser session of medico.py
    reaches when its runs may be stopped at the calls of [st.*] are the
    tables of a session it reaches by whole runs: stopping runs reaches no
    new tables. *)
Theorem md_stopped_runs_complete ss :
  md_reach_until false ss →
  ∃ reqs ss', md_runs reqs ss' ∧ md_tables ss' = md_tables ss.
Proof.
  intros (ss' & [reqs Hruns]%md_reach_runs & Hview)%(reach_until_complete
    _ _ _ md_tables).
  eauto.
Qed.

(** The first row of every name keeps a non-negative stock when runs are
    stopped at the calls of [st.*]. *)
Lemma md_stopped_runs_first_nonneg ss :
  md_reach_until false ss → first_rows_nonneg (md_table ss).
Proof.
  apply (reach_until_invariant _ _ _ md_tables (λ v, first_rows_nonneg v.1)).
  intros ss' [reqs Hruns]%md_reach_runs. revert reqs ss' Hruns.
  apply (md_runs_invariant (λ ss, first_rows_nonneg (md_table ss)));
    [by intros ???|apply md_step_first_nonneg].
Qed.

(** A run of Add Sale that is stopped at [st.success], its tenth call
    of [st.*], has recorded the sale and has shown no status element:
    the sale row is appended, the stock is decremented, and the page does
    not say so. *)
Theorem md_unconfirmed_sale f ss i product :
  sl_submit f = true →
  list_find (λ r, Medicine r = sl_medicine f) (md_table ss) = Some (i, product) →
  (sl_quantity f ≤ Stock product)%Z →
  ∃ c, stops false (medico_script (Md_add_sale f)) ss !! 9 = Some c
       ∧ c.1 = md_step (Md_add_sale f) ss
       ∧ md_ledger c.1
         = concat_row (md_ledger ss)
             (md_new_sale (sl_medicine f) (sl_quantity f) (sl_sale_date f)
                product)
       ∧ md_statuses c.2 = [].
Proof.
  intros Hsub Hfind Hstock.
  rewrite medico_script_stops /md_whole_stops md_step_add_sale /add_sale_spec.
  rewrite silent_stops /=; [|apply silent_md_init_session].
  rewrite (add_sale_stops_accepted _ _ _ _ i product) // Hsub Hfind.
  destruct (frame_empty _) eqn:Hemp.
  { apply frame_empty_true in Hemp. by rewrite Hemp in Hfind. }
  rewrite decide_False; [|lia]. by eexists.
Qed.

(** C28: With the tracer a run of Add Sale can be stopped between the
    append to [sales] and the decrement of Stock: the session then holds
    the sale row, and the products table as it was before the run. *)
Theorem md_tracer_half_sale f ss i product :
  sl_submit f = true →
  list_find (λ r, Medicine r = sl_medicine f) (md_table ss) = Some (i, product) →
  (sl_quantity f ≤ Stock product)%Z →
  ∃ c, c ∈ stops true (medico_script (Md_add_sale f)) ss
       ∧ md_table c.1 = md_table ss
       ∧ md_ledger c.1
         = concat_row (md_ledger ss)
             (md_new_sale (sl_medicine f) (sl_quantity f) (sl_sale_date f)
                product).
Proof.
  intros Hsub Hfind Hstock.
  set (appended := md_session_of (md_table ss)
    (concat_row (md_ledger ss)
       (md_new_sale (sl_medicine f) (sl_quantity f) (sl_sale_date f) product))).
  exists (appended, md_preamble ++ md_sale_widgets (md_table ss)).
  split; [|done].
  rewrite medico_script_stops /= (add_sale_stops_accepted _ _ _ _ i product) //.
  rewrite /md_whole_stops !elem_of_app. do 3 right.
  apply list_elem_of_fmap. exists (appended, md_sale_widgets (md_table ss)).
  split; [done|]. by apply (list_elem_of_lookup_2 _ 11).
Qed.
End medico_stopped.

(** ** The theorems at a concrete session *)

Lemma md_paracetamol_stopped_reach :
  md_reach_until false
    (run_until medico_script false md_paracetamol_stopped md_start).
Proof. apply reach_until_trace; [constructor|decide_by_compute]. Defined.

Lemma md_stopped_run_witness :
  let ss := md_paracetamol_session in
  let c := (md_step (Md_add_sale (md_paracetamol_sale 5)) ss,
            md_preamble ++ md_sale_widgets (md_table ss)) in
  (md_tables c.1 = md_tables ss
   ∨ c.1 = md_step (Md_add_sale (md_paracetamol_sale 5)) ss)
  ∧ c.2 `prefix_of` emitted (medico_script (Md_add_sale (md_paracetamol_sale 5)) ss).
Proof.
  apply (md_stopped_run (Md_add_sale (md_paracetamol_sale 5))).
  by apply (list_elem_of_lookup_2 _ 9).
Defined.

Lemma md_stopped_runs_complete_witness :
  ∃ reqs ss',
    md_runs reqs ss'
    ∧ md_tables ss'
      = md_tables (run_until medico_script false md_paracetamol_stopped md_start).
Proof. exact (md_stopped_runs_complete _ md_paracetamol_stopped_reach). Defined.

Lemma md_unconfirmed_sale_witness :
  ∃ c, stops false (medico_script (Md_add_sale (md_paracetamol_sale 5)))
         md_paracetamol_session !! 9 = Some c
       ∧ c.1 = md_step (Md_add_sale (md_paracetamol_sale 5)) md_paracetamol_session
       ∧ md_ledger c.1
         = concat_row (md_ledger md_paracetamol_session)
             (md_new_sale "Paracetamol" 5 0%Z
                {| Medicine := "Paracetamol"; Stock := 15; Price := 5%Z;
                   Expiry_Date := 10%Z |})
       ∧ md_statuses c.2 = [].
Proof.
  apply (md_unconfirmed_sale (md_paracetamol_sale 5) md_paracetamol_session 0);
    first [reflexivity|by vm_compute].
Defined.

Lemma md_tracer_half_sale_witness :
  ∃ c, c ∈ stops true (medico_script (Md_add_sale (md_paracetamol_sale 5)))
             md_paracetamol_session
       ∧ md_table c.1 = md_table md_paracetamol_session
       ∧ md_ledger c.1
         = concat_row (md_ledger md_paracetamol_session)
             (md_new_sale "Paracetamol" 5 0%Z
                {| Medicine := "Paracetamol"; Stock := 15; Price := 5%Z;
                   Expiry_Date := 10%Z |}).
Proof.
  apply (md_tracer_half_sale (md_paracetamol_sale 5) md_paracetamol_session 0);
    first [reflexivity|by vm_compute].
Defined.
