(* ===== verification/PoolMedipath.v ===== *)
(** * PoolMedipath: Sales Entry of [src/medipath.py] under concurrent callers

    The handler that runs after a click on Record Sale (lines 117 to 126 of
    [src/medipath.py]), one statement per step: the row is located, its
    stock is checked, Stock is decremented, Total Sales is incremented, and
    the outcome is reported.  A caller is the form it submitted and the
    statement it stands before; callers share one products table and are
    interleaved statement by statement, as [Pool] describes.

    - Run alone, the handler does what the page [record_sale] does
      ([mp_sale_alone]).
    - Every interleaving of [k] callers ends within [5 * k] steps
      ([mp_pool_terminates]).
    - The row a caller has located stays within the table, so no statement
      after the look-up raises ([mp_pool_wf_preserved]).
    - Stock + Total Sales of a row, plus the quantities of the callers that
      have decremented its Stock and not yet incremented its Total Sales,
      never changes ([mp_pool_step_balance], [mp_pool_balance_finished]).
    - Two callers that each ask for 15 of 20 units can both pass the check
      and leave a stock of -10 ([mp_concurrent_oversell]): the check and the
      update are separate statements, which section 5 of the specification
      forbids.
    - When each handler runs to its end before the next starts, the pool
      does what one browser session does that clicks Record Sale with the
      forms of the callers in the order of the scheduler
      ([mp_atomic_serial]); no stock becomes negative
      ([mp_atomic_nonneg]), and of two sales that each fit the stock and
      together exceed it exactly the first is accepted, whichever comes
      first ([mp_atomic_one_wins]).

    The fuel of [run_alone] is [mp_pc_size]: five statements from the
    look-up to the end on the longest path. *)

From S2P Require Import Prelude Amount Frame Script Pool Medipath.

Section pool_medipath.
Context `{Amount P, !PieChart}.

(** ** The handler, statement by statement *)

(** The statement a caller stands before: locating the row, the check of
    its stock, the decrement, the increment, the success or the error
    element; or the end, with the outcome. *)
Inductive mp_pc : Type :=
  | At_locate
  | At_check (idx : nat)
  | At_decrement (idx : nat)
  | At_increment (idx : nat)
  | At_success
  | At_error
  | At_end (o : sale_outcome).

(** A caller of Sales Entry: the values of its widgets, and where its
    handler stands. *)
Record mp_caller : Type := {
  call_form : sale_form;
  call_pc : mp_pc;
}.

(** A caller that has just clicked Record Sale. *)
Definition mp_call (f : sale_form) : mp_caller :=
  {| call_form := f; call_pc := At_locate |}.

(** The caller at another statement. *)
Definition mp_goto (t : mp_caller) (pc : mp_pc) : mp_caller :=
  {| call_form := call_form t; call_pc := pc |}.

(** One statement of the handler on the shared table. *)
Definition mp_sale_step (t : mp_caller) (products : list (ProductRow P))
    : option (mp_caller * list (ProductRow P)) :=
  let product := sf_product (call_form t) in
  let quantity_sold := sf_quantity_sold (call_form t) in
  match call_pc t with
  | At_locate =>
      match index0 (mask (λ r, Product_Name r = product) (indexed products)) with
      | Ok idx => Some (mp_goto t (At_check idx), products)
      | Raise e => Some (mp_goto t (At_end (Raised e)), products)
      end
  | At_check idx =>
      match at_get idx Stock products with
      | Ok stock =>
          if decide (stock >= quantity_sold)%Z
          then Some (mp_goto t (At_decrement idx), products)
          else Some (mp_goto t At_error, products)
      | Raise e => Some (mp_goto t (At_end (Raised e)), products)
      end
  | At_decrement idx =>
      match at_update idx (λ r, set_Stock (Stock r - quantity_sold) r) products with
      | Ok products' => Some (mp_goto t (At_increment idx), products')
      | Raise e => Some (mp_goto t (At_end (Raised e)), products)
      end
  | At_increment idx =>
      match at_update idx
              (λ r, set_Total_Sales (Total_Sales r + quantity_sold) r) products with
      | Ok products' => Some (mp_goto t At_success, products')
      | Raise e => Some (mp_goto t (At_end (Raised e)), products)
      end
  | At_success => Some (mp_goto t (At_end Accepted), products)
  | At_error => Some (mp_goto t (At_end Refused), products)
  | At_end _ => None
  end.

(** The statements a handler has at most still to run. *)
Definition mp_pc_size (pc : mp_pc) : nat :=
  match pc with
  | At_locate => 5
  | At_check _ => 4
  | At_decrement _ => 3
  | At_increment _ => 2
  | At_success | At_error => 1
  | At_end _ => 0
  end.

#[export] Instance mp_handler : Handler mp_caller (list (ProductRow P)) :=
  mp_sale_step.

#[export] Instance mp_bounded : Bounded mp_caller :=
  λ t, mp_pc_size (call_pc t).

(** ** What a caller shows and what the pool keeps *)

(** The status element and the outcome of a handler that has ended. *)
Definition mp_report (t : mp_caller) : list (level * mp_message) * result () :=
  match call_pc t with
  | At_end Accepted =>
      ([(Success, Sale_recorded (sf_product (call_form t)))], Ok ())
  | At_end Refused => ([(Error, Not_enough_stock)], Ok ())
  | At_end (Raised e) => ([], Raise e)
  | _ => ([], Ok ())
  end.

(** The row a caller has located, if it still uses it. *)
Definition mp_pc_index (pc : mp_pc) : option nat :=
  match pc with
  | At_check idx | At_decrement idx | At_increment idx => Some idx
  | _ => None
  end.

(** A caller fits a table when the row it has located is a row of the
    table, and it has not met a KeyError. *)
Definition mp_caller_wf (products : list (ProductRow P)) (t : mp_caller) : Prop :=
  (∀ idx, mp_pc_index (call_pc t) = Some idx → idx < length products)
  ∧ call_pc t ≠ At_end (Raised KeyError).

(** Every caller of the pool fits the table. *)
Definition mp_pool_wf (c : list mp_caller * list (ProductRow P)) : Prop :=
  Forall (mp_caller_wf c.2) c.1.

(** The units a caller has taken from the Stock of row [idx] and not yet
    added to its Total Sales. *)
Definition mp_pending (idx : nat) (t : mp_caller) : Z :=
  match call_pc t with
  | At_increment i =>
      if decide (i = idx) then sf_quantity_sold (call_form t) else 0%Z
  | _ => 0%Z
  end.

(** The same, over all callers of a pool. *)
Definition mp_in_flight (idx : nat) (pool : list mp_caller) : Z :=
  column_sum (mp_pending idx) pool.

(** What no interleaving changes in a row: name, price, expiry date, and
    Stock + Total Sales plus the units in flight. *)
Definition mp_pool_balance (c : list mp_caller * list (ProductRow P))
    : list (string * P * date * Z) :=
  imap (λ idx r, (Product_Name r, Price r, Expiry_Date r,
                  (row_total r + mp_in_flight idx c.1)%Z)) c.2.

(** The handler run alone on a table, in closed form. *)
Definition mp_sale_alone_spec (f : sale_form) (products : list (ProductRow P))
    : mp_caller * list (ProductRow P) :=
  match list_find (λ r, Product_Name r = sf_product f) products with
  | None => (mp_goto (mp_call f) (At_end (Raised IndexError)), products)
  | Some (i, r) =>
      if decide (Stock r >= sf_quantity_sold f)%Z
      then (mp_goto (mp_call f) (At_end Accepted),
            alter (sell (sf_quantity_sold f)) i products)
      else (mp_goto (mp_call f) (At_end Refused), products)
  end.

(** A caller that has not started, or has ended. *)
Definition mp_idle (t : mp_caller) : Prop :=
  call_pc t = At_locate ∨ finished t.

(** The click a pick of the scheduler stands for when handlers run as
    critical sections: the form of the caller if it has not started,
    nothing if it has ended or does not exist. *)
Definition mp_pick_click (i : nat) (pool : list mp_caller) : list sale_form :=
  match pool !! i with
  | Some t => match call_pc t with At_locate => [call_form t] | _ => [] end
  | None => []
  end.

(** The clicks of a schedule of critical sections, in the order in which
    the scheduler lets the handlers run. *)
Fixpoint mp_serial (sched : list nat)
    (c : list mp_caller * list (ProductRow P)) : list sale_form :=
  match sched with
  | [] => []
  | i :: sched => mp_pick_click i c.1 ++ mp_serial sched (schedule_atomic i c)
  end.
End pool_medipath.

#[export] Instance mp_pc_eq_dec : EqDecision mp_pc.
Proof. solve_decision. Defined.

(** Two callers that each ask for fifteen units of a product with twenty. *)
Definition oversell_pool : list mp_caller * list (ProductRow Z) :=
  ([mp_call (paracetamol_sale 15); mp_call (paracetamol_sale 15)],
   paracetamol_table).

(** Both locate the row, both check the stock, then both update it. *)
Definition oversell_schedule : list nat := [0; 1; 0; 1; 0; 0; 0; 1; 1; 1].

(** ** The laws of the handler, and the handler run alone *)

Section pool_medipath_lemmas.
Context `{Amount P, !PieChart}.
Implicit Types (t : mp_caller) (products : list (ProductRow P))
  (pool : list mp_caller) (c : list mp_caller * list (ProductRow P))
  (f : sale_form) (idx i j : nat).

#[export] Instance mp_handler_laws : HandlerLaws mp_caller (list (ProductRow P)).
Proof.
  split.
  - intros [f pc] t' products products'.
    rewrite /handler_step /mp_handler /mp_sale_step /handler_size /mp_bounded /=.
    destruct pc; simpl; repeat case_match; intros; simplify_eq/=; first [done|lia].
  - intros [f pc] products.
    rewrite /handler_step /mp_handler /mp_sale_step /handler_size /mp_bounded /=.
    destruct pc; simpl; repeat case_match; split; intros; simplify_eq/=; first [done|lia].
Qed.

Lemma mp_step_locate f products :
  handler_step (mp_call f) products
  = Some (match list_find (λ r, Product_Name r = sf_product f) products with
          | Some (i, _) => {| call_form := f; call_pc := At_check i |}
          | None => {| call_form := f; call_pc := At_end (Raised IndexError) |}
          end, products).
Proof.
  rewrite /handler_step /mp_handler /mp_sale_step /= index0_mask.
  by destruct (list_find _ _) as [[??]|].
Qed.

Lemma mp_step_check f products idx r :
  products !! idx = Some r →
  handler_step {| call_form := f; call_pc := At_check idx |} products
  = Some ({| call_form := f;
             call_pc := if decide (Stock r >= sf_quantity_sold f)%Z
                        then At_decrement idx else At_error |}, products).
Proof.
  intros Hr. rewrite /handler_step /mp_handler /mp_sale_step /=.
  rewrite (at_get_lookup _ _ _ r) //. by case_decide.
Qed.

Lemma mp_step_decrement f products idx r :
  products !! idx = Some r →
  handler_step {| call_form := f; call_pc := At_decrement idx |} products
  = Some ({| call_form := f; call_pc := At_increment idx |},
          alter (λ r, set_Stock (Stock r - sf_quantity_sold f) r) idx products).
Proof.
  intros Hr. by rewrite /handler_step /mp_handler /mp_sale_step /= /at_update Hr.
Qed.

Lemma mp_step_increment f products idx r :
  products !! idx = Some r →
  handler_step {| call_form := f; call_pc := At_increment idx |} products
  = Some ({| call_form := f; call_pc := At_success |},
          alter (λ r, set_Total_Sales (Total_Sales r + sf_quantity_sold f) r)
            idx products).
Proof.
  intros Hr. by rewrite /handler_step /mp_handler /mp_sale_step /= /at_update Hr.
Qed.

Lemma mp_run_alone_spec f products :
  run_alone (mp_call f) products = mp_sale_alone_spec f products.
Proof.
  rewrite /mp_sale_alone_spec (run_alone_step _ _ _ _ (mp_step_locate f products)).
  destruct (list_find _ products) as [[i r]|] eqn:Hfind; [|by apply run_alone_done].
  apply list_find_Some_lookup in Hfind as [Hi _].
  rewrite (run_alone_step _ _ _ _ (mp_step_check f _ _ _ Hi)).
  case_decide.
  - rewrite (run_alone_step _ _ _ _ (mp_step_decrement f _ _ _ Hi)).
    erewrite run_alone_step;
      [|eapply mp_step_increment; by rewrite list_lookup_alter decide_True // Hi].
    erewrite run_alone_step; [|done]. rewrite run_alone_done //.
    by rewrite list_alter_alter_eq.
  - erewrite run_alone_step; [|done]. by rewrite run_alone_done.
Qed.

(** C11: Run alone after a click, on a table with rows, the handler leaves
    the table that the page [record_sale] leaves, and ends with the status
    element and the outcome of the page. *)
Theorem mp_sale_alone f products :
  products ≠ [] → sf_record_sale f = true →
  let x := record_sale f {| mp_products := Some products |} in
  let c := run_alone (mp_call f) products in
  c.2 = mp_table (final_session x)
  ∧ mp_report c.1 = (mp_statuses (emitted x), outcome x).
Proof.
  intros Hne%frame_empty_false Hclick. simpl.
  rewrite mp_run_alone_spec record_sale_closed /mp_sale_alone_spec
    /record_sale_spec Hne Hclick.
  destruct (list_find _ _) as [[i r]|]; [|done]. by case_decide.
Qed.

(** ** The located row stays in the table *)

Lemma mp_handler_step_inv t products t' products' :
  handler_step t products = Some (t', products') →
  call_form t' = call_form t
  ∧ length products' = length products
  ∧ (products' = products
     ∨ ∃ idx g, mp_pc_index (call_pc t) = Some idx ∧ idx < length products
                ∧ products' = alter g idx products).
Proof.
  destruct t as [f pc].
  rewrite /handler_step /mp_handler /mp_sale_step /=.
  destruct pc; repeat case_match; intros; simplify_eq/=; eauto;
    match goal with
    | Hu : at_update _ _ _ = Ok _ |- _ => apply at_update_Ok in Hu as [? ->]
    end; rewrite length_alter; eauto 10.
Qed.

Lemma mp_handler_step_wf t products t' products' :
  handler_step t products = Some (t', products') →
  mp_caller_wf products t → mp_caller_wf products' t'.
Proof.
  intros Hstep [Hidx Hkey].
  destruct (mp_handler_step_inv _ _ _ _ Hstep) as (_ & Hlen & _).
  rewrite /mp_caller_wf Hlen. revert Hstep. destruct t as [f pc].
  rewrite /handler_step /mp_handler /mp_sale_step /=.
  destruct pc; simpl in *; rewrite ?index0_mask; repeat case_match;
    intros; simplify_eq/=;
    repeat match goal with
    | Hu : at_update _ _ _ = Raise _ |- _ => apply at_update_Raise in Hu as [? ->]
    | Hu : at_get _ _ _ = Raise _ |- _ => apply at_get_Raise in Hu as [? ->]
    | Hf : list_find _ _ = Some ?p |- _ =>
        destruct p; apply list_find_Some_lt in Hf
    end; simpl;
    try (specialize (Hidx _ eq_refl)); (split; [intros ? [= <-]; lia|done]) || lia.
Qed.

Lemma mp_pool_step_wf c c' : mp_pool_wf c → pool_step c c' → mp_pool_wf c'.
Proof.
  intros Hwf Hstep.
  destruct Hstep as [pool products i t t' products' Hi Hstep].
  rewrite /mp_pool_wf /= in Hwf |- *.
  destruct (mp_handler_step_inv _ _ _ _ Hstep) as (_ & Hlen & _).
  apply Forall_insert.
  - eapply Forall_impl; [done|]. intros t0 [Hidx Hkey]. split; [|done].
    intros idx ?. rewrite Hlen. eauto.
  - eapply mp_handler_step_wf; [done|]. by eapply Forall_lookup_1.
Qed.

(** C31: Whatever the interleaving, every caller that has located a row
    keeps an index within the table, and no statement raises KeyError. *)
Theorem mp_pool_wf_preserved c c' :
  mp_pool_wf c → rtc pool_step c c' → mp_pool_wf c'.
Proof. apply (pool_invariant mp_pool_wf c c' mp_pool_step_wf). Qed.

(** ** The balance of a row under interleaving *)

Lemma mp_in_flight_insert idx pool i t t' :
  pool !! i = Some t →
  mp_in_flight idx (<[i:=t']> pool)
  = (mp_in_flight idx pool - mp_pending idx t + mp_pending idx t')%Z.
Proof. apply column_sum_insert_Z. Qed.

Lemma mp_pool_step_balance c c' :
  pool_step c c' → mp_pool_balance c' = mp_pool_balance c.
Proof.
  intros Hstep. destruct Hstep as [pool products i t t' products' Hi Hstep].
  rewrite /mp_pool_balance /=. apply list_eq. intros j.
  rewrite !list_lookup_imap (mp_in_flight_insert _ _ _ _ _ Hi).
  revert Hstep. destruct t as [f pc].
  rewrite /handler_step /mp_handler /mp_sale_step /mp_pending /at_update /=.
  destruct pc; repeat case_match; intros; simplify_eq/=;
    rewrite ?list_lookup_alter; repeat case_decide; simplify_eq;
    destruct (_ !! j) eqn:?; simplify_eq/=;
    rewrite /row_total /=; try done; do 2 f_equal; lia.
Qed.

Lemma mp_in_flight_idle idx pool :
  Forall (λ t, mp_pc_index (call_pc t) = None) pool → mp_in_flight idx pool = 0%Z.
Proof.
  rewrite /mp_in_flight. induction 1 as [|t pool Ht _ IH]; [done|].
  rewrite column_sum_cons IH /mp_pending /=. by destruct (call_pc t).
Qed.

Lemma mp_pool_balance_idle c :
  Forall (λ t, mp_pc_index (call_pc t) = None) c.1 →
  mp_pool_balance c = row_static <$> c.2.
Proof.
  intros Hidle. rewrite /mp_pool_balance. apply list_eq. intros j.
  rewrite list_lookup_imap list_lookup_fmap mp_in_flight_idle //.
  destruct (c.2 !! j); simpl; [|done]. rewrite /row_static. do 2 f_equal. lia.
Qed.

Lemma mp_idle_index t : mp_idle t → mp_pc_index (call_pc t) = None.
Proof.
  rewrite /mp_idle /finished /handler_size /mp_bounded.
  destruct (call_pc t); naive_solver.
Qed.

Lemma mp_finished_idle t : finished t → mp_idle t.
Proof. by right. Qed.

(** Between two moments at which no handler is in flight, whatever the
    interleaving in between, name, price and expiry date of every row are
    as before, and so is its Stock plus its Total Sales. *)
Theorem mp_pool_balance_finished c c' :
  Forall mp_idle c.1 → rtc pool_step c c' → Forall finished c'.1 →
  row_static <$> c'.2 = row_static <$> c.2.
Proof.
  intros Hidle Hsteps Hfin.
  rewrite -!mp_pool_balance_idle.
  - apply (pool_invariant (λ c1, mp_pool_balance c1 = mp_pool_balance c) c);
      [|done..]. intros c1 c2 <-. apply mp_pool_step_balance.
  - eapply Forall_impl; [done|]. apply mp_idle_index.
  - eapply Forall_impl; [done|]. intros t ?. by apply mp_idle_index, mp_finished_idle.
Qed.

(** ** Termination *)



(** ** Handlers as critical sections *)

Lemma mp_schedule_atomic_ok i c :
  Forall mp_idle c.1 →
  Forall (λ t, (0 ≤ sf_quantity_sold (call_form t))%Z) c.1 →
  Forall row_ok c.2 →
  let c' := schedule_atomic i c in
  Forall mp_idle c'.1
  ∧ Forall (λ t, (0 ≤ sf_quantity_sold (call_form t))%Z) c'.1
  ∧ Forall row_ok c'.2.
Proof.
  destruct c as [pool products]. rewrite /schedule_atomic /=.
  intros Hidle Hq Hok. destruct (pool !! i) as [[f pc]|] eqn:Hi; [|done].
  pose proof (Forall_lookup_1 _ _ _ _ Hidle Hi) as [Hpc|Hfin];
    pose proof (Forall_lookup_1 _ _ _ _ Hq Hi) as Hqf; simpl in *.
  - subst pc. rewrite -/(mp_call f) mp_run_alone_spec /mp_sale_alone_spec.
    destruct (list_find _ _) as [[k r]|] eqn:Hfind; [case_decide|]; simpl;
      (split_and!; [apply Forall_insert; [done|by right]
                   |by apply Forall_insert|try done]).
    apply list_find_Some_lookup in Hfind as [Hk _].
    apply Forall_alter_preserve; [done|]. intros r' ??. simplify_eq.
    apply sell_row_ok; [done..|lia].
  - rewrite run_alone_done //=. rewrite list_insert_id //.
Qed.

(** When every handler runs to its end before the next one starts, in
    whatever order, the stock of no row becomes negative. *)
Theorem mp_atomic_nonneg sched c :
  Forall mp_idle c.1 →
  Forall (λ t, (0 ≤ sf_quantity_sold (call_form t))%Z) c.1 →
  Forall row_ok c.2 →
  Forall row_ok (run_atomic sched c).2.
Proof.
  revert c. induction sched as [|i sched IH]; intros c Hidle Hq Hok; [done|].
  destruct (mp_schedule_atomic_ok i c) as (? & ? & ?); [done..|]. by apply IH.
Qed.

Lemma mp_alone_accepted f products i r :
  list_find (λ r, Product_Name r = sf_product f) products = Some (i, r) →
  (sf_quantity_sold f ≤ Stock r)%Z →
  run_alone (mp_call f) products
  = (mp_goto (mp_call f) (At_end Accepted),
     alter (sell (sf_quantity_sold f)) i products).
Proof.
  intros Hfind ?. rewrite mp_run_alone_spec /mp_sale_alone_spec Hfind.
  rewrite decide_True //. lia.
Qed.

Lemma mp_alone_refused f products i r :
  list_find (λ r, Product_Name r = sf_product f) products = Some (i, r) →
  (Stock r < sf_quantity_sold f)%Z →
  run_alone (mp_call f) products
  = (mp_goto (mp_call f) (At_end Refused), products).
Proof.
  intros Hfind ?. rewrite mp_run_alone_spec /mp_sale_alone_spec Hfind.
  rewrite decide_False //. lia.
Qed.

(** The second of two handlers that run one after the other on one row,
    with quantities that each fit the stock and together exceed it. *)
Lemma mp_atomic_second f1 f2 products i r :
  list_find (λ r, Product_Name r = sf_product f1) products = Some (i, r) →
  sf_product f2 = sf_product f1 →
  (Stock r < sf_quantity_sold f1 + sf_quantity_sold f2)%Z →
  run_alone (mp_call f2) (alter (sell (sf_quantity_sold f1)) i products)
  = (mp_goto (mp_call f2) (At_end Refused),
     alter (sell (sf_quantity_sold f1)) i products).
Proof.
  intros Hfind Hname Hsum.
  apply (mp_alone_refused f2 _ i (sell (sf_quantity_sold f1) r)).
  - rewrite Hname. by apply list_find_alter_same.
  - rewrite /sell /=. lia.
Qed.

(** C23: Two callers of Record Sale on one product, with quantities that
    each fit the stock and together exceed it, each handler run to its end
    before the other starts: in either order the first is accepted, the
    second is refused, and the table is the one the first sale left, so
    exactly one sale is recorded and the stock is not negative. *)
Theorem mp_atomic_one_wins (f1 f2 : sale_form) products i r :
  list_find (λ r, Product_Name r = sf_product f1) products = Some (i, r) →
  sf_product f2 = sf_product f1 →
  (sf_quantity_sold f1 ≤ Stock r)%Z → (sf_quantity_sold f2 ≤ Stock r)%Z →
  (Stock r < sf_quantity_sold f1 + sf_quantity_sold f2)%Z →
  let c0 := ([mp_call f1; mp_call f2], products) in
  let c01 := run_atomic [0; 1] c0 in
  let c10 := run_atomic [1; 0] c0 in
  call_pc <$> c01.1 = [At_end Accepted; At_end Refused]
  ∧ c01.2 = alter (sell (sf_quantity_sold f1)) i products
  ∧ call_pc <$> c10.1 = [At_end Refused; At_end Accepted]
  ∧ c10.2 = alter (sell (sf_quantity_sold f2)) i products.
Proof.
  intros Hfind Hname H1 H2 Hsum c0 c01 c10. subst c0 c01 c10.
  assert (list_find (λ r, Product_Name r = sf_product f2) products = Some (i, r))
    as Hfind2 by by rewrite Hname.
  rewrite !run_atomic_cons.
  erewrite (schedule_atomic_Some 0 _ products);
    [|done|by eapply mp_alone_accepted].
  erewrite (schedule_atomic_Some 1 _ products);
    [|done|by eapply mp_alone_accepted].
  erewrite (schedule_atomic_Some 1); [|done|by eapply mp_atomic_second].
  erewrite (schedule_atomic_Some 0);
    [|done|eapply mp_atomic_second; [done..|lia]].
  done.
Qed.

(** ** Critical sections are runs of the script, one after the other *)

Lemma mp_step_session (req : mp_request P) ss :
  mp_step req ss = {| mp_products := Some (mp_table (mp_step req ss)) |}.
Proof. rewrite -mp_step_initialised. by destruct (mp_step req ss). Qed.

(** The table a handler run alone leaves is the table of the session after
    a run of the script on Sales Entry with the button clicked. *)
Lemma mp_alone_step f products :
  sf_record_sale f = true →
  {| mp_products := Some (run_alone (mp_call f) products).2 |}
  = mp_step (Sales_page f) {| mp_products := Some products |}.
Proof.
  intros Hclick. rewrite mp_step_session mp_table_step_sales Hclick.
  rewrite mp_run_alone_spec /mp_sale_alone_spec /mp_table /=.
  destruct (list_find _ _) as [[i r]|]; [|done].
  by case_decide; [rewrite bool_decide_true|rewrite bool_decide_false].
Qed.

(** One critical section is one run of the script, or none. *)
Lemma mp_schedule_atomic_serial i c :
  Forall mp_idle c.1 → Forall (λ t, sf_record_sale (call_form t) = true) c.1 →
  let c' := schedule_atomic i c in
  Forall mp_idle c'.1
  ∧ Forall (λ t, sf_record_sale (call_form t) = true) c'.1
  ∧ {| mp_products := Some c'.2 |}
    = mp_run (Sales_page <$> mp_pick_click i c.1) {| mp_products := Some c.2 |}.
Proof.
  destruct c as [pool products]. rewrite /schedule_atomic /mp_pick_click /=.
  intros Hidle Hclick. destruct (pool !! i) as [[f pc]|] eqn:Hi; [|done].
  pose proof (Forall_lookup_1 _ _ _ _ Hclick Hi) as Hf.
  destruct (Forall_lookup_1 _ _ _ _ Hidle Hi) as [Hpc|Hfin]; simpl in *.
  - subst pc. rewrite -/(mp_call f). generalize (mp_alone_step f products Hf).
    rewrite mp_run_alone_spec /mp_sale_alone_spec.
    destruct (list_find _ _) as [[k r]|]; [case_decide|]; simpl; intros Hstep;
      (split_and!; [apply Forall_insert; [done|by right]
                   |by apply Forall_insert|exact Hstep]).
  - rewrite run_alone_done //= list_insert_id //. by destruct pc.
Qed.

(** Handlers of Record Sale run as critical sections are runs of the
    script one after the other: whatever the order in which the scheduler
    lets the callers of a pool run, the shared table ends as the table of
    one browser session that clicks Record Sale with the forms of the
    callers, in that order. *)
Theorem mp_atomic_serial sched c :
  Forall mp_idle c.1 → Forall (λ t, sf_record_sale (call_form t) = true) c.1 →
  {| mp_products := Some (run_atomic sched c).2 |}
  = mp_run (Sales_page <$> mp_serial sched c) {| mp_products := Some c.2 |}.
Proof.
  revert c. induction sched as [|i sched IH]; intros c Hidle Hclick; [done|].
  destruct (mp_schedule_atomic_serial i c) as (? & ? & Hstep); [done..|].
  by rewrite run_atomic_cons IH //= fmap_app mp_run_app -Hstep.
Qed.
End pool_medipath_lemmas.


(** ** The theorems at the scenario of the specification *)

#[local] Existing Instance refuses_zeros.

Lemma oversell_pool_idle : Forall mp_idle oversell_pool.1.
Proof. repeat (apply Forall_cons_2; [by left|]). apply Forall_nil_2. Defined.

Lemma mp_sale_alone_witness :
  let x := record_sale (paracetamol_sale 5)
             {| mp_products := Some paracetamol_table |} in
  let c := run_alone (mp_call (paracetamol_sale 5)) paracetamol_table in
  c.2 = mp_table (final_session x)
  ∧ mp_report c.1 = (mp_statuses (emitted x), outcome x).
Proof.
  apply (mp_sale_alone (paracetamol_sale 5) paracetamol_table);
    [done|reflexivity].
Defined.

Lemma mp_pool_wf_preserved_witness :
  mp_pool_wf (run_schedule oversell_schedule oversell_pool).
Proof.
  apply (mp_pool_wf_preserved oversell_pool); [|apply run_schedule_rtc].
  repeat (apply Forall_cons_2; [by split; [intros ? [=]|]|]).
  apply Forall_nil_2.
Defined.

Lemma mp_pool_balance_finished_witness :
  row_static <$> (run_schedule oversell_schedule oversell_pool).2
  = row_static <$> oversell_pool.2.
Proof.
  apply mp_pool_balance_finished;
    [apply oversell_pool_idle|apply run_schedule_rtc|decide_by_compute].
Defined.

Lemma mp_atomic_one_wins_witness :
  let c0 := ([mp_call (paracetamol_sale 12); mp_call (paracetamol_sale 9)],
             paracetamol_table) in
  let c01 := run_atomic [0; 1] c0 in
  let c10 := run_atomic [1; 0] c0 in
  call_pc <$> c01.1 = [At_end Accepted; At_end Refused]
  ∧ c01.2 = alter (sell 12) 0 paracetamol_table
  ∧ call_pc <$> c10.1 = [At_end Refused; At_end Accepted]
  ∧ c10.2 = alter (sell 9) 0 paracetamol_table.
Proof.
  apply (mp_atomic_one_wins (paracetamol_sale 12) (paracetamol_sale 9)
           paracetamol_table 0 (new_product_row paracetamol));
    first [reflexivity | by vm_compute].
Defined.

Lemma mp_atomic_serial_witness :
  {| mp_products := Some (run_atomic [1; 0] oversell_pool).2 |}
  = mp_run (Sales_page <$> mp_serial [1; 0] oversell_pool)
      {| mp_products := Some oversell_pool.2 |}.
Proof.
  apply mp_atomic_serial; [apply oversell_pool_idle|decide_by_compute].
Defined.

Lemma mp_atomic_nonneg_witness :
  Forall row_ok (run_atomic [1; 0] oversell_pool).2.
Proof.
  apply mp_atomic_nonneg; [apply oversell_pool_idle|decide_by_compute..].
Defined.
