(* ===== verification/PoolMedico.v ===== *)
(** * PoolMedico: Add Sale of [src/medico.py] under concurrent callers

    The handler that runs after a submission of the sale form (lines 104 to
    132 of [src/medico.py]), one statement per step: the first row with the
    name is read into [product], the quantity is checked against the stock
    of that copy, the sale row is appended to [sales], Stock is decremented
    on the rows with the name, and the outcome is reported.  Callers share
    both tables and are interleaved statement by statement, as [Pool]
    describes.

    - Run alone, the handler does what the page [add_sale] does
      ([md_sale_alone]).
    - Under every schedule every caller eventually has its answer
      ([md_pool_eventually_answered]), within five steps per caller
      ([md_pool_size_bound]), which is the fuel of [run_alone].
    - The sales table only grows, whatever the interleaving
      ([md_pool_sales_prefix]).
    - Stock of a row plus the units sold under its name, less the units of
      the callers that have appended their sale row and not yet decremented
      the stock, never changes ([md_pool_step_balance],
      [md_pool_balance_finished]).
    - When each handler runs to its end before the next starts, the pool
      does what one browser session does that submits the sale forms of the
      callers in the order of the scheduler ([md_atomic_serial]), and of
      two sales that each fit the stock and together exceed it exactly the
      first is accepted, whichever comes first ([md_atomic_one_wins]).
    - Between the statement that appends the sale row and the statement that
      decrements the stock, the tables show a sale whose units are still in
      stock ([md_half_applied_sale]); and two callers can both pass the
      check on the copy they read and together sell more than the stock
      ([md_concurrent_oversell]). *)

From S2P Require Import Prelude Amount Frame Script Pool Medico.

Section pool_medico.
Context `{Amount P}.

(** ** The handler, statement by statement *)

(** The statement a caller stands before: reading the row, the check
    against the copy read, the append to [sales], the decrement, the
    success or the error element; or the end, with the outcome. *)
Inductive md_pc : Type :=
  | Md_at_locate
  | Md_at_check (product : MedicineRow P)
  | Md_at_append (product : MedicineRow P)
  | Md_at_decrement
  | Md_at_success
  | Md_at_error
  | Md_at_end (o : sale_outcome).

(** A caller of Add Sale: the values of its form, and where its handler
    stands. *)
Record md_caller : Type := {
  md_call_form : md_sale_form;
  md_call_pc : md_pc;
}.

(** A caller that has just submitted the form. *)
Definition md_call (f : md_sale_form) : md_caller :=
  {| md_call_form := f; md_call_pc := Md_at_locate |}.

(** The caller at another statement. *)
Definition md_goto (t : md_caller) (pc : md_pc) : md_caller :=
  {| md_call_form := md_call_form t; md_call_pc := pc |}.

(** One statement of the handler on the shared tables. *)
Definition md_sale_step (t : md_caller)
    (st : list (MedicineRow P) * list (SaleRow P))
    : option (md_caller * (list (MedicineRow P) * list (SaleRow P))) :=
  let '(products, sales) := st in
  let medicine := sl_medicine (md_call_form t) in
  let quantity := sl_quantity (md_call_form t) in
  let sale_date := sl_sale_date (md_call_form t) in
  match md_call_pc t with
  | Md_at_locate =>
      match iloc0 (mask (λ r, Medicine r = medicine) (indexed products)) with
      | Ok product => Some (md_goto t (Md_at_check product), st)
      | Raise e => Some (md_goto t (Md_at_end (Raised e)), st)
      end
  | Md_at_check product =>
      if decide (quantity > Stock product)%Z
      then Some (md_goto t Md_at_error, st)
      else Some (md_goto t (Md_at_append product), st)
  | Md_at_append product =>
      let new_sale := md_new_sale medicine quantity sale_date product in
      Some (md_goto t Md_at_decrement, (products, concat_row sales new_sale))
  | Md_at_decrement =>
      Some (md_goto t Md_at_success,
            (loc_update (λ r, Medicine r = medicine)
               (λ r, md_set_Stock (Stock r - quantity) r) products, sales))
  | Md_at_success => Some (md_goto t (Md_at_end Accepted), st)
  | Md_at_error => Some (md_goto t (Md_at_end Refused), st)
  | Md_at_end _ => None
  end.

(** The statements a handler has at most still to run. *)
Definition md_pc_size (pc : md_pc) : nat :=
  match pc with
  | Md_at_locate => 5
  | Md_at_check _ => 4
  | Md_at_append _ => 3
  | Md_at_decrement => 2
  | Md_at_success | Md_at_error => 1
  | Md_at_end _ => 0
  end.

#[export] Instance md_handler :
  Handler md_caller (list (MedicineRow P) * list (SaleRow P)) := md_sale_step.

#[export] Instance md_bounded : Bounded md_caller :=
  λ t, md_pc_size (md_call_pc t).

(** ** What a caller shows *)

(** The status element and the outcome of a handler that has ended. *)
Definition md_report (t : md_caller) : list (level * md_message) * result () :=
  match md_call_pc t with
  | Md_at_end Accepted => ([(Success, md_Sale_recorded)], Ok ())
  | Md_at_end Refused => ([(Error, md_Not_enough_stock)], Ok ())
  | Md_at_end (Raised e) => ([], Raise e)
  | _ => ([], Ok ())
  end.

(** The handler run alone on the tables, in closed form. *)
Definition md_sale_alone_spec (f : md_sale_form)
    (st : list (MedicineRow P) * list (SaleRow P))
    : md_caller * (list (MedicineRow P) * list (SaleRow P)) :=
  match list_find (λ r, Medicine r = sl_medicine f) st.1 with
  | None => (md_goto (md_call f) (Md_at_end (Raised IndexError)), st)
  | Some (_, product) =>
      if decide (sl_quantity f > Stock product)%Z
      then (md_goto (md_call f) (Md_at_end Refused), st)
      else (md_goto (md_call f) (Md_at_end Accepted),
            (sold_from (sl_medicine f) (sl_quantity f) st.1,
             concat_row st.2
               (md_new_sale (sl_medicine f) (sl_quantity f) (sl_sale_date f)
                  product)))
  end.

(** The units a caller has entered in the sales table under [medicine] and
    not yet taken from the stock. *)
Definition md_pending (medicine : string) (t : md_caller) : Z :=
  match md_call_pc t with
  | Md_at_decrement =>
      if decide (sl_medicine (md_call_form t) = medicine)
      then sl_quantity (md_call_form t) else 0%Z
  | _ => 0%Z
  end.

(** The same, over all callers of a pool. *)
Definition md_in_flight (medicine : string) (pool : list md_caller) : Z :=
  column_sum (md_pending medicine) pool.

(** What no interleaving changes in a row: name, price, expiry date, and
    Stock plus the units sold under the name, less the units in flight. *)
Definition md_pool_balance
    (c : list md_caller * (list (MedicineRow P) * list (SaleRow P)))
    : list (string * P * date * Z) :=
  (λ r, (Medicine r, Price r, Expiry_Date r,
         (Stock r + units_sold (Medicine r) c.2.2
          - md_in_flight (Medicine r) c.1)%Z)) <$> c.2.1.

(** A caller that has not started, or has ended. *)
Definition md_idle (t : md_caller) : Prop :=
  md_call_pc t = Md_at_locate ∨ finished t.

(** The submission a pick of the scheduler stands for when handlers run as
    critical sections: the form of the caller if it has not started,
    nothing if it has ended or does not exist. *)
Definition md_pick_submit (i : nat) (pool : list md_caller)
    : list md_sale_form :=
  match pool !! i with
  | Some t =>
      match md_call_pc t with Md_at_locate => [md_call_form t] | _ => [] end
  | None => []
  end.

(** The submissions of a schedule of critical sections, in the order in
    which the scheduler lets the handlers run. *)
Fixpoint md_serial (sched : list nat)
    (c : list md_caller * (list (MedicineRow P) * list (SaleRow P)))
    : list md_sale_form :=
  match sched with
  | [] => []
  | i :: sched =>
      md_pick_submit i c.1 ++ md_serial sched (schedule_atomic i c)
  end.
End pool_medico.

Arguments md_pc : clear implicits.
Arguments md_caller : clear implicits.

(** Twenty units of Paracetamol at price 5 and no sale. *)
Definition md_paracetamol_tables : list (MedicineRow Z) * list (SaleRow Z) :=
  ([md_new_product md_paracetamol], []).

(** One caller that asks for five units, stopped after the append. *)
Definition half_applied_schedule : list nat := [0; 0; 0].

(** Two callers that each ask for fifteen units: both read the row and
    check their copy, then both append and decrement. *)
Definition md_oversell_schedule : list nat :=
  [0; 1; 0; 1; 0; 0; 0; 1; 1; 1].

(** ** The laws of the handler, and the handler run alone *)

Section pool_medico_lemmas.
Context `{Amount P}.
Implicit Types (t : md_caller P) (products : list (MedicineRow P))
  (sales : list (SaleRow P)) (st : list (MedicineRow P) * list (SaleRow P))
  (pool : list (md_caller P))
  (c : list (md_caller P) * (list (MedicineRow P) * list (SaleRow P)))
  (f : md_sale_form) (i j : nat).

#[export] Instance md_handler_laws :
  HandlerLaws (md_caller P) (list (MedicineRow P) * list (SaleRow P)).
Proof.
  split.
  - intros [f pc] t' [products sales] st'.
    rewrite /handler_step /md_handler /md_sale_step /handler_size /md_bounded /=.
    destruct pc; simpl; repeat case_match; intros; simplify_eq/=; first [done|lia].
  - intros [f pc] [products sales].
    rewrite /handler_step /md_handler /md_sale_step /handler_size /md_bounded /=.
    destruct pc; simpl; repeat case_match; split; intros; simplify_eq/=;
      first [done|lia].
Qed.

Lemma md_step_locate f st :
  handler_step (md_call f) st
  = Some ({| md_call_form := f;
             md_call_pc :=
               match list_find (λ r, Medicine r = sl_medicine f) st.1 with
               | Some (_, product) => Md_at_check product
               | None => Md_at_end (Raised IndexError)
               end |}, st).
Proof.
  destruct st as [products sales].
  rewrite /handler_step /md_handler /md_sale_step /= iloc0_mask.
  by destruct (list_find _ _) as [[??]|].
Qed.

Lemma md_step_check f product st :
  handler_step {| md_call_form := f; md_call_pc := Md_at_check product |} st
  = Some ({| md_call_form := f;
             md_call_pc := if decide (sl_quantity f > Stock product)%Z
                           then Md_at_error else Md_at_append product |}, st).
Proof.
  destruct st as [products sales].
  rewrite /handler_step /md_handler /md_sale_step /=. by case_decide.
Qed.

Lemma md_run_alone_spec f st :
  run_alone (md_call f) st = md_sale_alone_spec f st.
Proof.
  rewrite /md_sale_alone_spec (run_alone_step _ _ _ _ (md_step_locate f st)).
  destruct st as [products sales]. simpl.
  destruct (list_find _ products) as [[i r]|]; [|by apply run_alone_done].
  rewrite (run_alone_step _ _ _ _ (md_step_check f r _)). case_decide.
  - erewrite run_alone_step; [|done]. by rewrite run_alone_done.
  - do 3 (erewrite run_alone_step; [|done]). by rewrite run_alone_done.
Qed.

(** C12: Run alone after a submission, on a products table with rows, the
    handler leaves the tables that the page [add_sale] leaves, and ends
    with the status element and the outcome of the page. *)
Theorem md_sale_alone f products sales :
  products ≠ [] → sl_submit f = true →
  let x := add_sale f (md_session_of products sales) in
  let c := run_alone (md_call f) (products, sales) in
  c.2 = (md_table (final_session x), md_ledger (final_session x))
  ∧ md_report c.1 = (md_statuses (emitted x), outcome x).
Proof.
  intros Hne%frame_empty_false Hsub. cbv zeta.
  rewrite md_run_alone_spec add_sale_closed /md_sale_alone_spec /add_sale_spec
    Hne Hsub /=.
  destruct (list_find _ _) as [[i r]|]; [|done]. by case_decide.
Qed.

(** ** Termination and liveness *)

Lemma md_pool_size_bound pool : pool_size pool ≤ 5 * length pool.
Proof.
  apply sum_list_with_bound. intros [f pc].
  rewrite /handler_size /md_bounded /=. destruct pc; simpl; lia.
Qed.


(** ** The sales table under interleaving *)

Lemma md_handler_step_sales t st t' st' :
  handler_step t st = Some (t', st') → st.2 `prefix_of` st'.2.
Proof.
  destruct t as [f pc], st as [products sales].
  rewrite /handler_step /md_handler /md_sale_step /=.
  destruct pc; repeat case_match; intros; simplify_eq/=; try done.
  by apply prefix_app_r.
Qed.

Lemma md_pool_sales_prefix c c' :
  rtc pool_step c c' → c.2.2 `prefix_of` c'.2.2.
Proof.
  intros Hsteps.
  apply (pool_invariant (λ c1, c.2.2 `prefix_of` c1.2.2) c c'); [|done..].
  intros c1 c2 Hpre Hstep. destruct Hstep as [pool st i t t' st' _ Hstep].
  etrans; [done|]. by eapply md_handler_step_sales.
Qed.
(** ** Critical sections are runs of the script, one after the other *)

(** The tables a handler run alone leaves are the tables of the session
    after a run of the script on Add Sale with the form submitted. *)
Lemma md_alone_step f st :
  sl_submit f = true →
  md_session_of (run_alone (md_call f) st).2.1 (run_alone (md_call f) st).2.2
  = md_step (Md_add_sale f) (md_session_of st.1 st.2).
Proof.
  intros Hsub. rewrite md_step_add_sale_tables md_run_alone_spec.
  rewrite /md_sale_alone_spec /sale_accepted /md_table /md_ledger /= Hsub.
  destruct (list_find _ _) as [[i product]|]; [simpl|done].
  case_decide; [rewrite bool_decide_false //|rewrite bool_decide_true //]; lia.
Qed.

(** One critical section is one run of the script, or none. *)
Lemma md_schedule_atomic_serial i c :
  Forall md_idle c.1 → Forall (λ t, sl_submit (md_call_form t) = true) c.1 →
  let c' := schedule_atomic i c in
  Forall md_idle c'.1
  ∧ Forall (λ t, sl_submit (md_call_form t) = true) c'.1
  ∧ md_session_of c'.2.1 c'.2.2
    = md_run (Md_add_sale <$> md_pick_submit i c.1) (md_session_of c.2.1 c.2.2).
Proof.
  destruct c as [pool st]. rewrite /schedule_atomic /md_pick_submit /=.
  intros Hidle Hsub. destruct (pool !! i) as [[f pc]|] eqn:Hi; [|done].
  pose proof (Forall_lookup_1 _ _ _ _ Hsub Hi) as Hf.
  destruct (Forall_lookup_1 _ _ _ _ Hidle Hi) as [Hpc|Hfin]; simpl in *.
  - subst pc. rewrite -/(md_call f). generalize (md_alone_step f st Hf).
    rewrite md_run_alone_spec /md_sale_alone_spec.
    destruct (list_find _ _) as [[k r]|]; [case_decide|]; simpl; intros Hstep;
      (split_and!; [apply Forall_insert; [done|by right]
                   |by apply Forall_insert|exact Hstep]).
  - rewrite run_alone_done //= list_insert_id //. by destruct pc.
Qed.

(** Handlers of Add Sale run as critical sections are runs of the
    script one after the other: whatever the order in which the scheduler
    lets the callers of a pool run, the two shared tables end as the tables
    of one browser session that submits the sale forms of the callers, in
    that order. *)
Theorem md_atomic_serial sched c :
  Forall md_idle c.1 → Forall (λ t, sl_submit (md_call_form t) = true) c.1 →
  md_session_of (run_atomic sched c).2.1 (run_atomic sched c).2.2
  = md_run (Md_add_sale <$> md_serial sched c) (md_session_of c.2.1 c.2.2).
Proof.
  revert c. induction sched as [|i sched IH]; intros c Hidle Hsub; [done|].
  destruct (md_schedule_atomic_serial i c) as (? & ? & Hstep); [done..|].
  by rewrite run_atomic_cons IH //= fmap_app md_run_app -Hstep.
Qed.

(** ** The balance of a row under interleaving *)

Lemma md_in_flight_insert medicine pool i t t' :
  pool !! i = Some t →
  md_in_flight medicine (<[i:=t']> pool)
  = (md_in_flight medicine pool - md_pending medicine t
     + md_pending medicine t')%Z.
Proof. apply column_sum_insert_Z. Qed.

(** A statement of a handler keeps the balance of every row: the append
    enters the units that the decrement then takes from the stock. *)
Lemma md_pool_step_balance c c' :
  pool_step c c' → md_pool_balance c' = md_pool_balance c.
Proof.
  intros Hstep. destruct Hstep as [pool [products sales] i t t' st' Hi Hstep].
  rewrite /md_pool_balance /=. revert Hstep. destruct t as [f pc].
  rewrite /handler_step /md_handler /md_sale_step /=.
  destruct pc; repeat case_match; intros; simplify_eq/=;
    rewrite /loc_update -?list_fmap_compose; apply list_fmap_ext;
    intros _ r _; rewrite /= (md_in_flight_insert _ _ _ _ _ Hi) /md_pending /=
      ?units_sold_concat_row /=; repeat case_decide; simpl in *;
    try congruence; f_equal; lia.
Qed.

Lemma md_in_flight_idle medicine pool :
  Forall md_idle pool → md_in_flight medicine pool = 0%Z.
Proof.
  rewrite /md_in_flight. induction 1 as [|t pool Ht _ IH]; [done|].
  rewrite column_sum_cons IH /md_pending /=.
  destruct Ht as [->|Hfin]; [done|]. revert Hfin.
  rewrite /finished /handler_size /md_bounded. by destruct (md_call_pc t).
Qed.

Lemma md_pool_balance_idle c :
  Forall md_idle c.1 → md_pool_balance c = md_row_static c.2.2 <$> c.2.1.
Proof.
  intros Hidle. rewrite /md_pool_balance. apply list_fmap_ext.
  intros _ r _. rewrite md_in_flight_idle // /md_row_static. do 2 f_equal. lia.
Qed.

(** Between two moments at which no handler is in flight, whatever the
    interleaving in between, name, price and expiry date of every row are
    as before, and so is its Stock plus the units sold under its name:
    interleaving may oversell, but every unit taken from the stock is in
    the sales table. *)
Theorem md_pool_balance_finished c c' :
  Forall md_idle c.1 → rtc pool_step c c' → Forall finished c'.1 →
  md_row_static c'.2.2 <$> c'.2.1 = md_row_static c.2.2 <$> c.2.1.
Proof.
  intros Hidle Hsteps Hfin. rewrite -!md_pool_balance_idle //.
  - apply (pool_invariant (λ c1, md_pool_balance c1 = md_pool_balance c) c);
      [|done..]. intros c1 c2 <-. apply md_pool_step_balance.
  - eapply Forall_impl; [done|]. by right.
Qed.

(** ** Two sales that together exceed the stock *)

Lemma md_alone_accepted f products sales i r :
  list_find (λ r, Medicine r = sl_medicine f) products = Some (i, r) →
  (sl_quantity f ≤ Stock r)%Z →
  run_alone (md_call f) (products, sales)
  = (md_goto (md_call f) (Md_at_end Accepted),
     (sold_from (sl_medicine f) (sl_quantity f) products,
      concat_row sales
        (md_new_sale (sl_medicine f) (sl_quantity f) (sl_sale_date f) r))).
Proof.
  intros Hfind ?. rewrite md_run_alone_spec /md_sale_alone_spec /= Hfind.
  rewrite decide_False; [done|lia].
Qed.

Lemma md_alone_refused f products sales i r :
  list_find (λ r, Medicine r = sl_medicine f) products = Some (i, r) →
  (Stock r < sl_quantity f)%Z →
  run_alone (md_call f) (products, sales)
  = (md_goto (md_call f) (Md_at_end Refused), (products, sales)).
Proof.
  intros Hfind ?. rewrite md_run_alone_spec /md_sale_alone_spec /= Hfind.
  rewrite decide_True; [done|lia].
Qed.

(** The second of two handlers that run one after the other on one
    medicine, with quantities that each fit the stock and together exceed
    it. *)
Lemma md_atomic_second f1 f2 products sales i r :
  list_find (λ r, Medicine r = sl_medicine f1) products = Some (i, r) →
  sl_medicine f2 = sl_medicine f1 →
  (Stock r < sl_quantity f1 + sl_quantity f2)%Z →
  run_alone (md_call f2)
    (sold_from (sl_medicine f1) (sl_quantity f1) products, sales)
  = (md_goto (md_call f2) (Md_at_end Refused),
     (sold_from (sl_medicine f1) (sl_quantity f1) products, sales)).
Proof.
  intros Hfind Hname Hsum. pose proof Hfind as [_ Hr]%list_find_Some_lookup.
  apply (md_alone_refused f2 _ _ i (md_set_Stock (Stock r - sl_quantity f1) r)).
  - by rewrite Hname list_find_sold_from Hfind /= decide_True.
  - simpl. lia.
Qed.

(** Two callers of Add Sale on one medicine, with quantities that each fit
    the stock and together exceed it, each handler run to its end before
    the other starts: in either order the first is accepted, the second is
    refused, and the tables are those the first sale left, so exactly one
    sale row is appended and the stock is not negative. *)
Theorem md_atomic_one_wins f1 f2 products sales i r :
  list_find (λ r, Medicine r = sl_medicine f1) products = Some (i, r) →
  sl_medicine f2 = sl_medicine f1 →
  (sl_quantity f1 ≤ Stock r)%Z → (sl_quantity f2 ≤ Stock r)%Z →
  (Stock r < sl_quantity f1 + sl_quantity f2)%Z →
  let c0 := ([md_call f1; md_call f2], (products, sales)) in
  let c01 := run_atomic [0; 1] c0 in
  let c10 := run_atomic [1; 0] c0 in
  let sold f :=
    (sold_from (sl_medicine f) (sl_quantity f) products,
     concat_row sales
       (md_new_sale (sl_medicine f) (sl_quantity f) (sl_sale_date f) r)) in
  md_call_pc <$> c01.1 = [Md_at_end Accepted; Md_at_end Refused]
  ∧ c01.2 = sold f1
  ∧ md_call_pc <$> c10.1 = [Md_at_end Refused; Md_at_end Accepted]
  ∧ c10.2 = sold f2.
Proof.
  intros Hfind Hname H1 H2 Hsum c0 c01 c10 sold. subst c0 c01 c10 sold.
  assert (list_find (λ r, Medicine r = sl_medicine f2) products = Some (i, r))
    as Hfind2 by by rewrite Hname.
  rewrite !run_atomic_cons.
  erewrite (schedule_atomic_Some 0 _ (products, sales));
    [|done|by eapply md_alone_accepted].
  erewrite (schedule_atomic_Some 1 _ (products, sales));
    [|done|by eapply md_alone_accepted].
  erewrite (schedule_atomic_Some 1); [|done|by eapply md_atomic_second].
  erewrite (schedule_atomic_Some 0);
    [|done|eapply md_atomic_second; [done..|lia]].
  done.
Qed.
End pool_medico_lemmas.

(** One caller that sells five of twenty units, stopped between the
    statement that appends the sale row and the statement that decrements
    the stock: the tables show the sale, and the twenty units still in
    stock. *)
Theorem md_half_applied_sale :
  let c := run_schedule half_applied_schedule
             ([md_call (md_paracetamol_sale 5)], md_paracetamol_tables) in
  rtc pool_step ([md_call (md_paracetamol_sale 5)], md_paracetamol_tables) c
  ∧ Quantity <$> c.2.2 = [5%Z] ∧ Stock <$> c.2.1 = [20%Z]
  ∧ ¬ Forall finished c.1.
Proof.
  split; [apply run_schedule_rtc|]. split_and!; [by vm_compute..|].
  decide_by_compute.
Qed.

(** Two callers that each ask for fifteen of twenty units: both are
    accepted, two sale rows are appended, and the stock ends at -10. *)
Lemma md_concurrent_oversell :
  let c0 := ([md_call (md_paracetamol_sale 15); md_call (md_paracetamol_sale 15)],
             md_paracetamol_tables) in
  let c := run_schedule md_oversell_schedule c0 in
  rtc pool_step c0 c ∧ Forall finished c.1
  ∧ md_report <$> c.1 = [([(Success, md_Sale_recorded)], Ok ());
                         ([(Success, md_Sale_recorded)], Ok ())]
  ∧ Quantity <$> c.2.2 = [15%Z; 15%Z] ∧ Stock <$> c.2.1 = [(-10)%Z].
Proof.
  split; [apply run_schedule_rtc|]. split; [decide_by_compute|]. by vm_compute.
Qed.

(** ** The theorems at the scenario of the specification *)

Lemma md_sale_alone_witness :
  let x := add_sale (md_paracetamol_sale 5)
             (md_session_of md_paracetamol_tables.1 md_paracetamol_tables.2) in
  let c := run_alone (md_call (md_paracetamol_sale 5)) md_paracetamol_tables in
  c.2 = (md_table (final_session x), md_ledger (final_session x))
  ∧ md_report c.1 = (md_statuses (emitted x), outcome x).
Proof.
  apply (md_sale_alone (md_paracetamol_sale 5) [md_new_product md_paracetamol] []);
    [done|reflexivity].
Defined.

Lemma md_atomic_serial_witness :
  let c := ([md_call (md_paracetamol_sale 15); md_call (md_paracetamol_sale 15)],
            md_paracetamol_tables) in
  md_session_of (run_atomic [1; 0] c).2.1 (run_atomic [1; 0] c).2.2
  = md_run (Md_add_sale <$> md_serial [1; 0] c) (md_session_of c.2.1 c.2.2).
Proof.
  apply md_atomic_serial; [|decide_by_compute].
  repeat (apply Forall_cons_2; [by left|]). apply Forall_nil_2.
Defined.

Lemma md_pool_balance_finished_witness :
  let c0 := ([md_call (md_paracetamol_sale 15); md_call (md_paracetamol_sale 15)],
             md_paracetamol_tables) in
  let c := run_schedule md_oversell_schedule c0 in
  md_row_static c.2.2 <$> c.2.1 = md_row_static c0.2.2 <$> c0.2.1.
Proof.
  apply md_pool_balance_finished;
    [|apply run_schedule_rtc|decide_by_compute].
  repeat (apply Forall_cons_2; [by left|]). apply Forall_nil_2.
Defined.

Lemma md_atomic_one_wins_witness :
  let c0 := ([md_call (md_paracetamol_sale 15); md_call (md_paracetamol_sale 15)],
             md_paracetamol_tables) in
  md_call_pc <$> (run_atomic [0; 1] c0).1 = [Md_at_end Accepted; Md_at_end Refused]
  ∧ Stock <$> (run_atomic [0; 1] c0).2.1 = [5%Z]
  ∧ Quantity <$> (run_atomic [0; 1] c0).2.2 = [15%Z].
Proof.
  intros c0.
  destruct (md_atomic_one_wins (md_paracetamol_sale 15) (md_paracetamol_sale 15)
              [md_new_product md_paracetamol] [] 0 (md_new_product md_paracetamol))
    as (Hpc & Hst & _); [reflexivity|reflexivity|simpl; lia..|].
  split; [exact Hpc|]. unfold c0, md_paracetamol_tables.
  rewrite Hst. split; reflexivity.
Defined.
