(* ===== verification/Ledger.v ===== *)
(** * Ledger: the inventory ledger of the specification

    The abstract machine the two applications are compared with: a catalog
    of products identified by their position, each with a stock and a
    cumulative-sales counter, and an append-only ledger of sales that refer
    to products by id.  The operations are those of sections 4.1 to 4.4 of
    the specification ([AddProduct], [GetProduct], [AdjustStock],
    [RecordSale], [NearExpiry], [LowStock], [DailyRevenue],
    [TotalsSummary]); a failed operation returns an error and no store, so
    the caller keeps the store it had.

    [store_ok] is the consistency the specification asks for: no negative
    stock, every counter equal to the quantities of the sales that refer to
    its product, every sale of at least one unit and priced at quantity
    times the price of its product.  [ledger_run_ok] shows that every
    sequence of calls keeps it.

    [UpdateProduct] replaces name, price and expiry date of a product and
    reaches neither its stock nor its counter ([ledger_op_update_frame]).
    The total of a sale is the price at the moment of the sale, so a later
    change of the price ends [store_ok] ([update_price_scenario]); what
    every sequence of calls and updates keeps is [store_wf], which is
    [store_ok] without the equation for the totals ([ledger_ops_wf]), and
    an update that leaves the price alone keeps [store_ok]
    ([ledger_op_update_ok]).

    The class [Refinement] is what an implementation owes: a relation
    between its states and stores that every allowed step maintains along
    some calls of the ledger.  [refinement_reach] gives, for every reachable
    state of any implementation, a consistent store it is related to; the
    files LedgerMedipath and LedgerMedico provide the instances. *)

From stdpp Require Import sorting.
From S2P Require Import Prelude Amount Frame.

(** The errors of section 7. *)
Inductive ledger_error : Type :=
  | ValidationError
  | NotFoundError
  | InsufficientStockError.

#[export] Instance ledger_error_eq_dec : EqDecision ledger_error.
Proof. solve_decision. Defined.

(** The result of an operation: a value, or an error and no change. *)
Inductive reply (A : Type) : Type :=
  | Done (a : A)
  | Failed (e : ledger_error).
Arguments Done {_} _.
Arguments Failed {_} _.

#[export] Instance reply_ret : MRet reply := λ A a, Done a.
#[export] Instance reply_bind : MBind reply := λ A B f m,
  match m with Done a => f a | Failed e => Failed e end.
#[export] Instance reply_fmap : FMap reply := λ A B f m,
  match m with Done a => Done (f a) | Failed e => Failed e end.

Section ledger.
Context `{Amount P}.

(** ** Data *)

(** A product; its id is its position in the catalog. *)
Record Product : Type := {
  p_name : string;
  p_stock : Z;
  p_price : P;
  p_expiryDate : date;
  p_cumulativeSales : Z;
}.

(** A sale; its id is its position in the ledger. *)
Record Sale : Type := {
  s_productRef : nat;
  s_quantity : Z;
  s_totalPrice : P;
  s_date : date;
}.

(** The Catalog Store and the Sales Ledger. *)
Record store : Type := {
  catalog : list Product;
  ledger : list Sale;
}.

Definition empty_store : store := {| catalog := []; ledger := [] |}.

(** [stock += delta] on a product. *)
Definition adjust (delta : Z) (p : Product) : Product :=
  {| p_name := p_name p; p_stock := p_stock p + delta; p_price := p_price p;
     p_expiryDate := p_expiryDate p; p_cumulativeSales := p_cumulativeSales p |}.

(** [cumulativeSales += quantity] on a product. *)
Definition count_sale (quantity : Z) (p : Product) : Product :=
  {| p_name := p_name p; p_stock := p_stock p; p_price := p_price p;
     p_expiryDate := p_expiryDate p;
     p_cumulativeSales := p_cumulativeSales p + quantity |}.

(** ** Catalog Store *)

Definition ListProducts (st : store) : list Product := catalog st.

Definition GetProduct (id : nat) (st : store) : reply Product :=
  match catalog st !! id with
  | Some p => Done p
  | None => Failed NotFoundError
  end.

(** The new product gets the next id and a counter of 0. *)
Definition AddProduct (name : string) (stock : Z) (price : P) (expiry : date)
    (st : store) : reply (store * nat) :=
  if decide (name ≠ "" ∧ (0 ≤ stock)%Z ∧ amount_le amount_zero price) then
    let p := {| p_name := name; p_stock := stock; p_price := price;
                p_expiryDate := expiry; p_cumulativeSales := 0 |} in
    Done ({| catalog := catalog st ++ [p]; ledger := ledger st |},
          length (catalog st))
  else Failed ValidationError.

(** [stock += delta], refused when the result would be negative. *)
Definition AdjustStock (id : nat) (delta : Z) (st : store) : reply store :=
  p ← GetProduct id st;
  if decide (p_stock p + delta < 0)%Z then Failed InsufficientStockError
  else Done {| catalog := alter (adjust delta) id (catalog st);
               ledger := ledger st |}.

(** The fields a catalog update may set: name, price and expiry date.  The
    stock and the sales counter are not among them. *)
Definition revise (name : string) (price : P) (expiry : date) (p : Product)
    : Product :=
  {| p_name := name; p_stock := p_stock p; p_price := price;
     p_expiryDate := expiry; p_cumulativeSales := p_cumulativeSales p |}.

(** The product [id] gets a new name, price and expiry date.  The id must
    exist, and the new fields must be those [AddProduct] would accept. *)
Definition UpdateProduct (id : nat) (name : string) (price : P) (expiry : date)
    (st : store) : reply (store * Product) :=
  p ← GetProduct id st;
  if decide (name ≠ "" ∧ amount_le amount_zero price) then
    Done ({| catalog := alter (revise name price expiry) id (catalog st);
             ledger := ledger st |}, revise name price expiry p)
  else Failed ValidationError.

(** ** Sales Ledger *)

Definition ListSales (st : store) : list Sale := ledger st.

(** The sale is priced at the price observed at the check; stock and
    counter change together with the append. *)
Definition RecordSale (id : nat) (quantity : Z) (d : date) (st : store)
    : reply (store * Sale) :=
  if decide (quantity < 1)%Z then Failed ValidationError
  else
    p ← GetProduct id st;
    st1 ← AdjustStock id (- quantity) st;
    let sale := {| s_productRef := id; s_quantity := quantity;
                   s_totalPrice := int_times quantity (p_price p);
                   s_date := d |} in
    Done ({| catalog := alter (count_sale quantity) id (catalog st1);
             ledger := ledger st1 ++ [sale] |}, sale).

(** ** Alert Engine *)

Definition NearExpiry (products : list Product) (asOf : date) (horizonDays : Z)
    : list Product :=
  filter (λ p, (p_expiryDate p ≤ asOf + horizonDays)%Z) products.

Definition LowStock (products : list Product) (threshold : Z) : list Product :=
  filter (λ p, (p_stock p ≤ threshold)%Z) products.

(** ** Report Aggregator *)

(** The dates of the ledger, each once, ascending. *)
Definition sale_dates (sales : list Sale) : list date :=
  merge_sort Z.le (remove_dups (s_date <$> sales)).

Definition DailyRevenue (sales : list Sale) : list (date * P) :=
  (λ d, (d, column_sum s_totalPrice (filter (λ s, s_date s = d) sales)))
    <$> sale_dates sales.

Definition TotalsSummary (st : store) : P * Z * nat :=
  (column_sum s_totalPrice (ledger st), column_sum s_quantity (ledger st),
   length (catalog st)).

(** ** Calls and runs *)

(** The mutating calls. *)
Inductive call : Type :=
  | Call_AddProduct (name : string) (stock : Z) (price : P) (expiry : date)
  | Call_RecordSale (id : nat) (quantity : Z) (d : date).

Definition ledger_call (c : call) (st : store) : reply store :=
  match c with
  | Call_AddProduct name stock price expiry =>
      fst <$> AddProduct name stock price expiry st
  | Call_RecordSale id quantity d => fst <$> RecordSale id quantity d st
  end.

(** The store after a call: the caller keeps its store when the call
    fails. *)
Definition ledger_step (c : call) (st : store) : store :=
  match ledger_call c st with Done st' => st' | Failed _ => st end.

Definition ledger_run (cs : list call) (st : store) : store :=
  foldl (λ st c, ledger_step c st) st cs.

(** ** Consistency *)

(** The units the ledger records for a product. *)
Definition sold_units (id : nat) (sales : list Sale) : Z :=
  column_sum s_quantity (filter (λ s, s_productRef s = id) sales).

Definition product_ok (sales : list Sale) (ip : nat * Product) : Prop :=
  (0 ≤ p_stock ip.2)%Z ∧ p_cumulativeSales ip.2 = sold_units ip.1 sales.

Definition sale_ok (products : list Product) (s : Sale) : Prop :=
  (1 ≤ s_quantity s)%Z ∧
  match products !! s_productRef s with
  | Some p => s_totalPrice s = int_times (s_quantity s) (p_price p)
  | None => False
  end.

Definition store_ok (st : store) : Prop :=
  Forall (product_ok (ledger st)) (indexed (catalog st))
  ∧ Forall (sale_ok (catalog st)) (ledger st).

(** ** Operations of the catalog and the ledger together *)

(** A call of the ledger or an update of the catalog. *)
Inductive op : Type :=
  | Op_call (c : call)
  | Op_update (id : nat) (name : string) (price : P) (expiry : date).

Definition ledger_op (o : op) (st : store) : store :=
  match o with
  | Op_call c => ledger_step c st
  | Op_update id name price expiry =>
      match UpdateProduct id name price expiry st with
      | Done (st', _) => st'
      | Failed _ => st
      end
  end.

Definition ledger_ops (os : list op) (st : store) : store :=
  foldl (λ st o, ledger_op o st) st os.

(** What every sale keeps when prices change: a quantity of at least one
    and a product that exists.  Its total is the price of the day it was
    recorded, which the catalog may no longer hold. *)
Definition sale_wf (products : list Product) (s : Sale) : Prop :=
  (1 ≤ s_quantity s)%Z ∧ s_productRef s < length products.

Definition store_wf (st : store) : Prop :=
  Forall (product_ok (ledger st)) (indexed (catalog st))
  ∧ Forall (sale_wf (catalog st)) (ledger st).
End ledger.

Arguments Product : clear implicits.
Arguments Sale : clear implicits.
Arguments store : clear implicits.
Arguments call : clear implicits.
Arguments op : clear implicits.

#[export] Instance Product_eq_dec `{Amount P} : EqDecision (Product P).
Proof. solve_decision. Defined.

#[export] Instance Sale_eq_dec `{Amount P} : EqDecision (Sale P).
Proof. solve_decision. Defined.

#[export] Instance store_eq_dec `{Amount P} : EqDecision (store P).
Proof. solve_decision. Defined.

#[export] Instance sale_ok_dec `{Amount P} (products : list (Product P))
  (s : Sale P) : Decision (sale_ok products s).
Proof. rewrite /sale_ok. destruct (products !! _); apply _. Defined.

#[export] Instance store_ok_dec `{Amount P} (st : store P) :
  Decision (store_ok st).
Proof. apply _. Defined.

#[export] Instance store_wf_dec `{Amount P} (st : store P) :
  Decision (store_wf st).
Proof. apply _. Defined.

(** ** What an implementation owes

    An implementation is a transition system: states [St], requests [Req],
    the state a request leads to, and which requests are allowed in a
    state. *)
Class Impl (St Req : Type) : Type := {
  impl_start : St;
  impl_step : Req → St → St;
  impl_ok : St → Req → Prop;
}.
#[global] Hint Mode Impl ! ! : typeclass_instances.

(** It refines the ledger when [impl_calls req s], the calls of the ledger
    a step stands for, and [impl_abs], a relation between its states and
    stores, make every allowed step commute with the run of its calls. *)
Class Refinement `{Amount P} (St Req : Type) `{!Impl St Req} : Type := {
  impl_calls : Req → St → list (call P);
  impl_abs : St → store P → Prop;
  impl_start_abs : impl_abs (impl_start (Req:=Req)) empty_store;
  impl_step_abs req s st :
    impl_ok s req → impl_abs s st → store_ok st →
    impl_abs (impl_step req s) (ledger_run (impl_calls req s) st);
}.

(** The states an implementation reaches by allowed requests, with the calls
    the requests stand for. *)
Inductive impl_reach `{Refinement P St Req} : list (call P) → St → Prop :=
  | impl_reach_start : impl_reach [] (impl_start (Req:=Req))
  | impl_reach_step cs s (req : Req) :
      impl_reach cs s → impl_ok s req →
      impl_reach (cs ++ impl_calls req s) (impl_step req s).

(** ** The operations in closed form *)

Section ledger_lemmas.
Context `{Amount P}.
Implicit Types (st : store P) (p : Product P) (s : Sale P) (id : nat)
  (c : call P) (cs : list (call P)) (products : list (Product P))
  (sales : list (Sale P)).

Lemma AddProduct_Failed (name : string) (stock : Z) (price : P) (expiry : date)
    st e :
  AddProduct name stock price expiry st = Failed e ↔
  e = ValidationError
  ∧ ¬ (name ≠ "" ∧ (0 ≤ stock)%Z ∧ amount_le amount_zero price).
Proof. rewrite /AddProduct. case_decide; naive_solver. Qed.

Lemma RecordSale_Done id (quantity : Z) (d : date) st p :
  catalog st !! id = Some p → (1 ≤ quantity ≤ p_stock p)%Z →
  RecordSale id quantity d st
  = let sale := {| s_productRef := id; s_quantity := quantity;
                   s_totalPrice := int_times quantity (p_price p);
                   s_date := d |} in
    Done ({| catalog := alter (count_sale quantity ∘ adjust (- quantity)) id
                          (catalog st);
             ledger := ledger st ++ [sale] |}, sale).
Proof.
  intros Hp [??]. rewrite /RecordSale /AdjustStock /GetProduct Hp /=.
  rewrite decide_False; [|lia]. rewrite decide_False /=; [|lia].
  by rewrite list_alter_alter_eq.
Qed.

(** The error of a refused sale, by the first check that fails. *)
Lemma RecordSale_Failed id (quantity : Z) (d : date) st e :
  RecordSale id quantity d st = Failed e ↔
  if decide (quantity < 1)%Z then e = ValidationError
  else match catalog st !! id with
       | None => e = NotFoundError
       | Some p => (quantity > p_stock p)%Z ∧ e = InsufficientStockError
       end.
Proof.
  rewrite /RecordSale /AdjustStock /GetProduct. case_decide; [naive_solver|].
  destruct (catalog st !! id) as [p|]; simpl; [|naive_solver].
  case_decide; simpl; [|naive_solver lia]. naive_solver lia.
Qed.

Lemma ledger_step_AddProduct (name : string) (stock : Z) (price : P)
    (expiry : date) st :
  ledger_step (Call_AddProduct name stock price expiry) st
  = if decide (name ≠ "" ∧ (0 ≤ stock)%Z ∧ amount_le amount_zero price)
    then {| catalog := catalog st ++
              [{| p_name := name; p_stock := stock; p_price := price;
                  p_expiryDate := expiry; p_cumulativeSales := 0 |}];
            ledger := ledger st |}
    else st.
Proof. rewrite /ledger_step /ledger_call /AddProduct. by case_decide. Qed.

Lemma ledger_step_RecordSale id (quantity : Z) (d : date) st :
  ledger_step (Call_RecordSale id quantity d) st
  = match catalog st !! id with
    | Some p =>
        if decide (1 ≤ quantity ≤ p_stock p)%Z
        then {| catalog := alter (count_sale quantity ∘ adjust (- quantity)) id
                             (catalog st);
                ledger := ledger st ++
                  [{| s_productRef := id; s_quantity := quantity;
                      s_totalPrice := int_times quantity (p_price p);
                      s_date := d |}] |}
        else st
    | None => st
    end.
Proof.
  rewrite /ledger_step /ledger_call.
  destruct (catalog st !! id) as [p|] eqn:Hp.
  - case_decide.
    + by erewrite RecordSale_Done.
    + destruct (RecordSale _ _ _ _) as [[st' sale]|e] eqn:Hrs; [|done].
      exfalso. revert Hrs. rewrite /RecordSale /AdjustStock /GetProduct Hp /=.
      repeat case_decide; try done; lia.
  - rewrite /RecordSale /GetProduct Hp. by case_decide.
Qed.

Lemma ledger_run_app cs1 cs2 st :
  ledger_run (cs1 ++ cs2) st = ledger_run cs2 (ledger_run cs1 st).
Proof. apply foldl_app. Qed.

(** ** Consistency is kept *)

Lemma products_ok_lookup sales products :
  Forall (product_ok sales) (indexed products) ↔
  ∀ id p, products !! id = Some p →
    (0 ≤ p_stock p)%Z ∧ p_cumulativeSales p = sold_units id sales.
Proof.
  rewrite Forall_lookup. split.
  - intros Hall id p Hp. apply (Hall id (id, p)). by rewrite indexed_lookup Hp.
  - intros Hall i [id p]. rewrite indexed_lookup.
    destruct (products !! i) as [p'|] eqn:Hp; intros; simplify_eq/=.
    by apply Hall.
Qed.

Lemma sold_units_snoc id sales s :
  sold_units id (sales ++ [s])
  = (sold_units id sales
     + if decide (s_productRef s = id) then s_quantity s else 0)%Z.
Proof.
  rewrite /sold_units filter_app filter_cons filter_nil. case_decide.
  - by rewrite -/(concat_row _ s) column_sum_concat_row.
  - rewrite app_nil_r. lia.
Qed.

Lemma sale_ok_wf products s : sale_ok products s → sale_wf products s.
Proof.
  intros [? Hs]. split; [done|].
  destruct (products !! _) as [p|] eqn:Hp; [|done]. by eapply lookup_lt_Some.
Qed.

Lemma store_ok_wf st : store_ok st → store_wf st.
Proof.
  intros [??]. split; [done|]. eapply Forall_impl; [done|]. apply sale_ok_wf.
Qed.

Lemma sale_wf_length products products' s :
  length products ≤ length products' →
  sale_wf products s → sale_wf products' s.
Proof. intros ? [??]. split; [done|lia]. Qed.

(** No sale refers to an id the catalog has not assigned yet. *)
Lemma sold_units_unknown id products sales :
  Forall (sale_wf products) sales → length products ≤ id →
  sold_units id sales = 0%Z.
Proof.
  intros Hall Hid. rewrite /sold_units filter_nil_Forall //.
  eapply Forall_impl; [done|]. intros s [_ Hs] Heq. lia.
Qed.

Lemma sale_ok_app products p s :
  sale_ok products s → sale_ok (products ++ [p]) s.
Proof.
  intros [? Hs]. split; [done|].
  destruct (products !! _) as [p'|] eqn:Hp; [|done].
  by erewrite lookup_app_l_Some.
Qed.

Lemma sale_ok_alter products (f : Product P → Product P) id s :
  (∀ p, p_price (f p) = p_price p) →
  sale_ok products s → sale_ok (alter f id products) s.
Proof.
  intros Hf [? Hs]. split; [done|]. rewrite list_lookup_alter.
  destruct (products !! s_productRef s) as [p'|] eqn:Hp; [|done].
  destruct (decide (id = s_productRef s)) as [->|]; [|done].
  by rewrite Hp /= Hf.
Qed.

Lemma empty_store_ok : store_ok (empty_store (P:=P)).
Proof. by split; constructor. Qed.

(** A call keeps stock, counters and references right, whether it succeeds
    or fails. *)
Lemma ledger_step_wf c st : store_wf st → store_wf (ledger_step c st).
Proof.
  intros [Hprod Hsale].
  pose proof (proj1 (products_ok_lookup _ _) Hprod) as Hall.
  destruct c as [name stock price expiry|id q d].
  - rewrite ledger_step_AddProduct. case_decide as Hv; [|done].
    destruct Hv as (_ & ? & _). split; simpl.
    + apply products_ok_lookup.
      intros id p [[_ Hp]|[-> <-]]%lookup_snoc_Some; [by apply Hall|].
      simpl. split; [done|]. by erewrite sold_units_unknown.
    + eapply Forall_impl; [done|]. intros s. apply sale_wf_length.
      rewrite length_app. lia.
  - rewrite ledger_step_RecordSale.
    destruct (catalog st !! id) as [p|] eqn:Hp; [|done].
    case_decide as Hq; [|done]. split; simpl.
    + apply products_ok_lookup. intros i p'.
      rewrite list_lookup_alter sold_units_snoc /=.
      destruct (decide (id = i)) as [->|]; simpl.
      all: destruct (catalog st !! i) as [pi|] eqn:Hpi; [|done].
      all: destruct (Hall i pi Hpi) as [??]; intros; simplify_eq/=.
      all: lia.
    + apply Forall_app. split.
      * eapply Forall_impl; [done|]. intros s. apply sale_wf_length.
        by rewrite length_alter.
      * apply Forall_singleton. split; simpl; [lia|].
        rewrite length_alter. by eapply lookup_lt_Some.
Qed.

(** A call keeps the store consistent, whether it succeeds or fails. *)
Lemma ledger_step_ok c st : store_ok st → store_ok (ledger_step c st).
Proof.
  intros Hok. split; [by apply ledger_step_wf, store_ok_wf|].
  destruct Hok as [_ Hsale]. destruct c as [name stock price expiry|id q d].
  - rewrite ledger_step_AddProduct. case_decide as Hv; [|done]. simpl.
    eapply Forall_impl; [done|]. intros s. apply sale_ok_app.
  - rewrite ledger_step_RecordSale.
    destruct (catalog st !! id) as [p|] eqn:Hp; [|done].
    case_decide as Hq; [|done]. simpl. apply Forall_app. split.
    + eapply Forall_impl; [done|]. intros s. by apply sale_ok_alter.
    + apply Forall_singleton. split; simpl; [lia|].
      by rewrite list_lookup_alter_eq Hp.
Qed.

(** Every sequence of calls keeps the store consistent: stock is never
    negative and every counter is the sum of the sales of its product. *)
Lemma ledger_run_ok cs st : store_ok st → store_ok (ledger_run cs st).
Proof.
  revert st. induction cs as [|c cs IH]; intros st ?; [done|].
  by apply IH, ledger_step_ok.
Qed.

(** ** Updates of the catalog *)

Lemma UpdateProduct_Done id (name : string) (price : P) (expiry : date) st p :
  catalog st !! id = Some p → name ≠ "" → amount_le amount_zero price →
  UpdateProduct id name price expiry st
  = Done ({| catalog := alter (revise name price expiry) id (catalog st);
             ledger := ledger st |}, revise name price expiry p).
Proof.
  intros Hp ??. rewrite /UpdateProduct /GetProduct Hp /=. by rewrite decide_True.
Qed.

(** The error of a refused update: the id first, then the fields. *)
Lemma UpdateProduct_Failed id (name : string) (price : P) (expiry : date) st e :
  UpdateProduct id name price expiry st = Failed e ↔
  match catalog st !! id with
  | None => e = NotFoundError
  | Some _ =>
      e = ValidationError ∧ ¬ (name ≠ "" ∧ amount_le amount_zero price)
  end.
Proof.
  rewrite /UpdateProduct /GetProduct.
  destruct (catalog st !! id) as [p|]; simpl; [|naive_solver].
  case_decide; naive_solver.
Qed.

Lemma ledger_op_update id (name : string) (price : P) (expiry : date) st :
  ledger_op (Op_update id name price expiry) st
  = if decide (name ≠ "" ∧ amount_le amount_zero price)
    then {| catalog := alter (revise name price expiry) id (catalog st);
            ledger := ledger st |}
    else st.
Proof.
  rewrite /ledger_op /UpdateProduct /GetProduct.
  destruct (catalog st !! id) as [p|] eqn:Hp; simpl; case_decide; try done.
  destruct st as [products sales]. simpl in *. f_equal.
  apply list_eq. intros i. rewrite list_lookup_alter.
  case_decide; [subst; by rewrite Hp|done].
Qed.

(** An update neither adds nor removes a product. *)
Lemma ledger_op_update_length id (name : string) (price : P) (expiry : date)
    st :
  length (catalog (ledger_op (Op_update id name price expiry) st))
  = length (catalog st).
Proof. rewrite ledger_op_update. case_decide; by rewrite /= ?length_alter. Qed.

(** An update reaches neither the stock, nor the counters, nor the
    ledger. *)
Lemma ledger_op_update_frame id (name : string) (price : P) (expiry : date)
    st :
  let st' := ledger_op (Op_update id name price expiry) st in
  p_stock <$> catalog st' = p_stock <$> catalog st
  ∧ p_cumulativeSales <$> catalog st' = p_cumulativeSales <$> catalog st
  ∧ ledger st' = ledger st.
Proof.
  cbv zeta. rewrite ledger_op_update. case_decide; [simpl|done].
  split_and!; [| |done]; apply list_eq; intros i.
  all: rewrite !list_lookup_fmap list_lookup_alter.
  all: case_decide; subst; by destruct (catalog st !! _).
Qed.

(** Calls and updates, in any order, keep stock, counters and references
    right. *)
Lemma ledger_op_wf o st : store_wf st → store_wf (ledger_op o st).
Proof.
  destruct o as [c|id name price expiry]; [apply ledger_step_wf|].
  rewrite ledger_op_update. case_decide; [|done]. intros [Hprod Hsale].
  pose proof (proj1 (products_ok_lookup _ _) Hprod) as Hall. split; simpl.
  - apply products_ok_lookup. intros i p'. rewrite list_lookup_alter.
    case_decide; subst; destruct (catalog st !! _) as [pi|] eqn:Hpi.
    all: intros; simplify_eq/=; eauto.
  - eapply Forall_impl; [done|]. intros s. apply sale_wf_length.
    by rewrite length_alter.
Qed.

Lemma ledger_ops_wf os st : store_wf st → store_wf (ledger_ops os st).
Proof.
  revert st. induction os as [|o os IH]; intros st ?; [done|].
  by apply IH, ledger_op_wf.
Qed.

(** An update that leaves the price as it is keeps the store consistent:
    every total is still quantity times the price of its product. *)
Lemma ledger_op_update_ok id (name : string) (expiry : date) st p :
  catalog st !! id = Some p → store_ok st →
  store_ok (ledger_op (Op_update id name (p_price p) expiry) st).
Proof.
  intros Hp Hok. split; [by apply ledger_op_wf, store_ok_wf|].
  destruct Hok as [_ Hsale]. rewrite ledger_op_update. case_decide; [|done].
  simpl. eapply Forall_impl; [done|]. intros s [? Hs]. split; [done|].
  rewrite list_lookup_alter. case_decide; [subst|done].
  by rewrite Hp /=; rewrite Hp in Hs.
Qed.

(** ** Every implementation that refines the ledger *)

Section refinement.
Context {St Req : Type} `{!Impl St Req} `{!Refinement (P:=P) St Req}.

(** A reachable state is related to the store its calls build, and that
    store is consistent. *)
Lemma refinement_reach cs (s : St) :
  impl_reach cs s →
  impl_abs s (ledger_run cs empty_store)
  ∧ store_ok (ledger_run cs empty_store).
Proof.
  induction 1 as [|cs s req _ [IHabs IHok] Hok].
  - split; [apply impl_start_abs|apply empty_store_ok].
  - rewrite ledger_run_app.
    split; [by apply impl_step_abs|by apply ledger_run_ok].
Qed.
End refinement.
End ledger_lemmas.

(** ** Grouped sums against the reference *)

Lemma StronglySorted_lt_le (l : list Z) :
  StronglySorted Z.lt l → NoDup l ∧ StronglySorted Z.le l.
Proof.
  induction 1 as [|x l _ [IHnd IHle] Hx]; [split; constructor|].
  split.
  - apply NoDup_cons. split; [|done]. intros Hin.
    rewrite Forall_forall in Hx. specialize (Hx x Hin). lia.
  - constructor; [done|]. eapply Forall_impl; [done|]. intros; simpl in *; lia.
Qed.

(** Two sorted lists without duplicates that hold the same numbers are
    equal. *)
Lemma StronglySorted_lt_unique (l1 l2 : list Z) :
  StronglySorted Z.lt l1 → NoDup l2 → StronglySorted Z.le l2 →
  (∀ x, x ∈ l1 ↔ x ∈ l2) → l1 = l2.
Proof.
  intros [??]%StronglySorted_lt_le ?? Hel.
  apply (StronglySorted_unique Z.le); [done..|]. by apply NoDup_Permutation.
Qed.

Section groupby_reference.
Context {R : Type} `{Amount P} (key : R → Z) (col : R → P).

(** The one-pass [groupby_sum] of the tables is the reference: one entry
    per key, keys ascending, each with the sum over the rows of the key. *)
Lemma groupby_sum_reference (df : list R) :
  groupby_sum key col df
  = (λ d, (d, column_sum col (filter (λ r, key r = d) df)))
      <$> merge_sort Z.le (remove_dups (key <$> df)).
Proof.
  set (f := λ d, column_sum col (filter (λ r, key r = d) df)).
  assert (groupby_sum key col df
          = (λ d, (d, f d)) <$> (groupby_sum key col df).*1) as ->.
  { rewrite -list_fmap_compose -{1}(list_fmap_id (groupby_sum key col df)).
    apply list_fmap_ext. intros _ [k s] Hks%list_elem_of_lookup_2. simpl.
    by rewrite (groupby_sum_elem key col df k s Hks). }
  f_equal. apply StronglySorted_lt_unique.
  - apply (groupby_sum_sorted key col).
  - rewrite merge_sort_Permutation. apply NoDup_remove_dups.
  - apply (StronglySorted_merge_sort _).
  - intros k. rewrite elem_of_groupby_sum_keys.
    rewrite merge_sort_Permutation elem_of_remove_dups list_elem_of_fmap.
    naive_solver.
Qed.
End groupby_reference.

(** ** The scenarios of the specification *)

(** Paracetamol, stock 20 at price 5: a sale of 5 returns a total of 25 and
    leaves stock 15 and counter 5; a sale of 20 then fails with
    InsufficientStockError. *)
Example ledger_paracetamol_scenario :
  let st0 :=
    ledger_step (Call_AddProduct "Paracetamol" 20 5%Z 10%Z) empty_store in
  ∃ st1 sale,
    RecordSale 0 5 0%Z st0 = Done (st1, sale)
    ∧ s_totalPrice sale = 25%Z
    ∧ (λ p, (p_stock p, p_cumulativeSales p)) <$> catalog st1 = [(15, 5)%Z]
    ∧ RecordSale 0 20 0%Z st1 = Failed InsufficientStockError.
Proof. by eexists _, _. Qed.

(** [LowStock] with threshold 10 on stocks 15, 10 and 3 selects 10 and 3. *)
Example LowStock_scenario :
  let product (stock : Z) :=
    {| p_name := "P"; p_stock := stock; p_price := 1%Z; p_expiryDate := 0%Z;
       p_cumulativeSales := 0 |} in
  p_stock <$> LowStock [product 15%Z; product 10%Z; product 3%Z] 10
  = [10; 3]%Z.
Proof. done. Qed.

(** A price changed after a sale: stock, counter and reference stay right,
    the total of the sale stays the 25 it was recorded with, and the store
    no longer satisfies total = quantity times price, which is 30 now. *)
Example update_price_scenario :
  let st :=
    ledger_ops [Op_call (Call_AddProduct "Paracetamol" 20 5%Z 10%Z);
                Op_call (Call_RecordSale 0 5 0%Z);
                Op_update 0 "Paracetamol" 6%Z 10%Z] empty_store in
  store_wf st ∧ ¬ store_ok st
  ∧ s_totalPrice <$> ledger st = [25%Z]
  ∧ (λ p, (p_stock p, p_price p, p_cumulativeSales p)) <$> catalog st
    = [(15, 6, 5)%Z].
Proof. split_and!; [decide_by_compute..|done|done]. Qed.

(** An update of an id the catalog does not hold, one with an empty name
    and one with a negative price fail with the error of the
    specification. *)
Example UpdateProduct_errors :
  let st :=
    ledger_step (Call_AddProduct "Paracetamol" 20 5%Z 10%Z) empty_store in
  UpdateProduct 1 "Ibuprofen" 6%Z 10%Z st = Failed NotFoundError
  ∧ UpdateProduct 0 "" 6%Z 10%Z st = Failed ValidationError
  ∧ UpdateProduct 0 "Paracetamol" (-1)%Z 10%Z st = Failed ValidationError.
Proof. done. Qed.
