(* ===== verification/LedgerRerun.v ===== *)
(** * LedgerRerun: stopped runs and the ledger

    The two interfaces of the development meet here.  [Refinement] (in
    [Ledger]) is what an implementation owes the inventory ledger of the
    specification on whole steps; [Sealed] (in [Rerun]) is what a script
    promises about runs that Streamlit stops.  For an implementation whose
    step is the run of a sealed script, and whose correspondence with the
    stores looks at the session through the view only, every session reached
    with stopped runs stands for a store the ledger builds from calls, and
    that store is consistent ([stopped_refines]). *)

From S2P Require Import Prelude Amount Frame Script Rerun Ledger.

Section stopped_refinement.
Context `{Amount P} {St Req E V : Type}.
Context `{!Impl St Req} `{!Refinement (P:=P) St Req}.
Context (app : Req → script St E ()) (view : St → V).
Context `{!Sealed app (impl_ok (St:=St) (Req:=Req)) view}.
Hypothesis app_step : ∀ req s, impl_step req s = final_session (app req s).
Hypothesis abs_view :
  ∀ s s' (st : store P), view s = view s' → impl_abs s st → impl_abs s' st.

(** The sessions reached by whole runs of the script are the states the
    implementation reaches. *)
Lemma reach_impl_reach s :
  reach app impl_ok (impl_start (Req:=Req)) s → ∃ cs, impl_reach cs s.
Proof.
  induction 1 as [|s req _ [cs IH] Hok]; [exists []; constructor|].
  exists (cs ++ impl_calls req s). rewrite -app_step. by constructor.
Qed.

(** Every session reached when runs may be stopped at the calls of [st.*]
    stands for a store the ledger builds from calls, and that store is
    consistent. *)
Lemma stopped_refines s :
  reach_until app impl_ok (impl_start (Req:=Req)) false s →
  ∃ cs, impl_abs s (ledger_run cs empty_store)
        ∧ store_ok (ledger_run cs empty_store).
Proof.
  intros (s' & [cs Hcs]%reach_impl_reach & Hview)%(reach_until_complete
    _ _ _ view).
  exists cs. destruct (refinement_reach _ _ Hcs) as [Habs Hok].
  split; [by eapply abs_view|done].
Qed.
End stopped_refinement.
