(* ===== verification/LedgerPool.v ===== *)
(** * LedgerPool: handlers run as critical sections are calls of the ledger

    Section 5 of the specification asks for mutual exclusion around the
    check-and-mutate sequence of a sale.  [Pool] has the scheduler that
    gives it, [run_atomic]; [Ledger] has the operations of the
    specification.  This file puts the two together.

    [Linearizable] is what a handler promises the ledger: a relation
    [lin_abs] between the shared tables and the stores of the ledger, the
    call [lin_call] a caller that has not started stands for, and the law
    [lin_alone]: run alone, the handler leaves the tables of the store
    after that call and reports what the ledger replies, success or the
    error.  Against this interface, [atomic_linearizable] shows that a pool
    whose handlers run as critical sections is the ledger that is sent the
    calls of the callers in the order of the scheduler: the tables stand
    for the store after those calls, that store is consistent, and every
    caller is told the reply of the ledger to its call.
    [LedgerPoolMedipath] and [LedgerPoolMedico] give the instances. *)

From S2P Require Import Prelude Amount Pool Ledger.

(** What the page shows a caller, as the reply of the ledger: success, the
    error element for a sale beyond the stock, or an exception where the
    ledger finds no product. *)
Definition outcome_error (o : sale_outcome) : option ledger_error :=
  match o with
  | Accepted => None
  | Refused => Some InsufficientStockError
  | Raised _ => Some NotFoundError
  end.

(** The error of a reply, if it is one. *)
Definition reply_error {A} (r : reply A) : option ledger_error :=
  match r with Done _ => None | Failed e => Some e end.

Section ledger_pool.
Context `{Amount P} {T St : Type} `{!Handler T St, !Bounded T}.

(** The replies of the ledger to a sequence of calls. *)
Fixpoint ledger_replies (cs : list (call P)) (σ : store P)
    : list (option ledger_error) :=
  match cs with
  | [] => []
  | c :: cs => reply_error (ledger_call c σ) :: ledger_replies cs (ledger_step c σ)
  end.

Class Linearizable : Type := {
  lin_abs : St → store P → Prop;
  lin_ready : St → T → Prop;
  lin_call : T → St → option (call P);
  lin_outcome : T → option sale_outcome;
  lin_ready_alone t t' st :
    lin_ready st t → lin_ready st t' → lin_ready (run_alone t st).2 t';
  lin_ready_ended t st :
    lin_ready st t → lin_ready (run_alone t st).2 (run_alone t st).1;
  lin_call_None t st : lin_ready st t → lin_call t st = None → finished t;
  lin_alone t st c σ :
    lin_ready st t → lin_call t st = Some c → lin_abs st σ → store_ok σ →
    lin_abs (run_alone t st).2 (ledger_step c σ)
    ∧ outcome_error <$> lin_outcome (run_alone t st).1
      = Some (reply_error (ledger_call c σ));
}.

Context `{!Linearizable}.

(** The call a pick of the scheduler stands for: the call of the caller if
    it has not started, nothing if it has ended or does not exist. *)
Definition pick_call (i : nat) (c : list T * St) : option (call P) :=
  c.1 !! i ≫= λ t, lin_call t c.2.

(** The calls of a schedule of critical sections, in the order in which the
    scheduler lets the handlers run. *)
Fixpoint atomic_calls (sched : list nat) (c : list T * St) : list (call P) :=
  match sched with
  | [] => []
  | i :: sched =>
      option_list (pick_call i c) ++ atomic_calls sched (schedule_atomic i c)
  end.

(** What the callers are told, in the same order. *)
Fixpoint atomic_outcomes (sched : list nat) (c : list T * St)
    : list (option sale_outcome) :=
  match sched with
  | [] => []
  | i :: sched =>
      (if pick_call i c is Some _
       then [(schedule_atomic i c).1 !! i ≫= lin_outcome] else [])
      ++ atomic_outcomes sched (schedule_atomic i c)
  end.
End ledger_pool.

Arguments Linearizable P {_} T St {_ _}.

Section ledger_pool_lemmas.
Context `{Amount P} {T St : Type}.
Context `{!Handler T St, !Bounded T, !HandlerLaws T St, !Linearizable P T St}.
Implicit Types (t : T) (st : St) (pool : list T) (c : list T * St)
  (σ : store P) (i : nat) (sched : list nat).

(** The reply of [RecordSale] to a sale of at least one unit, by the first
    check that fails. *)
Lemma reply_error_RecordSale id (q : Z) (d : date) σ :
  (1 ≤ q)%Z →
  reply_error (ledger_call (Call_RecordSale id q d) σ)
  = match catalog σ !! id with
    | None => Some NotFoundError
    | Some p =>
        if decide (q ≤ p_stock p)%Z then None else Some InsufficientStockError
    end.
Proof.
  intros Hq. rewrite /ledger_call /RecordSale /AdjustStock /GetProduct.
  rewrite decide_False; [|lia].
  destruct (catalog σ !! id) as [p|]; [simpl|done].
  case_decide; case_decide; simpl; try done; lia.
Qed.

Lemma ledger_replies_app (cs1 cs2 : list (call P)) σ :
  ledger_replies (cs1 ++ cs2) σ
  = ledger_replies cs1 σ ++ ledger_replies cs2 (ledger_run cs1 σ).
Proof.
  revert σ. induction cs1 as [|c cs1 IH]; intros σ; [done|].
  by rewrite /= IH.
Qed.

(** A pick that stands for no call changes nothing. *)
Lemma schedule_atomic_no_call i c :
  Forall (lin_ready c.2) c.1 → pick_call i c = None → schedule_atomic i c = c.
Proof.
  destruct c as [pool st]. rewrite /pick_call /schedule_atomic /=.
  intros Hready Hcall. destruct (pool !! i) as [t|] eqn:Hi; [|done].
  rewrite run_alone_done ?list_insert_id //.
  eapply lin_call_None; [|done]. by eapply Forall_lookup_1.
Qed.

(** One critical section is one call of the ledger. *)
Lemma schedule_atomic_call i c cl σ :
  Forall (lin_ready c.2) c.1 → pick_call i c = Some cl →
  lin_abs c.2 σ → store_ok σ →
  let c' := schedule_atomic i c in
  Forall (lin_ready c'.2) c'.1
  ∧ lin_abs c'.2 (ledger_step cl σ)
  ∧ outcome_error <$> (c'.1 !! i ≫= lin_outcome)
    = Some (reply_error (ledger_call cl σ)).
Proof.
  destruct c as [pool st]. rewrite /pick_call /schedule_atomic /=.
  intros Hready Hcall Habs Hok. destruct (pool !! i) as [t|] eqn:Hi; [|done].
  pose proof (Forall_lookup_1 _ _ _ _ Hready Hi) as Ht. simpl in Hcall.
  destruct (lin_alone t st cl σ Ht Hcall Habs Hok) as [Habs' Hout].
  pose proof (lin_ready_ended t st Ht) as Hended.
  assert (Forall (lin_ready (run_alone t st).2) pool) as Hready'.
  { eapply Forall_impl; [done|]. intros t'. by apply lin_ready_alone. }
  destruct (run_alone t st) as [t' st']. simpl in *. split_and!; [|done|].
  - by apply Forall_insert.
  - by rewrite list_lookup_insert_eq; [|by eapply lookup_lt_Some].
Qed.

(** A pool whose handlers run as critical sections is the ledger that is
    sent the calls of the callers, in the order of the scheduler: the
    tables stand for the store after those calls, the store is consistent,
    and what every caller is told is the reply of the ledger to its
    call. *)
Lemma atomic_linearizable sched c σ :
  Forall (lin_ready c.2) c.1 → lin_abs c.2 σ → store_ok σ →
  lin_abs (run_atomic sched c).2 (ledger_run (atomic_calls sched c) σ)
  ∧ store_ok (ledger_run (atomic_calls sched c) σ)
  ∧ fmap outcome_error <$> atomic_outcomes sched c
    = Some <$> ledger_replies (atomic_calls sched c) σ.
Proof.
  revert c σ. induction sched as [|i sched IH]; intros c σ Hready Habs Hok;
    [done|].
  rewrite run_atomic_cons. csimpl.
  destruct (pick_call i c) as [cl|] eqn:Hcall; csimpl.
  - destruct (schedule_atomic_call i c cl σ) as (Hready' & Habs' & Hout);
      [done..|].
    destruct (IH _ _ Hready' Habs' (ledger_step_ok _ _ Hok)) as (? & ? & Houts).
    by rewrite Hout Houts.
  - rewrite schedule_atomic_no_call //. by apply IH.
Qed.
End ledger_pool_lemmas.
