(* ===== verification/LedgerMedipath.v ===== *)
(** * LedgerMedipath: [src/medipath.py] against the ledger

    A row of [products] is a product of the ledger whose counter is the
    column Total Sales; [src/medipath.py] keeps no sales table, so the sales
    of the ledger have no counterpart in the session.  A submitted product
    form stands for [AddProduct]; a click on Record Sale stands for
    [RecordSale] on the id of the first row with the selected name.

    [mp_refinement] is the instance of [Refinement]: every allowed run,
    with a non-empty name on a submitted form, commutes with its calls.
    From it: the table of a reachable session is the catalog of a consistent
    store ([mp_refines_ledger]), so Total Sales of a row is the sum of the
    sales the ledger records for it ([mp_total_sales_ledger]); the element
    Sales Entry shows tells the reply of [RecordSale] ([mp_sale_outcome]);
    and the rows Expiry Alerts shows are [NearExpiry] of the catalog
    ([expiry_alerts_near_expiry]).  With [mp_sealed] the same holds when
    Streamlit stops runs at the calls of [st.*]
    ([mp_stopped_refines_ledger]). *)

From S2P Require Import Prelude Amount Frame Script Rerun Medipath.
From S2P Require Import RerunMedipath Ledger LedgerRerun.

Section medipath_refinement.
Context `{AmountLaws P, !PieChart}.
Implicit Types (ss : mp_session P) (st : store P) (r : ProductRow P)
  (req : mp_request P) (reqs : list (mp_request P)) (i : nat).

(** ** The correspondence *)

(** A row as a product: Total Sales is the cumulative-sales counter. *)
Definition mp_product (r : ProductRow P) : Product P :=
  {| p_name := Product_Name r; p_stock := Stock r; p_price := Price r;
     p_expiryDate := Expiry_Date r; p_cumulativeSales := Total_Sales r |}.

(** The session holds the catalog of the store. *)
Definition mp_abs ss st : Prop := catalog st = mp_product <$> mp_table ss.

(** The day the ledger records for a sale: the page has no date. *)
Definition mp_sale_day : date := 0%Z.

(** The calls a run stands for. *)
Definition mp_calls req ss : list (call P) :=
  match req with
  | Products_page f =>
      if pf_submitted f
      then [Call_AddProduct (pf_product_name f) (pf_stock f) (pf_price f)
              (pf_expiry_date f)]
      else []
  | Sales_page f =>
      if sf_record_sale f then
        match list_find (λ r, Product_Name r = sf_product f) (mp_table ss) with
        | Some (i, _) => [Call_RecordSale i (sf_quantity_sold f) mp_sale_day]
        | None => []
        end
      else []
  | _ => []
  end.

(** The calls of a sequence of runs. *)
Fixpoint mp_trace_calls reqs ss : list (call P) :=
  match reqs with
  | [] => []
  | req :: reqs => mp_calls req ss ++ mp_trace_calls reqs (mp_step req ss)
  end.

(** A submitted product form carries a name: the text input does not
    require one. *)
Definition mp_named req : Prop :=
  match req with
  | Products_page f => if pf_submitted f then pf_product_name f ≠ "" else True
  | _ => True
  end.

#[export] Instance mp_named_dec req : Decision (mp_named req).
Proof. destruct req as [|f| |]; simpl; try apply _. destruct (pf_submitted f); apply _. Defined.

#[export] Instance mp_impl : Impl (mp_session P) (mp_request P) := {|
  impl_start := mp_start;
  impl_step := mp_step;
  impl_ok ss req := mp_request_ok ss req ∧ mp_named req;
|}.

(** ** One run *)

Lemma mp_product_sell (q : Z) r :
  mp_product (sell q r) = (count_sale q ∘ adjust (- q)) (mp_product r).
Proof. rewrite /mp_product /sell /count_sale /adjust /=. f_equal. Qed.

Lemma mp_abs_lookup ss st i r :
  mp_abs ss st → mp_table ss !! i = Some r →
  catalog st !! i = Some (mp_product r).
Proof. intros -> Hi. by rewrite list_lookup_fmap Hi. Qed.

(** An allowed run commutes with its calls. *)
Lemma mp_step_abs req ss st :
  mp_request_ok ss req → mp_named req → mp_abs ss st →
  mp_abs (mp_step req ss) (ledger_run (mp_calls req ss) st).
Proof.
  rewrite /mp_abs. intros Hok Hname Habs. destruct req as [|f|f|today]; simpl.
  - by rewrite mp_step_dashboard.
  - rewrite mp_step_products /=. simpl in Hname.
    destruct (pf_submitted f); [|done]. destruct Hok as [? Hprice].
    rewrite /= ledger_step_AddProduct decide_True.
    + by rewrite /= Habs /concat_row fmap_app.
    + by rewrite -amount_of_int_zero.
  - rewrite mp_table_step_sales. destruct (sf_record_sale f); [|by destruct (list_find _ _) as [[??]|]].
    destruct (list_find _ _) as [[i r]|] eqn:Hfind; [|done].
    apply list_find_Some_lookup in Hfind as [Hi _].
    destruct Hok as [_ Hq]; [by intros Hnil; rewrite Hnil in Hi|].
    rewrite /= ledger_step_RecordSale (mp_abs_lookup ss st i r) //=.
    case_bool_decide.
    + rewrite decide_True; [|lia]. rewrite /= Habs.
      symmetry. apply list_fmap_alter, Forall_true. intros r'. apply mp_product_sell.
    + rewrite decide_False //. lia.
  - by rewrite mp_step_alerts.
Qed.

#[export] Instance mp_refinement :
  Refinement (P:=P) (mp_session P) (mp_request P) := {|
  impl_calls := mp_calls;
  impl_abs := mp_abs;
  impl_start_abs := eq_refl;
  impl_step_abs req ss st Hok Habs _ :=
    mp_step_abs req ss st (proj1 Hok) (proj2 Hok) Habs;
|}.

(** ** Sequences of runs *)

Lemma mp_trace_calls_app reqs1 reqs2 ss :
  mp_trace_calls (reqs1 ++ reqs2) ss
  = mp_trace_calls reqs1 ss ++ mp_trace_calls reqs2 (mp_run reqs1 ss).
Proof.
  revert ss. induction reqs1 as [|req reqs1 IH]; intros ss; [done|].
  by rewrite /= IH (assoc (++)).
Qed.

(** The sessions the script reaches are the states the implementation
    reaches. *)
Lemma mp_runs_reach reqs ss :
  mp_runs reqs ss → Forall mp_named reqs →
  impl_reach (mp_trace_calls reqs mp_start) ss.
Proof.
  induction 1 as [|reqs ss req Hruns IH Hreq]; [constructor|].
  intros [Hnamed Hname]%Forall_app. apply Forall_inv in Hname.
  rewrite mp_trace_calls_app /= app_nil_r.
  destruct (mp_runs_trace _ _ Hruns) as [_ <-].
  exact (impl_reach_step _ ss req (IH Hnamed) (conj Hreq Hname)).
Qed.

(** C13: The products table of every session [src/medipath.py] reaches,
    with a name on every submitted form, is the catalog of the store that
    the ledger builds from the calls of the runs, and that store is
    consistent. *)
Theorem mp_refines_ledger reqs ss :
  mp_runs reqs ss → Forall mp_named reqs →
  let st := ledger_run (mp_trace_calls reqs mp_start) empty_store in
  catalog st = mp_product <$> mp_table ss ∧ store_ok st.
Proof.
  intros Hruns Hnamed.
  exact (refinement_reach _ ss (mp_runs_reach _ _ Hruns Hnamed)).
Qed.

(** In a reachable session Total Sales of every row is the sum of the
    quantities of the sales the ledger records for the row, and Stock is
    not negative. *)
Theorem mp_total_sales_ledger reqs ss i r :
  mp_runs reqs ss → Forall mp_named reqs → mp_table ss !! i = Some r →
  let st := ledger_run (mp_trace_calls reqs mp_start) empty_store in
  Total_Sales r = sold_units i (ledger st) ∧ (0 ≤ Stock r)%Z.
Proof.
  intros Hruns Hnamed Hi.
  destruct (refinement_reach _ _ (mp_runs_reach _ _ Hruns Hnamed))
    as [Habs [Hprod _]].
  destruct (proj1 (products_ok_lookup _ _) Hprod i (mp_product r)) as [??];
    [by apply (mp_abs_lookup ss)|done].
Qed.

(** On a click on Record Sale for a name of the table, the page shows
    success exactly when [RecordSale] on the first row with the name
    succeeds, and then the session holds the catalog of the new store; it
    shows Not enough stock exactly when [RecordSale] fails, the error is
    InsufficientStockError and the table stays as it was. *)
Theorem mp_sale_outcome (f : sale_form) ss st i r :
  mp_abs ss st → sale_form_ok (mp_table ss) f → sf_record_sale f = true →
  list_find (λ r, Product_Name r = sf_product f) (mp_table ss) = Some (i, r) →
  match RecordSale i (sf_quantity_sold f) mp_sale_day st with
  | Done (st', _) =>
      mp_statuses (emitted (medipath_script (Sales_page f) ss))
      = [(Success, Sale_recorded (sf_product f))]
      ∧ mp_abs (mp_step (Sales_page f) ss) st'
  | Failed e =>
      e = InsufficientStockError
      ∧ mp_statuses (emitted (medipath_script (Sales_page f) ss))
        = [(Error, Not_enough_stock)]
      ∧ mp_table (mp_step (Sales_page f) ss) = mp_table ss
  end.
Proof.
  intros Habs Hok Hclick Hfind.
  pose proof Hfind as [Hi _]%list_find_Some_lookup.
  destruct Hok as [_ Hq]; [by intros Hnil; rewrite Hnil in Hi|].
  pose proof (mp_abs_lookup ss st i r Habs Hi) as Hp.
  rewrite /mp_abs medipath_script_run mp_statuses_whole_run /=.
  rewrite record_sale_closed /record_sale_spec.
  rewrite mp_table_step_sales Hfind Hclick /=.
  destruct (frame_empty _) eqn:Hemp.
  { apply frame_empty_true in Hemp. by rewrite Hemp in Hi. }
  case_bool_decide as Hstock.
  - rewrite decide_True // (RecordSale_Done _ _ _ _ _ Hp) /=; [|lia].
    split; [done|]. rewrite Habs.
    symmetry. apply list_fmap_alter, Forall_true. intros r'. apply mp_product_sell.
  - rewrite decide_False //.
    destruct (RecordSale _ _ _ _) as [[st' sale]|e] eqn:Hrs.
    + exfalso. revert Hrs. rewrite /RecordSale /AdjustStock /GetProduct Hp /=.
      repeat case_decide; try done; simpl in *; lia.
    + apply RecordSale_Failed in Hrs. rewrite decide_False in Hrs; [|lia].
      rewrite Hp in Hrs. by destruct Hrs as [_ ->].
Qed.

(** The rows Expiry Alerts shows are the products [NearExpiry] selects
    from the catalog with a horizon of thirty days, in the same order. *)
Theorem expiry_alerts_near_expiry (today : date) products rows :
  mp_dataframe rows
    ∈ emitted (expiry_alerts today {| mp_products := Some products |}) →
  mp_product <$> rows.*2 = NearExpiry (mp_product <$> products) today 30.
Proof.
  rewrite expiry_alerts_closed /expiry_alerts_spec /emitted /=.
  destruct (frame_empty products); [set_solver|].
  destruct (frame_empty _); [set_solver|].
  rewrite !elem_of_cons elem_of_nil. intros [?|[?|[[= ->]|[]]]]; [done..|].
  by rewrite mask_indexed_rows /NearExpiry filter_fmap.
Qed.

(** Add / Update Products never updates.  Whatever the form carries,
    the name of a row included, the table after a submission is the catalog
    of no [UpdateProduct] of the specification: an update keeps the number
    of products and the page adds a row. *)
Theorem save_product_never_updates (f : product_form P) ss st id
    (name : string) (price : P) (expiry : date) :
  pf_submitted f = true → mp_abs ss st →
  ¬ mp_abs (mp_step (Products_page f) ss)
      (ledger_op (Op_update id name price expiry) st).
Proof.
  rewrite /mp_abs. intros Hs Habs Habs'. apply (f_equal length) in Habs'.
  revert Habs'. rewrite ledger_op_update_length Habs mp_step_products Hs.
  rewrite {2}/mp_table /= /concat_row !length_fmap length_app /=. lia.
Qed.

(** The script keeps the promise [Sealed] for the requests the refinement
    allows. *)
#[export] Instance mp_sealed_named :
  Sealed (medipath_script (P:=P))
    (impl_ok (St:=mp_session P) (Req:=mp_request P)) mp_table.
Proof.
  by apply (sealed_and medipath_script mp_request_ok mp_table
              (λ _ req, mp_named req)).
Qed.

(** The products table of every session [src/medipath.py] reaches
    when Streamlit may stop its runs at the calls of [st.*], with a name on
    every submitted form, is the catalog of a store the ledger builds from
    calls of [AddProduct] and [RecordSale], and that store is consistent. *)
Theorem mp_stopped_refines_ledger ss :
  reach_until medipath_script (λ ss req, mp_request_ok ss req ∧ mp_named req)
    mp_start false ss →
  ∃ cs, catalog (ledger_run cs empty_store) = mp_product <$> mp_table ss
        ∧ store_ok (ledger_run cs empty_store).
Proof.
  intros Hreach.
  assert (∀ s s' st, mp_table s = mp_table s' → mp_abs s st → mp_abs s' st)
    as Hview by (intros s s' st Hview; rewrite /mp_abs; by rewrite Hview).
  destruct (stopped_refines (Refinement0:=mp_refinement) medipath_script
              mp_table (λ _ _, eq_refl) Hview ss Hreach) as (cs & Habs & Hok).
  by exists cs.
Qed.
End medipath_refinement.

(** ** The theorems at the scenario of the specification *)

#[local] Existing Instance refuses_zeros.

Lemma mp_refines_ledger_witness :
  let st := ledger_run (mp_trace_calls paracetamol_trace mp_start) empty_store in
  catalog st = mp_product <$> mp_table (mp_run paracetamol_trace mp_start)
  ∧ store_ok st.
Proof. apply (mp_refines_ledger _ _ paracetamol_runs). decide_by_compute. Defined.

Lemma mp_total_sales_ledger_witness :
  let r := {| Product_Name := "Paracetamol"; Stock := 15; Price := 5%Z;
              Expiry_Date := 739900%Z; Total_Sales := 5 |} in
  let st := ledger_run (mp_trace_calls paracetamol_trace mp_start) empty_store in
  Total_Sales r = sold_units 0 (ledger st) ∧ (0 ≤ Stock r)%Z.
Proof.
  apply (mp_total_sales_ledger paracetamol_trace _ 0 _ paracetamol_runs);
    [decide_by_compute|reflexivity].
Defined.

Lemma mp_sale_outcome_witness :
  let ss := {| mp_products := Some paracetamol_table |} in
  let st := {| catalog := mp_product <$> paracetamol_table; ledger := [] |} in
  match RecordSale 0 21 mp_sale_day st with
  | Done (st', _) =>
      mp_statuses (emitted (medipath_script (Sales_page (paracetamol_sale 21)) ss))
      = [(Success, Sale_recorded "Paracetamol")]
      ∧ mp_abs (mp_step (Sales_page (paracetamol_sale 21)) ss) st'
  | Failed e =>
      e = InsufficientStockError
      ∧ mp_statuses
          (emitted (medipath_script (Sales_page (paracetamol_sale 21)) ss))
        = [(Error, Not_enough_stock)]
      ∧ mp_table (mp_step (Sales_page (paracetamol_sale 21)) ss) = mp_table ss
  end.
Proof.
  apply (mp_sale_outcome (paracetamol_sale 21)
           {| mp_products := Some paracetamol_table |} _ 0
           (new_product_row paracetamol));
    [reflexivity|decide_by_compute|reflexivity|reflexivity].
Defined.

Lemma expiry_alerts_near_expiry_witness :
  mp_product <$> [(0, new_product_row paracetamol)].*2
  = NearExpiry (mp_product <$> paracetamol_table) 739870%Z 30.
Proof.
  apply (expiry_alerts_near_expiry 739870%Z paracetamol_table).
  vm_compute. do 2 right. left.
Defined.

Lemma mp_stopped_refines_ledger_witness :
  ∃ cs, catalog (ledger_run cs empty_store)
        = mp_product <$> mp_table (run_until medipath_script false
                                     paracetamol_stopped mp_start)
        ∧ store_ok (ledger_run cs empty_store).
Proof.
  apply mp_stopped_refines_ledger, reach_until_trace;
    [constructor|decide_by_compute].
Defined.

Lemma save_product_never_updates_witness :
  ¬ mp_abs (mp_step (Products_page paracetamol)
              {| mp_products := Some paracetamol_table |})
      (ledger_op (Op_update 0 "Paracetamol" 6%Z 739900%Z)
         {| catalog := mp_product <$> paracetamol_table; ledger := [] |}).
Proof.
  apply (save_product_never_updates paracetamol
           {| mp_products := Some paracetamol_table |}); reflexivity.
Defined.
