(* ===== verification/LedgerMedico.v ===== *)
(** * LedgerMedico: [src/medico.py] against the ledger

    [src/medico.py] identifies a product by its name and keeps no counter:
    a row of [products] is a product of the ledger whose counter is the sum
    of the quantities sold under its name, and a row of [sales] is a sale
    that refers to the first row with its name.  A submitted product form
    stands for [AddProduct], a submitted sale form for [RecordSale] on the
    id of the first row with the selected name.

    [md_refinement] is the instance of [Refinement]: a run commutes with
    its calls when the name of a submitted product form is not empty and
    not in the table yet.  With a name entered twice the run of Add Sale
    decrements two rows, which no call of the ledger does.  From the
    instance: the two tables of a reachable session are the consistent store
    the ledger builds from the calls ([md_refines_ledger]); the element Add
    Sale shows tells the reply of [RecordSale] ([md_sale_outcome]); the
    dashboard shows [TotalsSummary] and [DailyRevenue]
    ([md_dashboard_report]); Stock & Expiry shows [NearExpiry] and
    [LowStock] ([stock_expiry_ledger_alerts]).  With [md_sealed] the tables
    stand for a consistent store also when Streamlit stops runs at the calls
    of [st.*] ([md_stopped_refines_ledger]). *)

From stdpp Require Import sorting.
From S2P Require Import Prelude Amount Frame Script Rerun Medico.
From S2P Require Import RerunMedico Ledger LedgerRerun.

Section medico_refinement.
Context `{AmountLaws P} `{!AmountOrder P}.
Implicit Types (ss : md_session P) (st : store P) (r : MedicineRow P)
  (s : SaleRow P) (products : list (MedicineRow P)) (sales : list (SaleRow P))
  (req : md_request P) (reqs : list (md_request P)) (i j : nat) (q : Z)
  (medicine : string).

(** ** The correspondence *)

(** The id a name refers to: the position of the first row with the
    name. *)
Definition md_ref products medicine : nat :=
  match list_find (λ r, Medicine r = medicine) products with
  | Some (i, _) => i
  | None => length products
  end.

(** A row as a product: the counter is recomputed from the sales table. *)
Definition md_product sales r : Product P :=
  {| p_name := Medicine r; p_stock := Stock r; p_price := Price r;
     p_expiryDate := Expiry_Date r;
     p_cumulativeSales := units_sold (Medicine r) sales |}.

(** A sale row as a sale. *)
Definition md_sale products s : Sale P :=
  {| s_productRef := md_ref products (Sale_Medicine s);
     s_quantity := Quantity s; s_totalPrice := Total_Price s;
     s_date := Date s |}.

(** The store two tables stand for. *)
Definition md_store_of products sales : store P :=
  {| catalog := md_product sales <$> products;
     ledger := md_sale products <$> sales |}.

Definition md_store ss : store P := md_store_of (md_table ss) (md_ledger ss).

(** The session stands for the store; names are unique and every sale is
    consistent with the products table. *)
Definition md_abs ss st : Prop :=
  st = md_store ss
  ∧ NoDup (Medicine <$> md_table ss)
  ∧ Forall (sale_consistent (md_table ss)) (md_ledger ss).

(** The calls a run stands for. *)
Definition md_calls req ss : list (call P) :=
  match req with
  | Md_add_product f =>
      if af_submit f
      then [Call_AddProduct (af_medicine f) (af_stock f) (af_price f)
              (af_expiry f)]
      else []
  | Md_add_sale f =>
      if sl_submit f then
        match list_find (λ r, Medicine r = sl_medicine f) (md_table ss) with
        | Some (i, _) => [Call_RecordSale i (sl_quantity f) (sl_sale_date f)]
        | None => []
        end
      else []
  | _ => []
  end.

(** The calls of a sequence of runs. *)
Fixpoint md_trace_calls reqs ss : list (call P) :=
  match reqs with
  | [] => []
  | req :: reqs => md_calls req ss ++ md_trace_calls reqs (md_step req ss)
  end.

(** A submitted product form carries a name the table does not have yet:
    the text input requires neither. *)
Definition md_fresh ss req : Prop :=
  match req with
  | Md_add_product f =>
      if af_submit f
      then af_medicine f ≠ "" ∧ af_medicine f ∉ Medicine <$> md_table ss
      else True
  | _ => True
  end.

#[export] Instance md_fresh_dec ss req : Decision (md_fresh ss req).
Proof.
  destruct req as [|f| |]; simpl; try apply _. destruct (af_submit f); apply _.
Defined.

#[export] Instance md_impl : Impl (md_session P) (md_request P) := {|
  impl_start := md_start;
  impl_step := md_step;
  impl_ok ss req := md_request_ok ss req ∧ md_fresh ss req;
|}.

(** ** Ids of names *)

Lemma md_ref_find products medicine i r :
  list_find (λ r, Medicine r = medicine) products = Some (i, r) →
  md_ref products medicine = i.
Proof. rewrite /md_ref. by intros ->. Qed.

Lemma md_ref_sold_from (m : string) q products medicine :
  md_ref (sold_from m q products) medicine = md_ref products medicine.
Proof.
  rewrite /md_ref list_find_sold_from length_sold_from.
  by destruct (list_find _ products) as [[??]|].
Qed.

Lemma md_sale_add products r s :
  sale_consistent products s →
  md_sale (concat_row products r) s = md_sale products s.
Proof.
  intros [_ Hs]. rewrite /md_sale /md_ref /concat_row.
  destruct (list_find _ products) as [[i r']|] eqn:Hfind; [|done].
  by erewrite list_find_app_l.
Qed.

(** With unique names, only the first row with a name carries it. *)
Lemma md_find_unique products medicine i r j r' :
  NoDup (Medicine <$> products) →
  list_find (λ r, Medicine r = medicine) products = Some (i, r) →
  products !! j = Some r' → Medicine r' = medicine → j = i.
Proof.
  intros Hnd [Hi Hname]%list_find_Some_lookup Hj Hname'.
  eapply (NoDup_lookup (Medicine <$> products)); [done|..].
  - by rewrite list_lookup_fmap Hj /= Hname'.
  - by rewrite list_lookup_fmap Hi /= Hname.
Qed.

(** ** The store after a run *)

Lemma md_store_add (f : md_product_form P) products sales :
  Forall (sale_consistent products) sales →
  af_medicine f ∉ Medicine <$> products →
  md_store_of (concat_row products (md_new_product f)) sales
  = {| catalog := catalog (md_store_of products sales) ++
         [{| p_name := af_medicine f; p_stock := af_stock f;
             p_price := af_price f; p_expiryDate := af_expiry f;
             p_cumulativeSales := 0 |}];
       ledger := ledger (md_store_of products sales) |}.
Proof.
  intros Hcons Hnew. rewrite /md_store_of /=. f_equal.
  - rewrite /concat_row fmap_app /= /md_product /=.
    by rewrite (units_sold_unknown _ products).
  - apply Forall_fmap_ext_1. eapply Forall_impl; [done|].
    intros s. apply md_sale_add.
Qed.

Lemma md_store_sale (f : md_sale_form) products sales i product :
  NoDup (Medicine <$> products) →
  list_find (λ r, Medicine r = sl_medicine f) products = Some (i, product) →
  md_store_of (sold_from (sl_medicine f) (sl_quantity f) products)
    (concat_row sales
       (md_new_sale (sl_medicine f) (sl_quantity f) (sl_sale_date f) product))
  = {| catalog := alter (count_sale (sl_quantity f) ∘ adjust (- sl_quantity f))
                    i (catalog (md_store_of products sales));
       ledger := ledger (md_store_of products sales) ++
         [{| s_productRef := i; s_quantity := sl_quantity f;
             s_totalPrice := int_times (sl_quantity f) (Price product);
             s_date := sl_sale_date f |}] |}.
Proof.
  intros Hnd Hfind. rewrite /md_store_of /=. f_equal.
  - apply list_eq. intros j.
    rewrite /sold_from /loc_update list_lookup_alter !list_lookup_fmap.
    destruct (decide (i = j)) as [<-|Hij].
    + pose proof Hfind as [Hi Hname]%list_find_Some_lookup.
      rewrite Hi /= decide_True // /md_product units_sold_concat_row /=.
      by rewrite decide_True // /count_sale /adjust /= Hname.
    + destruct (products !! j) as [r|] eqn:Hj; [|done]. simpl.
      destruct (decide (Medicine r = sl_medicine f)) as [Heq|Hne].
      { destruct Hij. symmetry. by eapply md_find_unique. }
      rewrite /md_product units_sold_concat_row /=.
      case_decide; [congruence|]. do 2 f_equal. lia.
  - rewrite /concat_row fmap_app /=. f_equal.
    + apply list_fmap_ext. intros _ s _. by rewrite /md_sale md_ref_sold_from.
    + by rewrite /md_sale md_ref_sold_from /= (md_ref_find _ _ i product).
Qed.

(** The names of the table after a run. *)
Lemma md_step_names req ss :
  Medicine <$> md_table (md_step req ss)
  = (Medicine <$> md_table ss) ++ (af_medicine <$> md_submitted [req]).
Proof.
  destruct req as [|f|f|today]; rewrite /md_submitted /=.
  - by rewrite md_step_dashboard app_nil_r.
  - rewrite md_step_add_product /=.
    destruct (af_submit f); rewrite /= ?app_nil_r //.
    by rewrite /concat_row fmap_app.
  - rewrite md_step_add_sale_tables app_nil_r.
    destruct (sale_accepted _ _); [|done]. apply names_sold_from.
  - by rewrite md_step_stock_expiry app_nil_r.
Qed.

(** An allowed run with a fresh name commutes with its calls. *)
Lemma md_step_store req ss :
  md_request_ok ss req → md_fresh ss req →
  NoDup (Medicine <$> md_table ss) →
  Forall (sale_consistent (md_table ss)) (md_ledger ss) →
  md_store (md_step req ss) = ledger_run (md_calls req ss) (md_store ss).
Proof.
  intros Hok Hfresh Hnd Hcons. destruct req as [|f|f|today]; simpl.
  - by rewrite md_step_dashboard.
  - rewrite md_step_add_product /=. simpl in Hfresh.
    destruct (af_submit f); [|done]. destruct Hok as [? Hprice].
    destruct Hfresh as [??].
    rewrite /= ledger_step_AddProduct decide_True.
    + by rewrite /md_store /= md_store_add.
    + split_and!; [done|lia|by eapply (amount_le_zero_of_int 1)].
  - rewrite md_step_add_sale_tables /sale_accepted.
    destruct (list_find _ _) as [[i product]|] eqn:Hfind;
      [|by destruct (sl_submit f)].
    destruct (sl_submit f); [|done].
    pose proof Hfind as [Hi _]%list_find_Some_lookup.
    destruct Hok as [_ Hq]; [by intros Hnil; rewrite Hnil in Hi|].
    rewrite /= ledger_step_RecordSale /= list_lookup_fmap Hi /=.
    case_bool_decide.
    + rewrite decide_True; [|lia].
      by rewrite /md_store /= (md_store_sale f _ _ i product).
    + rewrite decide_False //. lia.
  - by rewrite md_step_stock_expiry.
Qed.

Lemma md_step_abs req ss st :
  md_request_ok ss req → md_fresh ss req → md_abs ss st →
  md_abs (md_step req ss) (ledger_run (md_calls req ss) st).
Proof.
  intros Hok Hfresh (-> & Hnd & Hcons). split_and!.
  - by rewrite md_step_store.
  - rewrite md_step_names. destruct req as [|f| |]; rewrite /md_submitted /=;
      rewrite ?app_nil_r //. simpl in Hfresh.
    destruct (af_submit f); rewrite /= ?app_nil_r //.
    apply NoDup_app. split_and!; [done| |apply NoDup_singleton].
    intros x Hx ->%list_elem_of_singleton. by destruct Hfresh.
  - by apply md_step_sales_consistent.
Qed.

#[export] Instance md_refinement :
  Refinement (P:=P) (md_session P) (md_request P) := {|
  impl_calls := md_calls;
  impl_abs := md_abs;
  impl_start_abs := conj eq_refl (conj (NoDup_nil_2 (A:=string)) (Forall_nil_2 _));
  impl_step_abs req ss st Hok Habs _ :=
    md_step_abs req ss st (proj1 Hok) (proj2 Hok) Habs;
|}.

(** ** Sequences of runs *)

Lemma md_trace_calls_app reqs1 reqs2 ss :
  md_trace_calls (reqs1 ++ reqs2) ss
  = md_trace_calls reqs1 ss ++ md_trace_calls reqs2 (md_run reqs1 ss).
Proof.
  revert ss. induction reqs1 as [|req reqs1 IH]; intros ss; [done|].
  by rewrite /= IH (assoc (++)).
Qed.

(** The names of a reachable table are the names submitted, in order. *)
Lemma md_runs_names reqs ss :
  md_runs reqs ss → Medicine <$> md_table ss = af_medicine <$> md_submitted reqs.
Proof.
  induction 1 as [|reqs ss req _ IH _]; [done|].
  rewrite md_step_names IH /md_submitted omap_app fmap_app //.
Qed.

(** The sessions the script reaches with distinct, non-empty names are
    states the implementation reaches. *)
Lemma md_runs_reach reqs ss :
  md_runs reqs ss →
  NoDup (af_medicine <$> md_submitted reqs) →
  Forall (λ f, af_medicine f ≠ "") (md_submitted reqs) →
  impl_reach (md_trace_calls reqs md_start) ss.
Proof.
  induction 1 as [|reqs ss req Hruns IH Hreq]; [constructor|].
  rewrite md_submitted_snoc fmap_app. intros [Hnd [Hnew _]]%NoDup_app
    [Hne Hlast]%Forall_app.
  rewrite md_trace_calls_app /= app_nil_r.
  destruct (md_runs_trace _ _ Hruns) as [_ Hss]. rewrite -Hss.
  refine (impl_reach_step _ ss req (IH Hnd Hne) (conj Hreq _)).
  destruct req as [|f| |]; simpl; try done.
  destruct (af_submit f); [|done]. apply Forall_inv in Hlast.
  split; [done|]. rewrite (md_runs_names _ _ Hruns). intros Hin.
  apply (Hnew _ Hin). set_solver.
Qed.

(** ** Properties *)

(** C14: The two tables of every session [src/medico.py] reaches, when every
    submitted product form carries a different, non-empty name, are the
    store the ledger builds from the calls of the runs, and that store is
    consistent: no stock is negative, the sales of every product add up to
    what left its stock, and every sale refers to a product. *)
Theorem md_refines_ledger reqs ss :
  md_runs reqs ss →
  NoDup (af_medicine <$> md_submitted reqs) →
  Forall (λ f, af_medicine f ≠ "") (md_submitted reqs) →
  md_store ss = ledger_run (md_trace_calls reqs md_start) empty_store
  ∧ store_ok (md_store ss).
Proof.
  intros Hruns Hnd Hne.
  destruct (refinement_reach _ ss (md_runs_reach _ _ Hruns Hnd Hne))
    as [[Hst _] Hok].
  by rewrite -Hst.
Qed.

(** On a submitted sale of a name of the table, with unique names, Add
    Sale shows success exactly when [RecordSale] on the row with the name
    succeeds, and then the session stands for the new store and the sale
    row for the sale returned; it shows Not enough stock exactly when
    [RecordSale] fails, the error is InsufficientStockError and both tables
    stay as they were. *)
Theorem md_sale_outcome (f : md_sale_form) ss i product :
  NoDup (Medicine <$> md_table ss) →
  md_sale_form_ok (md_table ss) f → sl_submit f = true →
  list_find (λ r, Medicine r = sl_medicine f) (md_table ss) = Some (i, product) →
  match RecordSale i (sl_quantity f) (sl_sale_date f) (md_store ss) with
  | Done (st', sale) =>
      md_statuses (emitted (medico_script (Md_add_sale f) ss))
      = [(Success, md_Sale_recorded)]
      ∧ md_store (md_step (Md_add_sale f) ss) = st'
      ∧ last (ledger st') = Some sale
  | Failed e =>
      e = InsufficientStockError
      ∧ md_statuses (emitted (medico_script (Md_add_sale f) ss))
        = [(Error, md_Not_enough_stock)]
      ∧ md_step (Md_add_sale f) ss
        = md_session_of (md_table ss) (md_ledger ss)
  end.
Proof.
  intros Hnd Hok Hsub Hfind.
  pose proof Hfind as [Hi _]%list_find_Some_lookup.
  destruct Hok as [_ Hq]; [by intros Hnil; rewrite Hnil in Hi|].
  assert (catalog (md_store ss) !! i = Some (md_product (md_ledger ss) product))
    as Hp by by rewrite /= list_lookup_fmap Hi.
  rewrite medico_script_run md_statuses_whole_run /= add_sale_closed /add_sale_spec.
  rewrite md_step_add_sale_tables /sale_accepted Hfind Hsub /=.
  destruct (frame_empty _) eqn:Hemp.
  { apply frame_empty_true in Hemp. by rewrite Hemp in Hi. }
  case_bool_decide as Hstock.
  - rewrite decide_False; [|lia].
    rewrite (RecordSale_Done _ _ _ _ _ Hp) /=; [|lia].
    by rewrite /md_store /= (md_store_sale f _ _ i product) // last_snoc.
  - rewrite decide_True; [|lia].
    destruct (RecordSale _ _ _ _) as [[st' sale]|e] eqn:Hrs.
    + exfalso. revert Hrs. rewrite /RecordSale /AdjustStock /GetProduct Hp /=.
      repeat case_decide; try done; simpl in *; lia.
    + apply RecordSale_Failed in Hrs. rewrite decide_False in Hrs; [|lia].
      rewrite Hp in Hrs. by destruct Hrs as [_ ->].
Qed.

(** C39: The dashboard shows [TotalsSummary] of the store the tables stand
    for, and plots [DailyRevenue] of its ledger: one point per date,
    ascending, each the sum of the totals of that date. *)
Theorem md_dashboard_report products sales :
  let st := md_store_of products sales in
  emitted (md_dashboard (md_session_of products sales))
  = [md_text Subheader md_Sales_and_Stock_Dashboard; md_columns 3;
     md_in (Column 0) (md_metric_total_sales (TotalsSummary st).1.1);
     md_in (Column 1) (md_metric_items_sold (TotalsSummary st).1.2);
     md_in (Column 2) (md_metric_products (TotalsSummary st).2);
     md_divider;
     if frame_empty sales then md_status Info md_No_sales_data
     else md_plot (DailyRevenue (ledger st))].
Proof.
  rewrite md_dashboard_closed /emitted /TotalsSummary /DailyRevenue /sale_dates /=.
  rewrite !column_sum_fmap length_fmap -list_fmap_compose.
  do 7 f_equal. destruct (frame_empty sales); [done|]. f_equal.
  rewrite groupby_sum_reference. apply list_fmap_ext. intros _ d _.
  by rewrite filter_fmap column_sum_fmap.
Qed.

(** The two alert tables of Stock & Expiry are [NearExpiry] with a
    horizon of thirty days and [LowStock] with a threshold of ten on the
    catalog the products table stands for. *)
Theorem stock_expiry_ledger_alerts (today : date) products sales :
  products ≠ [] →
  ∃ near_expiry low_stock,
    emitted (stock_expiry today (md_session_of products sales))
    = [md_text Subheader md_Stock_and_Expiry_Monitoring;
       md_dataframe (indexed products); md_divider; md_columns 2;
       md_in (Column 0) (md_status Warning md_Near_expiry);
       md_in (Column 0) (md_dataframe near_expiry);
       md_in (Column 1) (md_status Error md_Low_stock_alert);
       md_in (Column 1) (md_dataframe low_stock)]
    ∧ md_product sales <$> near_expiry.*2
      = NearExpiry (catalog (md_store_of products sales)) today 30
    ∧ md_product sales <$> low_stock.*2
      = LowStock (catalog (md_store_of products sales)) 10.
Proof.
  intros Hne%frame_empty_false.
  rewrite stock_expiry_closed /stock_expiry_spec Hne /emitted /=.
  eexists _, _. split; [done|].
  by rewrite !mask_indexed_rows /NearExpiry /LowStock !filter_fmap.
Qed.

(** The script keeps the promise [Sealed] for the requests the refinement
    allows. *)
#[export] Instance md_sealed_fresh :
  Sealed (medico_script (P:=P))
    (impl_ok (St:=md_session P) (Req:=md_request P)) md_tables.
Proof.
  apply (sealed_and medico_script md_request_ok md_tables md_fresh).
  intros [] ss1 ss2 [= Hp _]; simpl; by rewrite ?Hp.
Qed.

(** The two tables of every session [src/medico.py] reaches when
    Streamlit may stop its runs at the calls of [st.*], with a new and
    non-empty name on every submitted product form, stand for a store the
    ledger builds from calls of [AddProduct] and [RecordSale], and that
    store is consistent. *)
Theorem md_stopped_refines_ledger ss :
  reach_until medico_script (λ ss req, md_request_ok ss req ∧ md_fresh ss req)
    md_start false ss →
  ∃ cs, md_store ss = ledger_run cs empty_store ∧ store_ok (md_store ss).
Proof.
  intros Hreach.
  assert (∀ ss1 ss2 st,
            md_tables ss1 = md_tables ss2 → md_abs ss1 st → md_abs ss2 st)
    as Hview.
  { intros ss1 ss2 st [= Hp Hs]. by rewrite /md_abs /md_store Hp Hs. }
  destruct (stopped_refines (Refinement0:=md_refinement) medico_script
              md_tables (λ _ _, eq_refl) Hview ss Hreach)
    as (cs & [Hst _] & Hok).
  exists cs. by rewrite -Hst.
Qed.
End medico_refinement.

(** ** The theorems at the scenario of the specification *)

Lemma md_refines_ledger_witness :
  md_store md_paracetamol_session
  = ledger_run (md_trace_calls md_paracetamol_trace md_start) empty_store
  ∧ store_ok (md_store md_paracetamol_session).
Proof.
  apply (md_refines_ledger _ _ md_paracetamol_runs); decide_by_compute.
Defined.

Lemma md_stopped_refines_ledger_witness :
  let ss := run_until medico_script false md_paracetamol_stopped md_start in
  ∃ cs, md_store ss = ledger_run cs empty_store ∧ store_ok (md_store ss).
Proof.
  apply md_stopped_refines_ledger, reach_until_trace;
    [constructor|decide_by_compute].
Defined.

Lemma md_sale_outcome_witness :
  let f := md_paracetamol_sale 20 in
  let ss := md_paracetamol_session in
  match RecordSale 0 (sl_quantity f) (sl_sale_date f) (md_store ss) with
  | Done (st', sale) =>
      md_statuses (emitted (medico_script (Md_add_sale f) ss))
      = [(Success, md_Sale_recorded)]
      ∧ md_store (md_step (Md_add_sale f) ss) = st'
      ∧ last (ledger st') = Some sale
  | Failed e =>
      e = InsufficientStockError
      ∧ md_statuses (emitted (medico_script (Md_add_sale f) ss))
        = [(Error, md_Not_enough_stock)]
      ∧ md_step (Md_add_sale f) ss
        = md_session_of (md_table ss) (md_ledger ss)
  end.
Proof.
  apply (md_sale_outcome (md_paracetamol_sale 20) md_paracetamol_session 0
           {| Medicine := "Paracetamol"; Stock := 15; Price := 5%Z;
              Expiry_Date := 10%Z |});
    [decide_by_compute|decide_by_compute|reflexivity|reflexivity].
Defined.

Lemma stock_expiry_ledger_alerts_witness :
  let products := md_table md_paracetamol_session in
  let sales := md_ledger md_paracetamol_session in
  ∃ near_expiry low_stock,
    emitted (stock_expiry 0%Z (md_session_of products sales))
    = [md_text Subheader md_Stock_and_Expiry_Monitoring;
       md_dataframe (indexed products); md_divider; md_columns 2;
       md_in (Column 0) (md_status Warning md_Near_expiry);
       md_in (Column 0) (md_dataframe near_expiry);
       md_in (Column 1) (md_status Error md_Low_stock_alert);
       md_in (Column 1) (md_dataframe low_stock)]
    ∧ md_product sales <$> near_expiry.*2
      = NearExpiry (catalog (md_store_of products sales)) 0%Z 30
    ∧ md_product sales <$> low_stock.*2
      = LowStock (catalog (md_store_of products sales)) 10.
Proof.
  apply (stock_expiry_ledger_alerts 0%Z (md_table md_paracetamol_session)
           (md_ledger md_paracetamol_session)).
  done.
Defined.
