(* ===== verification/LedgerPoolMedipath.v ===== *)
(** * LedgerPoolMedipath: Record Sale of [src/medipath.py] as critical sections

    The handler of Record Sale (lines 117 to 126 of [src/medipath.py]) is
    an instance of [Linearizable]: run alone on a table that is the catalog
    of a store, it leaves the catalog of the store after [RecordSale] on the
    first row with the selected name, and it shows success, the error
    element or IndexError where the ledger replies with the sale,
    InsufficientStockError or NotFoundError ([mp_linearizable]).

    With the handlers run as critical sections, a pool of callers therefore
    is the ledger that is sent their sales in the order of the scheduler
    ([mp_atomic_linearizable]): what section 5 of the specification asks
    for.  Interleaved statement by statement it is not
    ([mp_concurrent_oversell] of [PoolMedipath]). *)

From S2P Require Import Prelude Amount Frame Script Rerun Pool Medipath.
From S2P Require Import PoolMedipath Ledger LedgerPool LedgerMedipath.

Section ledger_pool_medipath.
Context `{AmountLaws P, !PieChart}.
Implicit Types (t : mp_caller) (products : list (ProductRow P))
  (σ : store P) (f : sale_form) (i : nat) (r : ProductRow P).

(** The shared table is the catalog of the store. *)
Definition mp_pool_abs products σ : Prop :=
  catalog σ = mp_product <$> products.

(** A caller of the pool: it has ended, or it has clicked Record Sale with
    a quantity the number input allows and has not started. *)
Definition mp_pool_ready products t : Prop :=
  finished t
  ∨ (call_pc t = At_locate ∧ sf_record_sale (call_form t) = true
     ∧ (1 ≤ sf_quantity_sold (call_form t))%Z).

(** The id a name refers to: the position of the first row with the name,
    and no position of the table when no row has it. *)
Definition mp_ref products (name : string) : nat :=
  match list_find (λ r, Product_Name r = name) products with
  | Some (i, _) => i
  | None => length products
  end.

(** The call a caller that has not started stands for. *)
Definition mp_pool_call t products : option (call P) :=
  match call_pc t with
  | At_locate =>
      Some (Call_RecordSale (mp_ref products (sf_product (call_form t)))
              (sf_quantity_sold (call_form t)) mp_sale_day)
  | _ => None
  end.

(** How a caller ended. *)
Definition mp_pool_outcome t : option sale_outcome :=
  match call_pc t with At_end o => Some o | _ => None end.

(** Run alone, the handler is [RecordSale] on the first row with the
    name. *)
Lemma mp_alone_linearizable f products σ :
  sf_record_sale f = true → (1 ≤ sf_quantity_sold f)%Z →
  mp_pool_abs products σ →
  let c := Call_RecordSale (mp_ref products (sf_product f))
             (sf_quantity_sold f) mp_sale_day in
  mp_pool_abs (run_alone (mp_call f) products).2 (ledger_step c σ)
  ∧ outcome_error <$> mp_pool_outcome (run_alone (mp_call f) products).1
    = Some (reply_error (ledger_call c σ)).
Proof.
  intros Hclick Hq Habs c. subst c.
  rewrite reply_error_RecordSale // ledger_step_RecordSale.
  rewrite mp_run_alone_spec /mp_sale_alone_spec /mp_ref Habs list_lookup_fmap.
  destruct (list_find _ _) as [[i r]|] eqn:Hfind.
  - pose proof Hfind as [Hi _]%list_find_Some_lookup. rewrite Hi /=.
    case_decide as Hstock.
    + rewrite !decide_True /=; [|lia..]. split; [|done].
      rewrite /mp_pool_abs /=. symmetry.
      apply list_fmap_alter, Forall_true. intros r'. apply mp_product_sell.
    + rewrite !decide_False /=; [done|lia..].
  - by rewrite lookup_ge_None_2.
Qed.

Lemma mp_pool_call_None t products :
  mp_pool_ready products t → mp_pool_call t products = None → finished t.
Proof.
  intros [?|[Hpc _]] Hcall; [done|]. by rewrite /mp_pool_call Hpc in Hcall.
Qed.

Lemma mp_pool_alone t products c σ :
  mp_pool_ready products t → mp_pool_call t products = Some c →
  mp_pool_abs products σ → store_ok σ →
  mp_pool_abs (run_alone t products).2 (ledger_step c σ)
  ∧ outcome_error <$> mp_pool_outcome (run_alone t products).1
    = Some (reply_error (ledger_call c σ)).
Proof.
  destruct t as [f pc]. intros [Hfin|(Hpc & Hclick & Hq)] Hcall Habs _.
  { revert Hfin Hcall.
    rewrite /finished /handler_size /mp_bounded /mp_pool_call. by destruct pc. }
  simpl in *. revert Hcall. rewrite /mp_pool_call /= Hpc. intros [= <-].
  by apply mp_alone_linearizable.
Qed.

#[export] Instance mp_linearizable :
  Linearizable P mp_caller (list (ProductRow P)) := {|
  lin_abs := mp_pool_abs;
  lin_ready := mp_pool_ready;
  lin_call := mp_pool_call;
  lin_outcome := mp_pool_outcome;
  lin_ready_alone t t' products _ Ht' := Ht';
  lin_ready_ended t products _ := or_introl (run_alone_finished t products);
  lin_call_None := mp_pool_call_None;
  lin_alone := mp_pool_alone;
|}.

(** C24: a pool of callers of Record Sale whose handlers run as critical
    sections is the ledger of the specification that is sent their sales in
    the order of the scheduler: the shared table is the catalog of the
    store after those calls of [RecordSale], the store is consistent, and
    every caller is shown what the ledger replies to its call: success, Not
    enough stock for InsufficientStockError, IndexError for
    NotFoundError. *)
Theorem mp_atomic_linearizable sched
    (c : list mp_caller * list (ProductRow P)) σ :
  Forall (mp_pool_ready c.2) c.1 → mp_pool_abs c.2 σ → store_ok σ →
  let cs := atomic_calls sched c in
  mp_pool_abs (run_atomic sched c).2 (ledger_run cs σ)
  ∧ store_ok (ledger_run cs σ)
  ∧ fmap outcome_error <$> atomic_outcomes sched c
    = Some <$> ledger_replies cs σ.
Proof. exact (atomic_linearizable sched c σ). Qed.
End ledger_pool_medipath.

(** ** The theorem at the scenario of the specification *)

#[local] Existing Instance refuses_zeros.

(** The store whose catalog is the table with twenty units of
    Paracetamol. *)
Definition paracetamol_store : store Z :=
  {| catalog := mp_product <$> paracetamol_table; ledger := [] |}.

Lemma mp_atomic_linearizable_witness :
  let cs := atomic_calls [1; 0] oversell_pool in
  mp_pool_abs (run_atomic [1; 0] oversell_pool).2
    (ledger_run cs paracetamol_store)
  ∧ store_ok (ledger_run cs paracetamol_store)
  ∧ fmap outcome_error <$> atomic_outcomes [1; 0] oversell_pool
    = Some <$> ledger_replies cs paracetamol_store.
Proof.
  apply (mp_atomic_linearizable [1; 0] oversell_pool paracetamol_store);
    [|reflexivity|decide_by_compute].
  repeat (apply Forall_cons_2; [right; by vm_compute|]). apply Forall_nil_2.
Defined.

(** In that scenario the second caller is told InsufficientStockError. *)
Lemma mp_atomic_replies :
  ledger_replies (atomic_calls [1; 0] oversell_pool) paracetamol_store
  = [None; Some InsufficientStockError].
Proof. by vm_compute. Qed.
