(* ===== verification/LedgerPoolMedico.v ===== *)
(** * LedgerPoolMedico: Add Sale of [src/medico.py] as critical sections

    The handler of Add Sale (lines 104 to 132 of [src/medico.py]) is an
    instance of [Linearizable]: run alone on tables with unique names that
    stand for a store, it leaves the tables of the store after [RecordSale]
    on the row with the selected name, and it shows success, the error
    element or IndexError where the ledger replies with the sale,
    InsufficientStockError or NotFoundError ([md_linearizable]).

    With the handlers run as critical sections, a pool of callers therefore
    is the ledger that is sent their sales in the order of the scheduler
    ([md_atomic_linearizable]).  Interleaved statement by statement it is
    not ([md_concurrent_oversell] and [md_half_applied_sale] of
    [PoolMedico]). *)

From S2P Require Import Prelude Amount Frame Script Rerun Pool Medico.
From S2P Require Import PoolMedico Ledger LedgerPool LedgerMedico.

Section ledger_pool_medico.
Context `{AmountLaws P} `{!AmountOrder P}.
Implicit Types (t : md_caller P) (products : list (MedicineRow P))
  (sales : list (SaleRow P)) (st : list (MedicineRow P) * list (SaleRow P))
  (σ : store P) (f : md_sale_form) (i : nat) (r : MedicineRow P).

(** The shared tables stand for the store: names are unique and every sale
    row is consistent with the products table. *)
Definition md_pool_abs st σ : Prop := md_abs (md_session_of st.1 st.2) σ.

(** A caller of the pool: it has ended, or it has submitted the sale form
    with a quantity the number input allows and has not started. *)
Definition md_pool_ready st t : Prop :=
  finished t
  ∨ (md_call_pc t = Md_at_locate ∧ sl_submit (md_call_form t) = true
     ∧ (1 ≤ sl_quantity (md_call_form t))%Z).

(** The call a caller that has not started stands for. *)
Definition md_pool_call t st : option (call P) :=
  match md_call_pc t with
  | Md_at_locate =>
      Some (Call_RecordSale (md_ref st.1 (sl_medicine (md_call_form t)))
              (sl_quantity (md_call_form t)) (sl_sale_date (md_call_form t)))
  | _ => None
  end.

(** How a caller ended. *)
Definition md_pool_outcome t : option sale_outcome :=
  match md_call_pc t with Md_at_end o => Some o | _ => None end.

(** Run alone, the handler is [RecordSale] on the row with the name. *)
Lemma md_alone_linearizable f st σ :
  sl_submit f = true → (1 ≤ sl_quantity f)%Z → md_pool_abs st σ →
  let c := Call_RecordSale (md_ref st.1 (sl_medicine f)) (sl_quantity f)
             (sl_sale_date f) in
  md_pool_abs (run_alone (md_call f) st).2 (ledger_step c σ)
  ∧ outcome_error <$> md_pool_outcome (run_alone (md_call f) st).1
    = Some (reply_error (ledger_call c σ)).
Proof.
  intros Hsub Hq Habs c. subst c. rewrite reply_error_RecordSale //.
  rewrite /md_pool_abs md_alone_step //. destruct st as [products sales].
  pose proof Habs as (Hσ & _). cbn [fst snd] in *. subst σ.
  rewrite md_run_alone_spec /md_sale_alone_spec /md_ref /md_store /=.
  rewrite list_lookup_fmap.
  destruct (list_find _ _) as [[i r]|] eqn:Hfind.
  - pose proof Hfind as [Hi Hname]%list_find_Some_lookup. rewrite Hi /=.
    split.
    + apply (md_step_abs (Md_add_sale f)) in Habs; [|..|done].
      * by rewrite /= Hsub Hfind in Habs.
      * intros _. split; [|done]. apply list_elem_of_fmap. exists r.
        split; [done|by eapply list_elem_of_lookup_2].
    + case_decide; [rewrite decide_False|rewrite decide_True]; (done || lia).
  - rewrite lookup_ge_None_2 //. split; [|done].
    rewrite ledger_step_RecordSale /= list_lookup_fmap.
    rewrite lookup_ge_None_2 // md_step_add_sale_tables /sale_accepted /=.
    by rewrite Hfind.
Qed.

Lemma md_pool_call_None t st :
  md_pool_ready st t → md_pool_call t st = None → finished t.
Proof.
  intros [?|[Hpc _]] Hcall; [done|]. by rewrite /md_pool_call Hpc in Hcall.
Qed.

Lemma md_pool_alone t st c σ :
  md_pool_ready st t → md_pool_call t st = Some c →
  md_pool_abs st σ → store_ok σ →
  md_pool_abs (run_alone t st).2 (ledger_step c σ)
  ∧ outcome_error <$> md_pool_outcome (run_alone t st).1
    = Some (reply_error (ledger_call c σ)).
Proof.
  destruct t as [f pc]. intros [Hfin|(Hpc & Hsub & Hq)] Hcall Habs _.
  { revert Hfin Hcall.
    rewrite /finished /handler_size /md_bounded /md_pool_call. by destruct pc. }
  simpl in *. revert Hcall. rewrite /md_pool_call /= Hpc. intros [= <-].
  by apply md_alone_linearizable.
Qed.

#[export] Instance md_linearizable :
  Linearizable P (md_caller P) (list (MedicineRow P) * list (SaleRow P)) := {|
  lin_abs := md_pool_abs;
  lin_ready := md_pool_ready;
  lin_call := md_pool_call;
  lin_outcome := md_pool_outcome;
  lin_ready_alone t t' st _ Ht' := Ht';
  lin_ready_ended t st _ := or_introl (run_alone_finished t st);
  lin_call_None := md_pool_call_None;
  lin_alone := md_pool_alone;
|}.

(** C25: a pool of callers of Add Sale whose handlers run as critical
    sections, on tables with unique names, is the ledger of the
    specification that is sent their sales in the order of the scheduler:
    the two shared tables stand for the store after those calls of
    [RecordSale], the store is consistent, and every caller is shown what
    the ledger replies to its call. *)
Theorem md_atomic_linearizable sched
    (c : list (md_caller P) * (list (MedicineRow P) * list (SaleRow P))) σ :
  Forall (md_pool_ready c.2) c.1 → md_pool_abs c.2 σ → store_ok σ →
  let cs := atomic_calls sched c in
  md_pool_abs (run_atomic sched c).2 (ledger_run cs σ)
  ∧ store_ok (ledger_run cs σ)
  ∧ fmap outcome_error <$> atomic_outcomes sched c
    = Some <$> ledger_replies cs σ.
Proof. exact (atomic_linearizable sched c σ). Qed.
End ledger_pool_medico.

(** ** The theorem at the scenario of the specification *)

Lemma md_atomic_linearizable_witness :
  let c := ([md_call (md_paracetamol_sale 15); md_call (md_paracetamol_sale 15)],
            md_paracetamol_tables) in
  let σ := md_store_of md_paracetamol_tables.1 md_paracetamol_tables.2 in
  let cs := atomic_calls [1; 0] c in
  md_pool_abs (run_atomic [1; 0] c).2 (ledger_run cs σ)
  ∧ store_ok (ledger_run cs σ)
  ∧ fmap outcome_error <$> atomic_outcomes [1; 0] c
    = Some <$> ledger_replies cs σ.
Proof.
  apply (md_atomic_linearizable [1; 0]
           ([md_call (md_paracetamol_sale 15); md_call (md_paracetamol_sale 15)],
            md_paracetamol_tables));
    [|split_and!; [reflexivity|decide_by_compute|by constructor]
     |decide_by_compute].
  repeat (apply Forall_cons_2; [right; by vm_compute|]). apply Forall_nil_2.
Defined.
