(* ===== verification/FloatPrices.v ===== *)
(** * FloatPrices: the scripts with the prices the sources have

    [st.number_input(..., min_value=1.0)] returns a Python float, so Price
    and Total Price are binary64 numbers.  This file gives the instance of
    [Amount] on the primitive floats and runs [src/medico.py] on it.  Every
    theorem of [Medico] that does not assume [AmountLaws] holds for this
    instance.  [AmountLaws] itself fails ([float_no_laws]), and what it
    carries fails with it: the total the dashboard shows depends on the order
    in which the sales were entered ([md_float_total_order]).

    [column_sum] adds the rows from first to last, starting from zero; that
    is the order in which [Series.sum()] adds a column of a few rows.  An
    integer quantity is converted as Python converts it, for quantities
    below 2^63 in absolute value. *)

From Stdlib Require Import Floats.
From S2P Require Import Prelude Amount Frame Script Medico.

#[local] Set Warnings "-inexact-float".

(** [float(z)] for an integer with less than 64 bits. *)
Definition float_of_int (z : Z) : float :=
  if (z <? 0)%Z then PrimFloat.opp (PrimFloat.of_uint63 (Uint63.of_Z (- z)))
  else PrimFloat.of_uint63 (Uint63.of_Z z).

#[export] Instance spec_float_eq_dec : EqDecision spec_float.
Proof. solve_decision. Defined.

#[export] Instance float_eq_dec : EqDecision float.
Proof.
  intros x y. destruct (decide (Prim2SF x = Prim2SF y)) as [Heq|Hne].
  - left. by apply Prim2SF_inj.
  - right. by intros ->.
Defined.

#[export] Instance float_amount : Amount float := {
  amount_zero := 0%float;
  amount_add := PrimFloat.add;
  amount_mul := PrimFloat.mul;
  amount_of_int := float_of_int;
  amount_le x y := PrimFloat.leb x y = true;
  amount_le_dec x y := decide (PrimFloat.leb x y = true);
}.

(** ** Three products and three sales *)

Definition float_product (medicine : string) (price : float)
    : md_request float :=
  Md_add_product {| af_medicine := medicine; af_stock := 5; af_price := price;
                    af_expiry := 0%Z; af_submit := true |}.

Definition float_sale (medicine : string) (sale_date : date) : md_request float :=
  Md_add_sale {| sl_medicine := medicine; sl_quantity := 1;
                 sl_sale_date := sale_date; sl_submit := true |}.

Definition float_products : list (md_request float) :=
  [float_product "A" 1.0%float; float_product "B" 1.2%float;
   float_product "C" 1.1%float].

(** The same three sales, in two orders. *)
Definition float_trace1 : list (md_request float) :=
  float_products ++ [float_sale "A" 2%Z; float_sale "B" 1%Z; float_sale "C" 2%Z].

Definition float_trace2 : list (md_request float) :=
  float_products ++ [float_sale "C" 2%Z; float_sale "B" 1%Z; float_sale "A" 2%Z].

(** ** Theorems *)

(** Two floats are different when IEEE equality tells them apart. *)
Lemma float_neq (x y : float) :
  PrimFloat.eqb x x = true → PrimFloat.eqb x y = false → x ≠ y.
Proof. intros Hx Hxy <-. by rewrite Hx in Hxy. Qed.

(** Addition of floats is not associative. *)
Lemma float_add_not_assoc :
  amount_add (amount_add 1.0%float 1.2%float) 1.1%float
  ≠ amount_add 1.0%float (amount_add 1.2%float 1.1%float).
Proof. by apply float_neq; vm_compute. Qed.

(** The laws of exact arithmetic do not hold for floats. *)
Lemma float_no_laws : ¬ AmountLaws float.
Proof.
  intros Hlaws. apply float_add_not_assoc. symmetry. apply (assoc amount_add).
Qed.

Lemma float_trace1_runs : md_runs float_trace1 (md_run float_trace1 md_start).
Proof. apply md_runs_of_trace. decide_by_compute. Qed.

Lemma float_trace2_runs : md_runs float_trace2 (md_run float_trace2 md_start).
Proof. apply md_runs_of_trace. decide_by_compute. Qed.

(** C40: With binary64 prices the Total Sales metric of the dashboard depends
    on the order in which the sales were entered: two reachable sessions
    with the same products table and the same sale rows, in different
    order, show different totals. *)
Theorem md_float_total_order :
  ∃ ss1 ss2 : md_session float,
    md_runs float_trace1 ss1 ∧ md_runs float_trace2 ss2
    ∧ md_table ss1 = md_table ss2
    ∧ md_ledger ss1 ≡ₚ md_ledger ss2
    ∧ column_sum Total_Price (md_ledger ss1)
      ≠ column_sum Total_Price (md_ledger ss2).
Proof.
  exists (md_run float_trace1 md_start), (md_run float_trace2 md_start).
  split_and!; [apply float_trace1_runs|apply float_trace2_runs| | |].
  - by vm_compute.
  - vm_compute. etrans; [apply perm_swap|]. etrans; [|apply perm_swap].
    apply perm_skip, perm_swap.
  - by apply float_neq; vm_compute.
Qed.
